(** * ALMReady: curve construction, interpolation and scenario shocks

    A shallow embedding of the curve engine of the ALMReady backend
    ([engine/core/daycount.py], [engine/core/curves.py],
    [engine/services/market.py], [engine/scenarios/shocks.py],
    [engine/scenarios/apply.py]) together with the properties that its
    specification states about it.  The embedding goes on to the functions
    around the engine -- [normalize_daycount_base], [add_tenor] of
    [engine/core/tenors.py], the queries of a curve set in
    [engine/services/market.py] and [enrich_with_dates] of
    [engine/io/curves_forward_reader.py] -- and to further properties of
    the code (X1 to X30).

    Conventions of the embedding.
    - A Python [float] is an exact real number ([R]); rounding, infinities
      and NaN are not modelled, except that a table cell may be null
      ([None] of an [option R]).  The range of a double is modelled where
      it decides whether a query answers: in [PyMath], [math.exp]
      overflows and underflows to [0.0] and [math.log] has its domain, and
      [FloatRange] translates the queries of a curve with them.
    - A Python [int] is an integer ([Z]); [//] and [%] by a positive
      constant are [Z.div] and [Z.modulo].
    - A Python [str] is a [string] of 8-bit characters; the whitespace and
      case functions are those of the ASCII range.
    - An exception is a value of [exn], one constructor per [raise] site;
      a function that may raise returns a [result].
    - Objects that are shared by reference (data frames, curves, curve
      sets) live in a [heap]; code that allocates or updates them runs in
      the state-and-exception monad [M].
    - The functions around the engine return an [outcome], whose errors
      are those of [error]; a query of a curve set reads the heap and
      changes nothing ([Q]). *)

From Stdlib Require Import ZArith Reals Lra Lia List String Ascii Bool Sorted Permutation.
From stdpp Require Import gmap strings.

Local Open Scope Z_scope.

(** * Python values: exceptions, results, strings *)

Module Py.

(** The exceptions of the engine.  The code raises [ValueError] and
    [KeyError] with a message; the constructors name the raise sites after
    the error kinds of the specification and keep the data the message
    carries. *)
Inductive exn : Type :=
| InvalidDateOrder                      (* ValueError("d1 must be >= d0") *)
| UnsupportedBase (base : string)       (* ValueError("Unsupported daycount base: ...") *)
| DateOutOfRange                        (* ValueError of datetime.date(y, m, d) *)
| EmptyCurve (index_name : string)      (* ValueError("Curve '...' has no points.") *)
| NonIncreasingCurve (index_name : string)
                                        (* ValueError("... non-strictly-increasing YearFrac ...") *)
| InvalidCurveTable (missing : list string)
                                        (* ValueError("... missing required columns: ...") *)
| NoPointsFor (index_name : string)     (* ValueError("No points found for IndexName=...") *)
| NullYearFrac (index_name : string)    (* ValueError("Curve '...' has null YearFrac.") *)
| NullFwdRate (index_name : string)     (* ValueError("Curve '...' has null FwdRate.") *)
| EmptyShockTarget                      (* ValueError("apply_to was specified but contains no valid indices.") *)
| UnknownIndex (unknown available : list string)
                                        (* ValueError("Indices not found in base_set: ... Available: ...") *)
| DuplicateScenario (name : string)     (* ValueError("Duplicate scenario name: ...") *)
| IndexError                            (* list index out of range *)
| TypeError.                            (* an object of another class than expected *)

Inductive result (A : Type) : Type :=
| Ok (a : A)
| Raise (e : exn).
Arguments Ok {A} a.
Arguments Raise {A} e.

Definition rbind {A B : Type} (r : result A) (k : A -> result B) : result B :=
  match r with
  | Ok a => k a
  | Raise e => Raise e
  end.

(** [str.isspace] on the ASCII range: TAB, LF, VT, FF, CR, FS, GS, RS, US
    and the space. *)
Definition isspace (c : ascii) : bool :=
  let n := nat_of_ascii c in
  ((9 <=? n)%nat && (n <=? 13)%nat) || ((28 <=? n)%nat && (n <=? 32)%nat).

Fixpoint lstrip (s : string) : string :=
  match s with
  | EmptyString => EmptyString
  | String c s' => if isspace c then lstrip s' else s
  end.

Fixpoint rstrip (s : string) : string :=
  match s with
  | EmptyString => EmptyString
  | String c s' =>
      let r := rstrip s' in
      if isspace c && String.eqb r EmptyString then EmptyString else String c r
  end.

(** [s.strip()] *)
Definition strip (s : string) : string := rstrip (lstrip s).

Definition upper_char (c : ascii) : ascii :=
  let n := nat_of_ascii c in
  if ((97 <=? n)%nat && (n <=? 122)%nat) then ascii_of_nat (n - 32) else c.

(** [s.upper()] *)
Fixpoint upper (s : string) : string :=
  match s with
  | EmptyString => EmptyString
  | String c s' => String (upper_char c) (upper s')
  end.

(** [sorted(xs)] on strings: a stable insertion sort by code-point order. *)
Fixpoint insert_str (x : string) (l : list string) : list string :=
  match l with
  | [] => [x]
  | y :: l' => if String.leb x y then x :: l else y :: insert_str x l'
  end.

Fixpoint sorted (l : list string) : list string :=
  match l with
  | [] => []
  | x :: l' => insert_str x (sorted l')
  end.

(** [Series.unique().tolist()]: the distinct values in order of first
    appearance. *)
Fixpoint unique (l : list string) : list string :=
  match l with
  | [] => []
  | x :: l' => x :: List.filter (fun y => negb (String.eqb x y)) (unique l')
  end.

(** [xs[i]] with Python's negative indices. *)
Definition index {A : Type} (xs : list A) (i : Z) : result A :=
  let n := Z.of_nat (length xs) in
  let j := if i <? 0 then i + n else i in
  if (j <? 0) || (n <=? j) then Raise IndexError
  else match nth_error xs (Z.to_nat j) with
       | Some x => Ok x
       | None => Raise IndexError
       end.

End Py.
Export Py.

Declare Scope result_scope.
Delimit Scope result_scope with result.
Notation "x <- r ;; k" := (rbind r (fun x => k))
  (at level 100, r at next level, right associativity) : result_scope.

(** * [datetime.date] *)

Module Datetime.

Record date : Type := mkdate { year : Z; month : Z; day : Z }.

Definition MINYEAR : Z := 1.
Definition MAXYEAR : Z := 9999.

Definition _is_leap (year : Z) : bool :=
  (year mod 4 =? 0) && (negb (year mod 100 =? 0) || (year mod 400 =? 0)).

Definition _days_in_month (year month : Z) : Z :=
  if month =? 2 then (if _is_leap year then 29 else 28)
  else if (month =? 4) || (month =? 6) || (month =? 9) || (month =? 11) then 30
  else 31.

(** The invariant of every [date] object. *)
Definition valid_date (d : date) : bool :=
  (MINYEAR <=? year d) && (year d <=? MAXYEAR) &&
  (1 <=? month d) && (month d <=? 12) &&
  (1 <=? day d) && (day d <=? _days_in_month (year d) (month d)).

(** [date(y, m, d)] *)
Definition date_new (y m d : Z) : result date :=
  if valid_date (mkdate y m d) then Ok (mkdate y m d) else Raise DateOutOfRange.

Definition _days_before_year (year : Z) : Z :=
  let y := year - 1 in
  y * 365 + y / 4 - y / 100 + y / 400.

Definition _days_before_month (year month : Z) : Z :=
  nth (Z.to_nat month) [0; 0; 31; 59; 90; 120; 151; 181; 212; 243; 273; 304; 334] 0
  + (if (2 <? month) && _is_leap year then 1 else 0).

Definition _ymd2ord (year month day : Z) : Z :=
  _days_before_year year + _days_before_month year month + day.

Definition toordinal (d : date) : Z := _ymd2ord (year d) (month d) (day d).

(** [d1 < d0]: dates compare as the tuples (year, month, day). *)
Definition date_ltb (a b : date) : bool :=
  (year a <? year b) ||
  ((year a =? year b) &&
   ((month a <? month b) || ((month a =? month b) && (day a <? day b)))).

(** [d0 == d1] *)
Definition date_eqb (a b : date) : bool :=
  (year a =? year b) && (month a =? month b) && (day a =? day b).

(** [(d1 - d0).days] *)
Definition days_between (d0 d1 : date) : Z := toordinal d1 - toordinal d0.

End Datetime.
Export Datetime.

(** * engine/core/daycount.py *)

Module DayCount.

Definition BASE_ACT_360 : string := "ACT/360"%string.
Definition BASE_ACT_365 : string := "ACT/365"%string.
Definition BASE_ACT_ACT : string := "ACT/ACT"%string.
Definition BASE_30_360 : string := "30/360"%string.

(** The four canonical day-count bases. *)
Definition canonical_bases : list string :=
  [BASE_ACT_360; BASE_ACT_365; BASE_ACT_ACT; BASE_30_360].

Definition is_leap_year (year : Z) : bool :=
  ((year mod 4 =? 0) && negb (year mod 100 =? 0)) || (year mod 400 =? 0).

Definition _last_day_of_month (year month : Z) : Z :=
  if month =? 2 then (if is_leap_year year then 29 else 28)
  else if existsb (Z.eqb month) [1; 3; 5; 7; 8; 10; 12] then 31
  else 30.

Definition _is_last_day_of_month (d : date) : bool :=
  day d =? _last_day_of_month (year d) (month d).

Definition _is_last_day_of_february (d : date) : bool :=
  (month d =? 2) && _is_last_day_of_month d.

(** The local helper [diy] of [yearfrac_act_act_isda]. *)
Definition diy (y : Z) : Z := if is_leap_year y then 366 else 365.

Definition yearfrac_act_act_isda (d0 d1 : date) : result R :=
  if date_ltb d1 d0 then Raise InvalidDateOrder
  else if date_eqb d0 d1 then Ok 0%R
  else if year d0 =? year d1 then
    Ok (IZR (days_between d0 d1) / IZR (diy (year d0)))%R
  else
    (end_y0 <- date_new (year d0 + 1) 1 1 ;;
     let yf := (IZR (days_between d0 end_y0) / IZR (diy (year d0)))%R in
     let yf := (yf + IZR (Z.max 0 (year d1 - year d0 - 1)))%R in
     start_y1 <- date_new (year d1) 1 1 ;;
     let yf := (yf + IZR (days_between start_y1 d1) / IZR (diy (year d1)))%R in
     Ok yf)%result.

(** [x in (30, 31)] *)
Definition in_30_31 (x : Z) : bool := (x =? 30) || (x =? 31).

Definition yearfrac_30_360_us (d0 d1 : date) : result R :=
  if date_ltb d1 d0 then Raise InvalidDateOrder
  else
    let d0_day := day d0 in
    let d1_day := day d1 in
    (* Special adjustment: end of February *)
    let d0_day := if _is_last_day_of_february d0 then 30 else d0_day in
    let d1_day :=
      if _is_last_day_of_february d1 && in_30_31 d0_day then 30 else d1_day in
    (* Adjustments for day 31 *)
    let d0_day := if d0_day =? 31 then 30 else d0_day in
    let d1_day := if (d1_day =? 31) && in_30_31 d0_day then 30 else d1_day in
    let days_360 :=
      360 * (year d1 - year d0) + 30 * (month d1 - month d0) + (d1_day - d0_day) in
    Ok (IZR days_360 / 360)%R.

Definition yearfrac (d0 d1 : date) (base : string) : result R :=
  if date_ltb d1 d0 then Raise InvalidDateOrder
  else
    let days := days_between d0 d1 in
    if String.eqb base BASE_ACT_360 then Ok (IZR days / 360)%R
    else if String.eqb base BASE_ACT_365 then Ok (IZR days / 365)%R
    else if String.eqb base BASE_ACT_ACT then yearfrac_act_act_isda d0 d1
    else if String.eqb base BASE_30_360 then yearfrac_30_360_us d0 d1
    else Raise (UnsupportedBase base).

(** ** The ACT/ACT-ISDA rule as the specification words it

    The interval from [d0] to [d1] is split at the calendar-year
    boundaries; the days that fall in calendar year [y] are divided by the
    number of days of [y], and the fragments are summed. *)

Definition jan1_ordinal (y : Z) : Z := _ymd2ord y 1 1.

(** Days of the interval from [d0] to [d1] that fall in calendar year [y]. *)
Definition days_within_year (y : Z) (d0 d1 : date) : Z :=
  Z.max 0 (Z.min (toordinal d1) (jan1_ordinal (y + 1))
           - Z.max (toordinal d0) (jan1_ordinal y)).

Fixpoint sum_year_fragments (y : Z) (n : nat) (d0 d1 : date) : R :=
  match n with
  | O => 0%R
  | S n' => (IZR (days_within_year y d0 d1) / IZR (if is_leap_year y then 366 else 365)
             + sum_year_fragments (y + 1) n' d0 d1)%R
  end.

Definition isda_by_calendar_years (d0 d1 : date) : R :=
  sum_year_fragments (year d0) (Z.to_nat (year d1 - year d0 + 1)) d0 d1.

End DayCount.

(** * The canonical long table of curve points *)

Module Pandas.

(** A row of the long table: the five canonical fields.  A numeric cell may
    be null (NaN). *)
Record Row : Type := mkRow {
  IndexName : string;
  Tenor : string;
  FwdRate : option R;
  TenorDate : date;
  YearFrac : option R
}.

(** A data frame: its column labels and its rows.  The fields of a row are
    read only after the frame has been checked to carry their columns. *)
Record DataFrame : Type := mkDataFrame {
  columns : list string;
  rows : list Row
}.

(** [Series.isna()] on a numeric cell. *)
Definition isna (x : option R) : bool :=
  match x with
  | Some _ => false
  | None => true
  end.

End Pandas.
Export Pandas.

(** * engine/core/curves.py *)

Module Curves.

Local Open Scope R_scope.

Record CurvePoint : Type := mkCurvePoint {
  year_frac : R;
  rate : R;
  tenor : string;
  tenor_date : date
}.

Record ForwardCurve : Type := mkForwardCurve {
  index_name : string;
  points : list CurvePoint
}.

(** [points.sort(key=lambda p: p.year_frac)]: a stable sort. *)
Fixpoint insert_point (p : CurvePoint) (l : list CurvePoint) : list CurvePoint :=
  match l with
  | [] => [p]
  | q :: l' =>
      if Rle_dec (year_frac p) (year_frac q) then p :: l else q :: insert_point p l'
  end.

Fixpoint sort_points (l : list CurvePoint) : list CurvePoint :=
  match l with
  | [] => []
  | p :: l' => insert_point p (sort_points l')
  end.

(** The validation loop of [__post_init__]: [true] when it raises nothing. *)
Fixpoint strictly_increasing (prev : option R) (ps : list CurvePoint) : bool :=
  match ps with
  | [] => true
  | p :: ps' =>
      match prev with
      | Some x =>
          if Rle_dec (year_frac p) x then false
          else strictly_increasing (Some (year_frac p)) ps'
      | None => strictly_increasing (Some (year_frac p)) ps'
      end
  end.

(** [__post_init__] sorts [self.points] in place and validates them; the
    result is the object after the call. *)
Definition __post_init__ (self : ForwardCurve) : result ForwardCurve :=
  match points self with
  | [] => Raise (EmptyCurve (index_name self))
  | _ :: _ =>
      let self := mkForwardCurve (index_name self) (sort_points (points self)) in
      if strictly_increasing None (points self) then Ok self
      else Raise (NonIncreasingCurve (index_name self))
  end.

(** [ForwardCurve(index_name=..., points=...)] *)
Definition new_ForwardCurve (index_name : string) (points : list CurvePoint)
  : result ForwardCurve :=
  __post_init__ (mkForwardCurve index_name points).

Definition year_fracs (self : ForwardCurve) : list R :=
  map year_frac (points self).

Definition rates (self : ForwardCurve) : list R :=
  map rate (points self).

(** ln(DF_i) = -r_i * T_i *)
Definition _pillar_ln_dfs (self : ForwardCurve) : list R :=
  map (fun p => - rate p * year_frac p) (points self).

Definition _interp_linear (x x0 x1 y0 y1 : R) : R :=
  if Req_dec_T x1 x0 then y1
  else
    let w := (x - x0) / (x1 - x0) in
    y0 + w * (y1 - y0).

(** [bisect.bisect_left(a, x)]: binary search of the insertion point. *)
Fixpoint bisect_loop (fuel : nat) (a : list R) (x : R) (lo hi : nat) : nat :=
  match fuel with
  | O => lo
  | S fuel' =>
      if (lo <? hi)%nat then
        let mid := ((lo + hi) / 2)%nat in
        if Rlt_dec (nth mid a 0) x then bisect_loop fuel' a x (mid + 1)%nat hi
        else bisect_loop fuel' a x lo mid
      else lo
  end.

Definition bisect_left (a : list R) (x : R) : nat :=
  bisect_loop (S (length a)) a x 0%nat (length a).

(** [discount_factor(t)] for a number [t]. *)
Definition discount_factor (self : ForwardCurve) (t : R) : result R :=
  if Rle_dec t 0 then Ok 1
  else
    let xs := year_fracs self in
    let ln_dfs := _pillar_ln_dfs self in
    if (length xs =? 1)%nat then
      (x1 <- index xs 0 ;;
       y1 <- index ln_dfs 0 ;;
       let ln_df_t :=
         if Rle_dec t x1 then _interp_linear t 0 x1 0 y1
         else _interp_linear t 0 x1 0 y1 in
       Ok (exp ln_df_t))%result
    else
      (xs_0 <- index xs 0 ;;
       if Rle_dec t xs_0 then
         (y_0 <- index ln_dfs 0 ;;
          Ok (exp (_interp_linear t 0 xs_0 0 y_0)))
       else
         (xs_last <- index xs (-1) ;;
          if Rge_dec t xs_last then
            (x0 <- index xs (-2) ;;
             x1 <- index xs (-1) ;;
             y0 <- index ln_dfs (-2) ;;
             y1 <- index ln_dfs (-1) ;;
             Ok (exp (_interp_linear t x0 x1 y0 y1)))
          else
            let j := Z.of_nat (bisect_left xs t) in
            (x0 <- index xs (j - 1) ;;
             x1 <- index xs j ;;
             y0 <- index ln_dfs (j - 1) ;;
             y1 <- index ln_dfs j ;;
             Ok (exp (_interp_linear t x0 x1 y0 y1)))))%result.

Definition zero_rate (self : ForwardCurve) (t : R) : result R :=
  if Rle_dec t 0 then
    (p <- index (points self) 0 ;; Ok (rate p))%result
  else
    (df <- discount_factor self t ;; Ok (- ln df / t))%result.

Definition required_columns : list string :=
  ["IndexName"; "Tenor"; "FwdRate"; "TenorDate"; "YearFrac"]%string.

(** [[c for c in required if c not in df.columns]] *)
Definition missing_columns (df : DataFrame) : list string :=
  List.filter (fun c => negb (existsb (String.eqb c) (columns df))) required_columns.

(** The point built from a row of the table; the numeric cells are not null
    when the loop of [curve_from_long_df] reads them. *)
Definition point_of_row (r : Row) : result CurvePoint :=
  match YearFrac r, FwdRate r with
  | Some yf, Some fr => Ok (mkCurvePoint yf fr (upper (strip (Tenor r))) (TenorDate r))
  | _, _ => Raise TypeError
  end.

Fixpoint points_of_rows (sub : list Row) : result (list CurvePoint) :=
  match sub with
  | [] => Ok []
  | r :: sub' =>
      (p <- point_of_row r ;;
       ps <- points_of_rows sub' ;;
       Ok (p :: ps))%result
  end.

(** [curve_from_long_df(df_long, index_name)] with the default column
    names. *)
Definition curve_from_long_df (df_long : DataFrame) (index_name : string)
  : result ForwardCurve :=
  match missing_columns df_long with
  | (_ :: _) as missing => Raise (InvalidCurveTable missing)
  | [] =>
      let sub := List.filter (fun r => String.eqb (IndexName r) index_name) (rows df_long) in
      match sub with
      | [] => Raise (NoPointsFor index_name)
      | _ :: _ =>
          if existsb (fun r => isna (YearFrac r)) sub then Raise (NullYearFrac index_name)
          else if existsb (fun r => isna (FwdRate r)) sub then Raise (NullFwdRate index_name)
          else (points <- points_of_rows sub ;;
                new_ForwardCurve index_name points)%result
      end
  end.

End Curves.

Module CurveSpec.

Import Curves.
Local Open Scope R_scope.

(** The invariant of a constructed curve: at least one pillar, and year
    fractions strictly increasing. *)
Definition valid_curve (c : ForwardCurve) : Prop :=
  points c <> [] /\ StronglySorted Rlt (year_fracs c).

(** The data model has no negative year fraction. *)
Definition nonneg_year_fracs (c : ForwardCurve) : Prop :=
  Forall (fun p => 0 <= year_frac p) (points c).

(** ln(DF_i) = -rate_i * year_frac_i, the value at pillar [i]. *)
Definition pillar_ln_df (c : ForwardCurve) (i : nat) : R :=
  - nth i (rates c) 0 * nth i (year_fracs c) 0.

(** linear_interp(x; x0, y0; x1, y1): the line through (x0, y0) and
    (x1, y1), at x. *)
Definition linear_interp (x x0 y0 x1 y1 : R) : R :=
  y0 + (x - x0) * ((y1 - y0) / (x1 - x0)).

(** The projection of the slope of the final pillar segment from the last
    pillar to [t]. *)
Definition tail_projection (c : ForwardCurve) (t : R) : R :=
  let n := length (points c) in
  let x_prev := nth (n - 2) (year_fracs c) 0 in
  let x_last := nth (n - 1) (year_fracs c) 0 in
  let y_prev := pillar_ln_df c (n - 2) in
  let y_last := pillar_ln_df c (n - 1) in
  y_last + (t - x_last) * ((y_last - y_prev) / (x_last - x_prev)).

(** The two-pillar curve of the specification: (1y, 0.02) and (2y, 0.03). *)
Definition two_pillar_points : list CurvePoint :=
  [ mkCurvePoint 1 0.02 "1Y" (mkdate 2025 1 1);
    mkCurvePoint 2 0.03 "2Y" (mkdate 2026 1 1) ].

(** A curve with positive rates whose zero rates fall steeply:
    (1y, 0.10) and (2y, 0.04). *)
Definition falling_points : list CurvePoint :=
  [ mkCurvePoint 1 0.10 "1Y" (mkdate 2025 1 1);
    mkCurvePoint 2 0.04 "2Y" (mkdate 2026 1 1) ].

(** The knots of the ln(DF) line for [t > 0]: the pillars, after the anchor
    (0, 0) when the first pillar lies beyond 0. *)
Definition knots_x (c : ForwardCurve) : list R :=
  if Rlt_dec 0 (nth 0 (year_fracs c) 0) then 0 :: year_fracs c else year_fracs c.

Definition knots_y (c : ForwardCurve) : list R :=
  if Rlt_dec 0 (nth 0 (year_fracs c) 0) then 0 :: _pillar_ln_dfs c else _pillar_ln_dfs c.

Definition knot_x (c : ForwardCurve) (k : nat) : R := nth k (knots_x c) 0.
Definition knot_y (c : ForwardCurve) (k : nat) : R := nth k (knots_y c) 0.

Definition two_pillar_curve : ForwardCurve :=
  mkForwardCurve "EUR" two_pillar_points.

Definition falling_curve : ForwardCurve :=
  mkForwardCurve "EUR" falling_points.

(** A curve whose only pillar lies at year fraction 0. *)
Definition zero_pillar_curve : ForwardCurve :=
  mkForwardCurve "EUR" [mkCurvePoint 0 0.05 "0M" (mkdate 2024 1 1)].

End CurveSpec.

(** * engine/services/market.py: curve sets, and the object heap *)

Module Market.

(** A reference to an object. *)
Abbreviation loc := positive.

(** A [ForwardCurveSet] object: [points] refers to the data frame of the
    set, [curves] maps each index name to the curve object of the index. *)
Record ForwardCurveSet : Type := mkForwardCurveSet {
  analysis_date : date;
  base : string;
  points : loc;
  curves : gmap string loc
}.

(** The objects that the engine shares by reference. *)
Inductive obj : Type :=
| ODataFrame (df : DataFrame)
| OForwardCurve (c : Curves.ForwardCurve)
| OForwardCurveSet (s : ForwardCurveSet).

Abbreviation heap := (gmap positive obj).

(** Computations that read and update the heap and may raise.  The heap
    that an exception leaves behind is kept: nothing is rolled back. *)
Definition M (A : Type) : Type := heap -> result A * heap.

Definition ret {A : Type} (a : A) : M A := fun h => (Ok a, h).

Definition bind {A B : Type} (m : M A) (k : A -> M B) : M B :=
  fun h =>
    match m h with
    | (Ok a, h') => k a h'
    | (Raise e, h') => (Raise e, h')
    end.

(** A computation that does not touch the heap. *)
Definition lift {A : Type} (r : result A) : M A := fun h => (r, h).

(** A new object, at a reference that is not in use. *)
Definition alloc (o : obj) : M loc :=
  fun h => let l := fresh (dom h) in (Ok l, <[l := o]> h).

Definition get_frame (l : loc) : M DataFrame :=
  fun h =>
    match h !! l with
    | Some (ODataFrame df) => (Ok df, h)
    | _ => (Raise TypeError, h)
    end.

Definition get_set (l : loc) : M ForwardCurveSet :=
  fun h =>
    match h !! l with
    | Some (OForwardCurveSet s) => (Ok s, h)
    | _ => (Raise TypeError, h)
    end.

(** An in-place update of a data frame. *)
Definition set_frame (l : loc) (df : DataFrame) : M unit :=
  fun h => (Ok tt, <[l := ODataFrame df]> h).

End Market.
Export Market.

Declare Scope heap_scope.
Delimit Scope heap_scope with heap.
Notation "x <- m ;; k" := (bind m (fun x => k))
  (at level 100, m at next level, right associativity) : heap_scope.

(** * engine/scenarios/shocks.py *)

Module Shocks.

Record ParallelShock : Type := mkParallelShock {
  name : string;
  shift_bps : R
}.

Definition shift_decimal (self : ParallelShock) : R := (shift_bps self / 10000)%R.

End Shocks.
Export Shocks.

(** * engine/scenarios/apply.py

    The helpers [_validate_curve_points_columns] and [_rebuild_curves] are
    imported there from [engine/scenarios/_curve_utils.py]; their text is
    that of the same helpers in [almready/scenarios/apply.py]. *)

Module Scenarios.

Definition _validate_curve_points_columns (df_points : DataFrame) : result unit :=
  match Curves.missing_columns df_points with
  | [] => Ok tt
  | (_ :: _) as missing => Raise (InvalidCurveTable missing)
  end.

(** [{str(ix).strip() for ix in apply_to if str(ix).strip() != ""}] *)
Definition stripped_entries (apply_to : list string) : gset string :=
  list_to_set
    (map strip
       (List.filter (fun ix => negb (String.eqb (strip ix) EmptyString)) apply_to)).

Definition _normalise_apply_to
  (apply_to : option (list string)) (available_indexes : gset string)
  : result (gset string) :=
  match apply_to with
  | None => Ok available_indexes
  | Some apply_to =>
      let selected := stripped_entries apply_to in
      if decide (selected = ∅) then Raise EmptyShockTarget
      else
        match sorted (elements (selected ∖ available_indexes)) with
        | [] => Ok selected
        | (_ :: _) as unknown =>
            Raise (UnknownIndex unknown (sorted (elements available_indexes)))
        end
  end.

(** [df["IndexName"].astype(str).unique().tolist()] *)
Definition index_names (df : DataFrame) : list string :=
  unique (map IndexName (rows df)).

(** [curve_from_long_df(df_points, index_name=index_name)] on a data frame
    object: the curve is a new object. *)
Definition curve_from_long_df_at (df_points : loc) (index_name : string) : M loc :=
  (df <- get_frame df_points ;;
   c <- lift (Curves.curve_from_long_df df index_name) ;;
   alloc (OForwardCurve c))%heap.

Fixpoint rebuild_loop (df_points : loc) (indexes : list string)
  (curves : gmap string loc) : M (gmap string loc) :=
  match indexes with
  | [] => ret curves
  | index_name :: indexes' =>
      (c <- curve_from_long_df_at df_points index_name ;;
       rebuild_loop df_points indexes' (<[index_name := c]> curves))%heap
  end.

Definition _rebuild_curves (df_points : loc) : M (gmap string loc) :=
  (df <- get_frame df_points ;;
   let indexes := sorted (index_names df) in
   rebuild_loop df_points indexes ∅)%heap.

(** The row after
    [df.loc[mask, "FwdRate"] = df.loc[mask, "FwdRate"].astype(float) + shift]
    where the mask selects the rows whose index is in [selected]. *)
Definition shift_row (selected : gset string) (shift : R) (r : Row) : Row :=
  if bool_decide (IndexName r ∈ selected) then
    mkRow (IndexName r) (Tenor r)
          (option_map (fun x => (x + shift)%R) (FwdRate r))
          (TenorDate r) (YearFrac r)
  else r.

Definition shift_frame (selected : gset string) (shift : R) (df : DataFrame)
  : DataFrame :=
  mkDataFrame (columns df) (map (shift_row selected shift) (rows df)).

Definition apply_parallel_shock
  (base_set : loc) (shock : ParallelShock) (apply_to : option (list string))
  : M loc :=
  (bs <- get_set base_set ;;
   base_points <- get_frame (points bs) ;;
   _ <- lift (_validate_curve_points_columns base_points) ;;
   bs <- get_set base_set ;;
   base_points <- get_frame (points bs) ;;
   df_shifted <- alloc (ODataFrame base_points) ;;
   df <- get_frame df_shifted ;;
   let available_indexes : gset string := list_to_set (index_names df) in
   selected_indexes <- lift (_normalise_apply_to apply_to available_indexes) ;;
   df <- get_frame df_shifted ;;
   _ <- set_frame df_shifted (shift_frame selected_indexes (shift_decimal shock) df) ;;
   shifted_curves <- _rebuild_curves df_shifted ;;
   bs <- get_set base_set ;;
   alloc (OForwardCurveSet
            (mkForwardCurveSet (analysis_date bs) (base bs) df_shifted shifted_curves)))%heap.

Fixpoint shocks_loop (base_set : loc) (shocks : list ParallelShock)
  (apply_to : option (list string)) (out : gmap string loc) : M (gmap string loc) :=
  match shocks with
  | [] => ret out
  | shock :: shocks' =>
      match out !! name shock with
      | Some _ => lift (Raise (DuplicateScenario (name shock)))
      | None =>
          (s <- apply_parallel_shock base_set shock apply_to ;;
           shocks_loop base_set shocks' apply_to (<[name shock := s]> out))%heap
      end
  end.

Definition apply_parallel_shocks
  (base_set : loc) (shocks : list ParallelShock) (apply_to : option (list string))
  : M (gmap string loc) :=
  shocks_loop base_set shocks apply_to ∅.

End Scenarios.

Module ScenarioSpec.

Import Scenarios.

(** The raw table of a curve set builds a curve for each of its indices, as
    it did when the set was made. *)
Definition table_ok (df : DataFrame) : Prop :=
  forall ix : string, In ix (index_names df) ->
    exists c : Curves.ForwardCurve, Curves.curve_from_long_df df ix = Ok c.

(** In heap [h] the reference [base_set] is a curve set [bs] whose raw table
    is the data frame [df]. *)
Definition base_set_at (h : heap) (base_set : loc) (bs : ForwardCurveSet)
  (df : DataFrame) : Prop :=
  h !! base_set = Some (OForwardCurveSet bs) /\ h !! points bs = Some (ODataFrame df).

(** Row [r'] is row [r] with the rate shifted by [shift]. *)
Definition rate_shifted (shift : R) (r r' : Row) : Prop :=
  exists x : R,
    FwdRate r = Some x /\ FwdRate r' = Some (x + shift)%R /\
    IndexName r' = IndexName r /\ Tenor r' = Tenor r /\
    TenorDate r' = TenorDate r /\ YearFrac r' = YearFrac r.

(** The pillar with its rate shifted. *)
Definition shift_point (s : R) (p : Curves.CurvePoint) : Curves.CurvePoint :=
  Curves.mkCurvePoint (Curves.year_frac p) (Curves.rate p + s)%R
    (Curves.tenor p) (Curves.tenor_date p).

(** The curve of an index after the shift: the pillars of the curve before
    it, with the rates moved when the index is selected. *)
Definition shift_curve (sel : gset string) (s : R) (ix : string)
  (c : Curves.ForwardCurve) : Curves.ForwardCurve :=
  if bool_decide (ix ∈ sel)
  then Curves.mkForwardCurve ix (map (shift_point s) (Curves.points c))
  else c.

(** A table with one index, and a set built on it. *)
Definition eur_row : Row :=
  mkRow "EUR" "1Y" (Some 0.02%R) (mkdate 2025 1 1) (Some 1%R).

Definition eur_frame : DataFrame :=
  mkDataFrame Curves.required_columns [eur_row].

Definition eur_curve : Curves.ForwardCurve :=
  Curves.mkForwardCurve "EUR"
    [Curves.mkCurvePoint 1 0.02 "1Y" (mkdate 2025 1 1)].

Definition eur_set : ForwardCurveSet :=
  mkForwardCurveSet (mkdate 2024 1 1) "ACT/365" 1%positive {[ "EUR"%string := 3%positive ]}.

Definition eur_heap : heap :=
  {[ 1%positive := ODataFrame eur_frame;
     2%positive := OForwardCurveSet eur_set;
     3%positive := OForwardCurve eur_curve ]}.

Definition up_200 : ParallelShock := mkParallelShock "up" 200.
Definition up_100 : ParallelShock := mkParallelShock "up" 100.
Definition down_100 : ParallelShock := mkParallelShock "down" (-100).

(** A target that names the index with blanks around it, and a blank
    entry. *)
Definition eur_target : list string := [" EUR "; ""]%string.

End ScenarioSpec.

(** * Orders and shapes of curves *)

Module CurveOrder.

Import Curves.
Local Open Scope R_scope.

(** The order of the sort key. *)
Definition key_le (p q : CurvePoint) : Prop := year_frac p <= year_frac q.
Definition key_lt (p q : CurvePoint) : Prop := year_frac p < year_frac q.


End CurveOrder.

Module DayCountSpec.

Import DayCount.

(** The position of a date on the axis of calendar years: its year, plus
    the part of the year that lies before it. *)
Definition year_position (d : date) : R :=
  (IZR (year d) + IZR (toordinal d - jan1_ordinal (year d)) / IZR (diy (year d)))%R.

(** The bases that count actual days. *)
Definition actual_bases : list string := [BASE_ACT_360; BASE_ACT_365; BASE_ACT_ACT].

End DayCountSpec.

(** * Errors of the functions around the curve engine *)

Module Outcome.

(** The exceptions of [normalize_daycount_base], [add_tenor], the curve-set
    queries, the curve reader and the [math] module, beside those of the
    curve engine. *)
Inductive error : Type :=
| Engine (e : exn)                      (* an exception of the curve engine *)
| EmptyDaycountBase                     (* ValueError("Daycount base is empty.") *)
| UnrecognizedBase (value : string)     (* ValueError("Unrecognized daycount base: ...") *)
| UnsupportedTenor (tenor : string)     (* ValueError("Unsupported tenor: ...") *)
| InvalidLiteral (s : string)           (* ValueError of int(s) *)
| DateRange                             (* ValueError or OverflowError of the date arithmetic *)
| CurveNotFound (index_name : string) (available : list string)
                                        (* KeyError("Curve not found: ... Available: ...") *)
| MissingCurves (missing available : list string)
                                        (* KeyError("Missing curves for required indices: ...") *)
| EmptyLongTable                        (* ValueError("df_long is empty: ...") *)
| UnsupportedTenors (invalid : list string)
                                        (* ValueError("Unsupported tenors found in Excel: ...") *)
| TimeIsNone                            (* ValueError("t cannot be None.") *)
| MathRangeError                        (* OverflowError("math range error") of math.exp *)
| MathDomainError.                      (* ValueError("math domain error") of math.log *)

Inductive outcome (A : Type) : Type :=
| Done (a : A)
| Fail (e : error).
Arguments Done {A} a.
Arguments Fail {A} e.

Definition obind {A B : Type} (r : outcome A) (k : A -> outcome B) : outcome B :=
  match r with
  | Done a => k a
  | Fail e => Fail e
  end.

(** A call into the curve engine. *)
Definition of_result {A : Type} (r : result A) : outcome A :=
  match r with
  | Ok a => Done a
  | Raise e => Fail (Engine e)
  end.

End Outcome.

Declare Scope outcome_scope.
Delimit Scope outcome_scope with outcome.
Notation "x <- r ;; k" := (Outcome.obind r (fun x => k))
  (at level 100, r at next level, right associativity) : outcome_scope.

(** * More of [str] *)

Module PyStr.

(** [s.replace("", new)]: [new] before every character and at the end. *)
Fixpoint interleave (new s : string) : string :=
  match s with
  | EmptyString => new
  | String c s' => new ++ String c (interleave new s')
  end.

(** The scan of [s.replace(old, new)] for a non-empty [old]: the
    occurrences of [old] are found from the left and do not overlap;
    [skip] counts the characters of an occurrence still to pass. *)
Fixpoint replace_from (old new : string) (skip : nat) (s : string) : string :=
  match s with
  | EmptyString => EmptyString
  | String c s' =>
      match skip with
      | S k => replace_from old new k s'
      | O =>
          if String.prefix old s
          then new ++ replace_from old new (String.length old - 1) s'
          else String c (replace_from old new 0 s')
      end
  end.

(** [s.replace(old, new)] *)
Definition replace (old new s : string) : string :=
  match old with
  | EmptyString => interleave new s
  | String _ _ => replace_from old new 0 s
  end.

(** [k in d] and [d[k]] on a dict literal with string keys. *)
Fixpoint dict_get (k : string) (d : list (string * string)) : option string :=
  match d with
  | [] => None
  | (k', v) :: d' => if String.eqb k k' then Some v else dict_get k d'
  end.

End PyStr.

(** * engine/core/daycount.py: the names of the bases *)

Module DayCountBase.

Import Outcome PyStr DayCount.

Definition DAYCOUNT_BASE_MAP : list (string * string) :=
  [ ("ACT/360", BASE_ACT_360);
    ("ACT360", BASE_ACT_360);
    ("A/360", BASE_ACT_360);
    ("ACTUAL/360", BASE_ACT_360);
    ("ACTUAL/360.0", BASE_ACT_360);
    ("ACT/365", BASE_ACT_365);
    ("ACT365", BASE_ACT_365);
    ("A/365", BASE_ACT_365);
    ("ACTUAL/365", BASE_ACT_365);
    ("ACTUAL/365F", BASE_ACT_365);
    ("ACT/365F", BASE_ACT_365);
    ("ACT/ACT", BASE_ACT_ACT);
    ("ACTACT", BASE_ACT_ACT);
    ("A/A", BASE_ACT_ACT);
    ("ACTUAL/ACTUAL", BASE_ACT_ACT);
    ("ACTUAL/ACT", BASE_ACT_ACT);
    ("ACT/ACTISDA", BASE_ACT_ACT);
    ("ACTUAL/ACTUALISDA", BASE_ACT_ACT);
    ("30/360", BASE_30_360);
    ("30360", BASE_30_360);
    ("30E/360", BASE_30_360);
    ("30E360", BASE_30_360);
    ("30E/360ISDA", BASE_30_360);
    ("30E360ISDA", BASE_30_360) ]%string.

(** [value] is [None] or a string. *)
Definition normalize_daycount_base (value : option string) : outcome string :=
  match value with
  | None => Fail EmptyDaycountBase
  | Some value =>
      let v := upper (strip value) in
      (* basic normalization *)
      let v := replace "-" "/" (replace " " "" v) in
      (* strip typical parentheses *)
      let v := fold_left (fun v ch => replace ch "" v) ["("; ")"; "["; "]"]%string v in
      (* normalize common 30E notation variants *)
      let v := replace "30/360E" "30E/360" v in
      (* common suffix variants *)
      let v := replace "US" "" v in
      let v := replace "NASD" "" v in
      let v := replace "FIXED" "F" v in
      match dict_get v DAYCOUNT_BASE_MAP with
      | Some b => Done b
      | None => Fail (UnrecognizedBase value)
      end
  end.

End DayCountBase.

(** * [int(s)], [s.endswith] and [s[:-1]] *)

Module PyInt.

Import Outcome.

(** The blanks that [int] passes over at both ends of an ASCII string:
    TAB, LF, VT, FF, CR and the space. *)
Definition int_isspace (c : ascii) : bool :=
  let n := nat_of_ascii c in
  ((9 <=? n)%nat && (n <=? 13)%nat) || (n =? 32)%nat.

Definition is_digit (c : ascii) : bool :=
  let n := nat_of_ascii c in (48 <=? n)%nat && (n <=? 57)%nat.

Definition digit_value (c : ascii) : Z := Z.of_nat (nat_of_ascii c) - 48.

Fixpoint skip_blanks (s : string) : string :=
  match s with
  | EmptyString => EmptyString
  | String c s' => if int_isspace c then skip_blanks s' else s
  end.

Fixpoint all_blank (s : string) : bool :=
  match s with
  | EmptyString => true
  | String c s' => int_isspace c && all_blank s'
  end.

(** The scan of the digits: single underscores may stand between digits.
    It returns the value, the number of digits and the rest of the string,
    or nothing when an underscore is doubled or ends the digits. *)
Fixpoint scan_digits (s : string) (prev_underscore : bool) (value : Z) (digits : nat)
  : option (Z * nat * string) :=
  match s with
  | EmptyString => if prev_underscore then None else Some (value, digits, EmptyString)
  | String c s' =>
      if is_digit c then scan_digits s' false (10 * value + digit_value c) (S digits)
      else if Ascii.eqb c "_" then
        (if prev_underscore then None else scan_digits s' true value digits)
      else if prev_underscore then None else Some (value, digits, s)
  end.

(** The most digits that [int] converts (sys.get_int_max_str_digits()). *)
Definition max_str_digits : nat := 4300.

(** [int(s)] in base 10, on an ASCII string. *)
Definition int (s : string) : outcome Z :=
  let s1 := skip_blanks s in
  let '(negative, s2) :=
    match s1 with
    | String "+" r => (false, r)
    | String "-" r => (true, r)
    | _ => (false, s1)
    end in
  match s2 with
  | String "_" _ => Fail (InvalidLiteral s)
  | _ =>
      match scan_digits s2 false 0 0 with
      | None => Fail (InvalidLiteral s)
      | Some (value, digits, rest) =>
          if (digits =? 0)%nat || (max_str_digits <? digits)%nat || negb (all_blank rest)
          then Fail (InvalidLiteral s)
          else Done (if negative then - value else value)
      end
  end.

(** [s.endswith(suffix)] *)
Fixpoint endswith (s suffix : string) : bool :=
  String.eqb s suffix ||
  match s with
  | EmptyString => false
  | String _ s' => endswith s' suffix
  end.

(** [s[:-1]] *)
Fixpoint drop_last (s : string) : string :=
  match s with
  | EmptyString => EmptyString
  | String c s' =>
      match s' with
      | EmptyString => EmptyString
      | String _ _ => String c (drop_last s')
      end
  end.

End PyInt.

(** * Arithmetic of [datetime.date], [calendar.monthrange] and
      [dateutil.relativedelta]

    The date libraries raise [ValueError] or [OverflowError] when a day
    count, a year or a resulting date leaves their range; these are the one
    error [DateRange] here. *)

Module DateArith.

Import Outcome.

Definition _MAXORDINAL : Z := 3652059.
Definition _DI400Y : Z := 146097.
Definition _DI100Y : Z := 36524.
Definition _DI4Y : Z := 1461.

Definition _DAYS_IN_MONTH : list Z :=
  [-1; 31; 28; 31; 30; 31; 30; 31; 31; 30; 31; 30; 31].

Definition _DAYS_BEFORE_MONTH : list Z :=
  [-1; 0; 31; 59; 90; 120; 151; 181; 212; 243; 273; 304; 334].

(** ordinal -> (year, month, day), considering 01-Jan-0001 as day 1. *)
Definition _ord2ymd (n : Z) : date :=
  let n := n - 1 in
  let n400 := n / _DI400Y in
  let n := n mod _DI400Y in
  let year := n400 * 400 + 1 in
  let n100 := n / _DI100Y in
  let n := n mod _DI100Y in
  let n4 := n / _DI4Y in
  let n := n mod _DI4Y in
  let n1 := n / 365 in
  let n := n mod 365 in
  let year := year + (n100 * 100 + n4 * 4 + n1) in
  if (n1 =? 4) || (n100 =? 4) then mkdate (year - 1) 12 31
  else
    let leapyear := (n1 =? 3) && (negb (n4 =? 24) || (n100 =? 3)) in
    let month := Z.shiftr (n + 50) 5 in
    let preceding :=
      nth (Z.to_nat month) _DAYS_BEFORE_MONTH 0
      + (if (2 <? month) && leapyear then 1 else 0) in
    if n <? preceding then
      let month := month - 1 in
      let preceding :=
        preceding - (nth (Z.to_nat month) _DAYS_IN_MONTH 0
                     + (if (month =? 2) && leapyear then 1 else 0)) in
      mkdate year month (n - preceding + 1)
    else mkdate year month (n - preceding + 1).

(** [date.fromordinal(n)], for an ordinal in range. *)
Definition fromordinal (n : Z) : date := _ord2ymd n.

(** [d + timedelta(days=days)] *)
Definition date_add_days (d : date) (days : Z) : outcome date :=
  if 999999999 <? Z.abs days then Fail DateRange
  else
    let o := toordinal d + days in
    if (0 <? o) && (o <=? _MAXORDINAL) then Done (fromordinal o)
    else Fail DateRange.

(** [d.replace(year=year, month=month, day=day)] *)
Definition date_replace (d : date) (year month day : Z) : outcome date :=
  if valid_date (mkdate year month day) then Done (mkdate year month day)
  else Fail DateRange.

(** [calendar.monthrange(year, month)[1]] *)
Definition monthrange_ndays (year month : Z) : outcome Z :=
  if (1 <=? month) && (month <=? 12)
  then Done (nth (Z.to_nat month) [0; 31; 28; 31; 30; 31; 30; 31; 31; 30; 31; 30; 31] 0
             + (if (month =? 2) && _is_leap year then 1 else 0))
  else Fail DateRange.

(** The fields of a [relativedelta] that [add_tenor] sets; the other
    relative fields are 0 and the absolute ones are [None]. *)
Record relativedelta : Type := mkrelativedelta {
  years : Z;
  months : Z;
  days : Z
}.

(** [int(copysign(1, x))], which converts [x] to a float. *)
Definition _sign (x : Z) : outcome Z :=
  if 2 ^ 1024 - 2 ^ 970 <=? Z.abs x then Fail DateRange
  else Done (if x <? 0 then -1 else 1).

(** [relativedelta(years=years, months=months, days=days, weeks=weeks)],
    with the normalisation of the months by [_fix]. *)
Definition new_relativedelta (years months days weeks : Z) : outcome relativedelta :=
  let days := days + weeks * 7 in
  if 11 <? Z.abs months then
    (s <- _sign months ;;
     let div := (months * s) / 12 in
     let mod_ := (months * s) mod 12 in
     Done (mkrelativedelta (years + div * s) (mod_ * s) days))%outcome
  else Done (mkrelativedelta years months days).

(** [other + self] for a date [other]. *)
Definition relativedelta_radd (self : relativedelta) (other : date) : outcome date :=
  let year := year other + years self in
  let month := month other in
  let '(year, month) :=
    if months self =? 0 then (year, month)
    else
      let month := month + months self in
      if 12 <? month then (year + 1, month - 12)
      else if month <? 1 then (year - 1, month + 12)
      else (year, month) in
  (ndays <- monthrange_ndays year month ;;
   let day := Z.min ndays (day other) in
   replaced <- date_replace other year month day ;;
   date_add_days replaced (days self))%outcome.

End DateArith.

(** * engine/core/tenors.py *)

Module Tenors.

Import Outcome PyInt DateArith.

Definition add_tenor (d : date) (tenor : string) : outcome date :=
  let t := upper (strip tenor) in
  if existsb (String.eqb t) ["ON"; "O/N"; "1D"]%string then
    (rd <- new_relativedelta 0 0 1 0 ;; relativedelta_radd rd d)%outcome
  else if endswith t "W" then
    (n <- int (drop_last t) ;;
     rd <- new_relativedelta 0 0 0 n ;; relativedelta_radd rd d)%outcome
  else if endswith t "M" then
    (n <- int (drop_last t) ;;
     rd <- new_relativedelta 0 n 0 0 ;; relativedelta_radd rd d)%outcome
  else if endswith t "Y" then
    (n <- int (drop_last t) ;;
     rd <- new_relativedelta n 0 0 0 ;; relativedelta_radd rd d)%outcome
  else Fail (UnsupportedTenor tenor).

End Tenors.

Module TenorSpec.

(** The months of the calendar, counted from year 0: the index of the
    month of a date. *)
Definition month_index (d : date) : Z := 12 * year d + (month d - 1).

(** The text that [add_tenor] dispatches on. *)
Definition tenor_text (tenor : string) : string := upper (strip tenor).

End TenorSpec.

(** * engine/services/market.py: the queries of a curve set *)

Module MarketQueries.

Import Outcome DayCount DayCountBase.

(** A query reads the objects and changes none of them. *)
Definition Q (A : Type) : Type := heap -> outcome A.

Definition qret {A : Type} (a : A) : Q A := fun _ => Done a.

Definition qbind {A B : Type} (m : Q A) (k : A -> Q B) : Q B :=
  fun h =>
    match m h with
    | Done a => k a h
    | Fail e => Fail e
    end.

Definition qlift {A : Type} (r : outcome A) : Q A := fun _ => r.

(** The curve-set object behind [self]. *)
Definition the_set (self : loc) : Q ForwardCurveSet :=
  fun h =>
    match h !! self with
    | Some (OForwardCurveSet s) => Done s
    | _ => Fail (Engine TypeError)
    end.

(** The curve object behind a reference. *)
Definition the_curve (l : loc) : Q Curves.ForwardCurve :=
  fun h =>
    match h !! l with
    | Some (OForwardCurve c) => Done c
    | _ => Fail (Engine TypeError)
    end.

(** [ForwardCurve.rate]: an alias of [zero_rate]. *)
Definition ForwardCurve_rate (self : Curves.ForwardCurve) (t : R) : result R :=
  Curves.zero_rate self t.

(** [sorted(self.curves.keys())] *)
Definition available_indices (self : loc) : Q (list string) :=
  qbind (the_set self) (fun s => qret (sorted (elements (dom (curves s))))).

Definition get (self : loc) (index_name : string) : Q loc :=
  qbind (the_set self) (fun s =>
    match curves s !! index_name with
    | None =>
        qbind (available_indices self) (fun available =>
          qlift (Fail (CurveNotFound index_name available)))
    | Some c => qret c
    end).

(** [{str(ix).strip() for ix in required_indices
      if ix is not None and str(ix).strip() != ""}] *)
Definition required_names (required_indices : list (option string)) : gset string :=
  list_to_set
    (map strip
       (List.filter (fun ix => negb (String.eqb (strip ix) EmptyString))
          (omap (fun ix : option string => ix) required_indices))).

Definition require_indices (self : loc) (required_indices : list (option string))
  : Q unit :=
  qbind (the_set self) (fun s =>
    let required := sorted (elements (required_names required_indices)) in
    let missing :=
      List.filter (fun ix => negb (bool_decide (is_Some (curves s !! ix)))) required in
    match missing with
    | [] => qret tt
    | _ :: _ =>
        qbind (available_indices self) (fun available =>
          qlift (Fail (MissingCurves missing available)))
    end).

Definition _t (self : loc) (d : date) : Q R :=
  qbind (the_set self) (fun s =>
    qbind (qlift (normalize_daycount_base (Some (base s)))) (fun b =>
      qlift (of_result (yearfrac (analysis_date s) d b)))).

Definition rate_on_date (self : loc) (index_name : string) (d : date) : Q R :=
  qbind (get self index_name) (fun curve =>
    qbind (_t self d) (fun t =>
      qbind (the_curve curve) (fun c =>
        qlift (of_result (ForwardCurve_rate c t))))).

Definition df_on_date (self : loc) (index_name : string) (d : date) : Q R :=
  qbind (get self index_name) (fun curve =>
    qbind (_t self d) (fun t =>
      qbind (the_curve curve) (fun c =>
        qlift (of_result (Curves.discount_factor c t))))).

End MarketQueries.

Module MarketSpec.

Import MarketQueries.

(** In heap [h] the reference [self] is the curve set [s], and the curve of
    index [ix] in it is the curve object [c]. *)
Definition curve_at (h : heap) (self : loc) (s : ForwardCurveSet)
  (ix : string) (c : Curves.ForwardCurve) : Prop :=
  h !! self = Some (OForwardCurveSet s) /\
  exists l : loc, curves s !! ix = Some l /\ h !! l = Some (OForwardCurve c).

(** The index names of a curve set, in order. *)
Definition keys (s : ForwardCurveSet) : list string :=
  sorted (elements (dom (curves s))).

(** The order of [sorted]. *)
Definition str_le (a b : string) : Prop := String.leb a b = true.

End MarketSpec.

(** * math.exp and math.log

    [math.exp] and [math.log] with the range of a double.  The value of
    [math.exp] is rounded to nearest: it is beyond the doubles, an
    [OverflowError], from [2^1024 - 2^970] on, and it is [0.0] up to
    [2^-1075].  [math.log] raises on a value that is not positive. *)

Module PyMath.

Import Outcome.
Local Open Scope R_scope.

(** From this value on a real number rounds to the infinite double. *)
Definition overflow_threshold : R := IZR (2 ^ 1024 - 2 ^ 970).

(** Up to this value a positive real number rounds to the double [0.0]. *)
Definition underflow_threshold : R := / IZR (2 ^ 1075).

(** [math.exp(x)] *)
Definition math_exp (x : R) : outcome R :=
  if Rle_dec overflow_threshold (exp x) then Fail MathRangeError
  else if Rle_dec (exp x) underflow_threshold then Done 0
  else Done (exp x).

(** [math.log(x)] *)
Definition math_log (x : R) : outcome R :=
  if Rle_dec x 0 then Fail MathDomainError else Done (ln x).

End PyMath.

(** * The curve queries within the range of a double

    [discount_factor], [zero_rate] and the date queries of a curve set,
    translated once more with [math_exp] and [math_log] where the code
    calls [exp] and [log], and with the test for [None] of
    [discount_factor]; the arithmetic before them is exact as elsewhere.
    Where [math_exp] stays within the range these are the functions of
    [Curves] and [MarketQueries]. *)

Module FloatRange.

Import Outcome PyMath Curves MarketQueries.
Local Open Scope R_scope.
Local Open Scope outcome_scope.

(** [discount_factor(t)]; [t] may be [None]. *)
Definition discount_factor (self : ForwardCurve) (t : option R) : outcome R :=
  match t with
  | None => Fail TimeIsNone
  | Some t =>
      if Rle_dec t 0 then Done 1
      else
        let xs := year_fracs self in
        let ln_dfs := _pillar_ln_dfs self in
        if (length xs =? 1)%nat then
          (x1 <- of_result (index xs 0) ;;
           y1 <- of_result (index ln_dfs 0) ;;
           let ln_df_t :=
             if Rle_dec t x1 then _interp_linear t 0 x1 0 y1
             else _interp_linear t 0 x1 0 y1 in
           math_exp ln_df_t)
        else
          (xs_0 <- of_result (index xs 0) ;;
           if Rle_dec t xs_0 then
             (y_0 <- of_result (index ln_dfs 0) ;;
              math_exp (_interp_linear t 0 xs_0 0 y_0))
           else
             (xs_last <- of_result (index xs (-1)) ;;
              if Rge_dec t xs_last then
                (x0 <- of_result (index xs (-2)) ;;
                 x1 <- of_result (index xs (-1)) ;;
                 y0 <- of_result (index ln_dfs (-2)) ;;
                 y1 <- of_result (index ln_dfs (-1)) ;;
                 math_exp (_interp_linear t x0 x1 y0 y1))
              else
                let j := Z.of_nat (bisect_left xs t) in
                (x0 <- of_result (index xs (j - 1)) ;;
                 x1 <- of_result (index xs j) ;;
                 y0 <- of_result (index ln_dfs (j - 1)) ;;
                 y1 <- of_result (index ln_dfs j) ;;
                 math_exp (_interp_linear t x0 x1 y0 y1))))
  end.

Definition zero_rate (self : ForwardCurve) (t : R) : outcome R :=
  if Rle_dec t 0 then
    (p <- of_result (index (points self) 0) ;; Done (Curves.rate p))
  else
    (df <- discount_factor self (Some t) ;;
     ln_df <- math_log df ;;
     Done (- ln_df / t)).

(** [ForwardCurve.rate]: an alias of [zero_rate]. *)
Definition rate (self : ForwardCurve) (t : R) : outcome R :=
  zero_rate self t.

Definition rate_on_date (self : loc) (index_name : string) (d : date) : Q R :=
  qbind (get self index_name) (fun curve =>
    qbind (_t self d) (fun t =>
      qbind (the_curve curve) (fun c =>
        qlift (rate c t)))).

Definition df_on_date (self : loc) (index_name : string) (d : date) : Q R :=
  qbind (get self index_name) (fun curve =>
    qbind (_t self d) (fun t =>
      qbind (the_curve curve) (fun c =>
        qlift (discount_factor c (Some t))))).

End FloatRange.

Module FloatRangeSpec.

Import Curves.
Local Open Scope R_scope.

(** The year fraction of the last pillar. *)
Definition last_year_frac (c : ForwardCurve) : R :=
  nth (length (points c) - 1) (year_fracs c) 0.

(** The pillars whose ln(DF) lies between -700 and 700. *)
Definition pillars_within (c : ForwardCurve) : Prop :=
  Forall (fun p => -700 <= rate p * year_frac p <= 700) (points c).

(** A curve set of one steep curve, (1y, 0.10) and (2y, 0.20), as of
    2024-01-01 under ACT/365. *)
Definition steep_frame : DataFrame :=
  mkDataFrame required_columns
    [ mkRow "EUR" "1Y" (Some 0.10) (mkdate 2025 1 1) (Some 1);
      mkRow "EUR" "2Y" (Some 0.20) (mkdate 2026 1 1) (Some 2) ].

Definition steep_curve : ForwardCurve :=
  mkForwardCurve "EUR"
    [ mkCurvePoint 1 0.10 "1Y" (mkdate 2025 1 1);
      mkCurvePoint 2 0.20 "2Y" (mkdate 2026 1 1) ].

Definition steep_set : ForwardCurveSet :=
  mkForwardCurveSet (mkdate 2024 1 1) "ACT/365" 1%positive {[ "EUR"%string := 3%positive ]}.

Definition steep_heap : heap :=
  {[ 1%positive := ODataFrame steep_frame;
     2%positive := OForwardCurveSet steep_set;
     3%positive := OForwardCurve steep_curve ]}.

End FloatRangeSpec.

(** * engine/io/curves_forward_reader.py: dates and year fractions

    [enrich_with_dates] takes the long table that [wide_to_long] returns,
    with the columns IndexName, Tenor and FwdRate. *)

Module Reader.

Import Outcome DayCount DayCountBase Tenors.

(** A row of the long table before the dates are added. *)
Record LongRow : Type := mkLongRow {
  IndexName : string;
  Tenor : string;
  FwdRate : option R
}.

(** [Series.apply(f)]: the first exception ends the pass. *)
Fixpoint apply {A B : Type} (f : A -> outcome B) (l : list A) : outcome (list B) :=
  match l with
  | [] => Done []
  | x :: l' => (y <- f x ;; ys <- apply f l' ;; Done (y :: ys))%outcome
  end.

(** [try: add_tenor(analysis_date, t) except Exception: ...] *)
Definition rejects (analysis_date : date) (t : string) : bool :=
  match add_tenor analysis_date t with
  | Done _ => false
  | Fail _ => true
  end.

(** The frame with the two new columns. *)
Definition with_dates (df_long : list LongRow) (tenor_dates : list date)
  (year_fracs : list R) : DataFrame :=
  mkDataFrame ["IndexName"; "Tenor"; "FwdRate"; "TenorDate"; "YearFrac"]%string
    (map (fun x : LongRow * date * R =>
            let '(r, d, y) := x in
            mkRow (IndexName r) (Tenor r) (FwdRate r) d (Some y))
       (combine (combine df_long tenor_dates) year_fracs)).

Definition enrich_with_dates (df_long : list LongRow) (analysis_date : date)
  (base : string) : outcome DataFrame :=
  match df_long with
  | [] => Fail EmptyLongTable
  | _ :: _ =>
      (b <- normalize_daycount_base (Some base) ;;
       let unique_tenors := sorted (unique (map Tenor df_long)) in
       let invalid_tenors := List.filter (rejects analysis_date) unique_tenors in
       match invalid_tenors with
       | _ :: _ => Fail (UnsupportedTenors invalid_tenors)
       | [] =>
           tenor_dates <- apply (fun r => add_tenor analysis_date (Tenor r)) df_long ;;
           year_fracs <-
             apply (fun d => of_result (yearfrac analysis_date d b)) tenor_dates ;;
           Done (with_dates df_long tenor_dates year_fracs)
       end)%outcome
  end.

End Reader.

Module TableSpec.

Import Curves.

(** The rows of an index in a table. *)
Definition index_rows (df : DataFrame) (ix : string) : list Row :=
  List.filter (fun r => String.eqb (IndexName r) ix) (rows df).

(** Point [p] is the pillar of row [r]: the year fraction and the rate of
    the row, its tenor stripped and in upper case, and its tenor date. *)
Definition pillar_of (r : Row) (p : CurvePoint) : Prop :=
  YearFrac r = Some (year_frac p) /\ FwdRate r = Some (rate p) /\
  tenor p = upper (strip (Tenor r)) /\ tenor_date p = TenorDate r.

End TableSpec.

(** * The embedding on known values *)

Section KnownValues.

Import DayCount Scenarios.

Example strip_blanks : strip "  EUR	 "%string = "EUR"%string.
Proof. reflexivity. Qed.

Example strip_inner_blank : strip " 30/360 US "%string = "30/360 US"%string.
Proof. reflexivity. Qed.

Example upper_tenor : upper "1y"%string = "1Y"%string.
Proof. reflexivity. Qed.

Example sorted_names : sorted ["USD"; "EUR"; "GBP"]%string = ["EUR"; "GBP"; "USD"]%string.
Proof. reflexivity. Qed.

Example unique_names :
  unique ["EUR"; "USD"; "EUR"; "EUR"; "USD"]%string = ["EUR"; "USD"]%string.
Proof. reflexivity. Qed.

Example index_last_item : index [10; 20; 30] (-1) = Ok 30.
Proof. reflexivity. Qed.

Example index_out_of_range : index [10; 20; 30] (-4) = Raise IndexError.
Proof. reflexivity. Qed.

(** [date(2024, 1, 1).toordinal()] *)
Example toordinal_2024 : toordinal (mkdate 2024 1 1) = 738886.
Proof. reflexivity. Qed.

Example leap_years :
  map is_leap_year [1900; 2000; 2023; 2024] = [false; true; false; true].
Proof. reflexivity. Qed.

Example february_29_2023_is_no_date : date_new 2023 2 29 = Raise DateOutOfRange.
Proof. reflexivity. Qed.

(** ACT/360 from 2024-01-01 to 2024-07-01: 182 days. *)
Example act_360_half_year :
  yearfrac (mkdate 2024 1 1) (mkdate 2024 7 1) BASE_ACT_360 = Ok (182 / 360)%R.
Proof. reflexivity. Qed.

Example missing_rate_column :
  _validate_curve_points_columns
    (mkDataFrame ["IndexName"; "Tenor"; "TenorDate"; "YearFrac"]%string [])
  = Raise (InvalidCurveTable ["FwdRate"%string]).
Proof. reflexivity. Qed.

End KnownValues.

(** * Facts about dates *)

Section DateFacts.

Import DayCount.

Lemma is_leap_agree (y : Z) : _is_leap y = is_leap_year y.
Proof.
  unfold _is_leap, is_leap_year.
  destruct (Z.eqb_spec (y mod 4) 0), (Z.eqb_spec (y mod 100) 0),
    (Z.eqb_spec (y mod 400) 0); simpl; try reflexivity;
    exfalso; Z.div_mod_to_equations; lia.
Qed.

Lemma diy_pos (y : Z) : 0 < diy y.
Proof. unfold diy. destruct (is_leap_year y); lia. Qed.

Lemma days_before_year_succ (y : Z) :
  _days_before_year (y + 1) - _days_before_year y = diy y.
Proof.
  unfold _days_before_year, diy, is_leap_year.
  replace (y + 1 - 1) with y by lia.
  destruct (Z.eqb_spec (y mod 4) 0), (Z.eqb_spec (y mod 100) 0),
    (Z.eqb_spec (y mod 400) 0); simpl; Z.div_mod_to_equations; lia.
Qed.

Lemma jan1_ordinal_succ (y : Z) : jan1_ordinal (y + 1) - jan1_ordinal y = diy y.
Proof.
  unfold jan1_ordinal, _ymd2ord, _days_before_month. simpl.
  pose proof (days_before_year_succ y). lia.
Qed.

Lemma jan1_ordinal_mono (y y' : Z) : y <= y' -> jan1_ordinal y <= jan1_ordinal y'.
Proof.
  intros Hle. replace y' with (y + Z.of_nat (Z.to_nat (y' - y))) by lia.
  induction (Z.to_nat (y' - y)) as [|n IH]; [ replace (y + Z.of_nat 0) with y by lia; lia |].
  replace (y + Z.of_nat (S n)) with (y + Z.of_nat n + 1) by lia.
  pose proof (jan1_ordinal_succ (y + Z.of_nat n)).
  pose proof (diy_pos (y + Z.of_nat n)). lia.
Qed.

Lemma valid_date_inv (d : date) :
  valid_date d = true ->
  1 <= year d <= 9999 /\ 1 <= month d <= 12 /\
  1 <= day d <= _days_in_month (year d) (month d).
Proof.
  unfold valid_date, MINYEAR, MAXYEAR.
  rewrite !Bool.andb_true_iff, !Z.leb_le. lia.
Qed.

(** A date lies within its calendar year. *)
Lemma toordinal_within_year (d : date) :
  valid_date d = true ->
  jan1_ordinal (year d) <= toordinal d < jan1_ordinal (year d + 1).
Proof.
  intros Hv. destruct (valid_date_inv d Hv) as (_ & Hm & Hd).
  pose proof (jan1_ordinal_succ (year d)) as Hs.
  unfold toordinal, jan1_ordinal, _ymd2ord in *.
  unfold diy in Hs. rewrite <- is_leap_agree in Hs.
  assert (Hcases : month d = 1 \/ month d = 2 \/ month d = 3 \/ month d = 4 \/
                   month d = 5 \/ month d = 6 \/ month d = 7 \/ month d = 8 \/
                   month d = 9 \/ month d = 10 \/ month d = 11 \/ month d = 12) by lia.
  unfold _days_before_month, _days_in_month in *.
  repeat (destruct Hcases as [Hc | Hcases]; [rewrite Hc in *; clear Hc|]);
    try rewrite Hcases in *;
    simpl in *; destruct (_is_leap (year d)); simpl in *; lia.
Qed.

Lemma days_before_month_lt (y m m' : Z) :
  1 <= m -> m < m' -> m' <= 12 ->
  _days_before_month y m + _days_in_month y m <= _days_before_month y m'.
Proof.
  intros H1 H2 H3.
  assert (Hm : m = 1 \/ m = 2 \/ m = 3 \/ m = 4 \/ m = 5 \/ m = 6 \/ m = 7 \/
               m = 8 \/ m = 9 \/ m = 10 \/ m = 11) by lia.
  assert (Hm' : m' = 2 \/ m' = 3 \/ m' = 4 \/ m' = 5 \/ m' = 6 \/ m' = 7 \/
                m' = 8 \/ m' = 9 \/ m' = 10 \/ m' = 11 \/ m' = 12) by lia.
  unfold _days_before_month, _days_in_month.
  repeat (destruct Hm as [Hm | Hm]; [subst m|]); try subst m;
    repeat (destruct Hm' as [Hm' | Hm']; [subst m'|]); try subst m';
    try lia; simpl; destruct (_is_leap y); simpl; lia.
Qed.

(** On date objects the tuple order is the order of the ordinals. *)
Lemma date_ltb_toordinal (a b : date) :
  valid_date a = true -> valid_date b = true ->
  date_ltb a b = true <-> toordinal a < toordinal b.
Proof.
  intros Ha Hb.
  pose proof (toordinal_within_year a Ha) as Wa.
  pose proof (toordinal_within_year b Hb) as Wb.
  destruct (valid_date_inv a Ha) as (_ & Hma & Hda).
  destruct (valid_date_inv b Hb) as (_ & Hmb & Hdb).
  unfold date_ltb.
  rewrite Bool.orb_true_iff, Bool.andb_true_iff, Bool.orb_true_iff,
    Bool.andb_true_iff, !Z.ltb_lt, !Z.eqb_eq.
  destruct (Z.lt_trichotomy (year a) (year b)) as [Hy | [Hy | Hy]].
  - pose proof (jan1_ordinal_mono (year a + 1) (year b) ltac:(lia)). lia.
  - unfold toordinal, _ymd2ord. rewrite Hy in *.
    destruct (Z.lt_trichotomy (month a) (month b)) as [Hm | [Hm | Hm]].
    + pose proof (days_before_month_lt (year b) (month a) (month b)). lia.
    + rewrite Hm in *. lia.
    + pose proof (days_before_month_lt (year b) (month b) (month a)). lia.
  - pose proof (jan1_ordinal_mono (year b + 1) (year a) ltac:(lia)). lia.
Qed.

Lemma date_eqb_eq (a b : date) : date_eqb a b = true <-> a = b.
Proof.
  unfold date_eqb. rewrite !Bool.andb_true_iff, !Z.eqb_eq.
  destruct a, b; simpl. split; [intros [[-> ->] ->]; reflexivity | intros [= -> -> ->]; auto].
Qed.

Lemma date_ltb_irrefl (d : date) : date_ltb d d = false.
Proof.
  unfold date_ltb. rewrite !Z.ltb_irrefl, !Z.eqb_refl. reflexivity.
Qed.

End DateFacts.

(** * Year fractions *)

Section YearFracFacts.

Import DayCount.

Lemma date_new_jan1 (y : Z) :
  1 <= y <= 9999 -> date_new y 1 1 = Ok (mkdate y 1 1).
Proof.
  intros Hy. unfold date_new, valid_date, MINYEAR, MAXYEAR. simpl.
  destruct (Z.leb_spec 1 y); [|lia]. destruct (Z.leb_spec y 9999); [|lia].
  reflexivity.
Qed.

Lemma date_ltb_false_le (a b : date) :
  valid_date a = true -> valid_date b = true ->
  date_ltb b a = false -> toordinal a <= toordinal b.
Proof.
  intros Ha Hb Hlt. destruct (Z.le_gt_cases (toordinal a) (toordinal b)); [assumption|].
  apply (date_ltb_toordinal b a Hb Ha) in H. congruence.
Qed.

Lemma date_ltb_false_year (a b : date) :
  date_ltb b a = false -> year a <= year b.
Proof.
  unfold date_ltb. intros H. apply Bool.orb_false_iff in H as [H _].
  apply Z.ltb_ge in H. exact H.
Qed.

(** What [yearfrac_act_act_isda] returns on ordered dates. *)
Lemma yearfrac_act_act_isda_value (d0 d1 : date) :
  valid_date d0 = true -> valid_date d1 = true -> date_ltb d1 d0 = false ->
  yearfrac_act_act_isda d0 d1 =
  Ok (if date_eqb d0 d1 then 0
      else if year d0 =? year d1
           then IZR (toordinal d1 - toordinal d0) / IZR (diy (year d0))
           else IZR (jan1_ordinal (year d0 + 1) - toordinal d0) / IZR (diy (year d0))
                + IZR (year d1 - year d0 - 1)
                + IZR (toordinal d1 - jan1_ordinal (year d1)) / IZR (diy (year d1)))%R.
Proof.
  intros H0 H1 Hlt. unfold yearfrac_act_act_isda. rewrite Hlt.
  destruct (date_eqb d0 d1); [reflexivity|].
  destruct (Z.eqb_spec (year d0) (year d1)) as [Hy|Hy]; [reflexivity|].
  pose proof (date_ltb_false_year _ _ Hlt) as Hle.
  destruct (valid_date_inv d0 H0) as (Hy0 & _). destruct (valid_date_inv d1 H1) as (Hy1 & _).
  rewrite (date_new_jan1 (year d0 + 1)) by lia. simpl.
  rewrite (date_new_jan1 (year d1)) by lia. simpl.
  rewrite Z.max_r by lia. reflexivity.
Qed.

Lemma sum_year_fragments_app (y : Z) (a b : nat) (d0 d1 : date) :
  sum_year_fragments y (a + b) d0 d1 =
  (sum_year_fragments y a d0 d1 + sum_year_fragments (y + Z.of_nat a) b d0 d1)%R.
Proof.
  revert y. induction a as [|a IH]; intros y.
  - cbn [Nat.add sum_year_fragments Z.of_nat]. rewrite Z.add_0_r. lra.
  - cbn [Nat.add sum_year_fragments]. rewrite IH.
    replace (y + 1 + Z.of_nat a) with (y + Z.of_nat (S a)) by lia.
    cbn [sum_year_fragments]. lra.
Qed.

Lemma IZR_diy_neq_0 (y : Z) : IZR (diy y) <> 0%R.
Proof. apply not_0_IZR. pose proof (diy_pos y). lia. Qed.

(** A calendar year that lies wholly inside the interval counts as 1. *)
Lemma whole_year_fragment (y : Z) (d0 d1 : date) :
  toordinal d0 <= jan1_ordinal y -> jan1_ordinal (y + 1) <= toordinal d1 ->
  (IZR (days_within_year y d0 d1) / IZR (diy y) = 1)%R.
Proof.
  intros Hlo Hhi. unfold days_within_year.
  pose proof (jan1_ordinal_succ y) as Hs. pose proof (diy_pos y) as Hp.
  rewrite Z.min_r, Z.max_r, Z.max_r by lia. rewrite Hs.
  apply Rinv_r, IZR_diy_neq_0.
Qed.

Lemma sum_whole_years (y : Z) (n : nat) (d0 d1 : date) :
  toordinal d0 <= jan1_ordinal y ->
  jan1_ordinal (y + Z.of_nat n) <= toordinal d1 ->
  sum_year_fragments y n d0 d1 = IZR (Z.of_nat n).
Proof.
  revert y. induction n as [|n IH]; intros y Hlo Hhi; [reflexivity|].
  cbn [sum_year_fragments]. fold (diy y).
  pose proof (jan1_ordinal_mono y (y + 1) ltac:(lia)).
  pose proof (jan1_ordinal_mono (y + 1) (y + Z.of_nat (S n)) ltac:(lia)).
  rewrite whole_year_fragment by lia.
  rewrite IH by (try replace (y + 1 + Z.of_nat n) with (y + Z.of_nat (S n)) by lia; lia).
  rewrite Nat2Z.inj_succ, succ_IZR. lra.
Qed.

Lemma isda_by_calendar_years_value (d0 d1 : date) :
  valid_date d0 = true -> valid_date d1 = true -> date_ltb d1 d0 = false ->
  isda_by_calendar_years d0 d1 =
  (if date_eqb d0 d1 then 0
   else if year d0 =? year d1
        then IZR (toordinal d1 - toordinal d0) / IZR (diy (year d0))
        else IZR (jan1_ordinal (year d0 + 1) - toordinal d0) / IZR (diy (year d0))
             + IZR (year d1 - year d0 - 1)
             + IZR (toordinal d1 - jan1_ordinal (year d1)) / IZR (diy (year d1)))%R.
Proof.
  intros H0 H1 Hlt.
  pose proof (date_ltb_false_le _ _ H0 H1 Hlt) as Hord.
  pose proof (date_ltb_false_year _ _ Hlt) as Hyle.
  pose proof (toordinal_within_year d0 H0) as W0.
  pose proof (toordinal_within_year d1 H1) as W1.
  unfold isda_by_calendar_years.
  destruct (Z.eqb_spec (year d0) (year d1)) as [Hy|Hy].
  - rewrite <- Hy in *. replace (year d0 - year d0 + 1) with 1 by lia.
    change (Z.to_nat 1) with 1%nat. cbn [sum_year_fragments].
    fold (diy (year d0)). unfold days_within_year.
    rewrite Z.min_l, (Z.max_l (toordinal d0)), Z.max_r by lia.
    destruct (date_eqb d0 d1) eqn:He.
    + apply date_eqb_eq in He. subst d1.
      replace (toordinal d0 - toordinal d0) with 0 by lia.
      unfold Rdiv. rewrite Rmult_0_l. lra.
    + lra.
  - destruct (date_eqb d0 d1) eqn:He.
    { apply date_eqb_eq in He. subst d1. lia. }
    set (m := Z.to_nat (year d1 - year d0 - 1)).
    replace (Z.to_nat (year d1 - year d0 + 1)) with (S (m + 1)) by (unfold m; lia).
    cbn [sum_year_fragments]. rewrite sum_year_fragments_app.
    cbn [sum_year_fragments]. fold (diy (year d0)).
    replace (year d0 + 1 + Z.of_nat m) with (year d1) by (unfold m; lia).
    fold (diy (year d1)).
    pose proof (jan1_ordinal_mono (year d0 + 1) (year d1) ltac:(lia)) as Hj.
    rewrite sum_whole_years;
      [| lia | replace (year d0 + 1 + Z.of_nat m) with (year d1) by (unfold m; lia); lia].
    replace (Z.of_nat m) with (year d1 - year d0 - 1) by (unfold m; lia).
    unfold days_within_year.
    rewrite (Z.min_r (toordinal d1) (jan1_ordinal (year d0 + 1))) by lia.
    rewrite (Z.max_l (toordinal d0) (jan1_ordinal (year d0))) by lia.
    rewrite (Z.min_l (toordinal d1) (jan1_ordinal (year d1 + 1))) by lia.
    rewrite (Z.max_r (toordinal d0) (jan1_ordinal (year d1))) by lia.
    rewrite !Z.max_r by lia. lra.
Qed.

(** The dispatch of [yearfrac] on the two bases that have a function of
    their own. *)
Lemma yearfrac_act_act (d0 d1 : date) :
  date_ltb d1 d0 = false ->
  yearfrac d0 d1 BASE_ACT_ACT = yearfrac_act_act_isda d0 d1.
Proof. intros Hlt. unfold yearfrac. rewrite Hlt. reflexivity. Qed.

Lemma yearfrac_30_360 (d0 d1 : date) :
  date_ltb d1 d0 = false ->
  yearfrac d0 d1 BASE_30_360 = yearfrac_30_360_us d0 d1.
Proof. intros Hlt. unfold yearfrac. rewrite Hlt. reflexivity. Qed.

(** From 2024-01-31 to 2024-02-29 the 30/360 day count is 30. *)
Lemma yearfrac_30_360_jan31_feb29 :
  yearfrac (mkdate 2024 1 31) (mkdate 2024 2 29) BASE_30_360 = Ok (30 / 360)%R.
Proof.
  rewrite yearfrac_30_360 by reflexivity. unfold yearfrac_30_360_us.
  change (date_ltb (mkdate 2024 2 29) (mkdate 2024 1 31)) with false. cbv iota zeta.
  match goal with |- Ok (IZR ?z / 360)%R = _ => change z with 30 end.
  reflexivity.
Qed.

End YearFracFacts.

Section YearFracClaims.

Import DayCount.

(** C7. Under ACT/ACT-ISDA the interval from [d0] to [d1] is split at the
    calendar-year boundaries: [yearfrac] returns the sum, over the calendar
    years from [d0]'s to [d1]'s, of the days of the interval that fall in the
    year divided by 366 for a leap year and 365 otherwise; a calendar year
    lying wholly inside the interval contributes exactly 1.  From 2023-12-01
    to 2024-03-01 the result is 31/365 + 60/366. *)
Theorem C7_act_act_isda_calendar_year_split :
  (forall d0 d1 : date,
      valid_date d0 = true -> valid_date d1 = true -> date_ltb d1 d0 = false ->
      yearfrac d0 d1 BASE_ACT_ACT = Ok (isda_by_calendar_years d0 d1)) /\
  (forall (y : Z) (d0 d1 : date),
      toordinal d0 <= jan1_ordinal y -> jan1_ordinal (y + 1) <= toordinal d1 ->
      (IZR (days_within_year y d0 d1) / IZR (if is_leap_year y then 366 else 365) = 1)%R) /\
  yearfrac (mkdate 2023 12 1) (mkdate 2024 3 1) BASE_ACT_ACT
  = Ok (31 / 365 + 60 / 366)%R.
Proof.
  split; [|split].
  - intros d0 d1 H0 H1 Hlt. rewrite yearfrac_act_act by exact Hlt.
    rewrite yearfrac_act_act_isda_value, isda_by_calendar_years_value by assumption.
    reflexivity.
  - intros y d0 d1 Hlo Hhi. apply (whole_year_fragment y d0 d1 Hlo Hhi).
  - rewrite yearfrac_act_act, yearfrac_act_act_isda_value by reflexivity.
    change (date_eqb (mkdate 2023 12 1) (mkdate 2024 3 1)) with false.
    change (year (mkdate 2023 12 1) =? year (mkdate 2024 3 1)) with false.
    cbv iota.
    change (jan1_ordinal (year (mkdate 2023 12 1) + 1) - toordinal (mkdate 2023 12 1))
      with 31.
    change (year (mkdate 2024 3 1) - year (mkdate 2023 12 1) - 1) with 0.
    change (toordinal (mkdate 2024 3 1) - jan1_ordinal (year (mkdate 2024 3 1))) with 60.
    change (diy (year (mkdate 2023 12 1))) with 365.
    change (diy (year (mkdate 2024 3 1))) with 366.
    f_equal. lra.
Qed.

Lemma C7_witness :
  valid_date (mkdate 2023 12 31) = true /\ valid_date (mkdate 2025 1 1) = true /\
  date_ltb (mkdate 2025 1 1) (mkdate 2023 12 31) = false /\
  toordinal (mkdate 2023 12 31) <= jan1_ordinal 2024 /\
  jan1_ordinal (2024 + 1) <= toordinal (mkdate 2025 1 1) /\
  yearfrac (mkdate 2023 12 31) (mkdate 2025 1 1) BASE_ACT_ACT
  = Ok (isda_by_calendar_years (mkdate 2023 12 31) (mkdate 2025 1 1)) /\
  (IZR (days_within_year 2024 (mkdate 2023 12 31) (mkdate 2025 1 1))
   / IZR (if is_leap_year 2024 then 366 else 365) = 1)%R.
Proof.
  assert (Hlo : toordinal (mkdate 2023 12 31) <= jan1_ordinal 2024)
    by (vm_compute; discriminate).
  assert (Hhi : jan1_ordinal (2024 + 1) <= toordinal (mkdate 2025 1 1))
    by (vm_compute; discriminate).
  split; [reflexivity|]. split; [reflexivity|]. split; [reflexivity|].
  split; [exact Hlo|]. split; [exact Hhi|].
  split.
  - exact (proj1 C7_act_act_isda_calendar_year_split
             (mkdate 2023 12 31) (mkdate 2025 1 1) eq_refl eq_refl eq_refl).
  - exact (proj1 (proj2 C7_act_act_isda_calendar_year_split)
             2024 (mkdate 2023 12 31) (mkdate 2025 1 1) Hlo Hhi).
Defined.

(** C8. For date objects [d0], [d1] and each of the four canonical bases,
    [yearfrac] raises the date-order error exactly when [d1 < d0], returns a
    number otherwise, and returns 0 when [d0 == d1]. *)
Theorem C8_yearfrac_date_order (d0 d1 : date) (base : string) :
  valid_date d0 = true -> valid_date d1 = true -> In base canonical_bases ->
  (yearfrac d0 d1 base = Raise InvalidDateOrder <-> date_ltb d1 d0 = true) /\
  (date_ltb d1 d0 = false -> exists v : R, yearfrac d0 d1 base = Ok v) /\
  (d0 = d1 -> yearfrac d0 d1 base = Ok 0%R).
Proof.
  intros H0 H1 Hb.
  assert (Hval : date_ltb d1 d0 = false -> exists v : R, yearfrac d0 d1 base = Ok v).
  { intros Hlt. simpl in Hb. destruct Hb as [<- | [<- | [<- | [<- | []]]]].
    - unfold yearfrac. rewrite Hlt. eexists. reflexivity.
    - unfold yearfrac. rewrite Hlt. eexists. reflexivity.
    - rewrite yearfrac_act_act, yearfrac_act_act_isda_value by assumption.
      eexists. reflexivity.
    - rewrite yearfrac_30_360 by exact Hlt.
      unfold yearfrac_30_360_us. rewrite Hlt. eexists. reflexivity. }
  split; [|split].
  - split.
    + intros Hr. destruct (date_ltb d1 d0) eqn:Hlt; [reflexivity|].
      destruct (Hval eq_refl) as [v Hv]. congruence.
    + intros Hlt. unfold yearfrac. rewrite Hlt. reflexivity.
  - exact Hval.
  - intros <-. pose proof (date_ltb_irrefl d0) as Hirr.
    assert (Hz : forall k : R, (IZR (days_between d0 d0) / k = 0)%R).
    { intros k. unfold days_between. rewrite Z.sub_diag. unfold Rdiv. apply Rmult_0_l. }
    simpl in Hb. destruct Hb as [<- | [<- | [<- | [<- | []]]]].
    + unfold yearfrac. rewrite Hirr. cbn [String.eqb]. rewrite Hz. reflexivity.
    + unfold yearfrac. rewrite Hirr.
      change (String.eqb BASE_ACT_365 BASE_ACT_360) with false.
      change (String.eqb BASE_ACT_365 BASE_ACT_365) with true. cbv iota.
      rewrite Hz. reflexivity.
    + rewrite yearfrac_act_act by exact Hirr.
      unfold yearfrac_act_act_isda. rewrite Hirr.
      rewrite (proj2 (date_eqb_eq d0 d0) eq_refl). reflexivity.
    + rewrite yearfrac_30_360 by exact Hirr.
      unfold yearfrac_30_360_us. rewrite Hirr. cbv zeta.
      f_equal.
      match goal with
      | |- (IZR ?z / 360 = 0)%R => replace z with 0; [unfold Rdiv; apply Rmult_0_l|]
      end.
      unfold in_30_31.
      destruct (_is_last_day_of_february d0); simpl.
      * lia.
      * destruct (Z.eqb_spec (day d0) 31) as [E|E].
        -- rewrite E. simpl. lia.
        -- simpl. lia.
Qed.

Lemma C8_witness :
  valid_date (mkdate 2024 2 29) = true /\ valid_date (mkdate 2024 3 1) = true /\
  In BASE_30_360 canonical_bases /\
  date_ltb (mkdate 2024 2 29) (mkdate 2024 3 1) = true /\
  yearfrac (mkdate 2024 2 29) (mkdate 2024 2 29) BASE_30_360 = Ok 0%R /\
  yearfrac (mkdate 2024 3 1) (mkdate 2024 2 29) BASE_30_360 = Raise InvalidDateOrder.
Proof.
  assert (Hin : In BASE_30_360 canonical_bases) by (simpl; auto).
  split; [reflexivity|]. split; [reflexivity|]. split; [exact Hin|].
  split; [reflexivity|].
  split.
  - exact (proj2 (proj2 (C8_yearfrac_date_order (mkdate 2024 2 29) (mkdate 2024 2 29)
                           BASE_30_360 eq_refl eq_refl Hin)) eq_refl).
  - exact (proj2 (proj1 (C8_yearfrac_date_order (mkdate 2024 3 1) (mkdate 2024 2 29)
                           BASE_30_360 eq_refl eq_refl Hin)) eq_refl).
Defined.

(** C5 as stated: the 30/360-US year fraction from 2024-01-31 to 2024-02-29
    is not 0. *)
Lemma C5_counterexample :
  yearfrac (mkdate 2024 1 31) (mkdate 2024 2 29) BASE_30_360 <> Ok 0%R.
Proof. rewrite yearfrac_30_360_jan31_feb29. intros [= H]. lra. Qed.

(** C5, amended. From 2024-01-31 to 2024-02-29 both days of the month are
    clamped to 30 (the day delta is zero) and the one month between them
    counts 30 days: the 30/360-US year fraction is 30/360. *)
Theorem C5_30_360_us_january_end_to_february_end :
  yearfrac (mkdate 2024 1 31) (mkdate 2024 2 29) BASE_30_360 = Ok (30 / 360)%R.
Proof. exact yearfrac_30_360_jan31_feb29. Qed.

End YearFracClaims.

(** * Curves *)

Section CurveFacts.
Import CurveSpec.

Import Curves.
Local Open Scope R_scope.


Lemma index_nat {A : Type} (xs : list A) (k : nat) (d : A) :
  (k < length xs)%nat -> index xs (Z.of_nat k) = Ok (nth k xs d).
Proof.
  intros Hk. unfold index. cbv zeta.
  assert (E1 : (Z.of_nat k <? 0)%Z = false) by (apply Z.ltb_ge; lia).
  assert (E2 : (Z.of_nat (length xs) <=? Z.of_nat k)%Z = false) by (apply Z.leb_gt; lia).
  rewrite E1. cbv iota. rewrite E1, E2. cbn [orb]. rewrite Nat2Z.id.
  destruct (nth_error xs k) eqn:E.
  - f_equal. symmetry. apply nth_error_nth. exact E.
  - apply nth_error_None in E. lia.
Qed.

Lemma index_neg {A : Type} (xs : list A) (k : nat) (d : A) :
  (1 <= k <= length xs)%nat ->
  index xs (- Z.of_nat k) = Ok (nth (length xs - k) xs d).
Proof.
  intros Hk. unfold index. cbv zeta.
  assert (E1 : (- Z.of_nat k <? 0)%Z = true) by (apply Z.ltb_lt; lia).
  assert (E2 : (- Z.of_nat k + Z.of_nat (length xs) <? 0)%Z = false)
    by (apply Z.ltb_ge; lia).
  assert (E3 : (Z.of_nat (length xs) <=? - Z.of_nat k + Z.of_nat (length xs))%Z = false)
    by (apply Z.leb_gt; lia).
  rewrite E1. cbv iota. rewrite E2, E3. cbn [orb].
  replace (Z.to_nat (- Z.of_nat k + Z.of_nat (length xs))) with (length xs - k)%nat by lia.
  destruct (nth_error xs (length xs - k)) eqn:E.
  - f_equal. symmetry. apply nth_error_nth. exact E.
  - apply nth_error_None in E. lia.
Qed.

Lemma sorted_nth_lt (xs : list R) (i j : nat) :
  StronglySorted Rlt xs -> (i < j < length xs)%nat -> nth i xs 0 < nth j xs 0.
Proof.
  intros Hs. revert i j. induction Hs as [|x xs Hs IH Hall]; intros i j Hij.
  - simpl in Hij. lia.
  - destruct j as [|j]; [lia|]. simpl in Hij.
    destruct i as [|i].
    + simpl. apply (proj1 (List.Forall_forall _ _) Hall), nth_In. lia.
    + simpl. apply IH. lia.
Qed.

Lemma sorted_nth_le (xs : list R) (i j : nat) :
  StronglySorted Rlt xs -> (i <= j < length xs)%nat -> nth i xs 0 <= nth j xs 0.
Proof.
  intros Hs Hij. destruct (Nat.eq_dec i j) as [->|Hne]; [lra|].
  apply Rlt_le, sorted_nth_lt; [assumption|lia].
Qed.

(** The binary search returns the insertion point: everything before it is
    below [x], everything from it on is at least [x]. *)
Lemma bisect_loop_spec (a : list R) (x : R) :
  StronglySorted Rlt a ->
  forall (fuel lo hi : nat),
    (lo <= hi <= length a)%nat -> (hi - lo < fuel)%nat ->
    (forall i, (i < lo)%nat -> nth i a 0 < x) ->
    (forall i, (hi <= i < length a)%nat -> x <= nth i a 0) ->
    let r := bisect_loop fuel a x lo hi in
    (lo <= r <= hi)%nat /\
    (forall i, (i < r)%nat -> nth i a 0 < x) /\
    (forall i, (r <= i < length a)%nat -> x <= nth i a 0).
Proof.
  intros Hs. induction fuel as [|fuel IH]; intros lo hi Hb Hf Hlo Hhi; [lia|].
  cbn [bisect_loop]. destruct (Nat.ltb_spec lo hi) as [Hlt|Hge].
  - assert (Hmid : (lo <= (lo + hi) / 2 < hi)%nat).
    { split; [apply Nat.div_le_lower_bound; lia | apply Nat.Div0.div_lt_upper_bound; lia]. }
    set (mid := ((lo + hi) / 2)%nat) in *.
    destruct (Rlt_dec (nth mid a 0) x) as [Hx|Hx].
    + specialize (IH (mid + 1)%nat hi ltac:(lia) ltac:(lia)).
      destruct IH as (Hr & Hbelow & Habove).
      * intros i Hi. pose proof (sorted_nth_le a i mid Hs ltac:(lia)). lra.
      * exact Hhi.
      * cbv zeta. split; [lia|]. split; assumption.
    + specialize (IH lo mid ltac:(lia) ltac:(lia)).
      destruct IH as (Hr & Hbelow & Habove).
      * exact Hlo.
      * intros i Hi. pose proof (sorted_nth_le a mid i Hs ltac:(lia)). lra.
      * cbv zeta. split; [lia|]. split; assumption.
  - cbv zeta. assert (lo = hi) by lia. subst hi. split; [lia|]. split; assumption.
Qed.

Lemma bisect_left_spec (a : list R) (x : R) :
  StronglySorted Rlt a ->
  (bisect_left a x <= length a)%nat /\
  (forall i, (i < bisect_left a x)%nat -> nth i a 0 < x) /\
  (forall i, (bisect_left a x <= i < length a)%nat -> x <= nth i a 0).
Proof.
  intros Hs. unfold bisect_left.
  destruct (bisect_loop_spec a x Hs (S (length a)) 0%nat (length a)) as (H1 & H2 & H3);
    try lia.
  repeat split; try assumption; lia.
Qed.

(** Between two adjacent pillars the search lands on the upper one. *)
Lemma bisect_left_between (a : list R) (x : R) (i : nat) :
  StronglySorted Rlt a -> (S i < length a)%nat ->
  nth i a 0 < x <= nth (S i) a 0 ->
  bisect_left a x = S i.
Proof.
  intros Hs Hi [Hlo Hhi].
  destruct (bisect_left_spec a x Hs) as (Hlen & Hbelow & Habove).
  destruct (Nat.lt_trichotomy (bisect_left a x) (S i)) as [H|[H|H]].
  - specialize (Habove i ltac:(lia)). lra.
  - exact H.
  - specialize (Hbelow (S i) H). lra.
Qed.


Lemma index_first {A : Type} (xs : list A) (d : A) :
  (1 <= length xs)%nat -> index xs 0 = Ok (nth 0 xs d).
Proof. intros H. apply (index_nat xs 0 d). lia. Qed.

Lemma index_last {A : Type} (xs : list A) (d : A) :
  (1 <= length xs)%nat -> index xs (-1) = Ok (nth (length xs - 1) xs d).
Proof. intros H. apply (index_neg xs 1 d). lia. Qed.

Lemma index_before_last {A : Type} (xs : list A) (d : A) :
  (2 <= length xs)%nat -> index xs (-2) = Ok (nth (length xs - 2) xs d).
Proof. intros H. apply (index_neg xs 2 d). lia. Qed.

Lemma index_succ_pred {A : Type} (xs : list A) (i : nat) (d : A) :
  (i < length xs)%nat -> index xs (Z.of_nat (S i) - 1) = Ok (nth i xs d).
Proof.
  intros H. replace (Z.of_nat (S i) - 1)%Z with (Z.of_nat i) by lia.
  apply index_nat. exact H.
Qed.

Lemma length_year_fracs (c : ForwardCurve) : length (year_fracs c) = length (points c).
Proof. unfold year_fracs. apply length_map. Qed.

Lemma length_pillar_ln_dfs (c : ForwardCurve) :
  length (_pillar_ln_dfs c) = length (points c).
Proof. unfold _pillar_ln_dfs. apply length_map. Qed.

(** ln(DF_i) = -rate_i * year_frac_i at every pillar. *)
Lemma nth_pillar_ln_dfs (c : ForwardCurve) (i : nat) :
  (i < length (points c))%nat ->
  nth i (_pillar_ln_dfs c) 0 = - nth i (rates c) 0 * nth i (year_fracs c) 0.
Proof.
  intros Hi. unfold _pillar_ln_dfs, rates, year_fracs.
  set (d := mkCurvePoint 0 0 EmptyString (mkdate 1 1 1)).
  rewrite (nth_indep (map _ (points c)) 0 ((fun p => - rate p * year_frac p) d))
    by (rewrite length_map; exact Hi).
  rewrite (nth_indep (map rate (points c)) 0 (rate d)) by (rewrite length_map; exact Hi).
  rewrite (nth_indep (map year_frac (points c)) 0 (year_frac d))
    by (rewrite length_map; exact Hi).
  rewrite (map_nth rate), (map_nth year_frac).
  exact (map_nth (fun p => - rate p * year_frac p) (points c) d i).
Qed.

(** ** The branches of [discount_factor] *)

Lemma discount_factor_nonpositive (c : ForwardCurve) (t : R) :
  t <= 0 -> discount_factor c t = Ok 1.
Proof.
  intros Ht. unfold discount_factor. destruct (Rle_dec t 0); [reflexivity|contradiction].
Qed.

Lemma discount_factor_single (c : ForwardCurve) (t : R) :
  length (points c) = 1%nat -> 0 < t ->
  discount_factor c t =
  Ok (exp (_interp_linear t 0 (nth 0 (year_fracs c) 0) 0 (nth 0 (_pillar_ln_dfs c) 0))).
Proof.
  intros Hn Ht. unfold discount_factor.
  destruct (Rle_dec t 0); [lra|].
  rewrite length_year_fracs, Hn. cbn [Nat.eqb].
  rewrite (index_first (year_fracs c) 0) by (rewrite length_year_fracs; lia).
  rewrite (index_first (_pillar_ln_dfs c) 0) by (rewrite length_pillar_ln_dfs; lia).
  cbn [rbind]. destruct (Rle_dec t _); reflexivity.
Qed.

Lemma length_neq_1 (n : nat) : (2 <= n)%nat -> (n =? 1)%nat = false.
Proof. intros H. apply Nat.eqb_neq. lia. Qed.

Lemma discount_factor_head (c : ForwardCurve) (t : R) :
  (2 <= length (points c))%nat -> 0 < t -> t <= nth 0 (year_fracs c) 0 ->
  discount_factor c t =
  Ok (exp (_interp_linear t 0 (nth 0 (year_fracs c) 0) 0 (nth 0 (_pillar_ln_dfs c) 0))).
Proof.
  intros Hn Ht Hle. unfold discount_factor.
  destruct (Rle_dec t 0); [lra|].
  rewrite length_year_fracs, (length_neq_1 _ Hn).
  rewrite (index_first (year_fracs c) 0) by (rewrite length_year_fracs; lia).
  cbn [rbind]. destruct (Rle_dec t _); [|contradiction].
  rewrite (index_first (_pillar_ln_dfs c) 0) by (rewrite length_pillar_ln_dfs; lia).
  reflexivity.
Qed.

Lemma discount_factor_tail (c : ForwardCurve) (t : R) :
  StronglySorted Rlt (year_fracs c) ->
  (2 <= length (points c))%nat -> 0 < t ->
  nth (length (points c) - 1) (year_fracs c) 0 <= t ->
  discount_factor c t =
  Ok (exp (_interp_linear t
             (nth (length (points c) - 2) (year_fracs c) 0)
             (nth (length (points c) - 1) (year_fracs c) 0)
             (nth (length (points c) - 2) (_pillar_ln_dfs c) 0)
             (nth (length (points c) - 1) (_pillar_ln_dfs c) 0))).
Proof.
  intros Hs Hn Ht Hge. unfold discount_factor.
  destruct (Rle_dec t 0); [lra|].
  rewrite length_year_fracs, (length_neq_1 _ Hn).
  rewrite (index_first (year_fracs c) 0) by (rewrite length_year_fracs; lia).
  cbn [rbind].
  pose proof (sorted_nth_lt (year_fracs c) 0 (length (points c) - 1) Hs
                ltac:(rewrite length_year_fracs; lia)) as Hfl.
  destruct (Rle_dec t _); [lra|].
  rewrite (index_last (year_fracs c) 0) by (rewrite length_year_fracs; lia).
  rewrite (index_before_last (year_fracs c) 0) by (rewrite length_year_fracs; lia).
  rewrite (index_last (_pillar_ln_dfs c) 0) by (rewrite length_pillar_ln_dfs; lia).
  rewrite (index_before_last (_pillar_ln_dfs c) 0) by (rewrite length_pillar_ln_dfs; lia).
  rewrite length_year_fracs, length_pillar_ln_dfs. cbn [rbind].
  destruct (Rge_dec t _); [reflexivity|lra].
Qed.

Lemma discount_factor_segment (c : ForwardCurve) (i : nat) (t : R) :
  StronglySorted Rlt (year_fracs c) ->
  (S i < length (points c))%nat -> 0 < t ->
  nth i (year_fracs c) 0 < t <= nth (S i) (year_fracs c) 0 ->
  discount_factor c t =
  Ok (exp (_interp_linear t
             (nth i (year_fracs c) 0) (nth (S i) (year_fracs c) 0)
             (nth i (_pillar_ln_dfs c) 0) (nth (S i) (_pillar_ln_dfs c) 0))).
Proof.
  intros Hs Hi Ht [Hlo Hhi].
  assert (Hlen : length (year_fracs c) = length (points c)) by apply length_year_fracs.
  pose proof (sorted_nth_le (year_fracs c) (S i) (length (points c) - 1) Hs ltac:(lia))
    as Hlast.
  destruct (Rle_lt_dec (nth (length (points c) - 1) (year_fracs c) 0) t) as [Hge|Hlt].
  - (* t is the last pillar itself *)
    assert (S i = length (points c) - 1)%nat as Hi'.
    { destruct (Nat.eq_dec (S i) (length (points c) - 1)%nat) as [E|E]; [exact E|].
      pose proof (sorted_nth_lt (year_fracs c) (S i) (length (points c) - 1) Hs
                    ltac:(lia)). lra. }
    rewrite discount_factor_tail by (assumption || lia).
    rewrite <- Hi'. replace (length (points c) - 2)%nat with i by lia. reflexivity.
  - unfold discount_factor.
    destruct (Rle_dec t 0); [lra|].
    rewrite length_year_fracs, (length_neq_1 (length (points c))) by lia.
    rewrite (index_first (year_fracs c) 0) by lia.
    cbn [rbind].
    pose proof (sorted_nth_le (year_fracs c) 0 i Hs ltac:(lia)) as Hfirst.
    destruct (Rle_dec t _); [lra|].
    rewrite (index_last (year_fracs c) 0) by lia.
    rewrite Hlen. cbn [rbind].
    destruct (Rge_dec t _); [lra|].
    rewrite (bisect_left_between (year_fracs c) t i Hs) by (lia || lra).
    rewrite (index_succ_pred (year_fracs c) i 0) by lia.
    rewrite (index_nat (year_fracs c) (S i) 0) by lia.
    rewrite (index_succ_pred (_pillar_ln_dfs c) i 0)
      by (rewrite length_pillar_ln_dfs; lia).
    rewrite (index_nat (_pillar_ln_dfs c) (S i) 0)
      by (rewrite length_pillar_ln_dfs; lia).
    reflexivity.
Qed.


(** ** What the constructor establishes *)

Lemma strictly_increasing_sorted (ps : list CurvePoint) (prev : option R) :
  strictly_increasing prev ps = true ->
  (forall x, prev = Some x -> Forall (Rlt x) (map year_frac ps)) /\
  StronglySorted Rlt (map year_frac ps).
Proof.
  revert prev. induction ps as [|p ps IH]; intros prev H.
  - split; [intros; constructor | constructor].
  - cbn [strictly_increasing] in H.
    assert (Htail : strictly_increasing (Some (year_frac p)) ps = true).
    { destruct prev; [destruct (Rle_dec _ _); [discriminate|]|]; exact H. }
    destruct (IH _ Htail) as [Hall Hs].
    specialize (Hall _ eq_refl). split.
    + intros x ->. destruct (Rle_dec (year_frac p) x) as [|Hlt]; [discriminate|].
      cbn [map]. constructor; [lra|].
      eapply List.Forall_impl; [|exact Hall]. cbv beta. intros y Hy. lra.
    + cbn [map]. constructor; assumption.
Qed.

Lemma insert_point_length (p : CurvePoint) (l : list CurvePoint) :
  length (insert_point p l) = S (length l).
Proof.
  induction l as [|q l IH]; [reflexivity|].
  cbn [insert_point]. destruct (Rle_dec _ _); cbn [length]; [reflexivity|].
  rewrite IH. reflexivity.
Qed.

Lemma sort_points_length (l : list CurvePoint) :
  length (sort_points l) = length l.
Proof.
  induction l as [|p l IH]; [reflexivity|].
  cbn [sort_points]. rewrite insert_point_length, IH. reflexivity.
Qed.

Lemma insert_point_perm (p : CurvePoint) (l : list CurvePoint) :
  Permutation (p :: l) (insert_point p l).
Proof.
  induction l as [|q l IH]; [reflexivity|].
  cbn [insert_point]. destruct (Rle_dec _ _); [reflexivity|].
  rewrite perm_swap. apply perm_skip. exact IH.
Qed.

Lemma sort_points_perm (l : list CurvePoint) : Permutation l (sort_points l).
Proof.
  induction l as [|p l IH]; [reflexivity|].
  cbn [sort_points]. rewrite <- insert_point_perm. apply perm_skip. exact IH.
Qed.

(** A constructed curve keeps its name, holds the given points in sorted
    order, and satisfies the invariant. *)
Lemma new_ForwardCurve_valid (name : string) (ps : list CurvePoint) (c : ForwardCurve) :
  new_ForwardCurve name ps = Ok c ->
  valid_curve c /\ index_name c = name /\ points c = sort_points ps.
Proof.
  unfold new_ForwardCurve, __post_init__. cbn [points index_name].
  destruct ps as [|p ps]; [discriminate|].
  destruct (strictly_increasing None (sort_points (p :: ps))) eqn:E; [|discriminate].
  intros [= <-]. cbn [points index_name]. split; [|split; reflexivity].
  split.
  - intros Hnil. apply (f_equal (@length _)) in Hnil.
    cbn [points] in Hnil. rewrite insert_point_length in Hnil. discriminate.
  - apply (strictly_increasing_sorted _ None E).
Qed.

(** ** Interpolation on one segment *)

Lemma interp_linear_eq (x x0 x1 y0 y1 : R) :
  x0 < x1 -> _interp_linear x x0 x1 y0 y1 = linear_interp x x0 y0 x1 y1.
Proof.
  intros H. unfold _interp_linear, linear_interp.
  destruct (Req_dec_T x1 x0); [lra|]. field. lra.
Qed.

Lemma linear_interp_from_end (x x0 x1 y0 y1 : R) :
  x0 < x1 ->
  linear_interp x x0 y0 x1 y1 = y1 + (x - x1) * ((y1 - y0) / (x1 - x0)).
Proof. intros H. unfold linear_interp. field. lra. Qed.

(** On a falling segment the line falls. *)
Lemma linear_interp_decreasing (s t x0 x1 y0 y1 : R) :
  x0 < x1 -> y1 < y0 -> s < t ->
  linear_interp t x0 y0 x1 y1 < linear_interp s x0 y0 x1 y1.
Proof.
  intros Hx Hy Hst. unfold linear_interp.
  assert (Hslope : (y1 - y0) / (x1 - x0) < 0).
  { assert (Hinv : 0 < / (x1 - x0)) by (apply Rinv_0_lt_compat; lra).
    unfold Rdiv. nra. }
  nra.
Qed.

Lemma linear_interp_start (x0 x1 y0 y1 : R) :
  linear_interp x0 x0 y0 x1 y1 = y0.
Proof. unfold linear_interp. ring. Qed.

Lemma linear_interp_end (x0 x1 y0 y1 : R) :
  x0 < x1 -> linear_interp x1 x0 y0 x1 y1 = y1.
Proof. intros H. unfold linear_interp. field. lra. Qed.


Lemma nonneg_nth_year_fracs (c : ForwardCurve) (i : nat) :
  nonneg_year_fracs c -> (i < length (points c))%nat -> 0 <= nth i (year_fracs c) 0.
Proof.
  intros Hnn Hi. unfold year_fracs.
  set (d := mkCurvePoint 0 0 EmptyString (mkdate 1 1 1)).
  rewrite (nth_indep (map year_frac (points c)) 0 (year_frac d))
    by (rewrite length_map; exact Hi).
  rewrite map_nth.
  apply (proj1 (List.Forall_forall _ _) Hnn). apply nth_In. exact Hi.
Qed.

(** Strictly between two adjacent pillars: the line through them in
    ln(DF). *)
Lemma discount_factor_between (c : ForwardCurve) (i : nat) (t : R) :
  valid_curve c -> nonneg_year_fracs c ->
  (S i < length (points c))%nat ->
  nth i (year_fracs c) 0 < t < nth (S i) (year_fracs c) 0 ->
  discount_factor c t =
  Ok (exp (linear_interp t
             (nth i (year_fracs c) 0) (pillar_ln_df c i)
             (nth (S i) (year_fracs c) 0) (pillar_ln_df c (S i)))).
Proof.
  intros [_ Hs] Hnn Hi [Hlo Hhi].
  pose proof (nonneg_nth_year_fracs c i Hnn ltac:(lia)) as H0.
  rewrite (discount_factor_segment c i t Hs Hi) by lra.
  rewrite interp_linear_eq by lra.
  rewrite !nth_pillar_ln_dfs by lia. reflexivity.
Qed.

(** At or beyond the last pillar: the final segment's line, continued. *)
Lemma discount_factor_beyond (c : ForwardCurve) (t : R) :
  valid_curve c -> nonneg_year_fracs c ->
  (2 <= length (points c))%nat ->
  nth (length (points c) - 1) (year_fracs c) 0 <= t ->
  discount_factor c t = Ok (exp (tail_projection c t)).
Proof.
  intros [_ Hs] Hnn Hn Hge.
  pose proof (nonneg_nth_year_fracs c (length (points c) - 2) Hnn ltac:(lia)) as H0.
  pose proof (sorted_nth_lt (year_fracs c) (length (points c) - 2)
                (length (points c) - 1) Hs
                ltac:(rewrite length_year_fracs; lia)) as Hlt.
  rewrite (discount_factor_tail c t Hs Hn) by lra.
  rewrite interp_linear_eq by lra.
  rewrite linear_interp_from_end by lra.
  rewrite !nth_pillar_ln_dfs by lia. reflexivity.
Qed.

Lemma new_two_pillar_curve (name : string) (p q : CurvePoint) :
  year_frac p < year_frac q ->
  new_ForwardCurve name [p; q] = Ok (mkForwardCurve name [p; q]).
Proof.
  intros Hlt. unfold new_ForwardCurve, __post_init__.
  cbn [points index_name sort_points insert_point].
  destruct (Rle_dec (year_frac p) (year_frac q)); [|lra].
  cbn [strictly_increasing].
  destruct (Rle_dec (year_frac q) (year_frac p)); [lra|]. reflexivity.
Qed.

Lemma two_pillar_valid (name : string) (p q : CurvePoint) :
  year_frac p < year_frac q -> valid_curve (mkForwardCurve name [p; q]).
Proof.
  intros Hlt. exact (proj1 (new_ForwardCurve_valid _ _ _ (new_two_pillar_curve name p q Hlt))).
Qed.


(** ** Monotonicity *)

Lemma sorted_gt_nth (ys : list R) (i j : nat) :
  StronglySorted Rgt ys -> (i < j < length ys)%nat -> nth j ys 0 < nth i ys 0.
Proof.
  intros Hs. revert i j. induction Hs as [|y ys Hs IH Hall]; intros i j Hij.
  - simpl in Hij. lia.
  - destruct j as [|j]; [lia|]. simpl in Hij.
    destruct i as [|i].
    + simpl. apply Rgt_lt, (proj1 (List.Forall_forall _ _) Hall), nth_In. lia.
    + simpl. apply IH. lia.
Qed.

Lemma length_knots_x (c : ForwardCurve) :
  length (knots_x c)
  = if Rlt_dec 0 (nth 0 (year_fracs c) 0) then S (length (points c)) else length (points c).
Proof.
  unfold knots_x. destruct (Rlt_dec _ _); cbn [length]; rewrite length_year_fracs; reflexivity.
Qed.

Lemma length_knots_y (c : ForwardCurve) : length (knots_y c) = length (knots_x c).
Proof.
  unfold knots_x, knots_y.
  destruct (Rlt_dec _ _); cbn [length];
    rewrite length_year_fracs, length_pillar_ln_dfs; reflexivity.
Qed.

(** For every [t > 0] the code evaluates the line of one knot segment: the
    one that holds [t], or the last one when [t] lies beyond the pillars. *)
Lemma discount_factor_locate (c : ForwardCurve) (t : R) :
  valid_curve c -> nonneg_year_fracs c ->
  0 < nth (length (points c) - 1) (year_fracs c) 0 ->
  0 < t ->
  exists k : nat,
    (S k < length (knots_x c))%nat /\
    knot_x c k < t /\
    (t <= knot_x c (S k) \/ S (S k) = length (knots_x c)) /\
    discount_factor c t =
    Ok (exp (linear_interp t (knot_x c k) (knot_y c k)
               (knot_x c (S k)) (knot_y c (S k)))).
Proof.
  intros [Hne Hs] Hnn Hlast Ht.
  assert (Hlen : length (year_fracs c) = length (points c)) by apply length_year_fracs.
  assert (Hn : (1 <= length (points c))%nat).
  { destruct (points c); [contradiction|cbn; lia]. }
  pose proof (nonneg_nth_year_fracs c 0 Hnn ltac:(lia)) as Hx0.
  rewrite length_knots_x. unfold knot_x, knot_y, knots_x, knots_y.
  destruct (Rlt_dec 0 (nth 0 (year_fracs c) 0)) as [Hpos|Hzero].
  - (* the first pillar lies beyond 0: the anchor is a knot *)
    destruct (Nat.eq_dec (length (points c)) 1%nat) as [H1|H1].
    { exists 0%nat. cbn [nth].
      split; [lia|]. split; [exact Ht|]. split; [right; lia|].
      rewrite discount_factor_single by assumption.
      rewrite interp_linear_eq by exact Hpos. reflexivity. }
    destruct (Rle_lt_dec t (nth 0 (year_fracs c) 0)) as [Hhead|Hhead].
    { exists 0%nat. cbn [nth].
      split; [lia|]. split; [exact Ht|]. split; [left; exact Hhead|].
      rewrite discount_factor_head by (assumption || lia).
      rewrite interp_linear_eq by exact Hpos. reflexivity. }
    destruct (Rle_lt_dec (nth (length (points c) - 1) (year_fracs c) 0) t) as [Htail|Htail].
    { pose proof (sorted_nth_lt (year_fracs c) (length (points c) - 2)
                    (length (points c) - 1) Hs ltac:(lia)) as Hseg.
      pose proof (discount_factor_tail c t Hs ltac:(lia) Ht Htail) as Edf.
      rewrite interp_linear_eq in Edf by exact Hseg.
      remember (length (points c) - 2)%nat as m eqn:Em.
      replace (length (points c) - 1)%nat with (S m) in * by lia.
      exists (S m). cbn [nth].
      split; [lia|]. split; [lra|]. split; [right; lia|]. exact Edf. }
    destruct (bisect_left_spec (year_fracs c) t Hs) as (Hj & Hbelow & Habove).
    set (j := bisect_left (year_fracs c) t) in *.
    assert (Hj1 : (1 <= j)%nat).
    { destruct j; [|lia]. specialize (Habove 0%nat ltac:(lia)). lra. }
    assert (Hj2 : (j < length (points c))%nat).
    { destruct (Nat.lt_ge_cases j (length (points c))) as [H|H]; [exact H|].
      specialize (Hbelow (length (points c) - 1)%nat ltac:(lia)). lra. }
    exists j. cbn [nth].
    destruct j as [|i]; [lia|].
    specialize (Hbelow i ltac:(lia)). specialize (Habove (S i) ltac:(lia)).
    pose proof (sorted_nth_lt (year_fracs c) i (S i) Hs ltac:(lia)) as Hseg.
    split; [lia|]. split; [exact Hbelow|]. split; [left; exact Habove|].
    rewrite (discount_factor_segment c i t Hs) by (lia || lra).
    rewrite interp_linear_eq by exact Hseg. reflexivity.
  - (* the first pillar lies at 0: the knots are the pillars *)
    assert (Hx0' : nth 0 (year_fracs c) 0 = 0) by lra.
    assert (Hn2 : (2 <= length (points c))%nat).
    { destruct (Nat.eq_dec (length (points c)) 1%nat) as [H1|H1]; [|lia].
      rewrite H1 in Hlast. cbn in Hlast. lra. }
    destruct (Rle_lt_dec (nth (length (points c) - 1) (year_fracs c) 0) t) as [Htail|Htail].
    { pose proof (sorted_nth_lt (year_fracs c) (length (points c) - 2)
                    (length (points c) - 1) Hs ltac:(lia)) as Hseg.
      pose proof (sorted_nth_le (year_fracs c) 0 (length (points c) - 2) Hs ltac:(lia))
        as Hfirst.
      pose proof (discount_factor_tail c t Hs ltac:(lia) Ht Htail) as Edf.
      rewrite interp_linear_eq in Edf by exact Hseg.
      remember (length (points c) - 2)%nat as m eqn:Em.
      replace (length (points c) - 1)%nat with (S m) in * by lia.
      exists m. split; [lia|]. split; [lra|]. split; [right; lia|]. exact Edf. }
    destruct (bisect_left_spec (year_fracs c) t Hs) as (Hj & Hbelow & Habove).
    set (j := bisect_left (year_fracs c) t) in *.
    assert (Hj1 : (1 <= j)%nat).
    { destruct j; [|lia]. specialize (Habove 0%nat ltac:(lia)). lra. }
    assert (Hj2 : (j < length (points c))%nat).
    { destruct (Nat.lt_ge_cases j (length (points c))) as [H|H]; [exact H|].
      specialize (Hbelow (length (points c) - 1)%nat ltac:(lia)). lra. }
    destruct j as [|i]; [lia|]. exists i.
    specialize (Hbelow i ltac:(lia)). specialize (Habove (S i) ltac:(lia)).
    pose proof (sorted_nth_lt (year_fracs c) i (S i) Hs ltac:(lia)) as Hseg.
    split; [lia|]. split; [exact Hbelow|]. split; [left; exact Habove|].
    rewrite (discount_factor_segment c i t Hs) by (lia || lra).
    rewrite interp_linear_eq by exact Hseg. reflexivity.
Qed.

Lemma knot_x_increasing (c : ForwardCurve) (i j : nat) :
  valid_curve c ->
  (i < j < length (knots_x c))%nat -> knot_x c i < knot_x c j.
Proof.
  intros [_ Hs] Hij. rewrite length_knots_x in Hij. unfold knot_x, knots_x.
  assert (Hlen : length (year_fracs c) = length (points c)) by apply length_year_fracs.
  destruct (Rlt_dec 0 (nth 0 (year_fracs c) 0)) as [Hpos|Hzero].
  - destruct j as [|j]; [lia|]. cbn [nth].
    pose proof (sorted_nth_le (year_fracs c) 0 j Hs ltac:(lia)) as H0j.
    destruct i as [|i]; cbn [nth]; [lra|].
    apply sorted_nth_lt; [exact Hs|lia].
  - apply sorted_nth_lt; [exact Hs|lia].
Qed.

Lemma knot_y_decreasing (c : ForwardCurve) (i j : nat) :
  StronglySorted Rgt (_pillar_ln_dfs c) ->
  (0 < nth 0 (year_fracs c) 0 -> nth 0 (_pillar_ln_dfs c) 0 < 0) ->
  (i < j < length (knots_x c))%nat -> knot_y c j < knot_y c i.
Proof.
  intros Hs Hy0 Hij. rewrite length_knots_x in Hij. unfold knot_y, knots_y.
  assert (Hlen : length (_pillar_ln_dfs c) = length (points c))
    by apply length_pillar_ln_dfs.
  destruct (Rlt_dec 0 (nth 0 (year_fracs c) 0)) as [Hpos|Hzero].
  - specialize (Hy0 Hpos).
    destruct j as [|j]; [lia|]. cbn [nth].
    destruct i as [|i]; cbn [nth].
    + destruct j as [|j]; [exact Hy0|].
      pose proof (sorted_gt_nth (_pillar_ln_dfs c) 0 (S j) Hs ltac:(lia)). lra.
    + apply sorted_gt_nth; [exact Hs|lia].
  - apply sorted_gt_nth; [exact Hs|lia].
Qed.

(** With a pillar beyond 0 and strictly falling pillar values of ln(DF),
    the discount factor falls strictly over [t > 0]. *)
Lemma discount_factor_strictly_decreasing (c : ForwardCurve) (s t : R) :
  valid_curve c -> nonneg_year_fracs c ->
  0 < nth (length (points c) - 1) (year_fracs c) 0 ->
  (0 < nth 0 (year_fracs c) 0 -> nth 0 (_pillar_ln_dfs c) 0 < 0) ->
  StronglySorted Rgt (_pillar_ln_dfs c) ->
  0 < s < t ->
  exists a b : R,
    discount_factor c s = Ok a /\ discount_factor c t = Ok b /\ b < a.
Proof.
  intros Hv Hnn Hlast Hy0 Hys [Hs Hst].
  destruct (discount_factor_locate c s Hv Hnn Hlast Hs) as (ks & Hks & Hslo & Hshi & Es).
  destruct (discount_factor_locate c t Hv Hnn Hlast ltac:(lra))
    as (kt & Hkt & Htlo & Hthi & Et).
  rewrite Es, Et. do 2 eexists. split; [reflexivity|]. split; [reflexivity|].
  apply exp_increasing.
  pose proof (knot_x_increasing c ks (S ks) Hv ltac:(lia)) as Hxs.
  pose proof (knot_y_decreasing c ks (S ks) Hys Hy0 ltac:(lia)) as Hyss.
  pose proof (knot_x_increasing c kt (S kt) Hv ltac:(lia)) as Hxt.
  pose proof (knot_y_decreasing c kt (S kt) Hys Hy0 ltac:(lia)) as Hyt.
  destruct (Nat.lt_trichotomy ks kt) as [Hlt|[Heq|Hgt]].
  - (* [s] in an earlier segment than [t] *)
    destruct Hshi as [Hshi|Hshi]; [|lia].
    assert (Hmid : knot_y c kt <= knot_y c (S ks)).
    { destruct (Nat.eq_dec (S ks) kt) as [->|Hne]; [lra|].
      apply Rlt_le, knot_y_decreasing; (assumption || lia). }
    assert (H1 : knot_y c (S ks)
                 <= linear_interp s (knot_x c ks) (knot_y c ks)
                      (knot_x c (S ks)) (knot_y c (S ks))).
    { destruct (Req_dec_T s (knot_x c (S ks))) as [->|Hne].
      - rewrite linear_interp_end by exact Hxs. lra.
      - rewrite <- (linear_interp_end (knot_x c ks) (knot_x c (S ks))
                      (knot_y c ks) (knot_y c (S ks))) at 1 by exact Hxs.
        apply Rlt_le, linear_interp_decreasing; lra. }
    assert (H2 : linear_interp t (knot_x c kt) (knot_y c kt)
                   (knot_x c (S kt)) (knot_y c (S kt))
                 < knot_y c kt).
    { rewrite <- (linear_interp_start (knot_x c kt) (knot_x c (S kt))
                    (knot_y c kt) (knot_y c (S kt))) at 2.
      apply linear_interp_decreasing; lra. }
    lra.
  - subst kt. apply linear_interp_decreasing; lra.
  - (* impossible: [t] would lie before [s] *)
    destruct Hthi as [Hthi|Hthi]; [|lia].
    assert (knot_x c (S kt) <= knot_x c ks).
    { destruct (Nat.eq_dec (S kt) ks) as [->|Hne]; [lra|].
      apply Rlt_le, knot_x_increasing; (assumption || lia). }
    lra.
Qed.

End CurveFacts.

Section CurveClaims.

Import Curves CurveSpec.
Local Open Scope R_scope.

(** C1. On a curve with at least two pillars, for [t] strictly between two
    adjacent pillar year fractions, [discount_factor] returns the
    exponential of the linear interpolation in ln(DF) between the two
    pillars, where ln(DF_i) = -rate_i * year_frac_i.  On the curve with
    pillars (1, 0.02) and (2, 0.03) the discount factor at 1.5 is
    exp(linear_interp(1.5; 1, -0.02; 2, -0.06)) = exp(-0.04). *)
Theorem C1_log_linear_interpolation :
  (forall (c : ForwardCurve) (i : nat) (t : R),
      valid_curve c -> nonneg_year_fracs c ->
      (S i < length (points c))%nat ->
      nth i (year_fracs c) 0 < t < nth (S i) (year_fracs c) 0 ->
      discount_factor c t =
      Ok (exp (linear_interp t
                 (nth i (year_fracs c) 0) (pillar_ln_df c i)
                 (nth (S i) (year_fracs c) 0) (pillar_ln_df c (S i))))) /\
  (exists c : ForwardCurve,
      new_ForwardCurve "EUR" two_pillar_points = Ok c /\
      discount_factor c 1.5 = Ok (exp (linear_interp 1.5 1 (-0.02) 2 (-0.06))) /\
      discount_factor c 1.5 = Ok (exp (-0.04))).
Proof.
  split; [exact discount_factor_between|].
  exists (two_pillar_curve).
  assert (Hdf : discount_factor (two_pillar_curve) 1.5
                = Ok (exp (linear_interp 1.5 1 (-0.02) 2 (-0.06)))).
  { rewrite (discount_factor_between _ 0 1.5).
    - do 2 f_equal. unfold pillar_ln_df, linear_interp. cbn. lra.
    - apply two_pillar_valid. cbn. lra.
    - repeat constructor; cbn; lra.
    - cbn. lia.
    - cbn. lra. }
  split; [|split].
  - apply new_two_pillar_curve. cbn. lra.
  - exact Hdf.
  - rewrite Hdf. do 2 f_equal. unfold linear_interp. lra.
Qed.

Lemma C1_witness :
  valid_curve two_pillar_curve /\ nonneg_year_fracs two_pillar_curve /\
  (1 < length (points two_pillar_curve))%nat /\
  nth 0 (year_fracs two_pillar_curve) 0 < 1.25 < nth 1 (year_fracs two_pillar_curve) 0 /\
  discount_factor two_pillar_curve 1.25 =
  Ok (exp (linear_interp 1.25
             (nth 0 (year_fracs two_pillar_curve) 0) (pillar_ln_df two_pillar_curve 0)
             (nth 1 (year_fracs two_pillar_curve) 0) (pillar_ln_df two_pillar_curve 1))).
Proof.
  assert (Hv : valid_curve two_pillar_curve) by (apply two_pillar_valid; cbn; lra).
  assert (Hn : nonneg_year_fracs two_pillar_curve) by (repeat constructor; cbn; lra).
  assert (Hl : (1 < length (points two_pillar_curve))%nat) by (cbn; lia).
  assert (Ht : nth 0 (year_fracs two_pillar_curve) 0 < 1.25
               < nth 1 (year_fracs two_pillar_curve) 0) by (cbn; lra).
  split; [exact Hv|]. split; [exact Hn|]. split; [exact Hl|]. split; [exact Ht|].
  exact (proj1 C1_log_linear_interpolation two_pillar_curve 0%nat 1.25 Hv Hn Hl Ht).
Defined.

(** C2. On a curve with at least two pillars, for [t] at or beyond the last
    pillar, [discount_factor] returns the exponential of the ln(DF) of the
    last pillar continued along the slope of the final pillar segment; on
    the curve (1, 0.02), (2, 0.03) this gives exp(-0.10) at t = 3, not the
    flat-zero-rate value exp(-0.03 * 3). *)
Theorem C2_tail_extrapolation :
  (forall (c : ForwardCurve) (t : R),
      valid_curve c -> nonneg_year_fracs c ->
      (2 <= length (points c))%nat ->
      nth (length (points c) - 1) (year_fracs c) 0 <= t ->
      discount_factor c t = Ok (exp (tail_projection c t))) /\
  (discount_factor (two_pillar_curve) 3 = Ok (exp (-0.10)) /\
   discount_factor (two_pillar_curve) 3 <> Ok (exp (- (0.03 * 3)))).
Proof.
  split; [exact discount_factor_beyond|].
  assert (Hdf : discount_factor (two_pillar_curve) 3
                = Ok (exp (-0.10))).
  { rewrite discount_factor_beyond.
    - do 2 f_equal. unfold tail_projection, pillar_ln_df. cbn. lra.
    - apply two_pillar_valid. cbn. lra.
    - repeat constructor; cbn; lra.
    - cbn. lia.
    - cbn. lra. }
  split; [exact Hdf|].
  rewrite Hdf. intros [= H]. apply exp_inv in H. lra.
Qed.

Lemma C2_witness :
  valid_curve two_pillar_curve /\ nonneg_year_fracs two_pillar_curve /\
  (2 <= length (points two_pillar_curve))%nat /\
  nth (length (points two_pillar_curve) - 1) (year_fracs two_pillar_curve) 0 <= 2 /\
  discount_factor two_pillar_curve 2 = Ok (exp (tail_projection two_pillar_curve 2)).
Proof.
  assert (Hv : valid_curve two_pillar_curve) by (apply two_pillar_valid; cbn; lra).
  assert (Hn : nonneg_year_fracs two_pillar_curve) by (repeat constructor; cbn; lra).
  assert (Hl : (2 <= length (points two_pillar_curve))%nat) by (cbn; lia).
  assert (Ht : nth (length (points two_pillar_curve) - 1) (year_fracs two_pillar_curve) 0 <= 2)
    by (cbn; lra).
  split; [exact Hv|]. split; [exact Hn|]. split; [exact Hl|]. split; [exact Ht|].
  exact (proj1 C2_tail_extrapolation two_pillar_curve 2 Hv Hn Hl Ht).
Defined.

(** C6 as stated: on the curve (1, 0.10), (2, 0.04) every rate is positive
    and yet the discount factor at 2 exceeds the one at 1; and on the curve
    whose only pillar lies at year fraction 0 the discount factor is 1 at
    both. *)
Lemma C6_counterexample :
  (new_ForwardCurve "EUR" falling_points = Ok falling_curve /\
   Forall (fun p => 0 < rate p) (points falling_curve) /\
   discount_factor falling_curve 1 = Ok (exp (-0.10)) /\
   discount_factor falling_curve 2 = Ok (exp (-0.08)) /\
   0 < 1 < 2 /\ exp (-0.10) < exp (-0.08)) /\
  (new_ForwardCurve "EUR" (points zero_pillar_curve) = Ok zero_pillar_curve /\
   Forall (fun p => 0 < rate p) (points zero_pillar_curve) /\
   discount_factor zero_pillar_curve 1 = Ok 1 /\
   discount_factor zero_pillar_curve 2 = Ok 1).
Proof.
  assert (Hv : valid_curve falling_curve) by (apply two_pillar_valid; cbn; lra).
  split.
  - split; [apply new_two_pillar_curve; cbn; lra|].
    split; [repeat constructor; cbn; lra|].
    split; [|split; [|split; [lra|apply exp_increasing; lra]]].
    + rewrite discount_factor_head by (cbn; (lia || lra)).
      rewrite interp_linear_eq by (cbn; lra).
      do 2 f_equal. unfold linear_interp. cbn. lra.
    + rewrite discount_factor_beyond.
      * do 2 f_equal. unfold tail_projection, pillar_ln_df. cbn. lra.
      * exact Hv.
      * repeat constructor; cbn; lra.
      * cbn. lia.
      * cbn. lra.
  - assert (Hone : forall t, 0 < t -> discount_factor zero_pillar_curve t = Ok 1).
    { intros t Ht. rewrite discount_factor_single by (reflexivity || exact Ht).
      unfold _interp_linear. cbn [nth year_fracs _pillar_ln_dfs points zero_pillar_curve map year_frac rate].
      destruct (Req_dec_T 0 0) as [_|Hne]; [|contradiction].
      rewrite <- exp_0. do 2 f_equal. lra. }
    split; [reflexivity|]. split; [repeat constructor; cbn; lra|].
    split; apply Hone; lra.
Qed.

(** C6, amended. On every curve [discount_factor] returns 1 for [t <= 0];
    and when all pillar rates are positive, the pillar values
    ln(DF_i) = -rate_i * year_frac_i fall strictly from pillar to pillar and
    the last pillar lies beyond year fraction 0, the discount factor is
    strictly decreasing over [t > 0]. *)
Theorem C6_unit_at_zero_and_strictly_decreasing (c : ForwardCurve) :
  valid_curve c ->
  (forall t : R, t <= 0 -> discount_factor c t = Ok 1) /\
  (nonneg_year_fracs c ->
   Forall (fun p => 0 < rate p) (points c) ->
   StronglySorted Rgt (_pillar_ln_dfs c) ->
   0 < nth (length (points c) - 1) (year_fracs c) 0 ->
   forall s t : R, 0 < s < t ->
     exists a b : R,
       discount_factor c s = Ok a /\ discount_factor c t = Ok b /\ b < a).
Proof.
  intros Hv. split; [intros t Ht; apply discount_factor_nonpositive; exact Ht|].
  intros Hnn Hr Hys Hlast s t Hst.
  apply discount_factor_strictly_decreasing; try assumption.
  intros Hx0. destruct Hv as [Hne _].
  rewrite nth_pillar_ln_dfs by (destruct (points c); [contradiction|cbn; lia]).
  assert (0 < nth 0 (rates c) 0).
  { unfold rates. destruct (points c) as [|p ps]; [contradiction|].
    cbn. apply (List.Forall_inv Hr). }
  nra.
Qed.

Lemma C6_witness :
  valid_curve two_pillar_curve /\
  nonneg_year_fracs two_pillar_curve /\
  Forall (fun p => 0 < rate p) (points two_pillar_curve) /\
  StronglySorted Rgt (_pillar_ln_dfs two_pillar_curve) /\
  0 < nth (length (points two_pillar_curve) - 1) (year_fracs two_pillar_curve) 0 /\
  0 <= 0 /\ 0 < 1 < 2 /\
  discount_factor two_pillar_curve 0 = Ok 1 /\
  exists a b : R,
    discount_factor two_pillar_curve 1 = Ok a /\
    discount_factor two_pillar_curve 2 = Ok b /\ b < a.
Proof.
  assert (Hv : valid_curve two_pillar_curve) by (apply two_pillar_valid; cbn; lra).
  assert (Hn : nonneg_year_fracs two_pillar_curve) by (repeat constructor; cbn; lra).
  assert (Hr : Forall (fun p => 0 < rate p) (points two_pillar_curve))
    by (repeat constructor; cbn; lra).
  assert (Hy : StronglySorted Rgt (_pillar_ln_dfs two_pillar_curve))
    by (repeat constructor; cbn; lra).
  assert (Hx : 0 < nth (length (points two_pillar_curve) - 1)
                     (year_fracs two_pillar_curve) 0) by (cbn; lra).
  assert (H0 : 0 <= 0) by lra.
  assert (Hst : 0 < 1 < 2) by lra.
  split; [exact Hv|]. split; [exact Hn|]. split; [exact Hr|]. split; [exact Hy|].
  split; [exact Hx|]. split; [exact H0|]. split; [exact Hst|].
  split.
  - exact (proj1 (C6_unit_at_zero_and_strictly_decreasing two_pillar_curve Hv) 0 H0).
  - exact (proj2 (C6_unit_at_zero_and_strictly_decreasing two_pillar_curve Hv)
             Hn Hr Hy Hx 1 2 Hst).
Defined.

End CurveClaims.

(** * Scenario shocks *)

Section ShiftFacts.

Import Curves Scenarios ScenarioSpec.

Lemma In_unique (x : string) (l : list string) : In x (unique l) <-> In x l.
Proof.
  induction l as [|y l IH]; [reflexivity|].
  cbn [unique In]. rewrite List.filter_In, IH.
  destruct (String.eqb_spec y x) as [->|Hne]; cbn [negb]; [tauto|].
  split; [tauto|]. intros [H|H]; [tauto|]. right. split; [exact H|reflexivity].
Qed.

Lemma shift_row_IndexName (sel : gset string) (s : R) (r : Row) :
  IndexName (shift_row sel s r) = IndexName r.
Proof. unfold shift_row. destruct (bool_decide _); reflexivity. Qed.

Lemma index_names_shift_frame (sel : gset string) (s : R) (df : DataFrame) :
  index_names (shift_frame sel s df) = index_names df.
Proof.
  unfold index_names, shift_frame. cbn [rows]. f_equal.
  rewrite List.map_map. apply List.map_ext. intros r. apply shift_row_IndexName.
Qed.

Lemma filter_shift_rows (sel : gset string) (s : R) (ix : string) (rs : list Row) :
  List.filter (fun r => String.eqb (IndexName r) ix) (map (shift_row sel s) rs)
  = map (shift_row sel s) (List.filter (fun r => String.eqb (IndexName r) ix) rs).
Proof.
  induction rs as [|r rs IH]; [reflexivity|].
  cbn [map List.filter]. rewrite shift_row_IndexName, IH.
  destruct (String.eqb _ _); reflexivity.
Qed.

(** Within the rows of one index the shift is uniform. *)
Lemma shift_rows_of_index (sel : gset string) (s : R) (ix : string) (rs : list Row) :
  Forall (fun r => IndexName r = ix) rs ->
  map (shift_row sel s) rs
  = if bool_decide (ix ∈ sel) then map (shift_row {[ ix ]} s) rs else rs.
Proof.
  intros Hall. induction Hall as [|r rs Hr Hall IH].
  - destruct (bool_decide _); reflexivity.
  - cbn [map]. rewrite IH. unfold shift_row at 1. rewrite Hr.
    destruct (bool_decide (ix ∈ sel)) eqn:E; [|reflexivity].
    f_equal. unfold shift_row. rewrite Hr.
    rewrite bool_decide_eq_true_2 by set_solver. reflexivity.
Qed.

Lemma filter_index_Forall (ix : string) (rs : list Row) :
  Forall (fun r => IndexName r = ix)
         (List.filter (fun r => String.eqb (IndexName r) ix) rs).
Proof.
  apply List.Forall_forall. intros r Hr. apply List.filter_In in Hr as [_ Hr].
  apply String.eqb_eq. exact Hr.
Qed.

Lemma insert_point_map (g : CurvePoint -> CurvePoint) (p : CurvePoint)
  (l : list CurvePoint) :
  (forall q, year_frac (g q) = year_frac q) ->
  insert_point (g p) (map g l) = map g (insert_point p l).
Proof.
  intros Hg. induction l as [|q l IH]; [reflexivity|].
  cbn [map insert_point]. rewrite !Hg.
  destruct (Rle_dec _ _); [reflexivity|]. cbn [map]. rewrite IH. reflexivity.
Qed.

Lemma sort_points_map (g : CurvePoint -> CurvePoint) (l : list CurvePoint) :
  (forall q, year_frac (g q) = year_frac q) ->
  sort_points (map g l) = map g (sort_points l).
Proof.
  intros Hg. induction l as [|p l IH]; [reflexivity|].
  cbn [map sort_points]. rewrite IH. apply insert_point_map. exact Hg.
Qed.

Lemma strictly_increasing_map (g : CurvePoint -> CurvePoint) (prev : option R)
  (l : list CurvePoint) :
  (forall q, year_frac (g q) = year_frac q) ->
  strictly_increasing prev (map g l) = strictly_increasing prev l.
Proof.
  intros Hg. revert prev. induction l as [|p l IH]; intros prev; [reflexivity|].
  cbn [map strictly_increasing]. rewrite Hg, !IH. reflexivity.
Qed.

(** Whether a curve can be built depends on the year fractions only. *)
Lemma new_ForwardCurve_map (g : CurvePoint -> CurvePoint) (name : string)
  (ps : list CurvePoint) (c : ForwardCurve) :
  (forall q, year_frac (g q) = year_frac q) ->
  new_ForwardCurve name ps = Ok c ->
  new_ForwardCurve name (map g ps) = Ok (mkForwardCurve name (map g (points c))).
Proof.
  intros Hg. unfold new_ForwardCurve, __post_init__. cbn [points index_name].
  destruct ps as [|p ps]; [discriminate|]. cbn [map].
  change (g p :: map g ps) with (map g (p :: ps)).
  rewrite sort_points_map, strictly_increasing_map by exact Hg.
  destruct (strictly_increasing None (sort_points (p :: ps))); [|discriminate].
  intros [= <-]. reflexivity.
Qed.

Lemma points_of_rows_shift (s : R) (ix : string) (sub : list Row) (ps : list CurvePoint) :
  Forall (fun r => IndexName r = ix) sub ->
  points_of_rows sub = Ok ps ->
  points_of_rows (map (shift_row {[ ix ]} s) sub) = Ok (map (shift_point s) ps).
Proof.
  intros Hall. revert ps. induction Hall as [|r sub Hr Hall IH]; intros ps.
  - cbn. intros [= <-]. reflexivity.
  - cbn [points_of_rows map]. unfold point_of_row at 1.
    destruct (YearFrac r) as [yf|] eqn:Ey; [|discriminate].
    destruct (FwdRate r) as [fr|] eqn:Ef; [|discriminate].
    cbn [rbind]. destruct (points_of_rows sub) as [ps'|] eqn:Eps; [|discriminate].
    cbn [rbind]. intros [= <-]. rewrite (IH ps' eq_refl). cbn [map].
    unfold point_of_row, shift_row.
    rewrite bool_decide_eq_true_2 by set_solver.
    cbn [YearFrac FwdRate Tenor TenorDate option_map]. rewrite Ey, Ef. reflexivity.
Qed.

Lemma existsb_isna_YearFrac_shift (sel : gset string) (s : R) (rs : list Row) :
  existsb (fun r => isna (YearFrac r)) (map (shift_row sel s) rs)
  = existsb (fun r => isna (YearFrac r)) rs.
Proof.
  induction rs as [|r rs IH]; [reflexivity|].
  cbn [map existsb]. rewrite IH. f_equal.
  unfold shift_row. destruct (bool_decide _); reflexivity.
Qed.

Lemma existsb_isna_FwdRate_shift (sel : gset string) (s : R) (rs : list Row) :
  existsb (fun r => isna (FwdRate r)) (map (shift_row sel s) rs)
  = existsb (fun r => isna (FwdRate r)) rs.
Proof.
  induction rs as [|r rs IH]; [reflexivity|].
  cbn [map existsb]. rewrite IH. f_equal.
  unfold shift_row. destruct (bool_decide _); [|reflexivity].
  cbn [FwdRate]. destruct (FwdRate r); reflexivity.
Qed.

Lemma curve_from_long_df_shift (sel : gset string) (s : R) (df : DataFrame)
  (ix : string) (c : ForwardCurve) :
  curve_from_long_df df ix = Ok c ->
  curve_from_long_df (shift_frame sel s df) ix = Ok (shift_curve sel s ix c).
Proof.
  unfold curve_from_long_df, shift_curve.
  change (missing_columns (shift_frame sel s df)) with (missing_columns df).
  destruct (missing_columns df); [|discriminate].
  cbn [rows shift_frame]. rewrite filter_shift_rows.
  pose proof (filter_index_Forall ix (rows df)) as Hall.
  generalize dependent (List.filter (fun r => String.eqb (IndexName r) ix) (rows df)).
  intros sub Hall.
  destruct sub as [|r0 sub0] eqn:Esub; [discriminate|].
  rewrite <- Esub in *.
  destruct (map (shift_row sel s) sub) as [|r1 sub1] eqn:Emap;
    [rewrite Esub in Emap; discriminate|].
  rewrite <- Emap. clear Emap r1 sub1 Esub r0 sub0.
  rewrite existsb_isna_YearFrac_shift, existsb_isna_FwdRate_shift.
  destruct (existsb (fun r => isna (YearFrac r)) sub); [discriminate|].
  destruct (existsb (fun r => isna (FwdRate r)) sub); [discriminate|].
  destruct (points_of_rows sub) as [ps|] eqn:Eps; [|discriminate].
  cbn [rbind]. intros Hc.
  rewrite (shift_rows_of_index sel s ix sub Hall).
  destruct (bool_decide (ix ∈ sel)).
  - rewrite (points_of_rows_shift s ix sub ps Hall Eps). cbn [rbind].
    apply (new_ForwardCurve_map (shift_point s)); [reflexivity|exact Hc].
  - rewrite Eps. exact Hc.
Qed.

Lemma table_ok_shift (sel : gset string) (s : R) (df : DataFrame) :
  table_ok df -> table_ok (shift_frame sel s df).
Proof.
  intros Hok ix Hix. rewrite index_names_shift_frame in Hix.
  destruct (Hok ix Hix) as [c Hc]. eexists.
  apply curve_from_long_df_shift. exact Hc.
Qed.

(** In a table that builds its curves no rate is null. *)
Lemma table_ok_rate (df : DataFrame) (r : Row) :
  table_ok df -> In r (rows df) -> exists x : R, FwdRate r = Some x.
Proof.
  intros Hok Hr.
  destruct (Hok (IndexName r)) as [c Hc].
  { apply In_unique, List.in_map, Hr. }
  unfold curve_from_long_df in Hc.
  destruct (missing_columns df); [|discriminate].
  assert (Hsub : In r (List.filter (fun r' => String.eqb (IndexName r') (IndexName r)) (rows df))).
  { apply List.filter_In. split; [exact Hr|apply String.eqb_refl]. }
  destruct (List.filter _ (rows df)) as [|r0 sub]; [contradiction|].
  destruct (existsb (fun r => isna (YearFrac r)) (r0 :: sub)); [discriminate|].
  destruct (existsb (fun r => isna (FwdRate r)) (r0 :: sub)) eqn:E; [discriminate|].
  destruct (FwdRate r) as [x|] eqn:Ex; [eauto|].
  exfalso. apply Bool.not_true_iff_false in E. apply E.
  apply List.existsb_exists. exists r. split; [exact Hsub|]. rewrite Ex. reflexivity.
Qed.

End ShiftFacts.

Section HeapFacts.

Import Scenarios ScenarioSpec.

Lemma fresh_lookup_None (h : heap) : h !! fresh (dom h) = None.
Proof. apply not_elem_of_dom, is_fresh. Qed.

Lemma insert_fresh_subseteq (h : heap) (o : obj) : h ⊆ <[fresh (dom h) := o]> h.
Proof. apply insert_subseteq, fresh_lookup_None. Qed.

Lemma lookup_None_weaken (h h' : heap) (l : loc) :
  h ⊆ h' -> h' !! l = None -> h !! l = None.
Proof.
  intros Hsub Hl. destruct (h !! l) as [o|] eqn:E; [|reflexivity].
  rewrite (lookup_weaken h h' l o E Hsub) in Hl. discriminate.
Qed.

Lemma curve_from_long_df_at_run (df_points : loc) (ix : string) (h : heap) (d : DataFrame) :
  h !! df_points = Some (ODataFrame d) ->
  curve_from_long_df_at df_points ix h =
  match Curves.curve_from_long_df d ix with
  | Ok c => (Ok (fresh (dom h)), <[fresh (dom h) := OForwardCurve c]> h)
  | Raise e => (Raise e, h)
  end.
Proof.
  intros Hd. unfold curve_from_long_df_at, bind, get_frame, lift, alloc. rewrite Hd.
  destruct (Curves.curve_from_long_df d ix); reflexivity.
Qed.

(** The loop of [_rebuild_curves]: it only adds objects; each curve of the
    result is a new object built from the table, and a failure is the
    failure of building the curve of some index. *)
Lemma rebuild_loop_spec (df_points : loc) (d : DataFrame) (ixs : list string) :
  forall (cs : gmap string loc) (h : heap) (r : result (gmap string loc)) (h' : heap),
    h !! df_points = Some (ODataFrame d) ->
    rebuild_loop df_points ixs cs h = (r, h') ->
    h ⊆ h' /\
    match r with
    | Ok cs' =>
        (forall ix, ~ In ix ixs -> cs' !! ix = cs !! ix) /\
        (forall ix, In ix ixs ->
           exists (c : loc) (cv : Curves.ForwardCurve),
             cs' !! ix = Some c /\ h !! c = None /\
             h' !! c = Some (OForwardCurve cv) /\
             Curves.curve_from_long_df d ix = Ok cv)
    | Raise e => exists ix, In ix ixs /\ Curves.curve_from_long_df d ix = Raise e
    end.
Proof.
  induction ixs as [|i ixs IH]; intros cs h r h' Hd Hrun.
  - cbn in Hrun. injection Hrun as <- <-. split; [reflexivity|].
    split; [reflexivity|]. intros ix [].
  - cbn [rebuild_loop] in Hrun. unfold bind in Hrun.
    rewrite (curve_from_long_df_at_run df_points i h d Hd) in Hrun.
    destruct (Curves.curve_from_long_df d i) as [cv|e] eqn:Ecv.
    + set (f := fresh (dom h)) in *. set (h1 := <[f := OForwardCurve cv]> h) in *.
      assert (Hf : h !! f = None) by apply fresh_lookup_None.
      assert (Hsub1 : h ⊆ h1) by apply insert_fresh_subseteq.
      assert (Hd1 : h1 !! df_points = Some (ODataFrame d))
        by (apply (lookup_weaken h h1 _ _ Hd Hsub1)).
      destruct (IH _ _ _ _ Hd1 Hrun) as [Hsub Hr].
      split; [etrans; eassumption|].
      destruct r as [cs'|e]; [|destruct Hr as (ix & Hix & He); exists ix; cbn; auto].
      destruct Hr as [Hout Hin]. split.
      * intros ix Hix. cbn in Hix. rewrite Hout by tauto.
        apply lookup_insert_ne. intros ->. tauto.
      * intros ix Hix. destruct (List.in_dec String.string_dec ix ixs) as [Hin'|Hnin].
        -- destruct (Hin ix Hin') as (c & cv' & H1 & H2 & H3 & H4).
           exists c, cv'. repeat split; try assumption.
           apply (lookup_None_weaken h h1 c Hsub1 H2).
        -- destruct Hix as [->|Hix]; [|contradiction].
           exists f, cv. rewrite (Hout ix Hnin), lookup_insert_eq.
           repeat split; try assumption.
           apply (lookup_weaken h1 h' f _ (lookup_insert_eq h f _) Hsub).
    + injection Hrun as <- <-. split; [reflexivity|]. exists i. cbn. auto.
Qed.

Lemma rebuild_curves_spec (df_points : loc) (d : DataFrame) (h : heap)
  (r : result (gmap string loc)) (h' : heap) :
  h !! df_points = Some (ODataFrame d) ->
  _rebuild_curves df_points h = (r, h') ->
  h ⊆ h' /\
  match r with
  | Ok cs' =>
      (forall ix, ~ In ix (index_names d) -> cs' !! ix = None) /\
      (forall ix, In ix (index_names d) ->
         exists (c : loc) (cv : Curves.ForwardCurve),
           cs' !! ix = Some c /\ h !! c = None /\
           h' !! c = Some (OForwardCurve cv) /\
           Curves.curve_from_long_df d ix = Ok cv)
  | Raise e => exists ix, In ix (index_names d) /\ Curves.curve_from_long_df d ix = Raise e
  end.
Proof.
  intros Hd Hrun. unfold _rebuild_curves, bind, get_frame in Hrun. rewrite Hd in Hrun.
  destruct (rebuild_loop_spec df_points d _ _ _ _ _ Hd Hrun) as [Hsub Hr].
  split; [exact Hsub|].
  assert (Hsorted : forall ix, In ix (sorted (index_names d)) <-> In ix (index_names d)).
  { intros ix. generalize (index_names d). intros l.
    induction l as [|x l IH]; [reflexivity|]. cbn [sorted In]. rewrite <- IH.
    generalize (sorted l). intros l'. induction l' as [|y l' IH'].
    - cbn. tauto.
    - cbn [insert_str]. destruct (String.leb x y); cbn [In]; [tauto|]. rewrite IH'. tauto. }
  destruct r as [cs'|e].
  - destruct Hr as [Hout Hin]. split.
    + intros ix Hix. rewrite Hout by (rewrite Hsorted; exact Hix). apply lookup_empty.
    + intros ix Hix. apply Hin. rewrite Hsorted. exact Hix.
  - destruct Hr as (ix & Hix & He). exists ix. rewrite <- Hsorted. auto.
Qed.

(** [apply_parallel_shock], step by step. *)
Lemma apply_parallel_shock_unfold (base_set : loc) (shock : ParallelShock)
  (apply_to : option (list string)) (h : heap) :
  apply_parallel_shock base_set shock apply_to h =
  match h !! base_set with
  | Some (OForwardCurveSet bs) =>
      match h !! points bs with
      | Some (ODataFrame df) =>
          match _validate_curve_points_columns df with
          | Raise e => (Raise e, h)
          | Ok _ =>
              let l := fresh (dom h) in
              let h1 := <[l := ODataFrame df]> h in
              match _normalise_apply_to apply_to (list_to_set (index_names df)) with
              | Raise e => (Raise e, h1)
              | Ok sel =>
                  let h2 :=
                    <[l := ODataFrame (shift_frame sel (shift_decimal shock) df)]> h1 in
                  match _rebuild_curves l h2 with
                  | (Raise e, h3) => (Raise e, h3)
                  | (Ok cs, h3) =>
                      match h3 !! base_set with
                      | Some (OForwardCurveSet bs') =>
                          alloc (OForwardCurveSet
                                   (mkForwardCurveSet (analysis_date bs') (base bs') l cs)) h3
                      | _ => (Raise TypeError, h3)
                      end
                  end
              end
          end
      | _ => (Raise TypeError, h)
      end
  | _ => (Raise TypeError, h)
  end.
Proof.
  unfold apply_parallel_shock, bind, get_set, get_frame, lift, set_frame.
  destruct (h !! base_set) as [[df0|c0|bs]|] eqn:Eb; try reflexivity.
  destruct (h !! points bs) as [[df|c0|bs0]|] eqn:Ep; try reflexivity.
  destruct (_validate_curve_points_columns df); [|reflexivity].
  rewrite Eb, Ep. unfold alloc at 1. cbv zeta.
  rewrite lookup_insert_eq.
  destruct (_normalise_apply_to apply_to (list_to_set (index_names df)));
    [|reflexivity].
  rewrite lookup_insert_eq.
  destruct (_rebuild_curves _ _) as [[cs|e] h3]; [|reflexivity].
  destruct (h3 !! base_set) as [[df1|c1|bs1]|]; reflexivity.
Qed.


(** Whatever the outcome, [apply_parallel_shock] leaves every object of the
    heap as it was; the set it returns, the table and the curves of that
    set are new objects, and the set carries the date and the day-count
    base of the base set. *)
Lemma apply_parallel_shock_frame (base_set : loc) (shock : ParallelShock)
  (apply_to : option (list string)) (h : heap) (r : result loc) (h' : heap) :
  apply_parallel_shock base_set shock apply_to h = (r, h') ->
  h ⊆ h' /\
  forall new : loc, r = Ok new ->
    h !! new = None /\
    exists bs bs' : ForwardCurveSet,
      h !! base_set = Some (OForwardCurveSet bs) /\
      h' !! new = Some (OForwardCurveSet bs') /\
      analysis_date bs' = analysis_date bs /\ base bs' = base bs /\
      h !! points bs' = None /\
      (forall ix c, curves bs' !! ix = Some c -> h !! c = None).
Proof.
  rewrite apply_parallel_shock_unfold.
  destruct (h !! base_set) as [[df0|c0|bs]|] eqn:Eb;
    try (intros [= <- <-]; split; [reflexivity|discriminate]).
  destruct (h !! points bs) as [[df|c0|bs0]|] eqn:Ep;
    try (intros [= <- <-]; split; [reflexivity|discriminate]).
  destruct (_validate_curve_points_columns df);
    [|intros [= <- <-]; split; [reflexivity|discriminate]].
  cbv zeta. set (l := fresh (dom h)).
  assert (Hl : h !! l = None) by apply fresh_lookup_None.
  assert (Hsub1 : h ⊆ <[l := ODataFrame df]> h) by (apply insert_subseteq, Hl).
  destruct (_normalise_apply_to apply_to (list_to_set (index_names df))) as [sel|e];
    [|intros [= <- <-]; split; [exact Hsub1|discriminate]].
  rewrite insert_insert_eq.
  set (d2 := shift_frame sel (shift_decimal shock) df).
  set (h2 := <[l := ODataFrame d2]> h).
  assert (Hsub2 : h ⊆ h2) by (apply insert_subseteq, Hl).
  assert (Hd2 : h2 !! l = Some (ODataFrame d2)) by apply lookup_insert_eq.
  destruct (_rebuild_curves l h2) as [[cs|e] h3] eqn:Er;
    destruct (rebuild_curves_spec l d2 h2 _ h3 Hd2 Er) as [Hsub3 Hr];
    [|intros [= <- <-]; split; [etrans; eassumption|discriminate]].
  assert (Hsub : h ⊆ h3) by (etrans; eassumption).
  rewrite (lookup_weaken h h3 _ _ Eb Hsub).
  unfold alloc. intros [= <- <-].
  set (new := fresh (dom h3)).
  assert (Hnew : h3 !! new = None) by apply fresh_lookup_None.
  split; [etrans; [exact Hsub|apply insert_subseteq, Hnew]|].
  intros new' [= <-]. split; [apply (lookup_None_weaken h h3 new Hsub Hnew)|].
  exists bs. eexists. split; [reflexivity|]. split; [apply lookup_insert_eq|].
  cbn [analysis_date base points curves].
  split; [reflexivity|]. split; [reflexivity|]. split; [exact Hl|].
  intros ix c Hc. destruct Hr as [Hout Hin].
  destruct (List.in_dec String.string_dec ix (index_names d2)) as [Hix|Hix].
  - destruct (Hin ix Hix) as (c' & cv & H1 & H2 & _). rewrite Hc in H1.
    injection H1 as <-. apply (lookup_None_weaken h h2 c Hsub2 H2).
  - rewrite (Hout ix Hix) in Hc. discriminate.
Qed.

(** On a base set whose table builds its curves, and with a target that
    resolves, [apply_parallel_shock] returns a set over the shifted table
    and the curves rebuilt from it. *)
Lemma apply_parallel_shock_success (base_set : loc) (shock : ParallelShock)
  (apply_to : option (list string)) (h : heap) (bs : ForwardCurveSet)
  (df : DataFrame) (sel : gset string) :
  base_set_at h base_set bs df ->
  Curves.missing_columns df = [] ->
  table_ok df ->
  _normalise_apply_to apply_to (list_to_set (index_names df)) = Ok sel ->
  exists (new : loc) (bs' : ForwardCurveSet) (h' : heap),
    apply_parallel_shock base_set shock apply_to h = (Ok new, h') /\
    h' !! new = Some (OForwardCurveSet bs') /\
    h' !! points bs' = Some (ODataFrame (shift_frame sel (shift_decimal shock) df)) /\
    (forall ix, In ix (index_names df) ->
       exists (c : loc) (cv : Curves.ForwardCurve),
         curves bs' !! ix = Some c /\
         h' !! c = Some (OForwardCurve (shift_curve sel (shift_decimal shock) ix cv)) /\
         Curves.curve_from_long_df df ix = Ok cv).
Proof.
  intros [Eb Ep] Hcols Hok Hsel.
  destruct (apply_parallel_shock base_set shock apply_to h) as [r h'] eqn:Erun.
  pose proof Erun as Hrun. rewrite apply_parallel_shock_unfold in Hrun.
  rewrite Eb, Ep in Hrun. unfold _validate_curve_points_columns in Hrun.
  rewrite Hcols, Hsel in Hrun. cbv zeta in Hrun.
  set (l := fresh (dom h)) in *.
  assert (Hl : h !! l = None) by apply fresh_lookup_None.
  rewrite insert_insert_eq in Hrun.
  set (d2 := shift_frame sel (shift_decimal shock) df) in *.
  set (h2 := <[l := ODataFrame d2]> h) in *.
  assert (Hsub2 : h ⊆ h2) by (apply insert_subseteq, Hl).
  assert (Hd2 : h2 !! l = Some (ODataFrame d2)) by apply lookup_insert_eq.
  destruct (_rebuild_curves l h2) as [[cs|e] h3] eqn:Er;
    destruct (rebuild_curves_spec l d2 h2 _ h3 Hd2 Er) as [Hsub3 Hr].
  - assert (Hsub : h ⊆ h3) by (etrans; eassumption).
    rewrite (lookup_weaken h h3 _ _ Eb Hsub) in Hrun.
    unfold alloc in Hrun. injection Hrun as <- <-.
    set (new := fresh (dom h3)).
    assert (Hnew : h3 !! new = None) by apply fresh_lookup_None.
    assert (Hsub4 : h3 ⊆ <[new := OForwardCurveSet
                                    (mkForwardCurveSet (analysis_date bs) (base bs) l cs)]> h3)
      by (apply insert_subseteq, Hnew).
    exists new. eexists. eexists. split; [reflexivity|].
    split; [apply lookup_insert_eq|]. cbn [points curves].
    split; [apply (lookup_weaken h3 _ l _ (lookup_weaken h2 h3 l _ Hd2 Hsub3) Hsub4)|].
    intros ix Hix. destruct Hr as [_ Hin].
    destruct (Hin ix ltac:(unfold d2; rewrite index_names_shift_frame; exact Hix))
      as (c & cv' & H1 & _ & H3 & H4).
    destruct (Hok ix Hix) as [cv Hcv].
    pose proof (curve_from_long_df_shift sel (shift_decimal shock) df ix cv Hcv) as Hs.
    fold d2 in Hs. rewrite Hs in H4. injection H4 as <-.
    exists c, cv. split; [exact H1|]. split; [|exact Hcv].
    apply (lookup_weaken h3 _ c _ H3 Hsub4).
  - exfalso. destruct Hr as (ix & Hix & He).
    unfold d2 in Hix. rewrite index_names_shift_frame in Hix.
    destruct (Hok ix Hix) as [cv Hcv].
    pose proof (curve_from_long_df_shift sel (shift_decimal shock) df ix cv Hcv) as Hs.
    fold d2 in Hs. congruence.
Qed.

End HeapFacts.

Section TargetFacts.

Import Scenarios ScenarioSpec.

Lemma sorted_nil_inv (l : list string) : sorted l = [] -> l = [].
Proof.
  destruct l as [|x l]; [reflexivity|]. cbn [sorted].
  destruct (sorted l) as [|y l']; cbn [insert_str]; [discriminate|].
  destruct (String.leb x y); discriminate.
Qed.

(** How an explicit target resolves. *)
Lemma normalise_apply_to_Some (apply_to : list string) (available : gset string) :
  _normalise_apply_to (Some apply_to) available =
  if decide (stripped_entries apply_to = ∅) then Raise EmptyShockTarget
  else if decide (stripped_entries apply_to ⊆ available)
       then Ok (stripped_entries apply_to)
       else Raise (UnknownIndex
                     (sorted (elements (stripped_entries apply_to ∖ available)))
                     (sorted (elements available))).
Proof.
  unfold _normalise_apply_to. cbv zeta.
  destruct (decide (stripped_entries apply_to = ∅)); [reflexivity|].
  destruct (sorted (elements (stripped_entries apply_to ∖ available))) as [|u us] eqn:E.
  - apply sorted_nil_inv, elements_empty_inv in E.
    rewrite decide_True by (apply empty_difference_subseteq; exact E). reflexivity.
  - rewrite decide_False; [reflexivity|].
    intros Hsub. rewrite (subseteq_empty_difference_L _ _ Hsub), elements_empty in E.
    discriminate.
Qed.

Lemma elem_of_stripped_entries (apply_to : list string) (x : string) :
  x ∈ stripped_entries apply_to <->
  exists ix : string, In ix apply_to /\ strip ix = x /\ x <> EmptyString.
Proof.
  unfold stripped_entries. rewrite elem_of_list_to_set, list_elem_of_In, List.in_map_iff.
  split.
  - intros (ix & <- & Hix). apply List.filter_In in Hix as [Hin Hne].
    exists ix. split; [exact Hin|]. split; [reflexivity|].
    intros E. rewrite E in Hne. discriminate.
  - intros (ix & Hin & <- & Hne). exists ix. split; [reflexivity|].
    apply List.filter_In. split; [exact Hin|].
    destruct (String.eqb_spec (strip ix) EmptyString); [contradiction|reflexivity].
Qed.

Lemma stripped_entries_blank (apply_to : list string) :
  Forall (fun ix => strip ix = EmptyString) apply_to ->
  stripped_entries apply_to = ∅.
Proof.
  intros Hall. apply set_eq. intros x. rewrite elem_of_stripped_entries.
  split; [|set_solver].
  intros (ix & Hin & <- & Hne). exfalso. apply Hne.
  apply (proj1 (List.Forall_forall _ _) Hall). exact Hin.
Qed.

End TargetFacts.

Section ScenarioClaims.

Import Scenarios ScenarioSpec.

Lemma shift_rows_selected (sel : gset string) (s : R) (rs : list Row) :
  (forall r, In r rs -> exists x : R, FwdRate r = Some x) ->
  Forall2 (fun r r' => if bool_decide (IndexName r ∈ sel) then rate_shifted s r r' else r' = r)
          rs (map (shift_row sel s) rs).
Proof.
  intros Hrows. induction rs as [|r rs IH]; [constructor|].
  cbn [map]. constructor.
  - unfold shift_row. destruct (bool_decide (IndexName r ∈ sel)); [|reflexivity].
    destruct (Hrows r ltac:(left; reflexivity)) as [x Hx].
    exists x. cbn. rewrite Hx. repeat split; reflexivity.
  - apply IH. intros r' Hr'. apply Hrows. right. exact Hr'.
Qed.

Lemma shift_rows_every (sel : gset string) (s : R) (rs : list Row) :
  (forall r, In r rs -> exists x : R, FwdRate r = Some x) ->
  (forall r, In r rs -> IndexName r ∈ sel) ->
  Forall2 (rate_shifted s) rs (map (shift_row sel s) rs).
Proof.
  intros Hrows Hsel. induction rs as [|r rs IH]; [constructor|].
  cbn [map]. constructor.
  - unfold shift_row. rewrite bool_decide_eq_true_2 by (apply Hsel; left; reflexivity).
    destruct (Hrows r ltac:(left; reflexivity)) as [x Hx].
    exists x. cbn. rewrite Hx. repeat split; reflexivity.
  - apply IH; intros r' Hr'; [apply Hrows|apply Hsel]; right; exact Hr'.
Qed.

(** C3. On a base set whose raw table has the required columns (and
    builds its curves), [apply_parallel_shock] with [apply_to=None] returns a
    set in whose raw table every rate is the base rate plus
    [shift_bps / 10000]; with an explicit target that is not empty and names
    indices of the base set, the rows of the named indices are shifted by that
    amount and every other row is unchanged. *)
Theorem C3_parallel_shock_shifts_rates (h : heap) (base_set : loc)
  (bs : ForwardCurveSet) (df : DataFrame) (shock : ParallelShock) :
  base_set_at h base_set bs df ->
  Curves.missing_columns df = [] ->
  table_ok df ->
  (exists (new : loc) (bs' : ForwardCurveSet) (df' : DataFrame) (h' : heap),
      apply_parallel_shock base_set shock None h = (Ok new, h') /\
      h' !! new = Some (OForwardCurveSet bs') /\
      h' !! points bs' = Some (ODataFrame df') /\
      Forall2 (rate_shifted (shift_bps shock / 10000)) (rows df) (rows df')) /\
  (forall apply_to : list string,
      stripped_entries apply_to <> ∅ ->
      stripped_entries apply_to ⊆ list_to_set (index_names df) ->
      exists (new : loc) (bs' : ForwardCurveSet) (df' : DataFrame) (h' : heap),
        apply_parallel_shock base_set shock (Some apply_to) h = (Ok new, h') /\
        h' !! new = Some (OForwardCurveSet bs') /\
        h' !! points bs' = Some (ODataFrame df') /\
        Forall2 (fun r r' =>
                   if bool_decide (IndexName r ∈ stripped_entries apply_to)
                   then rate_shifted (shift_bps shock / 10000) r r'
                   else r' = r)
                (rows df) (rows df')).
Proof.
  intros Hbase Hcols Hok. split.
  - destruct (apply_parallel_shock_success base_set shock None h bs df
                (list_to_set (index_names df)) Hbase Hcols Hok eq_refl)
      as (new & bs' & h' & Hrun & Hnew & Hpts & _).
    exists new, bs', (shift_frame (list_to_set (index_names df)) (shift_decimal shock) df), h'.
    repeat split; try assumption.
    unfold shift_frame, shift_decimal. cbn [rows]. apply shift_rows_every.
    + intros r Hr. apply (table_ok_rate df r Hok Hr).
    + intros r Hr. apply elem_of_list_to_set, list_elem_of_In, In_unique, List.in_map, Hr.
  - intros apply_to Hne Hsub.
    destruct (apply_parallel_shock_success base_set shock (Some apply_to) h bs df
                (stripped_entries apply_to) Hbase Hcols Hok)
      as (new & bs' & h' & Hrun & Hnew & Hpts & _).
    { rewrite normalise_apply_to_Some, decide_False, decide_True by assumption.
      reflexivity. }
    exists new, bs', (shift_frame (stripped_entries apply_to) (shift_decimal shock) df), h'.
    repeat split; try assumption.
    unfold shift_frame, shift_decimal. cbn [rows]. apply shift_rows_selected.
    intros r Hr. apply (table_ok_rate df r Hok Hr).
Qed.


Lemma eur_base_set_at : base_set_at eur_heap 2 eur_set eur_frame.
Proof. split; reflexivity. Qed.

Lemma eur_columns : Curves.missing_columns eur_frame = [].
Proof. reflexivity. Qed.

Lemma eur_table_ok : table_ok eur_frame.
Proof.
  intros ix Hix. cbn in Hix. destruct Hix as [<-|[]].
  eexists. reflexivity.
Qed.

Lemma eur_target_entries : stripped_entries eur_target = {[ "EUR"%string ]}.
Proof. vm_compute. reflexivity. Qed.

Lemma eur_target_nonempty : stripped_entries eur_target <> ∅.
Proof. rewrite eur_target_entries. apply non_empty_singleton_L. Qed.

Lemma eur_target_known :
  stripped_entries eur_target ⊆ list_to_set (index_names eur_frame).
Proof.
  rewrite eur_target_entries. intros x Hx. apply elem_of_singleton in Hx as ->.
  apply elem_of_list_to_set. cbn. left.
Qed.

Lemma C3_witness :
  base_set_at eur_heap 2 eur_set eur_frame /\
  Curves.missing_columns eur_frame = [] /\
  table_ok eur_frame /\
  stripped_entries eur_target <> ∅ /\
  stripped_entries eur_target ⊆ list_to_set (index_names eur_frame) /\
  (exists (new : loc) (bs' : ForwardCurveSet) (df' : DataFrame) (h' : heap),
      apply_parallel_shock 2 up_200 None eur_heap = (Ok new, h') /\
      h' !! new = Some (OForwardCurveSet bs') /\
      h' !! points bs' = Some (ODataFrame df') /\
      Forall2 (rate_shifted (shift_bps up_200 / 10000)) (rows eur_frame) (rows df')) /\
  (exists (new : loc) (bs' : ForwardCurveSet) (df' : DataFrame) (h' : heap),
      apply_parallel_shock 2 up_200 (Some eur_target) eur_heap = (Ok new, h') /\
      h' !! new = Some (OForwardCurveSet bs') /\
      h' !! points bs' = Some (ODataFrame df') /\
      Forall2 (fun r r' =>
                 if bool_decide (IndexName r ∈ stripped_entries eur_target)
                 then rate_shifted (shift_bps up_200 / 10000) r r'
                 else r' = r)
              (rows eur_frame) (rows df')).
Proof.
  split; [exact eur_base_set_at|]. split; [exact eur_columns|].
  split; [exact eur_table_ok|]. split; [exact eur_target_nonempty|].
  split; [exact eur_target_known|].
  split.
  - exact (proj1 (C3_parallel_shock_shifts_rates eur_heap 2 eur_set eur_frame up_200
                    eur_base_set_at eur_columns eur_table_ok)).
  - exact (proj2 (C3_parallel_shock_shifts_rates eur_heap 2 eur_set eur_frame up_200
                    eur_base_set_at eur_columns eur_table_ok)
             eur_target eur_target_nonempty eur_target_known).
Defined.

(** C4. [apply_parallel_shock] never changes an object that exists when it
    is called: the base set, its raw table and its curves are as before,
    whatever the outcome.  The set it returns is a new object, with a new
    table and new curves, and carries the analysis date and the day-count
    base of the base set.  It does return a set when the table of the base
    set has the required columns and builds its curves and the target
    resolves. *)
Theorem C4_parallel_shock_frame (base_set : loc) (shock : ParallelShock)
  (apply_to : option (list string)) (h : heap) :
  (forall (l : loc) (o : obj),
      h !! l = Some o ->
      (apply_parallel_shock base_set shock apply_to h).2 !! l = Some o) /\
  (forall new : loc,
      (apply_parallel_shock base_set shock apply_to h).1 = Ok new ->
      h !! new = None /\
      exists bs bs' : ForwardCurveSet,
        h !! base_set = Some (OForwardCurveSet bs) /\
        (apply_parallel_shock base_set shock apply_to h).2 !! new
        = Some (OForwardCurveSet bs') /\
        analysis_date bs' = analysis_date bs /\ base bs' = base bs /\
        h !! points bs' = None /\
        (forall ix c, curves bs' !! ix = Some c -> h !! c = None)) /\
  (forall (bs : ForwardCurveSet) (df : DataFrame) (sel : gset string),
      base_set_at h base_set bs df ->
      Curves.missing_columns df = [] ->
      table_ok df ->
      _normalise_apply_to apply_to (list_to_set (index_names df)) = Ok sel ->
      exists new : loc, (apply_parallel_shock base_set shock apply_to h).1 = Ok new).
Proof.
  destruct (apply_parallel_shock base_set shock apply_to h) as [r h'] eqn:Erun.
  destruct (apply_parallel_shock_frame _ _ _ _ _ _ Erun) as [Hsub Hnew].
  cbn [fst snd]. split; [|split].
  - intros l o Hl. apply (lookup_weaken h h' l o Hl Hsub).
  - exact Hnew.
  - intros bs df sel Hbase Hcols Hok Hsel.
    destruct (apply_parallel_shock_success base_set shock apply_to h bs df sel
                Hbase Hcols Hok Hsel) as (new & _ & h'' & Hrun & _).
    exists new. rewrite Hrun in Erun. injection Erun as <- _. reflexivity.
Qed.

Lemma C4_witness :
  eur_heap !! 3%positive = Some (OForwardCurve eur_curve) /\
  base_set_at eur_heap 2 eur_set eur_frame /\
  Curves.missing_columns eur_frame = [] /\
  table_ok eur_frame /\
  (apply_parallel_shock 2 up_200 None eur_heap).2 !! 3%positive
  = Some (OForwardCurve eur_curve) /\
  exists new : loc, (apply_parallel_shock 2 up_200 None eur_heap).1 = Ok new.
Proof.
  assert (H : eur_heap !! 3%positive = Some (OForwardCurve eur_curve)) by reflexivity.
  split; [exact H|]. split; [exact eur_base_set_at|]. split; [exact eur_columns|].
  split; [exact eur_table_ok|].
  split.
  - exact (proj1 (C4_parallel_shock_frame 2 up_200 None eur_heap) 3%positive _ H).
  - exact (proj2 (proj2 (C4_parallel_shock_frame 2 up_200 None eur_heap))
             eur_set eur_frame _ eur_base_set_at eur_columns eur_table_ok eq_refl).
Defined.

(** C10. An explicit target all of whose entries are empty or blank after
    stripping raises the empty-target error, in [_normalise_apply_to] and so in
    [apply_parallel_shock]: the entries are stripped and the blank ones
    dropped before the emptiness check.  The names of a target that
    resolves are the stripped, non-blank entries, and it resolves exactly
    when there is one and all of them are indices of the base set. *)
Theorem C10_blank_targets_and_stripped_names :
  (forall (apply_to : list string) (available : gset string),
      Forall (fun ix => strip ix = EmptyString) apply_to ->
      _normalise_apply_to (Some apply_to) available = Raise EmptyShockTarget) /\
  (forall (h : heap) (base_set : loc) (bs : ForwardCurveSet) (df : DataFrame)
          (shock : ParallelShock) (apply_to : list string),
      base_set_at h base_set bs df ->
      Curves.missing_columns df = [] ->
      Forall (fun ix => strip ix = EmptyString) apply_to ->
      (apply_parallel_shock base_set shock (Some apply_to) h).1 = Raise EmptyShockTarget) /\
  (forall (apply_to : list string) (x : string),
      x ∈ stripped_entries apply_to <->
      exists ix : string, In ix apply_to /\ strip ix = x /\ x <> EmptyString) /\
  (forall (apply_to : list string) (available sel : gset string),
      _normalise_apply_to (Some apply_to) available = Ok sel <->
      sel = stripped_entries apply_to /\ sel <> ∅ /\ sel ⊆ available).
Proof.
  assert (Hblank : forall apply_to available,
             Forall (fun ix => strip ix = EmptyString) apply_to ->
             _normalise_apply_to (Some apply_to) available = Raise EmptyShockTarget).
  { intros apply_to available Hall. rewrite normalise_apply_to_Some.
    rewrite decide_True by (apply stripped_entries_blank; exact Hall). reflexivity. }
  split; [exact Hblank|]. split; [|split].
  - intros h base_set bs df shock apply_to [Eb Ep] Hcols Hall.
    rewrite apply_parallel_shock_unfold, Eb, Ep.
    unfold _validate_curve_points_columns. rewrite Hcols. cbv zeta.
    rewrite (Hblank apply_to _ Hall). reflexivity.
  - exact elem_of_stripped_entries.
  - intros apply_to available sel. rewrite normalise_apply_to_Some.
    destruct (decide (stripped_entries apply_to = ∅)) as [He|He].
    + split; [discriminate|]. intros (-> & Hne & _). contradiction.
    + destruct (decide (stripped_entries apply_to ⊆ available)) as [Hs|Hs].
      * split; [intros [= <-]; auto|]. intros (-> & _ & _). reflexivity.
      * split; [discriminate|]. intros (-> & _ & Hsub). contradiction.
Qed.

Lemma C10_witness :
  Forall (fun ix => strip ix = EmptyString) [" "%string; EmptyString] /\
  _normalise_apply_to (Some [" "%string; EmptyString]) {[ "EUR"%string ]}
  = Raise EmptyShockTarget /\
  stripped_entries eur_target <> ∅ /\
  stripped_entries eur_target ⊆ list_to_set (index_names eur_frame) /\
  _normalise_apply_to (Some eur_target) (list_to_set (index_names eur_frame))
  = Ok (stripped_entries eur_target).
Proof.
  assert (H : Forall (fun ix => strip ix = EmptyString) [" "%string; EmptyString])
    by (repeat constructor).
  split; [exact H|].
  split; [exact (proj1 C10_blank_targets_and_stripped_names _ _ H)|].
  split; [exact eur_target_nonempty|]. split; [exact eur_target_known|].
  apply (proj2 (proj2 (proj2 C10_blank_targets_and_stripped_names))).
  split; [reflexivity|]. split; [exact eur_target_nonempty|exact eur_target_known].
Defined.

(** A repeated name, or a name already in the result, makes the loop of
    [apply_parallel_shocks] raise. *)
Lemma shocks_loop_clash (base_set : loc) (apply_to : option (list string))
  (shocks : list ParallelShock) :
  forall (out : gmap string loc) (h : heap),
    (~ List.NoDup (map name shocks) \/
     exists s, In s shocks /\ out !! name s <> None) ->
    exists (e : exn) (h' : heap),
      shocks_loop base_set shocks apply_to out h = (Raise e, h').
Proof.
  induction shocks as [|shock shocks IH]; intros out h Hclash.
  - exfalso. destruct Hclash as [H|(s & [] & _)]. apply H. constructor.
  - cbn [shocks_loop].
    destruct (out !! name shock) as [l0|] eqn:Eout; [do 2 eexists; reflexivity|].
    unfold bind.
    destruct (apply_parallel_shock base_set shock apply_to h) as [[l|e] h1];
      [|do 2 eexists; reflexivity].
    apply IH.
    destruct Hclash as [Hdup|(s & [<-|Hin] & Hs)].
    + destruct (List.in_dec String.string_dec (name shock) (map name shocks)) as [Hin|Hnin].
      * right. apply List.in_map_iff in Hin as (s & Hname & Hin).
        exists s. split; [exact Hin|]. rewrite Hname, lookup_insert_eq. discriminate.
      * left. intros Hnd. apply Hdup. cbn [map]. constructor; assumption.
    + contradiction.
    + right. exists s. split; [exact Hin|].
      destruct (decide (name shock = name s)) as [E|E].
      * rewrite E, lookup_insert_eq. discriminate.
      * rewrite lookup_insert_ne by exact E. exact Hs.
Qed.

(** The loop of [apply_parallel_shocks] on a base set for which every
    application succeeds: it returns the scenario map when the names are
    distinct and fresh, and otherwise raises the duplicate-name error at the
    first clash -- the first shock whose name is in the result or is that of
    a shock before it -- after the sets of the shocks before the clash,
    whose names are distinct and fresh, have been built by
    [apply_parallel_shock]. *)
Lemma shocks_loop_spec (base_set : loc) (apply_to : option (list string))
  (bs : ForwardCurveSet) (df : DataFrame) (sel : gset string)
  (shocks : list ParallelShock) :
  Curves.missing_columns df = [] ->
  table_ok df ->
  _normalise_apply_to apply_to (list_to_set (index_names df)) = Ok sel ->
  forall (out : gmap string loc) (h : heap),
    base_set_at h base_set bs df ->
    exists (r : result (gmap string loc)) (h' : heap),
      shocks_loop base_set shocks apply_to out h = (r, h') /\ h ⊆ h' /\
      match r with
      | Ok out' =>
          List.NoDup (map name shocks) /\
          (forall s, In s shocks -> out !! name s = None) /\
          (forall n, ~ In n (map name shocks) -> out' !! n = out !! n) /\
          (forall s, In s shocks ->
             exists (l : loc) (hi hi' : heap),
               out' !! name s = Some l /\ h ⊆ hi /\ hi' ⊆ h' /\
               apply_parallel_shock base_set s apply_to hi = (Ok l, hi'))
      | Raise e =>
          exists (pre : list ParallelShock) (s : ParallelShock) (post : list ParallelShock),
            shocks = pre ++ s :: post /\
            e = DuplicateScenario (name s) /\
            List.NoDup (map name pre) /\
            (forall s', In s' pre -> out !! name s' = None) /\
            (out !! name s <> None \/ In (name s) (map name pre)) /\
            (forall s', In s' pre ->
               exists (l : loc) (set : ForwardCurveSet) (hi hi' : heap),
                 h ⊆ hi /\ hi' ⊆ h' /\
                 apply_parallel_shock base_set s' apply_to hi = (Ok l, hi') /\
                 h !! l = None /\ h' !! l = Some (OForwardCurveSet set))
      end.
Proof.
  intros Hcols Hok Hsel.
  induction shocks as [|shock shocks IH]; intros out h Hbase.
  - exists (Ok out), h. split; [reflexivity|]. split; [reflexivity|].
    split; [constructor|]. split; [intros s []|]. split; [reflexivity|intros s []].
  - cbn [shocks_loop].
    destruct (out !! name shock) as [l0|] eqn:Eout.
    { exists (Raise (DuplicateScenario (name shock))), h.
      split; [reflexivity|]. split; [reflexivity|].
      exists [], shock, shocks. split; [reflexivity|]. split; [reflexivity|].
      split; [constructor|]. split; [intros s' []|].
      split; [left; rewrite Eout; discriminate|intros s' []]. }
    unfold bind.
    destruct (apply_parallel_shock_success base_set shock apply_to h bs df sel
                Hbase Hcols Hok Hsel) as (l & set & h1 & Hrun & Hl1 & _).
    rewrite Hrun.
    destruct (apply_parallel_shock_frame _ _ _ _ _ _ Hrun) as [Hsub1 Hnew].
    destruct (Hnew l eq_refl) as (Hl & _).
    assert (Hbase1 : base_set_at h1 base_set bs df).
    { destruct Hbase as [Eb Ep]. split; eapply lookup_weaken; eassumption. }
    destruct (IH (<[name shock := l]> out) h1 Hbase1) as (r & h' & Hloop & Hsub & Hr).
    exists r, h'. split; [exact Hloop|]. split; [etrans; eassumption|].
    destruct r as [out'|e].
    + destruct Hr as (Hnd & Hfresh & Hother & Hsets).
      assert (Hnin : ~ In (name shock) (map name shocks)).
      { intros Hin. apply List.in_map_iff in Hin as (s & Hname & Hin).
        specialize (Hfresh s Hin). rewrite Hname, lookup_insert_eq in Hfresh.
        discriminate. }
      split; [cbn [map]; constructor; assumption|]. split; [|split].
      * intros s [<-|Hin]; [exact Eout|].
        specialize (Hfresh s Hin).
        destruct (decide (name shock = name s)) as [E|E].
        -- rewrite E, lookup_insert_eq in Hfresh. discriminate.
        -- rewrite lookup_insert_ne in Hfresh by exact E. exact Hfresh.
      * intros n Hn. cbn [map In] in Hn. rewrite Hother by tauto.
        apply lookup_insert_ne. tauto.
      * intros s [<-|Hin].
        -- exists l, h, h1. rewrite (Hother _ Hnin), lookup_insert_eq.
           split; [reflexivity|]. split; [reflexivity|]. split; assumption.
        -- destruct (Hsets s Hin) as (l' & hi & hi' & H1 & H2 & H3 & H4).
           exists l', hi, hi'. split; [exact H1|]. split; [etrans; eassumption|].
           split; assumption.
    + destruct Hr as (pre & s & post & -> & -> & Hnd & Hfresh & Hclash & Hbuilt).
      assert (Hfresh' : forall s', In s' pre ->
                 name shock <> name s' /\ out !! name s' = None).
      { intros s' Hin. specialize (Hfresh s' Hin).
        destruct (decide (name shock = name s')) as [E|E].
        - rewrite E, lookup_insert_eq in Hfresh. discriminate.
        - rewrite lookup_insert_ne in Hfresh by exact E. split; assumption. }
      exists (shock :: pre), s, post. split; [reflexivity|]. split; [reflexivity|].
      split; [|split; [|split]].
      * cbn [map]. constructor; [|exact Hnd].
        intros Hin. apply List.in_map_iff in Hin as (s' & Hname & Hin).
        destruct (Hfresh' s' Hin) as [Hne _]. congruence.
      * intros s' [<-|Hin]; [exact Eout|]. apply (Hfresh' s' Hin).
      * destruct Hclash as [Hc|Hc]; [|right; cbn [map In]; tauto].
        destruct (decide (name shock = name s)) as [E|E].
        -- right. left. exact E.
        -- left. rewrite lookup_insert_ne in Hc by exact E. exact Hc.
      * intros s' [<-|Hin].
        -- exists l, set, h, h1. split; [reflexivity|]. split; [exact Hsub|].
           split; [exact Hrun|]. split; [exact Hl|].
           eapply lookup_weaken; eassumption.
        -- destruct (Hbuilt s' Hin) as (l' & set' & hi & hi' & H1 & H2 & H3 & H4 & H5).
           exists l', set', hi, hi'. split; [etrans; eassumption|].
           split; [exact H2|]. split; [exact H3|]. split; [|exact H5].
           apply (lookup_None_weaken h h1 l' Hsub1 H4).
Qed.

(** C9 as stated: [apply_parallel_shocks] on two shocks named "up" raises
    the duplicate-name error only after a curve set has been built for the
    first of them; and with an empty target the error raised is that of the
    first application, not the duplicate-name error. *)
Lemma C9_counterexample :
  (exists (h' : heap) (l : loc) (set : ForwardCurveSet),
      apply_parallel_shocks 2 [up_200; up_100] None eur_heap
      = (Raise (DuplicateScenario "up"), h') /\
      eur_heap !! l = None /\ h' !! l = Some (OForwardCurveSet set)) /\
  (exists h' : heap,
      apply_parallel_shocks 2 [up_200; up_100] (Some []) eur_heap
      = (Raise EmptyShockTarget, h')).
Proof.
  split.
  - destruct (shocks_loop_spec 2 None eur_set eur_frame _ [up_200; up_100]
                eur_columns eur_table_ok eq_refl ∅ eur_heap eur_base_set_at)
      as (r & h' & Hrun & _ & Hr).
    destruct r as [out'|e].
    + exfalso. destruct Hr as (Hnd & _). cbn in Hnd.
      apply List.NoDup_cons_iff in Hnd as [Hnin _]. apply Hnin. left. reflexivity.
    + destruct Hr as (pre & s & post & Hsplit & -> & _ & _ & Hclash & Hbuilt).
      destruct Hclash as [Hc|Hc]; [rewrite lookup_empty in Hc; contradiction|].
      destruct pre as [|s0 pre]; [destruct Hc|].
      destruct (Hbuilt s0 ltac:(left; reflexivity)) as (l & set & _ & _ & _ & _ & _ & H1 & H2).
      assert (Hname : name s = "up"%string).
      { assert (Hin : In s [up_200; up_100])
          by (rewrite Hsplit; apply List.in_or_app; right; left; reflexivity).
        destruct Hin as [<-|[<-|[]]]; reflexivity. }
      rewrite Hname in Hrun. exists h', l, set. repeat split; assumption.
  - unfold apply_parallel_shocks. cbn [shocks_loop]. rewrite lookup_empty.
    unfold bind. rewrite apply_parallel_shock_unfold.
    change (eur_heap !! 2%positive) with (Some (OForwardCurveSet eur_set)).
    cbv iota. change (eur_heap !! points eur_set) with (Some (ODataFrame eur_frame)).
    cbv iota beta. eexists. reflexivity.
Qed.

(** C9, amended.  When two shocks share a name [apply_parallel_shocks]
    returns no map.  On a base set for which each application succeeds (its
    table has the required columns and builds its curves, and the target
    resolves) the list of shocks then splits at the second shock of a
    repeated name -- the shocks before it have distinct names and its name
    is that of one of them -- and the call raises the duplicate-name error
    for that name, after [apply_parallel_shock] has built the curve set of
    each shock before it, at a fresh location of the heap in which the set
    remains; the base heap is unchanged.  When all names are distinct the
    call returns the map from each scenario name to the set that
    [apply_parallel_shock] returns for that shock. *)
Theorem C9_parallel_shocks_names (base_set : loc) (shocks : list ParallelShock)
  (apply_to : option (list string)) (h : heap) :
  (~ List.NoDup (map name shocks) ->
   exists (e : exn) (h' : heap),
     apply_parallel_shocks base_set shocks apply_to h = (Raise e, h')) /\
  (forall (bs : ForwardCurveSet) (df : DataFrame) (sel : gset string),
      base_set_at h base_set bs df ->
      Curves.missing_columns df = [] ->
      table_ok df ->
      _normalise_apply_to apply_to (list_to_set (index_names df)) = Ok sel ->
      (~ List.NoDup (map name shocks) ->
       exists (pre : list ParallelShock) (s : ParallelShock)
              (post : list ParallelShock) (h' : heap),
         shocks = pre ++ s :: post /\
         List.NoDup (map name pre) /\
         In (name s) (map name pre) /\
         apply_parallel_shocks base_set shocks apply_to h
         = (Raise (DuplicateScenario (name s)), h') /\
         h ⊆ h' /\
         (forall s', In s' pre ->
            exists (l : loc) (set : ForwardCurveSet) (hi hi' : heap),
              h ⊆ hi /\ hi' ⊆ h' /\
              apply_parallel_shock base_set s' apply_to hi = (Ok l, hi') /\
              h !! l = None /\ h' !! l = Some (OForwardCurveSet set))) /\
      (List.NoDup (map name shocks) ->
       exists (out : gmap string loc) (h' : heap),
         apply_parallel_shocks base_set shocks apply_to h = (Ok out, h') /\
         (forall n, ~ In n (map name shocks) -> out !! n = None) /\
         (forall s, In s shocks ->
            exists (l : loc) (hi hi' : heap),
              out !! name s = Some l /\ h ⊆ hi /\ hi' ⊆ h' /\
              apply_parallel_shock base_set s apply_to hi = (Ok l, hi')))).
Proof.
  split.
  - intros Hdup. apply shocks_loop_clash. left. exact Hdup.
  - intros bs df sel Hbase Hcols Hok Hsel.
    destruct (shocks_loop_spec base_set apply_to bs df sel shocks Hcols Hok Hsel ∅ h Hbase)
      as (r & h' & Hrun & Hsub & Hr).
    unfold apply_parallel_shocks. rewrite Hrun. split.
    + intros Hdup. destruct r as [out'|e]; [destruct Hr as (Hnd & _); contradiction|].
      destruct Hr as (pre & s & post & -> & -> & Hnd & _ & Hclash & Hbuilt).
      destruct Hclash as [Hc|Hc]; [rewrite lookup_empty in Hc; contradiction|].
      exists pre, s, post, h'. split; [reflexivity|]. split; [exact Hnd|].
      split; [exact Hc|]. split; [reflexivity|]. split; [exact Hsub|exact Hbuilt].
    + intros Hnd. destruct r as [out'|e].
      * destruct Hr as (_ & _ & Hother & Hsets).
        exists out', h'. split; [reflexivity|]. split; [|exact Hsets].
        intros n Hn. rewrite (Hother n Hn). apply lookup_empty.
      * exfalso. destruct Hr as (pre & s & post & -> & _ & _ & _ & Hclash & _).
        destruct Hclash as [Hc|Hc]; [rewrite lookup_empty in Hc; contradiction|].
        rewrite List.map_app in Hnd. cbn [map] in Hnd.
        apply List.NoDup_remove_2 in Hnd. apply Hnd, List.in_or_app. left. exact Hc.
Qed.

Lemma C9_witness :
  ~ List.NoDup (map name [up_200; up_100]) /\
  List.NoDup (map name [up_200; down_100]) /\
  base_set_at eur_heap 2 eur_set eur_frame /\
  Curves.missing_columns eur_frame = [] /\
  table_ok eur_frame /\
  (exists (e : exn) (h' : heap),
      apply_parallel_shocks 2 [up_200; up_100] None eur_heap = (Raise e, h')) /\
  (exists (pre : list ParallelShock) (s : ParallelShock)
          (post : list ParallelShock) (h' : heap),
      [up_200; up_100] = pre ++ s :: post /\
      List.NoDup (map name pre) /\
      In (name s) (map name pre) /\
      apply_parallel_shocks 2 [up_200; up_100] None eur_heap
      = (Raise (DuplicateScenario (name s)), h') /\
      eur_heap ⊆ h' /\
      (forall s', In s' pre ->
         exists (l : loc) (set : ForwardCurveSet) (hi hi' : heap),
           eur_heap ⊆ hi /\ hi' ⊆ h' /\
           apply_parallel_shock 2 s' None hi = (Ok l, hi') /\
           eur_heap !! l = None /\ h' !! l = Some (OForwardCurveSet set))) /\
  (exists (out : gmap string loc) (h' : heap),
      apply_parallel_shocks 2 [up_200; down_100] None eur_heap = (Ok out, h') /\
      (forall n, ~ In n (map name [up_200; down_100]) -> out !! n = None) /\
      (forall s, In s [up_200; down_100] ->
         exists (l : loc) (hi hi' : heap),
           out !! name s = Some l /\ eur_heap ⊆ hi /\ hi' ⊆ h' /\
           apply_parallel_shock 2 s None hi = (Ok l, hi'))).
Proof.
  assert (Hdup : ~ List.NoDup (map name [up_200; up_100])).
  { cbn. intros Hnd. apply List.NoDup_cons_iff in Hnd as [Hnin _].
    apply Hnin. left. reflexivity. }
  assert (Hnd : List.NoDup (map name [up_200; down_100])).
  { cbn. repeat constructor; cbn; [|tauto]. intros [E|[]]. discriminate. }
  split; [exact Hdup|]. split; [exact Hnd|]. split; [exact eur_base_set_at|].
  split; [exact eur_columns|]. split; [exact eur_table_ok|].
  split; [|split].
  - exact (proj1 (C9_parallel_shocks_names 2 [up_200; up_100] None eur_heap) Hdup).
  - exact (proj1 (proj2 (C9_parallel_shocks_names 2 [up_200; up_100] None eur_heap)
                    eur_set eur_frame _ eur_base_set_at eur_columns eur_table_ok eq_refl)
             Hdup).
  - exact (proj2 (proj2 (C9_parallel_shocks_names 2 [up_200; down_100] None eur_heap)
                    eur_set eur_frame _ eur_base_set_at eur_columns eur_table_ok eq_refl)
             Hnd).
Defined.

End ScenarioClaims.

(** * More on curves: construction and queries *)

Section CurveConstruction.

Import Curves CurveSpec CurveOrder.
Local Open Scope R_scope.

Lemma insert_point_In (p q : CurvePoint) (l : list CurvePoint) :
  In q (insert_point p l) <-> q = p \/ In q l.
Proof.
  split.
  - intros H. apply (Permutation_in _ (Permutation_sym (insert_point_perm p l))) in H.
    destruct H as [->|H]; auto.
  - intros H. apply (Permutation_in _ (insert_point_perm p l)).
    destruct H as [->|H]; [left|right]; auto.
Qed.

Lemma insert_point_sorted (p : CurvePoint) (l : list CurvePoint) :
  StronglySorted key_le l -> StronglySorted key_le (insert_point p l).
Proof.
  intros Hs. induction Hs as [|q l Hs IH Hall]; cbn [insert_point].
  - repeat constructor.
  - destruct (Rle_dec (year_frac p) (year_frac q)) as [Hle|Hgt].
    + constructor; [constructor; assumption|].
      constructor; [exact Hle|].
      eapply List.Forall_impl; [|exact Hall]. unfold key_le. intros r Hr. lra.
    + constructor; [exact IH|].
      apply List.Forall_forall. intros r Hr. apply insert_point_In in Hr as [->|Hr].
      * unfold key_le. lra.
      * apply (proj1 (List.Forall_forall _ _) Hall r Hr).
Qed.

Lemma sort_points_sorted (l : list CurvePoint) : StronglySorted key_le (sort_points l).
Proof.
  induction l as [|p l IH]; cbn [sort_points]; [constructor|].
  apply insert_point_sorted. exact IH.
Qed.

Lemma strictly_increasing_complete (ps : list CurvePoint) (prev : option R) :
  StronglySorted key_lt ps ->
  (forall x, prev = Some x -> Forall (fun p => x < year_frac p) ps) ->
  strictly_increasing prev ps = true.
Proof.
  intros Hs. revert prev. induction Hs as [|p ps Hs IH Hall]; intros prev Hprev.
  - reflexivity.
  - cbn [strictly_increasing].
    assert (Htail : strictly_increasing (Some (year_frac p)) ps = true).
    { apply IH. intros x [= <-]. exact Hall. }
    destruct prev as [x|]; [|exact Htail].
    specialize (Hprev x eq_refl). apply List.Forall_inv in Hprev.
    destruct (Rle_dec (year_frac p) x); [lra|exact Htail].
Qed.

Lemma key_lt_of_year_fracs (ps : list CurvePoint) :
  StronglySorted Rlt (map year_frac ps) -> StronglySorted key_lt ps.
Proof.
  induction ps as [|p ps IH]; cbn [map]; intros H; [constructor|].
  apply StronglySorted_inv in H as [Hs Hall]. constructor; [apply IH, Hs|].
  apply List.Forall_forall. intros q Hq.
  apply (proj1 (List.Forall_forall _ _) Hall). apply List.in_map. exact Hq.
Qed.

Lemma year_fracs_of_key_lt (ps : list CurvePoint) :
  StronglySorted key_lt ps -> StronglySorted Rlt (map year_frac ps).
Proof.
  intros Hs. induction Hs as [|p ps Hs IH Hall]; cbn [map]; constructor; [exact IH|].
  apply List.Forall_forall. intros x Hx. apply List.in_map_iff in Hx as (q & <- & Hq).
  apply (proj1 (List.Forall_forall _ _) Hall q Hq).
Qed.

(** A sorted list of pairwise distinct keys is strictly sorted, and a strictly
    sorted list has pairwise distinct keys. *)
Lemma sorted_distinct_strict (ps : list CurvePoint) :
  StronglySorted key_le ps -> List.NoDup (map year_frac ps) -> StronglySorted key_lt ps.
Proof.
  intros Hs. induction Hs as [|p ps Hs IH Hall]; cbn [map]; intros Hnd; [constructor|].
  apply List.NoDup_cons_iff in Hnd as [Hnin Hnd]. constructor; [apply IH, Hnd|].
  apply List.Forall_forall. intros q Hq.
  pose proof (proj1 (List.Forall_forall _ _) Hall q Hq) as Hle. unfold key_le in Hle.
  unfold key_lt. destruct (Req_dec_T (year_frac p) (year_frac q)) as [E|E]; [|lra].
  exfalso. apply Hnin. rewrite E. apply List.in_map. exact Hq.
Qed.

Lemma strict_sorted_distinct (ps : list CurvePoint) :
  StronglySorted key_lt ps -> List.NoDup (map year_frac ps).
Proof.
  intros Hs. induction Hs as [|p ps Hs IH Hall]; cbn [map]; constructor; [|exact IH].
  intros Hin. apply List.in_map_iff in Hin as (q & E & Hq).
  pose proof (proj1 (List.Forall_forall _ _) Hall q Hq) as Hlt. unfold key_lt in Hlt. lra.
Qed.

Lemma strictly_increasing_iff (ps : list CurvePoint) :
  strictly_increasing None ps = true <-> StronglySorted key_lt ps.
Proof.
  split.
  - intros H. apply key_lt_of_year_fracs, (strictly_increasing_sorted ps None H).
  - intros H. apply strictly_increasing_complete; [exact H|discriminate].
Qed.

(** What the constructor returns, case by case. *)
Lemma new_ForwardCurve_cases (name : string) (ps : list CurvePoint) :
  new_ForwardCurve name ps =
  match ps with
  | [] => Raise (EmptyCurve name)
  | _ :: _ =>
      if strictly_increasing None (sort_points ps)
      then Ok (mkForwardCurve name (sort_points ps))
      else Raise (NonIncreasingCurve name)
  end.
Proof. destruct ps; reflexivity. Qed.

Lemma sort_points_distinct (ps : list CurvePoint) :
  strictly_increasing None (sort_points ps) = true <-> List.NoDup (map year_frac ps).
Proof.
  rewrite strictly_increasing_iff.
  pose proof (sort_points_perm ps) as Hperm.
  split.
  - intros Hs. apply strict_sorted_distinct in Hs.
    eapply Permutation_NoDup; [|exact Hs].
    apply Permutation_map, Permutation_sym, Hperm.
  - intros Hnd. apply sorted_distinct_strict; [apply sort_points_sorted|].
    eapply Permutation_NoDup; [|exact Hnd]. apply Permutation_map, Hperm.
Qed.

(** Two strictly sorted lists with the same elements are the same list. *)
Lemma strict_sorted_perm_eq (l1 l2 : list CurvePoint) :
  StronglySorted key_lt l1 -> StronglySorted key_lt l2 -> Permutation l1 l2 -> l1 = l2.
Proof.
  intros H1. revert l2. induction H1 as [|p l1 H1 IH Hall1]; intros l2 H2 Hperm.
  - apply Permutation_nil in Hperm. subst. reflexivity.
  - destruct H2 as [|q l2 H2 Hall2].
    { apply Permutation_sym, Permutation_nil in Hperm. discriminate. }
    assert (Hpq : p = q).
    { assert (Hp : In p (q :: l2)) by (apply (Permutation_in _ Hperm); left; reflexivity).
      assert (Hq : In q (p :: l1))
        by (apply (Permutation_in _ (Permutation_sym Hperm)); left; reflexivity).
      destruct Hp as [->|Hp]; [reflexivity|].
      destruct Hq as [->|Hq]; [reflexivity|].
      pose proof (proj1 (List.Forall_forall _ _) Hall1 q Hq) as A.
      pose proof (proj1 (List.Forall_forall _ _) Hall2 p Hp) as B.
      unfold key_lt in *. lra. }
    subst q. f_equal. apply IH; [exact H2|].
    apply (Permutation_cons_inv Hperm).
Qed.


(** X1. The constructor accepts a collection of points exactly when it is
    not empty and no two points share a year fraction: an empty one raises
    the no-points error, one with a repeated year fraction raises the
    non-increasing error, and otherwise the curve keeps the name and holds
    the given points sorted by strictly increasing year fraction. *)
Theorem X1_constructor_accepts_distinct_year_fractions (name : string)
  (ps : list CurvePoint) :
  (ps = [] -> new_ForwardCurve name ps = Raise (EmptyCurve name)) /\
  (ps <> [] -> ~ List.NoDup (map year_frac ps) ->
   new_ForwardCurve name ps = Raise (NonIncreasingCurve name)) /\
  (ps <> [] -> List.NoDup (map year_frac ps) ->
   exists c : ForwardCurve,
     new_ForwardCurve name ps = Ok c /\ index_name c = name /\
     Permutation ps (points c) /\ StronglySorted Rlt (year_fracs c)).
Proof.
  rewrite new_ForwardCurve_cases. split; [|split].
  - intros ->. reflexivity.
  - intros Hne Hdup. destruct ps as [|p ps]; [contradiction|].
    destruct (strictly_increasing None (sort_points (p :: ps))) eqn:E; [|reflexivity].
    apply sort_points_distinct in E. contradiction.
  - intros Hne Hnd. destruct ps as [|p ps]; [contradiction|].
    rewrite (proj2 (sort_points_distinct (p :: ps)) Hnd).
    eexists. split; [reflexivity|]. cbn [index_name points]. split; [reflexivity|].
    split; [apply sort_points_perm|].
    apply year_fracs_of_key_lt, strictly_increasing_iff, sort_points_distinct, Hnd.
Qed.

Lemma X1_witness :
  two_pillar_points <> [] /\ List.NoDup (map year_frac two_pillar_points) /\
  [] = @nil CurvePoint /\
  new_ForwardCurve "EUR" [] = Raise (EmptyCurve "EUR") /\
  exists c : ForwardCurve,
    new_ForwardCurve "EUR" two_pillar_points = Ok c /\ index_name c = "EUR"%string /\
    Permutation two_pillar_points (points c) /\ StronglySorted Rlt (year_fracs c).
Proof.
  assert (Hne : two_pillar_points <> []) by discriminate.
  assert (Hnd : List.NoDup (map year_frac two_pillar_points)).
  { cbn. repeat constructor; cbn; [|tauto]. intros [E|[]]. lra. }
  split; [exact Hne|]. split; [exact Hnd|]. split; [reflexivity|].
  split.
  - exact (proj1 (X1_constructor_accepts_distinct_year_fractions "EUR" []) eq_refl).
  - exact (proj2 (proj2 (X1_constructor_accepts_distinct_year_fractions
                           "EUR" two_pillar_points)) Hne Hnd).
Defined.

(** X2. The order in which the points are given does not matter: the
    constructor returns the same curve, or raises the same error, for any
    rearrangement of the points. *)
Theorem X2_constructor_ignores_point_order (name : string) (ps ps' : list CurvePoint) :
  Permutation ps ps' -> new_ForwardCurve name ps = new_ForwardCurve name ps'.
Proof.
  intros Hperm. rewrite !new_ForwardCurve_cases.
  destruct ps as [|p ps].
  { apply Permutation_nil in Hperm. subst. reflexivity. }
  destruct ps' as [|p' ps'].
  { apply Permutation_sym, Permutation_nil in Hperm. discriminate. }
  destruct (strictly_increasing None (sort_points (p :: ps))) eqn:E1;
    destruct (strictly_increasing None (sort_points (p' :: ps'))) eqn:E2.
  - do 2 f_equal. apply strict_sorted_perm_eq.
    + apply strictly_increasing_iff, E1.
    + apply strictly_increasing_iff, E2.
    + rewrite <- (sort_points_perm (p :: ps)), <- (sort_points_perm (p' :: ps')).
      exact Hperm.
  - apply Bool.not_true_iff_false in E2. exfalso. apply E2.
    apply sort_points_distinct. apply sort_points_distinct in E1.
    eapply Permutation_NoDup; [|exact E1]. apply Permutation_map, Hperm.
  - apply Bool.not_true_iff_false in E1. exfalso. apply E1.
    apply sort_points_distinct. apply sort_points_distinct in E2.
    eapply Permutation_NoDup; [|exact E2]. apply Permutation_map, Permutation_sym, Hperm.
  - reflexivity.
Qed.

Lemma X2_witness :
  Permutation two_pillar_points (rev two_pillar_points) /\
  new_ForwardCurve "EUR" two_pillar_points = new_ForwardCurve "EUR" (rev two_pillar_points).
Proof.
  assert (H : Permutation two_pillar_points (rev two_pillar_points))
    by apply Permutation_rev.
  split; [exact H|].
  exact (X2_constructor_ignores_point_order "EUR" _ _ H).
Defined.

End CurveConstruction.

Section CurveQueries.

Import Curves CurveSpec.
Local Open Scope R_scope.

Lemma valid_curve_length (c : ForwardCurve) : valid_curve c -> (1 <= length (points c))%nat.
Proof. intros [Hne _]. destruct (points c); [contradiction|cbn; lia]. Qed.

(** Between the first and the last pillar [t] lies in some segment. *)
Lemma segment_exists (c : ForwardCurve) (t : R) :
  valid_curve c -> (2 <= length (points c))%nat ->
  nth 0 (year_fracs c) 0 < t ->
  t < nth (length (points c) - 1) (year_fracs c) 0 ->
  exists i : nat,
    (S i < length (points c))%nat /\
    nth i (year_fracs c) 0 < t <= nth (S i) (year_fracs c) 0.
Proof.
  intros [_ Hs] Hn Hlo Hhi.
  assert (Hlen : length (year_fracs c) = length (points c)) by apply length_year_fracs.
  destruct (bisect_left_spec (year_fracs c) t Hs) as (Hj & Hbelow & Habove).
  set (j := bisect_left (year_fracs c) t) in *.
  assert (Hj1 : (1 <= j)%nat).
  { destruct j; [|lia]. specialize (Habove 0%nat ltac:(lia)). lra. }
  assert (Hj2 : (j < length (points c))%nat).
  { destruct (Nat.lt_ge_cases j (length (points c))) as [H|H]; [exact H|].
    specialize (Hbelow (length (points c) - 1)%nat ltac:(lia)). lra. }
  destruct j as [|i]; [lia|]. exists i. split; [lia|].
  split; [apply Hbelow; lia|apply Habove; lia].
Qed.

(** On a constructed curve [discount_factor] evaluates the exponential of
    some number: it raises nothing. *)
Lemma discount_factor_value (c : ForwardCurve) (t : R) :
  valid_curve c -> exists y : R, discount_factor c t = Ok (exp y).
Proof.
  intros Hv. pose proof (valid_curve_length c Hv) as Hn. pose proof Hv as [_ Hs].
  destruct (Rle_lt_dec t 0) as [Ht|Ht].
  { exists 0. rewrite exp_0. apply discount_factor_nonpositive, Ht. }
  destruct (Nat.eq_dec (length (points c)) 1%nat) as [H1|H1].
  { eexists. apply discount_factor_single; assumption. }
  destruct (Rle_lt_dec t (nth 0 (year_fracs c) 0)) as [Hhead|Hhead].
  { eexists. apply discount_factor_head; (assumption || lia). }
  destruct (Rle_lt_dec (nth (length (points c) - 1) (year_fracs c) 0) t) as [Htail|Htail].
  { eexists. apply discount_factor_tail; (assumption || lia). }
  destruct (segment_exists c t Hv ltac:(lia) Hhead Htail) as (i & Hi & Hseg).
  eexists. apply (discount_factor_segment c i t Hs Hi Ht Hseg).
Qed.

(** At a pillar the line takes the pillar's value. *)
Lemma interp_linear_at_end (x0 x1 y0 y1 : R) : _interp_linear x1 x0 x1 y0 y1 = y1.
Proof.
  unfold _interp_linear. destruct (Req_dec_T x1 x0) as [E|E]; [reflexivity|].
  field. lra.
Qed.

Lemma discount_factor_at_pillar (c : ForwardCurve) (i : nat) :
  valid_curve c -> (i < length (points c))%nat ->
  0 <= nth i (year_fracs c) 0 ->
  discount_factor c (nth i (year_fracs c) 0)
  = Ok (exp (- nth i (rates c) 0 * nth i (year_fracs c) 0)).
Proof.
  intros Hv Hi Hx. pose proof Hv as [_ Hs].
  assert (Hlen : length (year_fracs c) = length (points c)) by apply length_year_fracs.
  rewrite <- nth_pillar_ln_dfs by exact Hi.
  destruct (Req_dec_T (nth i (year_fracs c) 0) 0) as [E0|E0].
  { rewrite nth_pillar_ln_dfs by exact Hi. rewrite E0, Rmult_0_r, exp_0.
    apply discount_factor_nonpositive. lra. }
  assert (Hpos : 0 < nth i (year_fracs c) 0) by lra.
  destruct (Nat.eq_dec (length (points c)) 1%nat) as [H1|H1].
  { assert (i = 0%nat) by lia. subst i.
    rewrite discount_factor_single by assumption. rewrite interp_linear_at_end.
    reflexivity. }
  destruct i as [|i].
  - rewrite discount_factor_head by (lia || lra). rewrite interp_linear_at_end.
    reflexivity.
  - pose proof (sorted_nth_lt (year_fracs c) i (S i) Hs ltac:(lia)) as Hlt.
    rewrite (discount_factor_segment c i _ Hs Hi Hpos) by lra.
    rewrite interp_linear_at_end. reflexivity.
Qed.



Lemma zero_rate_positive (c : ForwardCurve) (t y : R) :
  0 < t -> discount_factor c t = Ok (exp y) -> zero_rate c t = Ok (- y / t).
Proof.
  intros Ht Hdf. unfold zero_rate. destruct (Rle_dec t 0); [lra|].
  rewrite Hdf. cbn [rbind]. rewrite ln_exp. reflexivity.
Qed.

Lemma zero_rate_nonpositive (c : ForwardCurve) (t : R) :
  valid_curve c -> t <= 0 -> zero_rate c t = Ok (nth 0 (rates c) 0).
Proof.
  intros Hv Ht. pose proof (valid_curve_length c Hv) as Hn.
  unfold zero_rate. destruct (Rle_dec t 0); [|lra].
  set (d := mkCurvePoint 0 0 EmptyString (mkdate 1 1 1)).
  rewrite (index_first (points c) d) by exact Hn. cbn [rbind]. f_equal.
  unfold rates. rewrite (nth_indep (map rate (points c)) 0 (rate d))
    by (rewrite length_map; lia).
  rewrite map_nth. reflexivity.
Qed.


(** X4. A curve reprices its own pillars: at the year fraction of a pillar
    (not negative) the discount factor is exp(-rate * year_frac) of that
    pillar, whichever branch of [discount_factor] the pillar falls in. *)
Theorem X4_discount_factor_at_pillar (c : ForwardCurve) (i : nat) :
  valid_curve c -> (i < length (points c))%nat ->
  0 <= nth i (year_fracs c) 0 ->
  discount_factor c (nth i (year_fracs c) 0)
  = Ok (exp (- nth i (rates c) 0 * nth i (year_fracs c) 0)).
Proof. exact (discount_factor_at_pillar c i). Qed.

Lemma X4_witness :
  valid_curve two_pillar_curve /\ (1 < length (points two_pillar_curve))%nat /\
  0 <= nth 1 (year_fracs two_pillar_curve) 0 /\
  discount_factor two_pillar_curve (nth 1 (year_fracs two_pillar_curve) 0)
  = Ok (exp (- nth 1 (rates two_pillar_curve) 0 * nth 1 (year_fracs two_pillar_curve) 0)).
Proof.
  assert (Hv : valid_curve two_pillar_curve) by (apply two_pillar_valid; cbn; lra).
  assert (Hl : (1 < length (points two_pillar_curve))%nat) by (cbn; lia).
  assert (Hx : 0 <= nth 1 (year_fracs two_pillar_curve) 0) by (cbn; lra).
  split; [exact Hv|]. split; [exact Hl|]. split; [exact Hx|].
  exact (X4_discount_factor_at_pillar two_pillar_curve 1 Hv Hl Hx).
Defined.

(** X5. The zero rate at a pillar is the rate quoted for the pillar: for a
    pillar with a positive year fraction [zero_rate] returns its rate. *)
Theorem X5_zero_rate_at_pillar (c : ForwardCurve) (i : nat) :
  valid_curve c -> (i < length (points c))%nat ->
  0 < nth i (year_fracs c) 0 ->
  zero_rate c (nth i (year_fracs c) 0) = Ok (nth i (rates c) 0).
Proof.
  intros Hv Hi Hx.
  rewrite (zero_rate_positive c _ _ Hx (discount_factor_at_pillar c i Hv Hi ltac:(lra))).
  f_equal. field. lra.
Qed.

Lemma X5_witness :
  valid_curve two_pillar_curve /\ (1 < length (points two_pillar_curve))%nat /\
  0 < nth 1 (year_fracs two_pillar_curve) 0 /\
  zero_rate two_pillar_curve (nth 1 (year_fracs two_pillar_curve) 0)
  = Ok (nth 1 (rates two_pillar_curve) 0).
Proof.
  assert (Hv : valid_curve two_pillar_curve) by (apply two_pillar_valid; cbn; lra).
  assert (Hl : (1 < length (points two_pillar_curve))%nat) by (cbn; lia).
  assert (Hx : 0 < nth 1 (year_fracs two_pillar_curve) 0) by (cbn; lra).
  split; [exact Hv|]. split; [exact Hl|]. split; [exact Hx|].
  exact (X5_zero_rate_at_pillar two_pillar_curve 1 Hv Hl Hx).
Defined.




End CurveQueries.

Section CurveShift.

Import Curves CurveSpec CurveOrder Scenarios ScenarioSpec.
Local Open Scope R_scope.









End CurveShift.

(** * More on year fractions *)

Section YearFracOrder.

Import DayCount DayCountSpec.

Lemma yearfrac_act_360 (d0 d1 : date) :
  date_ltb d1 d0 = false ->
  yearfrac d0 d1 BASE_ACT_360 = Ok (IZR (toordinal d1 - toordinal d0) / 360)%R.
Proof. intros Hlt. unfold yearfrac. rewrite Hlt. reflexivity. Qed.

Lemma yearfrac_act_365 (d0 d1 : date) :
  date_ltb d1 d0 = false ->
  yearfrac d0 d1 BASE_ACT_365 = Ok (IZR (toordinal d1 - toordinal d0) / 365)%R.
Proof. intros Hlt. unfold yearfrac. rewrite Hlt. reflexivity. Qed.

(** ACT/ACT-ISDA measures the distance of the two dates on the axis of
    calendar years. *)
Lemma yearfrac_act_act_position (d0 d1 : date) :
  valid_date d0 = true -> valid_date d1 = true -> date_ltb d1 d0 = false ->
  yearfrac d0 d1 BASE_ACT_ACT = Ok (year_position d1 - year_position d0)%R.
Proof.
  intros H0 H1 Hlt. rewrite yearfrac_act_act, yearfrac_act_act_isda_value by assumption.
  f_equal. unfold year_position.
  destruct (date_eqb d0 d1) eqn:He.
  { apply date_eqb_eq in He. subst d1. lra. }
  destruct (Z.eqb_spec (year d0) (year d1)) as [Hy|Hy].
  - rewrite <- Hy. rewrite !minus_IZR. pose proof (IZR_diy_neq_0 (year d0)). field. exact H.
  - pose proof (jan1_ordinal_succ (year d0)) as Hs.
    replace (jan1_ordinal (year d0 + 1)) with (jan1_ordinal (year d0) + diy (year d0)) by lia.
    rewrite !minus_IZR, plus_IZR.
    pose proof (IZR_diy_neq_0 (year d0)). pose proof (IZR_diy_neq_0 (year d1)).
    field. split; assumption.
Qed.

Lemma year_position_bounds (d : date) :
  valid_date d = true -> (IZR (year d) <= year_position d < IZR (year d) + 1)%R.
Proof.
  intros Hv. pose proof (toordinal_within_year d Hv) as W.
  pose proof (jan1_ordinal_succ (year d)) as Hs. pose proof (diy_pos (year d)) as Hp.
  unfold year_position.
  set (k := toordinal d - jan1_ordinal (year d)) in *.
  assert (Hk : 0 <= k < diy (year d)) by (unfold k; lia).
  assert (Hd : (0 < IZR (diy (year d)))%R) by (apply IZR_lt; lia).
  assert (H0 : (0 <= IZR k)%R) by (apply IZR_le; lia).
  assert (H1 : (IZR k < IZR (diy (year d)))%R) by (apply IZR_lt; lia).
  assert (Hq : (0 <= IZR k / IZR (diy (year d)) < 1)%R).
  { split.
    - apply Rmult_le_pos; [exact H0|]. left. apply Rinv_0_lt_compat, Hd.
    - apply (Rmult_lt_reg_r (IZR (diy (year d)))); [exact Hd|].
      unfold Rdiv. rewrite Rmult_assoc, Rinv_l by lra. lra. }
  lra.
Qed.

(** Later dates lie further on the axis. *)
Lemma year_position_lt (d0 d1 : date) :
  valid_date d0 = true -> valid_date d1 = true ->
  toordinal d0 < toordinal d1 -> (year_position d0 < year_position d1)%R.
Proof.
  intros H0 H1 Hlt.
  assert (Hb : date_ltb d1 d0 = false).
  { destruct (date_ltb d1 d0) eqn:E; [|reflexivity].
    apply (date_ltb_toordinal d1 d0 H1 H0) in E. lia. }
  pose proof (date_ltb_false_year _ _ Hb) as Hy.
  destruct (Z.eq_dec (year d0) (year d1)) as [E|E].
  - unfold year_position. rewrite <- E.
    pose proof (diy_pos (year d0)) as Hp.
    assert (Hd : (0 < IZR (diy (year d0)))%R) by (apply IZR_lt; lia).
    assert (Hn : (IZR (toordinal d0 - jan1_ordinal (year d0))
                  < IZR (toordinal d1 - jan1_ordinal (year d0)))%R) by (apply IZR_lt; lia).
    apply Rplus_lt_compat_l. unfold Rdiv. apply Rmult_lt_compat_r; [|exact Hn].
    apply Rinv_0_lt_compat, Hd.
  - pose proof (year_position_bounds d0 H0). pose proof (year_position_bounds d1 H1).
    assert ((IZR (year d0) + 1 <= IZR (year d1))%R).
    { rewrite <- plus_IZR. apply IZR_le. lia. }
    lra.
Qed.

Lemma is_last_day_of_february_spec (d : date) :
  _is_last_day_of_february d = true <->
  month d = 2 /\ day d = _days_in_month (year d) (month d).
Proof.
  unfold _is_last_day_of_february, _is_last_day_of_month, _last_day_of_month,
    _days_in_month. rewrite <- is_leap_agree.
  rewrite Bool.andb_true_iff, !Z.eqb_eq. split.
  - intros [E H]. rewrite E in *. cbn in *. auto.
  - intros [E H]. rewrite E in *. cbn in *. auto.
Qed.

Lemma days_in_month_le_31 (y m : Z) : _days_in_month y m <= 31.
Proof.
  unfold _days_in_month. repeat destruct (_ =? _); cbn; try destruct (_is_leap _); lia.
Qed.

(** The tuple order of two dates. *)
Lemma date_ltb_false_inv (d0 d1 : date) :
  date_ltb d1 d0 = false ->
  year d0 < year d1 \/
  (year d0 = year d1 /\ month d0 < month d1) \/
  (year d0 = year d1 /\ month d0 = month d1 /\ day d0 <= day d1).
Proof.
  unfold date_ltb. intros Hlt.
  apply Bool.orb_false_iff in Hlt as [Hy Hrest]. apply Z.ltb_ge in Hy.
  destruct (Z.eq_dec (year d0) (year d1)) as [E|E]; [|lia].
  rewrite E, Z.eqb_refl in Hrest. cbn in Hrest.
  apply Bool.orb_false_iff in Hrest as [Hm Hd]. apply Z.ltb_ge in Hm.
  destruct (Z.eq_dec (month d1) (month d0)) as [Em|Em]; [|lia].
  rewrite Em, Z.eqb_refl in Hd. cbn in Hd. apply Z.ltb_ge in Hd. lia.
Qed.

(** The 30/360 day count of ordered dates is not negative. *)
Lemma days_30_360_nonneg (d0 d1 : date) :
  valid_date d0 = true -> valid_date d1 = true -> date_ltb d1 d0 = false ->
  exists n : Z, 0 <= n /\ yearfrac_30_360_us d0 d1 = Ok (IZR n / 360)%R.
Proof.
  intros H0 H1 Hlt. unfold yearfrac_30_360_us. rewrite Hlt. cbv zeta.
  eexists. split; [|reflexivity].
  destruct (valid_date_inv d0 H0) as (_ & Hm0 & Hd0).
  destruct (valid_date_inv d1 H1) as (_ & Hm1 & Hd1).
  pose proof (days_in_month_le_31 (year d0) (month d0)) as Hdim0.
  pose proof (days_in_month_le_31 (year d1) (month d1)) as Hdim1.
  pose proof (date_ltb_false_inv d0 d1 Hlt) as Hrel.
  pose proof (is_last_day_of_february_spec d0) as F0.
  pose proof (is_last_day_of_february_spec d1) as F1.
  assert (Hsame : year d0 = year d1 -> month d0 = month d1 ->
                  _days_in_month (year d0) (month d0) = _days_in_month (year d1) (month d1))
    by (intros -> ->; reflexivity).
  unfold in_30_31.
  destruct (_is_last_day_of_february d0);
    [destruct (proj1 F0 eq_refl) as [Fm0 Fd0]
    |assert (Fn0 : ~ (month d0 = 2 /\ day d0 = _days_in_month (year d0) (month d0)))
       by (intros X; apply F0 in X; discriminate)];
    (destruct (_is_last_day_of_february d1);
     [destruct (proj1 F1 eq_refl) as [Fm1 Fd1]
     |assert (Fn1 : ~ (month d1 = 2 /\ day d1 = _days_in_month (year d1) (month d1)))
        by (intros X; apply F1 in X; discriminate)]);
    clear F0 F1;
    destruct (Z.eqb_spec (day d0) 30) as [E30|E30];
    destruct (Z.eqb_spec (day d0) 31) as [E31|E31];
    destruct (Z.eqb_spec (day d1) 31) as [E1|E1];
    cbn [andb orb Z.eqb Pos.eqb];
    repeat match goal with
      | |- context [Z.eqb ?a ?b] => destruct (Z.eqb_spec a b); cbn [andb orb Z.eqb Pos.eqb]
      end;
    lia.
Qed.

Lemma date_ltb_true_ordered (d0 d1 : date) :
  valid_date d0 = true -> valid_date d1 = true ->
  date_ltb d0 d1 = true -> date_ltb d1 d0 = false /\ toordinal d0 < toordinal d1.
Proof.
  intros H0 H1 Hlt. apply (date_ltb_toordinal d0 d1 H0 H1) in Hlt.
  split; [|exact Hlt].
  destruct (date_ltb d1 d0) eqn:E; [|reflexivity].
  apply (date_ltb_toordinal d1 d0 H1 H0) in E. lia.
Qed.

Lemma date_ltb_false_trans (d0 d1 d2 : date) :
  valid_date d0 = true -> valid_date d1 = true -> valid_date d2 = true ->
  date_ltb d1 d0 = false -> date_ltb d2 d1 = false -> date_ltb d2 d0 = false.
Proof.
  intros H0 H1 H2 H10 H21.
  pose proof (date_ltb_false_le d0 d1 H0 H1 H10).
  pose proof (date_ltb_false_le d1 d2 H1 H2 H21).
  destruct (date_ltb d2 d0) eqn:E; [|reflexivity].
  apply (date_ltb_toordinal d2 d0 H2 H0) in E. lia.
Qed.

(** Distinct dates have distinct ordinals. *)
Lemma toordinal_inj (a b : date) :
  valid_date a = true -> valid_date b = true -> toordinal a = toordinal b -> a = b.
Proof.
  intros Ha Hb Eab.
  destruct (date_ltb a b) eqn:Eab1;
    [apply (date_ltb_toordinal a b Ha Hb) in Eab1; lia|].
  destruct (date_ltb b a) eqn:Eab2;
    [apply (date_ltb_toordinal b a Hb Ha) in Eab2; lia|].
  destruct (date_ltb_false_inv a b Eab2) as [?|[[? ?]|(? & ? & ?)]];
    destruct (date_ltb_false_inv b a Eab1) as [?|[[? ?]|(? & ? & ?)]]; try lia.
  destruct a, b; cbn in *; f_equal; lia.
Qed.

(** The year fraction of ordered dates under a base that counts actual
    days, as a difference of positions: of ordinals over 360 or 365, or of
    positions on the axis of calendar years. *)
Lemma yearfrac_actual (d0 d1 : date) (base : string) :
  valid_date d0 = true -> valid_date d1 = true -> In base actual_bases ->
  exists f : date -> R,
    (forall a b : date, valid_date a = true -> valid_date b = true ->
       toordinal a < toordinal b -> (f a < f b)%R) /\
    (forall a b : date, valid_date a = true -> valid_date b = true ->
       date_ltb b a = false -> yearfrac a b base = Ok (f b - f a)%R).
Proof.
  intros H0 H1 Hb. simpl in Hb. destruct Hb as [<- | [<- | [<- | []]]].
  - exists (fun d => (IZR (toordinal d) / 360)%R). split.
    + intros a b _ _ Hlt. apply IZR_lt in Hlt. lra.
    + intros a b _ _ Hlt. rewrite yearfrac_act_360 by exact Hlt.
      f_equal. rewrite minus_IZR. lra.
  - exists (fun d => (IZR (toordinal d) / 365)%R). split.
    + intros a b _ _ Hlt. apply IZR_lt in Hlt. lra.
    + intros a b _ _ Hlt. rewrite yearfrac_act_365 by exact Hlt.
      f_equal. rewrite minus_IZR. lra.
  - exists year_position. split.
    + apply year_position_lt.
    + apply yearfrac_act_act_position.
Qed.

Lemma yearfrac_nonneg (d0 d1 : date) (base : string) :
  valid_date d0 = true -> valid_date d1 = true -> In base canonical_bases ->
  date_ltb d1 d0 = false ->
  exists v : R, yearfrac d0 d1 base = Ok v /\ (0 <= v)%R.
Proof.
  intros H0 H1 Hb Hlt.
  pose proof (date_ltb_false_le d0 d1 H0 H1 Hlt) as Hord.
  assert (Hdays : (0 <= IZR (toordinal d1 - toordinal d0))%R) by (apply IZR_le; lia).
  simpl in Hb. destruct Hb as [<- | [<- | [<- | [<- | []]]]].
  - rewrite yearfrac_act_360 by exact Hlt. eexists. split; [reflexivity|lra].
  - rewrite yearfrac_act_365 by exact Hlt. eexists. split; [reflexivity|lra].
  - rewrite yearfrac_act_act_position by assumption. eexists. split; [reflexivity|].
    destruct (Z.eq_dec (toordinal d0) (toordinal d1)) as [E|E].
    + rewrite (toordinal_inj d0 d1 H0 H1 E). lra.
    + pose proof (year_position_lt d0 d1 H0 H1 ltac:(lia)). lra.
  - rewrite yearfrac_30_360 by exact Hlt.
    destruct (days_30_360_nonneg d0 d1 H0 H1 Hlt) as (n & Hn & ->).
    eexists. split; [reflexivity|]. apply IZR_le in Hn. lra.
Qed.

(** X9. A year fraction is never negative: for date objects [d0 <= d1] and
    each of the four canonical bases, [yearfrac] returns a number that is
    not below 0, also under the day clamping of 30/360. *)
Theorem X9_yearfrac_nonnegative (d0 d1 : date) (base : string) :
  valid_date d0 = true -> valid_date d1 = true -> In base canonical_bases ->
  date_ltb d1 d0 = false ->
  exists v : R, yearfrac d0 d1 base = Ok v /\ (0 <= v)%R.
Proof. exact (yearfrac_nonneg d0 d1 base). Qed.

Lemma X9_witness :
  valid_date (mkdate 2024 1 31) = true /\ valid_date (mkdate 2024 2 29) = true /\
  In BASE_30_360 canonical_bases /\
  date_ltb (mkdate 2024 2 29) (mkdate 2024 1 31) = false /\
  exists v : R,
    yearfrac (mkdate 2024 1 31) (mkdate 2024 2 29) BASE_30_360 = Ok v /\ (0 <= v)%R.
Proof.
  assert (Hin : In BASE_30_360 canonical_bases) by (simpl; auto).
  split; [reflexivity|]. split; [reflexivity|]. split; [exact Hin|].
  split; [reflexivity|].
  exact (X9_yearfrac_nonnegative (mkdate 2024 1 31) (mkdate 2024 2 29) BASE_30_360
           eq_refl eq_refl Hin eq_refl).
Defined.

(** X10. Under the bases that count actual days (ACT/360, ACT/365 and
    ACT/ACT) year fractions add up over adjacent intervals: for
    [d0 <= d1 <= d2] the year fraction from [d0] to [d2] is the sum of the
    ones from [d0] to [d1] and from [d1] to [d2].  30/360 does not add up:
    from 2023-02-27 over 2023-02-28 to 2023-03-01 the parts count one day
    each and the whole counts four. *)
Theorem X10_actual_year_fractions_add_up :
  (forall (d0 d1 d2 : date) (base : string),
      valid_date d0 = true -> valid_date d1 = true -> valid_date d2 = true ->
      In base actual_bases ->
      date_ltb d1 d0 = false -> date_ltb d2 d1 = false ->
      exists a b : R,
        yearfrac d0 d1 base = Ok a /\ yearfrac d1 d2 base = Ok b /\
        yearfrac d0 d2 base = Ok (a + b)%R) /\
  yearfrac (mkdate 2023 2 27) (mkdate 2023 2 28) BASE_30_360 = Ok (1 / 360)%R /\
  yearfrac (mkdate 2023 2 28) (mkdate 2023 3 1) BASE_30_360 = Ok (1 / 360)%R /\
  yearfrac (mkdate 2023 2 27) (mkdate 2023 3 1) BASE_30_360 = Ok (4 / 360)%R.
Proof.
  split.
  - intros d0 d1 d2 base H0 H1 H2 Hb H10 H21.
    destruct (yearfrac_actual d0 d1 base H0 H1 Hb) as (f & _ & Hf).
    exists (f d1 - f d0)%R, (f d2 - f d1)%R.
    rewrite !Hf by (assumption || (apply (date_ltb_false_trans d0 d1 d2); assumption)).
    split; [reflexivity|]. split; [reflexivity|]. f_equal. lra.
  - assert (H30 : forall a b n,
               date_ltb b a = false ->
               yearfrac_30_360_us a b = Ok (IZR n / 360)%R ->
               yearfrac a b BASE_30_360 = Ok (IZR n / 360)%R).
    { intros a b n Hlt <-. apply yearfrac_30_360, Hlt. }
    split; [|split]; apply H30; reflexivity.
Qed.

Lemma X10_witness :
  valid_date (mkdate 2023 12 1) = true /\ valid_date (mkdate 2024 1 1) = true /\
  valid_date (mkdate 2024 3 1) = true /\ In BASE_ACT_ACT actual_bases /\
  date_ltb (mkdate 2024 1 1) (mkdate 2023 12 1) = false /\
  date_ltb (mkdate 2024 3 1) (mkdate 2024 1 1) = false /\
  exists a b : R,
    yearfrac (mkdate 2023 12 1) (mkdate 2024 1 1) BASE_ACT_ACT = Ok a /\
    yearfrac (mkdate 2024 1 1) (mkdate 2024 3 1) BASE_ACT_ACT = Ok b /\
    yearfrac (mkdate 2023 12 1) (mkdate 2024 3 1) BASE_ACT_ACT = Ok (a + b)%R.
Proof.
  assert (Hin : In BASE_ACT_ACT actual_bases) by (simpl; auto).
  split; [reflexivity|]. split; [reflexivity|]. split; [reflexivity|].
  split; [exact Hin|]. split; [reflexivity|]. split; [reflexivity|].
  exact (proj1 X10_actual_year_fractions_add_up
           (mkdate 2023 12 1) (mkdate 2024 1 1) (mkdate 2024 3 1) BASE_ACT_ACT
           eq_refl eq_refl eq_refl Hin eq_refl eq_refl).
Defined.

(** X11. Under the bases that count actual days a later end date gives a
    larger year fraction: for [d0 <= d1 < d2] the year fraction from [d0]
    to [d1] is below the one from [d0] to [d2], so that distinct ordered
    dates are a positive time apart.  Under 30/360 distinct dates can be no
    time apart: from the 30th to the 31st of January the year fraction
    is 0. *)
Theorem X11_actual_year_fraction_increases :
  (forall (d0 d1 d2 : date) (base : string),
      valid_date d0 = true -> valid_date d1 = true -> valid_date d2 = true ->
      In base actual_bases ->
      date_ltb d1 d0 = false -> date_ltb d1 d2 = true ->
      exists a b : R,
        yearfrac d0 d1 base = Ok a /\ yearfrac d0 d2 base = Ok b /\
        (0 <= a < b)%R) /\
  yearfrac (mkdate 2024 1 30) (mkdate 2024 1 31) BASE_30_360 = Ok 0%R.
Proof.
  split.
  - intros d0 d1 d2 base H0 H1 H2 Hb H10 H12.
    destruct (date_ltb_true_ordered d1 d2 H1 H2 H12) as [H21 Hlt].
    pose proof (date_ltb_false_le d0 d1 H0 H1 H10) as Hle.
    destruct (yearfrac_actual d0 d1 base H0 H1 Hb) as (f & Hmono & Hf).
    exists (f d1 - f d0)%R, (f d2 - f d0)%R.
    rewrite !Hf by (assumption || (apply (date_ltb_false_trans d0 d1 d2); assumption)).
    split; [reflexivity|]. split; [reflexivity|].
    pose proof (Hmono d1 d2 H1 H2 Hlt).
    destruct (Z.eq_dec (toordinal d0) (toordinal d1)) as [E|E].
    + rewrite (toordinal_inj d0 d1 H0 H1 E) in *. lra.
    + pose proof (Hmono d0 d1 H0 H1 ltac:(lia)). lra.
  - rewrite yearfrac_30_360 by reflexivity. unfold yearfrac_30_360_us.
    change (date_ltb (mkdate 2024 1 31) (mkdate 2024 1 30)) with false. cbv iota zeta.
    match goal with |- Ok (IZR ?z / 360)%R = _ => change z with 0 end.
    f_equal. lra.
Qed.

Lemma X11_witness :
  valid_date (mkdate 2024 1 1) = true /\ valid_date (mkdate 2024 2 28) = true /\
  valid_date (mkdate 2024 2 29) = true /\ In BASE_ACT_365 actual_bases /\
  date_ltb (mkdate 2024 2 28) (mkdate 2024 1 1) = false /\
  date_ltb (mkdate 2024 2 28) (mkdate 2024 2 29) = true /\
  exists a b : R,
    yearfrac (mkdate 2024 1 1) (mkdate 2024 2 28) BASE_ACT_365 = Ok a /\
    yearfrac (mkdate 2024 1 1) (mkdate 2024 2 29) BASE_ACT_365 = Ok b /\
    (0 <= a < b)%R.
Proof.
  assert (Hin : In BASE_ACT_365 actual_bases) by (simpl; auto).
  split; [reflexivity|]. split; [reflexivity|]. split; [reflexivity|].
  split; [exact Hin|]. split; [reflexivity|]. split; [reflexivity|].
  exact (proj1 X11_actual_year_fraction_increases
           (mkdate 2024 1 1) (mkdate 2024 2 28) (mkdate 2024 2 29) BASE_ACT_365
           eq_refl eq_refl eq_refl Hin eq_refl eq_refl).
Defined.

End YearFracOrder.

(** * The names of the day-count bases *)

Section DayCountNames.

Import Outcome PyStr DayCount DayCountBase.

Example replace_all_occurrences : replace "-" "/" "30-360-x" = "30/360/x"%string.
Proof. reflexivity. Qed.

Example replace_without_overlap : replace "aa" "b" "aaa" = "ba"%string.
Proof. reflexivity. Qed.

Example replace_empty_pattern : replace "" "-" "abc" = "-a-b-c-"%string.
Proof. reflexivity. Qed.

Example normalize_30_360_us :
  normalize_daycount_base (Some " 30/360 (us) "%string) = Done BASE_30_360.
Proof. reflexivity. Qed.

Example normalize_act_365_fixed :
  normalize_daycount_base (Some "act-365 fixed"%string) = Done BASE_ACT_365.
Proof. reflexivity. Qed.

Example normalize_unknown :
  normalize_daycount_base (Some "BUS/252"%string) = Fail (UnrecognizedBase "BUS/252").
Proof. reflexivity. Qed.

Lemma dict_get_In (k v : string) (d : list (string * string)) :
  dict_get k d = Some v -> exists k', In (k', v) d.
Proof.
  induction d as [|[k' v'] d IH]; [discriminate|]. cbn [dict_get].
  destruct (String.eqb k k').
  - intros [= ->]. exists k'. left. reflexivity.
  - intros H. destruct (IH H) as [k'' Hin]. exists k''. right. exact Hin.
Qed.

Lemma base_map_values :
  Forall (fun kv : string * string => In (snd kv) canonical_bases) DAYCOUNT_BASE_MAP.
Proof.
  unfold DAYCOUNT_BASE_MAP, canonical_bases.
  repeat (apply List.Forall_cons; [cbn; auto 6|]). apply List.Forall_nil.
Qed.

Lemma normalize_daycount_base_canonical (value : option string) (b : string) :
  normalize_daycount_base value = Done b -> In b canonical_bases.
Proof.
  unfold normalize_daycount_base. destruct value as [value|]; [|discriminate].
  cbv zeta. destruct (dict_get _ DAYCOUNT_BASE_MAP) as [b'|] eqn:E; [|discriminate].
  intros [= <-]. destruct (dict_get_In _ _ _ E) as [k Hin].
  pose proof base_map_values as Hall. rewrite List.Forall_forall in Hall.
  exact (Hall _ Hin).
Qed.

Lemma normalize_canonical_base (b : string) :
  In b canonical_bases -> normalize_daycount_base (Some b) = Done b.
Proof.
  intros Hb. simpl in Hb. destruct Hb as [<- | [<- | [<- | [<- | []]]]]; reflexivity.
Qed.

(** ** Case and blanks *)

Lemma upper_char_idem (c : ascii) : upper_char (upper_char c) = upper_char c.
Proof.
  destruct c as [b0 b1 b2 b3 b4 b5 b6 b7];
    destruct b0, b1, b2, b3, b4, b5, b6, b7; reflexivity.
Qed.

Lemma isspace_upper_char (c : ascii) : isspace (upper_char c) = isspace c.
Proof.
  destruct c as [b0 b1 b2 b3 b4 b5 b6 b7];
    destruct b0, b1, b2, b3, b4, b5, b6, b7; reflexivity.
Qed.

Lemma upper_idem (s : string) : upper (upper s) = upper s.
Proof.
  induction s as [|c s IH]; [reflexivity|]. cbn [upper].
  rewrite upper_char_idem, IH. reflexivity.
Qed.

Lemma lstrip_upper (s : string) : lstrip (upper s) = upper (lstrip s).
Proof.
  induction s as [|c s IH]; [reflexivity|]. cbn [upper lstrip].
  rewrite isspace_upper_char. destruct (isspace c); [exact IH|reflexivity].
Qed.

Lemma upper_empty (s : string) :
  String.eqb (upper s) EmptyString = String.eqb s EmptyString.
Proof. destruct s; reflexivity. Qed.

Lemma rstrip_upper (s : string) : rstrip (upper s) = upper (rstrip s).
Proof.
  induction s as [|c s IH]; [reflexivity|]. cbn [upper rstrip].
  rewrite isspace_upper_char, IH, upper_empty.
  destruct (isspace c && String.eqb (rstrip s) EmptyString); reflexivity.
Qed.

Lemma strip_upper (s : string) : strip (upper s) = upper (strip s).
Proof. unfold strip. rewrite lstrip_upper, rstrip_upper. reflexivity. Qed.

Lemma rstrip_idem (s : string) : rstrip (rstrip s) = rstrip s.
Proof.
  induction s as [|c s IH]; [reflexivity|]. cbn [rstrip].
  destruct (isspace c && String.eqb (rstrip s) EmptyString) eqn:E; [reflexivity|].
  cbn [rstrip]. rewrite IH, E. reflexivity.
Qed.

Lemma lstrip_head (s : string) :
  lstrip s = EmptyString \/
  exists c s', lstrip s = String c s' /\ isspace c = false.
Proof.
  induction s as [|c s IH]; [left; reflexivity|]. cbn [lstrip].
  destruct (isspace c) eqn:E; [exact IH|]. right. exists c, s. auto.
Qed.

Lemma lstrip_strip (s : string) : lstrip (strip s) = strip s.
Proof.
  unfold strip. destruct (lstrip_head s) as [->|(c & s' & -> & Hc)]; [reflexivity|].
  cbn [rstrip]. rewrite Hc. cbn [andb lstrip]. rewrite Hc. reflexivity.
Qed.

Lemma strip_idem (s : string) : strip (strip s) = strip s.
Proof.
  unfold strip at 1. rewrite lstrip_strip. unfold strip. apply rstrip_idem.
Qed.

(** X12. [normalize_daycount_base] returns one of the four canonical bases
    or raises; a base it returns is one that [yearfrac] supports. *)
Theorem X12_normalized_base_is_canonical (value : option string) (b : string) :
  normalize_daycount_base value = Done b ->
  In b canonical_bases /\
  forall (d0 d1 : date) (b' : string), yearfrac d0 d1 b <> Raise (UnsupportedBase b').
Proof.
  intros H. pose proof (normalize_daycount_base_canonical value b H) as Hb.
  split; [exact Hb|]. intros d0 d1 b'.
  unfold yearfrac. destruct (date_ltb d1 d0); [discriminate|]. cbv zeta.
  simpl in Hb. destruct Hb as [<- | [<- | [<- | [<- | []]]]].
  - discriminate.
  - discriminate.
  - change (String.eqb BASE_ACT_ACT BASE_ACT_360) with false.
    change (String.eqb BASE_ACT_ACT BASE_ACT_365) with false.
    change (String.eqb BASE_ACT_ACT BASE_ACT_ACT) with true. cbv iota.
    unfold yearfrac_act_act_isda.
    destruct (date_ltb d1 d0); [discriminate|].
    destruct (date_eqb d0 d1); [discriminate|].
    destruct (year d0 =? year d1); [discriminate|].
    unfold date_new. destruct (valid_date _); [|discriminate]. cbn [rbind].
    destruct (valid_date _); discriminate.
  - change (String.eqb BASE_30_360 BASE_ACT_360) with false.
    change (String.eqb BASE_30_360 BASE_ACT_365) with false.
    change (String.eqb BASE_30_360 BASE_ACT_ACT) with false.
    change (String.eqb BASE_30_360 BASE_30_360) with true. cbv iota.
    unfold yearfrac_30_360_us. destruct (date_ltb d1 d0); discriminate.
Qed.

Lemma X12_witness :
  normalize_daycount_base (Some "Actual/Actual (ISDA)"%string) = Done BASE_ACT_ACT /\
  In BASE_ACT_ACT canonical_bases /\
  forall (d0 d1 : date) (b' : string),
    yearfrac d0 d1 BASE_ACT_ACT <> Raise (UnsupportedBase b').
Proof.
  split; [reflexivity|].
  exact (X12_normalized_base_is_canonical (Some "Actual/Actual (ISDA)"%string)
           BASE_ACT_ACT eq_refl).
Defined.

(** X13. The canonical bases are the fixed points of
    [normalize_daycount_base]: each of them is returned as it is, and a
    returned base is returned again when it is normalised once more. *)
Theorem X13_normalize_is_idempotent :
  (forall b : string, In b canonical_bases -> normalize_daycount_base (Some b) = Done b) /\
  (forall (value : option string) (b : string),
      normalize_daycount_base value = Done b ->
      normalize_daycount_base (Some b) = Done b).
Proof.
  split; [exact normalize_canonical_base|].
  intros value b H. apply normalize_canonical_base.
  exact (normalize_daycount_base_canonical value b H).
Qed.

Lemma X13_witness :
  In BASE_30_360 canonical_bases /\
  normalize_daycount_base (Some BASE_30_360) = Done BASE_30_360 /\
  normalize_daycount_base (Some "30E/360 ISDA"%string) = Done BASE_30_360 /\
  normalize_daycount_base (Some BASE_30_360) = Done BASE_30_360.
Proof.
  assert (Hin : In BASE_30_360 canonical_bases) by (simpl; auto).
  split; [exact Hin|].
  split; [exact (proj1 X13_normalize_is_idempotent BASE_30_360 Hin)|].
  split; [reflexivity|].
  exact (proj2 X13_normalize_is_idempotent (Some "30E/360 ISDA"%string) BASE_30_360 eq_refl).
Defined.

(** X14. [normalize_daycount_base] looks through letter case and through
    blanks around the name: the name in upper case, and the name without
    the blanks at its ends, are recognised exactly when the name is, as the
    same base. *)
Theorem X14_normalize_ignores_case_and_outer_blanks (value b : string) :
  (normalize_daycount_base (Some (upper value)) = Done b <->
   normalize_daycount_base (Some value) = Done b) /\
  (normalize_daycount_base (Some (strip value)) = Done b <->
   normalize_daycount_base (Some value) = Done b).
Proof.
  unfold normalize_daycount_base. cbv zeta.
  rewrite strip_upper, upper_idem, strip_idem.
  split; destruct (dict_get _ DAYCOUNT_BASE_MAP); split; intros H;
    (exact H || discriminate H).
Qed.

End DayCountNames.

(** * The queries of a curve set *)

Section SortedNames.

Import MarketSpec.

Lemma insert_str_perm (x : string) (l : list string) :
  Permutation (x :: l) (insert_str x l).
Proof.
  induction l as [|y l IH]; [reflexivity|]. cbn [insert_str].
  destruct (String.leb x y); [reflexivity|].
  rewrite perm_swap. apply perm_skip, IH.
Qed.

Lemma sorted_perm (l : list string) : Permutation l (sorted l).
Proof.
  induction l as [|x l IH]; [reflexivity|]. cbn [sorted].
  rewrite <- insert_str_perm. apply perm_skip, IH.
Qed.

Lemma In_sorted (x : string) (l : list string) : In x (sorted l) <-> In x l.
Proof.
  split; apply Permutation_in; [apply Permutation_sym|]; apply sorted_perm.
Qed.

Lemma NoDup_sorted (l : list string) : List.NoDup l -> List.NoDup (sorted l).
Proof. apply Permutation_NoDup, sorted_perm. Qed.

Lemma leb_trans (a b c : string) : str_le a b -> str_le b c -> str_le a c.
Proof.
  unfold str_le, String.leb. revert b c.
  induction a as [|x a IH]; intros [|y b] [|z c]; cbn [String.compare];
    try (intros; reflexivity); try discriminate.
  unfold Ascii.compare.
  destruct (N.compare_spec (N_of_ascii x) (N_of_ascii y)) as [Exy|Exy|Exy];
    destruct (N.compare_spec (N_of_ascii y) (N_of_ascii z)) as [Eyz|Eyz|Eyz];
    destruct (N.compare_spec (N_of_ascii x) (N_of_ascii z)) as [Exz|Exz|Exz];
    try (intros; reflexivity); try discriminate; try lia.
  apply IH.
Qed.

Lemma insert_str_Sorted (x : string) (l : list string) :
  StronglySorted str_le l -> StronglySorted str_le (insert_str x l).
Proof.
  induction 1 as [|y l Hs IH Hall]; [repeat constructor|]. cbn [insert_str].
  destruct (String.leb x y) eqn:E.
  - constructor; [constructor; assumption|].
    constructor; [exact E|].
    rewrite List.Forall_forall in *. intros z Hz.
    apply (leb_trans x y z E), Hall, Hz.
  - assert (Hyx : str_le y x).
    { destruct (String.leb_total x y) as [H|H]; [congruence|exact H]. }
    constructor; [exact IH|].
    rewrite List.Forall_forall in *. intros z Hz.
    apply (Permutation_in _ (Permutation_sym (insert_str_perm x l))) in Hz.
    destruct Hz as [<-|Hz]; [exact Hyx|apply Hall, Hz].
Qed.

Lemma sorted_Sorted (l : list string) : StronglySorted str_le (sorted l).
Proof.
  induction l as [|x l IH]; [constructor|]. cbn [sorted]. apply insert_str_Sorted, IH.
Qed.

Lemma NoDup_filter {A : Type} (f : A -> bool) (l : list A) :
  List.NoDup l -> List.NoDup (List.filter f l).
Proof.
  induction 1 as [|x l Hx Hnd IH]; [constructor|]. cbn [List.filter].
  destruct (f x); [|exact IH]. constructor; [|exact IH].
  intros Hin. apply List.filter_In in Hin as [Hin _]. contradiction.
Qed.

Lemma Sorted_filter_total (f : string -> bool) (l : list string) :
  StronglySorted str_le l -> StronglySorted str_le (List.filter f l).
Proof.
  induction 1 as [|x l Hs IH Hall]; [constructor|]. cbn [List.filter].
  destruct (f x); [|exact IH]. constructor; [exact IH|].
  rewrite List.Forall_forall in *. intros y Hy.
  apply List.filter_In in Hy as [Hy _]. apply Hall, Hy.
Qed.

End SortedNames.

Section CurveSetQueries.

Import Outcome PyStr DayCount DayCountBase MarketQueries MarketSpec Curves CurveSpec ScenarioSpec.

Lemma the_set_run (h : heap) (self : loc) (s : ForwardCurveSet) :
  h !! self = Some (OForwardCurveSet s) -> the_set self h = Done s.
Proof. intros H. unfold the_set. rewrite H. reflexivity. Qed.

Lemma available_indices_run (h : heap) (self : loc) (s : ForwardCurveSet) :
  h !! self = Some (OForwardCurveSet s) -> available_indices self h = Done (keys s).
Proof.
  intros H. unfold available_indices, qbind. rewrite (the_set_run h self s H).
  reflexivity.
Qed.

Lemma get_run (h : heap) (self : loc) (s : ForwardCurveSet) (ix : string) :
  h !! self = Some (OForwardCurveSet s) ->
  get self ix h = match curves s !! ix with
                  | Some l => Done l
                  | None => Fail (CurveNotFound ix (keys s))
                  end.
Proof.
  intros H. unfold get, qbind at 1. rewrite (the_set_run h self s H).
  destruct (curves s !! ix); [reflexivity|].
  unfold qbind. rewrite (available_indices_run h self s H). reflexivity.
Qed.

Lemma t_run (h : heap) (self : loc) (s : ForwardCurveSet) (d : date) :
  h !! self = Some (OForwardCurveSet s) ->
  _t self d h = match normalize_daycount_base (Some (base s)) with
                | Done b => of_result (yearfrac (analysis_date s) d b)
                | Fail e => Fail e
                end.
Proof.
  intros H. unfold _t, qbind, qlift. rewrite (the_set_run h self s H). reflexivity.
Qed.

(** What the two date queries evaluate on a set that holds the index. *)
Lemma df_on_date_run (h : heap) (self : loc) (s : ForwardCurveSet) (ix : string)
  (c : ForwardCurve) (d : date) :
  curve_at h self s ix c ->
  df_on_date self ix d h
  = match normalize_daycount_base (Some (base s)) with
    | Done b =>
        match yearfrac (analysis_date s) d b with
        | Ok t => of_result (discount_factor c t)
        | Raise e => Fail (Engine e)
        end
    | Fail e => Fail e
    end.
Proof.
  intros (Hs & l & Hl & Hc). unfold df_on_date, qbind at 1.
  rewrite (get_run h self s ix Hs), Hl. unfold qbind at 1.
  rewrite (t_run h self s d Hs).
  destruct (normalize_daycount_base _) as [b|e]; [|reflexivity].
  destruct (yearfrac _ d b) as [t|e]; [|reflexivity]. cbn [of_result].
  unfold qbind, the_curve, qlift. rewrite Hc. reflexivity.
Qed.

Lemma rate_on_date_run (h : heap) (self : loc) (s : ForwardCurveSet) (ix : string)
  (c : ForwardCurve) (d : date) :
  curve_at h self s ix c ->
  rate_on_date self ix d h
  = match normalize_daycount_base (Some (base s)) with
    | Done b =>
        match yearfrac (analysis_date s) d b with
        | Ok t => of_result (zero_rate c t)
        | Raise e => Fail (Engine e)
        end
    | Fail e => Fail e
    end.
Proof.
  intros (Hs & l & Hl & Hc). unfold rate_on_date, qbind at 1.
  rewrite (get_run h self s ix Hs), Hl. unfold qbind at 1.
  rewrite (t_run h self s d Hs).
  destruct (normalize_daycount_base _) as [b|e]; [|reflexivity].
  destruct (yearfrac _ d b) as [t|e]; [|reflexivity]. cbn [of_result].
  unfold qbind, the_curve, qlift, ForwardCurve_rate. rewrite Hc. reflexivity.
Qed.

Lemma yearfrac_same_date (d : date) (b : string) :
  In b canonical_bases -> yearfrac d d b = Ok 0%R.
Proof.
  intros Hb. pose proof (date_ltb_irrefl d) as Hirr.
  assert (Hz : forall k : R, (IZR (days_between d d) / k = 0)%R).
  { intros k. unfold days_between. rewrite Z.sub_diag. unfold Rdiv. apply Rmult_0_l. }
  simpl in Hb. destruct Hb as [<- | [<- | [<- | [<- | []]]]].
  - unfold yearfrac. rewrite Hirr. cbn [String.eqb]. rewrite Hz. reflexivity.
  - unfold yearfrac. rewrite Hirr.
    change (String.eqb BASE_ACT_365 BASE_ACT_360) with false.
    change (String.eqb BASE_ACT_365 BASE_ACT_365) with true. cbv iota.
    rewrite Hz. reflexivity.
  - rewrite yearfrac_act_act by exact Hirr.
    unfold yearfrac_act_act_isda. rewrite Hirr.
    rewrite (proj2 (date_eqb_eq d d) eq_refl). reflexivity.
  - rewrite yearfrac_30_360 by exact Hirr.
    unfold yearfrac_30_360_us. rewrite Hirr. cbv zeta. f_equal.
    match goal with
    | |- (IZR ?z / 360 = 0)%R => replace z with 0; [unfold Rdiv; apply Rmult_0_l|]
    end.
    unfold in_30_31.
    destruct (_is_last_day_of_february d); simpl.
    + lia.
    + destruct (Z.eqb_spec (day d) 31) as [E|E].
      * rewrite E. simpl. lia.
      * simpl. lia.
Qed.

Lemma elem_of_required_names (reqs : list (option string)) (x : string) :
  x ∈ required_names reqs <->
  x <> EmptyString /\ exists ix : string, In (Some ix) reqs /\ strip ix = x.
Proof.
  unfold required_names. rewrite elem_of_list_to_set, list_elem_of_In, List.in_map_iff.
  split.
  - intros (ix & <- & Hin). apply List.filter_In in Hin as [Hin Hne].
    apply negb_true_iff, String.eqb_neq in Hne. split; [exact Hne|].
    exists ix. split; [|reflexivity].
    apply list_elem_of_In, list_elem_of_omap in Hin as (o & Ho & ->).
    apply list_elem_of_In. exact Ho.
  - intros (Hne & ix & Hin & <-). exists ix. split; [reflexivity|].
    apply List.filter_In. split.
    + apply list_elem_of_In, list_elem_of_omap. exists (Some ix).
      split; [apply list_elem_of_In; exact Hin|reflexivity].
    + apply negb_true_iff, String.eqb_neq. exact Hne.
Qed.

Lemma In_sorted_elements (X : gset string) (x : string) :
  In x (sorted (elements X)) <-> x ∈ X.
Proof. rewrite In_sorted, <- list_elem_of_In. apply elem_of_elements. Qed.

Lemma In_keys (s : ForwardCurveSet) (x : string) :
  In x (keys s) <-> is_Some (curves s !! x).
Proof. unfold keys. rewrite In_sorted_elements. apply elem_of_dom. Qed.

Lemma require_indices_run (h : heap) (self : loc) (s : ForwardCurveSet)
  (reqs : list (option string)) :
  h !! self = Some (OForwardCurveSet s) ->
  require_indices self reqs h
  = match List.filter (fun ix => negb (bool_decide (is_Some (curves s !! ix))))
            (sorted (elements (required_names reqs))) with
    | [] => Done tt
    | (_ :: _) as missing => Fail (MissingCurves missing (keys s))
    end.
Proof.
  intros H. unfold require_indices, qbind at 1. rewrite (the_set_run h self s H).
  cbv zeta. destruct (List.filter _ _); [reflexivity|].
  unfold qbind. rewrite (available_indices_run h self s H). reflexivity.
Qed.

Lemma In_missing (s : ForwardCurveSet) (reqs : list (option string)) (x : string) :
  In x (List.filter (fun ix => negb (bool_decide (is_Some (curves s !! ix))))
          (sorted (elements (required_names reqs)))) <->
  x <> EmptyString /\ (exists ix : string, In (Some ix) reqs /\ strip ix = x) /\
  curves s !! x = None.
Proof.
  rewrite List.filter_In, In_sorted_elements, elem_of_required_names.
  rewrite negb_true_iff, bool_decide_eq_false, <- eq_None_not_Some. tauto.
Qed.

(** X15. [require_indices] passes exactly when every required name that is
    not blank is, stripped, an index of the set; [None] entries and blank
    names are passed over.  When it raises, the error lists the stripped
    names that the set does not hold, each once and in sorted order, and
    the indices of the set. *)
Theorem X15_require_indices (h : heap) (self : loc) (s : ForwardCurveSet)
  (reqs : list (option string)) :
  h !! self = Some (OForwardCurveSet s) ->
  (require_indices self reqs h = Done tt <->
   forall ix : string, In (Some ix) reqs -> strip ix <> EmptyString ->
     is_Some (curves s !! strip ix)) /\
  (forall e : error, require_indices self reqs h = Fail e ->
     exists missing : list string,
       e = MissingCurves missing (keys s) /\
       missing <> [] /\ StronglySorted str_le missing /\ List.NoDup missing /\
       forall x : string,
         In x missing <->
         x <> EmptyString /\ (exists ix : string, In (Some ix) reqs /\ strip ix = x) /\
         curves s !! x = None).
Proof.
  intros Hs. rewrite (require_indices_run h self s reqs Hs).
  pose proof (In_missing s reqs) as Hin.
  assert (Hsorted : StronglySorted str_le
            (List.filter (fun ix => negb (bool_decide (is_Some (curves s !! ix))))
               (sorted (elements (required_names reqs)))))
    by apply Sorted_filter_total, sorted_Sorted.
  assert (Hnd : List.NoDup
            (List.filter (fun ix => negb (bool_decide (is_Some (curves s !! ix))))
               (sorted (elements (required_names reqs))))).
  { apply NoDup_filter, NoDup_sorted, NoDup_ListNoDup, NoDup_elements. }
  destruct (List.filter _ _) as [|m missing].
  - split.
    + split; [|reflexivity]. intros _ ix Hix Hne.
      destruct (curves s !! strip ix) as [l|] eqn:E; [eexists; reflexivity|].
      exfalso. apply (proj2 (Hin (strip ix))).
      split; [exact Hne|]. split; [|exact E]. exists ix. auto.
    + discriminate.
  - split.
    + split; [discriminate|]. intros Hall. exfalso.
      destruct (proj1 (Hin m) ltac:(left; reflexivity)) as (Hne & (ix & Hix & <-) & E).
      destruct (Hall ix Hix Hne) as [l Hl]. congruence.
    + intros e [= <-]. exists (m :: missing).
      split; [reflexivity|]. split; [discriminate|].
      split; [exact Hsorted|]. split; [exact Hnd|exact Hin].
Qed.

Lemma X15_witness :
  eur_heap !! 2%positive = Some (OForwardCurveSet eur_set) /\
  require_indices 2 [Some " EUR "%string; None; Some " "%string] eur_heap = Done tt /\
  exists missing : list string,
    MissingCurves ["USD"%string] ["EUR"%string] = MissingCurves missing (keys eur_set) /\
    missing <> [] /\ StronglySorted str_le missing /\ List.NoDup missing /\
    forall x : string,
      In x missing <->
      x <> EmptyString /\
      (exists ix : string, In (Some ix) [Some "USD "%string; Some "EUR"%string]
                           /\ strip ix = x) /\
      curves eur_set !! x = None.
Proof.
  assert (Hs : eur_heap !! 2%positive = Some (OForwardCurveSet eur_set)) by reflexivity.
  split; [exact Hs|]. split; [vm_compute; reflexivity|].
  apply (proj2 (X15_require_indices eur_heap 2 eur_set
                  [Some "USD "%string; Some "EUR"%string] Hs)).
  vm_compute. reflexivity.
Defined.

(** X16. On the analysis date itself the discount factor of every index of
    the set is 1, and the rate is the rate of the first pillar of its
    curve, whichever base the set names, as long as the name is
    recognised. *)
Theorem X16_queries_on_analysis_date (h : heap) (self : loc) (s : ForwardCurveSet)
  (ix : string) (c : ForwardCurve) (b : string) :
  curve_at h self s ix c ->
  normalize_daycount_base (Some (base s)) = Done b ->
  df_on_date self ix (analysis_date s) h = Done 1%R /\
  forall (p : CurvePoint) (ps : list CurvePoint),
    points c = p :: ps ->
    rate_on_date self ix (analysis_date s) h = Done (rate p).
Proof.
  intros Hc Hb.
  pose proof (yearfrac_same_date (analysis_date s) b
                (normalize_daycount_base_canonical _ b Hb)) as Ht.
  split.
  - rewrite (df_on_date_run h self s ix c _ Hc), Hb, Ht.
    rewrite discount_factor_nonpositive by lra. reflexivity.
  - intros p ps Hp. rewrite (rate_on_date_run h self s ix c _ Hc), Hb, Ht.
    unfold zero_rate. destruct (Rle_dec 0 0) as [_|Hn]; [|exfalso; apply Hn; lra].
    rewrite Hp. reflexivity.
Qed.

Lemma X16_witness :
  curve_at eur_heap 2 eur_set "EUR" eur_curve /\
  normalize_daycount_base (Some (base eur_set)) = Done BASE_ACT_365 /\
  df_on_date 2 "EUR" (analysis_date eur_set) eur_heap = Done 1%R /\
  rate_on_date 2 "EUR" (analysis_date eur_set) eur_heap = Done 0.02%R.
Proof.
  assert (Hc : curve_at eur_heap 2 eur_set "EUR" eur_curve).
  { split; [reflexivity|]. exists 3%positive. split; reflexivity. }
  assert (Hb : normalize_daycount_base (Some (base eur_set)) = Done BASE_ACT_365)
    by reflexivity.
  split; [exact Hc|]. split; [exact Hb|].
  split.
  - exact (proj1 (X16_queries_on_analysis_date eur_heap 2 eur_set "EUR" eur_curve
                    BASE_ACT_365 Hc Hb)).
  - exact (proj2 (X16_queries_on_analysis_date eur_heap 2 eur_set "EUR" eur_curve
                    BASE_ACT_365 Hc Hb) _ _ eq_refl).
Defined.

(** X17. The order of the checks of [df_on_date] and [rate_on_date]: an
    index that the set does not hold raises the curve-not-found error, with
    the indices of the set, whatever the base and the date; for an index of
    the set, a base name that is not recognised raises the error of
    [normalize_daycount_base] whatever the date; and with a recognised base
    a date before the analysis date raises the date-order error. *)
Theorem X17_query_errors (h : heap) (self : loc) (s : ForwardCurveSet)
  (ix : string) (d : date) :
  h !! self = Some (OForwardCurveSet s) ->
  (curves s !! ix = None ->
   df_on_date self ix d h = Fail (CurveNotFound ix (keys s)) /\
   rate_on_date self ix d h = Fail (CurveNotFound ix (keys s))) /\
  (is_Some (curves s !! ix) ->
   forall e : error, normalize_daycount_base (Some (base s)) = Fail e ->
     e = UnrecognizedBase (base s) /\
     df_on_date self ix d h = Fail e /\ rate_on_date self ix d h = Fail e) /\
  (is_Some (curves s !! ix) ->
   forall b : string, normalize_daycount_base (Some (base s)) = Done b ->
     date_ltb d (analysis_date s) = true ->
     df_on_date self ix d h = Fail (Engine InvalidDateOrder) /\
     rate_on_date self ix d h = Fail (Engine InvalidDateOrder)).
Proof.
  intros Hs.
  assert (Hget : forall l, curves s !! ix = Some l ->
            df_on_date self ix d h
            = qbind (_t self d) (fun t => qbind (the_curve l) (fun c =>
                qlift (of_result (discount_factor c t)))) h /\
            rate_on_date self ix d h
            = qbind (_t self d) (fun t => qbind (the_curve l) (fun c =>
                qlift (of_result (ForwardCurve_rate c t)))) h).
  { intros l Hl. split; [unfold df_on_date|unfold rate_on_date];
      unfold qbind at 1; rewrite (get_run h self s ix Hs), Hl; reflexivity. }
  split; [|split].
  - intros Hnone. unfold df_on_date, rate_on_date, qbind.
    rewrite (get_run h self s ix Hs), Hnone. split; reflexivity.
  - intros [l Hl] e He. destruct (Hget l Hl) as [-> ->].
    unfold qbind. rewrite (t_run h self s d Hs), He. split; [|split; reflexivity].
    unfold normalize_daycount_base in He. cbv zeta in He.
    destruct (dict_get _ _); [discriminate|]. congruence.
  - intros [l Hl] b Hb Hlt. destruct (Hget l Hl) as [-> ->].
    unfold qbind. rewrite (t_run h self s d Hs), Hb.
    unfold yearfrac. rewrite Hlt. split; reflexivity.
Qed.

Lemma X17_witness :
  eur_heap !! 2%positive = Some (OForwardCurveSet eur_set) /\
  curves eur_set !! "USD"%string = None /\
  is_Some (curves eur_set !! "EUR"%string) /\
  normalize_daycount_base (Some (base eur_set)) = Done BASE_ACT_365 /\
  date_ltb (mkdate 2023 12 31) (analysis_date eur_set) = true /\
  df_on_date 2 "USD" (mkdate 2023 12 31) eur_heap
  = Fail (CurveNotFound "USD" (keys eur_set)) /\
  df_on_date 2 "EUR" (mkdate 2023 12 31) eur_heap = Fail (Engine InvalidDateOrder).
Proof.
  assert (Hs : eur_heap !! 2%positive = Some (OForwardCurveSet eur_set)) by reflexivity.
  assert (Hn : curves eur_set !! "USD"%string = None) by reflexivity.
  assert (Hk : is_Some (curves eur_set !! "EUR"%string)) by (eexists; reflexivity).
  assert (Hb : normalize_daycount_base (Some (base eur_set)) = Done BASE_ACT_365)
    by reflexivity.
  assert (Hlt : date_ltb (mkdate 2023 12 31) (analysis_date eur_set) = true)
    by reflexivity.
  split; [exact Hs|]. split; [exact Hn|]. split; [exact Hk|]. split; [exact Hb|].
  split; [exact Hlt|]. split.
  - exact (proj1 (proj1 (X17_query_errors eur_heap 2 eur_set "USD"
                           (mkdate 2023 12 31) Hs) Hn)).
  - exact (proj1 (proj2 (proj2 (X17_query_errors eur_heap 2 eur_set "EUR"
                                  (mkdate 2023 12 31) Hs)) Hk BASE_ACT_365 Hb Hlt)).
Defined.

End CurveSetQueries.

(** * The curve queries within the range of a double *)

Section FloatRangeFacts.

Import Outcome PyStr DayCount DayCountBase MarketQueries MarketSpec ScenarioSpec.
Import PyMath Curves CurveSpec FloatRangeSpec.
Local Open Scope R_scope.

(** ** The range of [math.exp] *)

Lemma exp_mult_nat (x : R) (n : nat) : exp (INR n * x) = exp x ^ n.
Proof.
  induction n as [|n IH].
  - cbn [INR pow]. rewrite Rmult_0_l. apply exp_0.
  - rewrite S_INR, Rmult_plus_distr_r, Rmult_1_l, exp_plus, IH. cbn [pow]. ring.
Qed.

Lemma div_le_div (a b c d : R) : 0 < b -> 0 < d -> a * d <= c * b -> a / b <= c / d.
Proof.
  intros Hb Hd H. apply Rmult_le_reg_r with (b * d); [apply Rmult_lt_0_compat; assumption|].
  replace (a / b * (b * d)) with (a * d) by (field; lra).
  replace (c / d * (b * d)) with (c * b) by (field; lra). exact H.
Qed.

Lemma div_lt_div (a b c d : R) : 0 < b -> 0 < d -> a * d < c * b -> a / b < c / d.
Proof.
  intros Hb Hd H. apply Rmult_lt_reg_r with (b * d); [apply Rmult_lt_0_compat; assumption|].
  replace (a / b * (b * d)) with (a * d) by (field; lra).
  replace (c / d * (b * d)) with (c * b) by (field; lra). exact H.
Qed.

(** A power of a fraction of integers. *)
Lemma pow_div_IZR (a b : Z) (n : nat) :
  (IZR a / IZR b) ^ n = IZR (a ^ Z.of_nat n) / IZR (b ^ Z.of_nat n).
Proof.
  unfold Rdiv. rewrite Rpow_mult_distr, pow_inv, !pow_IZR. reflexivity.
Qed.

Lemma two_le_exp : 2 <= exp (7 / 10).
Proof.
  replace (7 / 10) with (INR 64 * (7 / 640)) by (cbn [INR]; lra).
  rewrite exp_mult_nat.
  assert (Hstep : 647 / 640 <= exp (7 / 640)).
  { pose proof (exp_ineq1 (7 / 640) ltac:(lra)). lra. }
  apply Rle_trans with ((647 / 640) ^ 64); [|apply pow_incr; lra].
  rewrite pow_div_IZR. rewrite <- (Rdiv_1_r 2).
  apply div_le_div; [lra|apply IZR_lt; vm_compute; reflexivity|].
  rewrite <- !mult_IZR. apply IZR_le. vm_compute. discriminate.
Qed.

Lemma pow2_le_exp (n : nat) : 2 ^ n <= exp (INR n * (7 / 10)).
Proof.
  rewrite exp_mult_nat. apply pow_incr. pose proof two_le_exp. lra.
Qed.

Lemma exp_le_inv (x : R) : 0 < x < 1 -> exp x <= / (1 - x).
Proof.
  intros Hx. pose proof (exp_ineq1 (- x) ltac:(lra)) as H. rewrite exp_Ropp in H.
  rewrite <- (Rinv_inv (exp x)). apply Rinv_le_contravar; lra.
Qed.

Lemma exp_le_203 : exp (7 / 10) <= 203 / 100.
Proof.
  replace (7 / 10) with (INR 64 * (7 / 640)) by (cbn [INR]; lra).
  rewrite exp_mult_nat.
  apply Rle_trans with ((640 / 633) ^ 64).
  - apply pow_incr. split; [left; apply exp_pos|].
    pose proof (exp_le_inv (7 / 640) ltac:(lra)) as H.
    replace (640 / 633) with (/ (1 - 7 / 640)) by (field; lra). exact H.
  - rewrite pow_div_IZR.
    apply div_le_div; [apply IZR_lt; vm_compute; reflexivity|lra|].
    rewrite <- !mult_IZR. apply IZR_le. vm_compute. discriminate.
Qed.

Lemma exp_le_pow203 (n : nat) : exp (INR n * (7 / 10)) <= (203 / 100) ^ n.
Proof.
  rewrite exp_mult_nat. apply pow_incr. split; [left; apply exp_pos|apply exp_le_203].
Qed.

Lemma exp_monotone (x y : R) : x <= y -> exp x <= exp y.
Proof.
  intros H. destruct H as [H|H]; [left; apply exp_increasing, H|right; rewrite H; reflexivity].
Qed.

Lemma pow_203_lt_overflow : (203 / 100) ^ 1000 < overflow_threshold.
Proof.
  unfold overflow_threshold. rewrite pow_div_IZR.
  rewrite <- (Rdiv_1_r (IZR (2 ^ 1024 - 2 ^ 970))).
  apply div_lt_div; [apply IZR_lt; vm_compute; reflexivity|lra|].
  rewrite Rmult_1_r, <- mult_IZR. apply IZR_lt. vm_compute. reflexivity.
Qed.

Lemma overflow_le_pow2 : overflow_threshold <= 2 ^ 1024.
Proof.
  unfold overflow_threshold. rewrite pow_IZR. apply IZR_le. vm_compute. discriminate.
Qed.

Lemma underflow_is_inv_pow2 : underflow_threshold = / 2 ^ 1075.
Proof. unfold underflow_threshold. rewrite pow_IZR. reflexivity. Qed.

Lemma underflow_threshold_pos : 0 < underflow_threshold.
Proof.
  unfold underflow_threshold. apply Rinv_0_lt_compat, IZR_lt. vm_compute. reflexivity.
Qed.

Lemma underflow_lt_inv_pow_203 : underflow_threshold < / (203 / 100) ^ 1000.
Proof.
  unfold underflow_threshold. rewrite pow_div_IZR.
  assert (H2 : 0 < IZR (2 ^ 1075)) by (apply IZR_lt; vm_compute; reflexivity).
  assert (Ha : 0 < IZR (203 ^ Z.of_nat 1000)) by (apply IZR_lt; vm_compute; reflexivity).
  assert (Hb : 0 < IZR (100 ^ Z.of_nat 1000)) by (apply IZR_lt; vm_compute; reflexivity).
  apply Rinv_lt_contravar.
  - apply Rmult_lt_0_compat; [|exact H2]. apply Rdiv_lt_0_compat; assumption.
  - rewrite <- (Rdiv_1_r (IZR (2 ^ 1075))).
    apply div_lt_div; [exact Hb|lra|].
    rewrite Rmult_1_r, <- mult_IZR. apply IZR_lt. vm_compute. reflexivity.
Qed.

Lemma underflow_lt_overflow : underflow_threshold < overflow_threshold.
Proof.
  pose proof pow_203_lt_overflow as Ho. pose proof underflow_lt_inv_pow_203 as Hu.
  assert (H1 : 1 <= (203 / 100) ^ 1000) by (apply pow_R1_Rle; lra).
  set (b := (203 / 100) ^ 1000) in *.
  assert (H2 : / b <= 1).
  { rewrite <- Rinv_1. apply Rinv_le_contravar; lra. }
  lra.
Qed.

(** An exponent between -700 and 700 is within the range. *)
Lemma math_exp_in_range (y : R) :
  -700 <= y <= 700 -> math_exp y = Done (exp y).
Proof.
  intros [Hlo Hhi].
  pose proof pow_203_lt_overflow as Ho. pose proof underflow_lt_inv_pow_203 as Hu.
  pose proof (exp_le_pow203 1000) as H3.
  rewrite (INR_IZR_INZ 1000) in H3. change (IZR (Z.of_nat 1000)) with 1000 in H3.
  replace (1000 * (7 / 10)) with 700 in H3 by lra.
  set (b := (203 / 100) ^ 1000) in *.
  assert (Hup : exp y <= b)
    by (eapply Rle_trans; [apply exp_monotone, Hhi|exact H3]).
  assert (Hdn : / b <= exp y).
  { apply Rle_trans with (exp (Ropp 700)); [|apply exp_monotone; lra].
    rewrite exp_Ropp. apply Rinv_le_contravar; [apply exp_pos|exact H3]. }
  unfold math_exp.
  destruct (Rle_dec overflow_threshold (exp y)); [lra|].
  destruct (Rle_dec (exp y) underflow_threshold); [lra|reflexivity].
Qed.

(** From 717 on the exponential is beyond the doubles. *)
Lemma math_exp_overflow (y : R) : 717 <= y -> math_exp y = Fail MathRangeError.
Proof.
  intros Hy. pose proof overflow_le_pow2 as Ho.
  pose proof (pow2_le_exp 1024) as H2.
  assert (Hle : exp (INR 1024 * (7 / 10)) <= exp y).
  { apply exp_monotone. rewrite INR_IZR_INZ.
    change (IZR (Z.of_nat 1024)) with 1024. lra. }
  set (b := 2 ^ 1024) in *.
  unfold math_exp. destruct (Rle_dec overflow_threshold (exp y)); [reflexivity|lra].
Qed.

(** Up to -753 the exponential rounds to [0.0]. *)
Lemma math_exp_underflow (y : R) : y <= -753 -> math_exp y = Done 0.
Proof.
  intros Hy. pose proof pow_203_lt_overflow as Ho3.
  pose proof underflow_is_inv_pow2 as Hu.
  pose proof (pow2_le_exp 1075) as H2.
  assert (Hle : exp y <= / 2 ^ 1075).
  { apply Rle_trans with (exp (- (INR 1075 * (7 / 10)))).
    - apply exp_monotone. rewrite INR_IZR_INZ.
      change (IZR (Z.of_nat 1075)) with 1075. lra.
    - rewrite exp_Ropp. apply Rinv_le_contravar; [|exact H2].
      apply pow_lt. lra. }
  assert (H1 : exp y < 1).
  { rewrite <- exp_0. apply exp_increasing. lra. }
  assert (H3 : 1 <= (203 / 100) ^ 1000) by (apply pow_R1_Rle; lra).
  set (b := (203 / 100) ^ 1000) in *. set (b2 := 2 ^ 1075) in *.
  unfold math_exp. destruct (Rle_dec overflow_threshold (exp y)); [lra|].
  destruct (Rle_dec (exp y) underflow_threshold); [reflexivity|lra].
Qed.

Lemma math_exp_0 : math_exp 0 = Done 1.
Proof. rewrite math_exp_in_range by lra. rewrite exp_0. reflexivity. Qed.

(** What [math.exp] returns is not negative, and positive when it is not
    [0.0]. *)
Lemma math_exp_cases (y : R) :
  (overflow_threshold <= exp y /\ math_exp y = Fail MathRangeError) \/
  (exp y <= underflow_threshold /\ math_exp y = Done 0) \/
  (underflow_threshold < exp y < overflow_threshold /\ math_exp y = Done (exp y)).
Proof.
  unfold math_exp. destruct (Rle_dec overflow_threshold (exp y)); [left; auto|].
  destruct (Rle_dec (exp y) underflow_threshold); [right; left; auto|].
  right. right. split; [lra|reflexivity].
Qed.

(** ** The queries of a curve within the range *)

(** [discount_factor] reaches [math.exp] where [Curves.discount_factor]
    evaluates the exponential, with the same exponent. *)
Lemma discount_factor_refines (c : ForwardCurve) (t : R) :
  FloatRange.discount_factor c (Some t) =
  match Curves.discount_factor c t with
  | Ok v => if Rle_dec t 0 then Done 1 else math_exp (ln v)
  | Raise e => Fail (Engine e)
  end.
Proof.
  unfold FloatRange.discount_factor, Curves.discount_factor.
  destruct (Rle_dec t 0); [reflexivity|]. cbv zeta.
  destruct (length (year_fracs c) =? 1)%nat.
  - destruct (index (year_fracs c) 0); [|reflexivity].
    destruct (index (_pillar_ln_dfs c) 0); [|reflexivity].
    cbn [of_result obind rbind]. rewrite ln_exp. reflexivity.
  - destruct (index (year_fracs c) 0) as [x0|]; [|reflexivity].
    cbn [of_result obind rbind]. destruct (Rle_dec t x0).
    + destruct (index (_pillar_ln_dfs c) 0); [|reflexivity].
      cbn [of_result obind rbind]. rewrite ln_exp. reflexivity.
    + destruct (index (year_fracs c) (-1)) as [xl|]; [|reflexivity].
      cbn [of_result obind rbind]. destruct (Rge_dec t xl).
      * destruct (index (year_fracs c) (-2)); [|reflexivity].
        cbn [of_result obind rbind].
        destruct (index (_pillar_ln_dfs c) (-2)); [|reflexivity].
        destruct (index (_pillar_ln_dfs c) (-1)); [|reflexivity].
        cbn [of_result obind rbind]. rewrite ln_exp. reflexivity.
      * destruct (index (year_fracs c) _); [|reflexivity].
        destruct (index (year_fracs c) _); [|reflexivity].
        destruct (index (_pillar_ln_dfs c) _); [|reflexivity].
        destruct (index (_pillar_ln_dfs c) _); [|reflexivity].
        cbn [of_result obind rbind]. rewrite ln_exp. reflexivity.
Qed.

Lemma discount_factor_of_exponent (c : ForwardCurve) (t y : R) :
  Curves.discount_factor c t = Ok (exp y) ->
  FloatRange.discount_factor c (Some t) = math_exp y.
Proof.
  intros Hy. rewrite discount_factor_refines, Hy. destruct (Rle_dec t 0) as [Ht|Ht].
  - rewrite (discount_factor_nonpositive c t Ht) in Hy.
    assert (E : exp y = exp 0) by (rewrite exp_0; congruence).
    apply exp_inv in E. rewrite E, math_exp_0. reflexivity.
  - rewrite ln_exp. reflexivity.
Qed.

Lemma zero_rate_of_exponent (c : ForwardCurve) (t y : R) :
  0 < t -> Curves.discount_factor c t = Ok (exp y) ->
  FloatRange.zero_rate c t =
  match math_exp y with
  | Done v => if Rle_dec v 0 then Fail MathDomainError else Done (- ln v / t)
  | Fail e => Fail e
  end.
Proof.
  intros Ht Hy. unfold FloatRange.zero_rate. destruct (Rle_dec t 0); [lra|].
  rewrite (discount_factor_of_exponent c t y Hy).
  destruct (math_exp y) as [v|e]; [|reflexivity].
  cbn [obind]. unfold math_log. destruct (Rle_dec v 0); reflexivity.
Qed.

(** A line stays between the bounds of its ends. *)
Lemma interp_linear_bounded (b x x0 x1 y0 y1 : R) :
  x0 <= x <= x1 -> - b <= y0 <= b -> - b <= y1 <= b ->
  - b <= _interp_linear x x0 x1 y0 y1 <= b.
Proof.
  intros Hx H0 H1. unfold _interp_linear.
  destruct (Req_dec_T x1 x0) as [E|E]; [exact H1|]. cbv zeta.
  assert (Hd : 0 < x1 - x0) by lra.
  assert (Hw : 0 <= (x - x0) / (x1 - x0) <= 1).
  { split.
    - apply Rmult_le_pos; [lra|]. left. apply Rinv_0_lt_compat, Hd.
    - apply Rmult_le_reg_r with (x1 - x0); [exact Hd|].
      unfold Rdiv. rewrite Rmult_assoc, Rinv_l by lra. lra. }
  set (w := (x - x0) / (x1 - x0)) in *. nra.
Qed.

Lemma pillar_ln_dfs_within (c : ForwardCurve) (i : nat) :
  pillars_within c -> (i < length (points c))%nat ->
  - 700 <= nth i (_pillar_ln_dfs c) 0 <= 700.
Proof.
  intros Hb Hi. unfold _pillar_ln_dfs.
  set (d := mkCurvePoint 0 0 EmptyString (mkdate 1 1 1)).
  rewrite (nth_indep (map _ (points c)) 0 ((fun p => - Curves.rate p * year_frac p) d))
    by (rewrite length_map; exact Hi).
  rewrite (map_nth (fun p => - Curves.rate p * year_frac p)).
  pose proof (proj1 (List.Forall_forall _ _) Hb (nth i (points c) d) (nth_In _ _ Hi)) as H.
  cbv beta in H. lra.
Qed.

(** Up to the last pillar the exponent of a curve whose pillars are within
    the bound is within it. *)
Lemma exponent_within (c : ForwardCurve) (t : R) :
  valid_curve c -> pillars_within c ->
  t <= last_year_frac c ->
  exists y : R, Curves.discount_factor c t = Ok (exp y) /\ - 700 <= y <= 700.
Proof.
  intros Hv Hb Hlast. pose proof (valid_curve_length c Hv) as Hn. pose proof Hv as [_ Hs].
  unfold last_year_frac in Hlast.
  assert (Hlen : length (year_fracs c) = length (points c)) by apply length_year_fracs.
  destruct (Rle_lt_dec t 0) as [Ht|Ht].
  { exists 0. rewrite exp_0. split; [apply discount_factor_nonpositive, Ht|lra]. }
  pose proof (pillar_ln_dfs_within c 0 Hb ltac:(lia)) as Hy0.
  destruct (Nat.eq_dec (length (points c)) 1%nat) as [H1|H1].
  { eexists. split; [apply discount_factor_single; assumption|].
    apply interp_linear_bounded; [|lra|exact Hy0].
    rewrite H1 in Hlast. cbn [Nat.sub] in Hlast. lra. }
  destruct (Rle_lt_dec t (nth 0 (year_fracs c) 0)) as [Hhead|Hhead].
  { eexists. split; [apply discount_factor_head; (assumption || lia)|].
    apply interp_linear_bounded; [lra|lra|exact Hy0]. }
  destruct (Rle_lt_dec (nth (length (points c) - 1) (year_fracs c) 0) t) as [Htail|Htail].
  { eexists. split; [apply discount_factor_tail; (assumption || lia)|].
    pose proof (sorted_nth_lt (year_fracs c) (length (points c) - 2)
                  (length (points c) - 1) Hs ltac:(lia)) as Hlt.
    apply interp_linear_bounded; [lra| |]; apply pillar_ln_dfs_within; (assumption || lia). }
  destruct (segment_exists c t Hv ltac:(lia) Hhead Htail) as (i & Hi & Hseg).
  eexists. split; [apply (discount_factor_segment c i t Hs Hi Ht Hseg)|].
  apply interp_linear_bounded; [lra| |]; apply pillar_ln_dfs_within; (assumption || lia).
Qed.

Lemma two_pillar_exponent_20000 :
  Curves.discount_factor two_pillar_curve 20000 = Ok (exp (-79998 / 100)).
Proof.
  assert (Hv : valid_curve two_pillar_curve) by (apply two_pillar_valid; cbn; lra).
  destruct Hv as [_ Hs].
  rewrite (discount_factor_tail two_pillar_curve 20000 Hs) by (cbn; (lia || lra)).
  cbn. do 2 f_equal. unfold _interp_linear.
  destruct (Req_dec_T 2 1) as [E|_]; [lra|]. lra.
Qed.

Lemma falling_exponent_40000 :
  Curves.discount_factor falling_curve 40000 = Ok (exp (79988 / 100)).
Proof.
  assert (Hv : valid_curve falling_curve) by (apply two_pillar_valid; cbn; lra).
  destruct Hv as [_ Hs].
  rewrite (discount_factor_tail falling_curve 40000 Hs) by (cbn; (lia || lra)).
  cbn. do 2 f_equal. unfold _interp_linear.
  destruct (Req_dec_T 2 1) as [E|_]; [lra|]. lra.
Qed.

(** X3. On a constructed curve [discount_factor] raises no index error
    and divides by nothing that is zero: for every number [t] it reaches
    [math.exp] with the exponent ln DF(t) of the interpolation, so that
    it raises exactly when [math.exp] overflows, returns [0.0] exactly
    when [math.exp] underflows, and returns the positive number
    exp(ln DF(t)) otherwise; for [t = None] it raises.  When
    |rate * year_frac| <= 700 at every pillar it returns a positive
    discount factor for every [t] up to the last pillar.  Beyond the last
    pillar the exponent is not bounded: the curve (1, 0.02), (2, 0.03)
    has the discount factor [0.0] at t = 20000, and on the curve
    (1, 0.10), (2, 0.04) the call raises [OverflowError] at t = 40000. *)
Theorem X3_discount_factor_within_range :
  (forall c : ForwardCurve,
      valid_curve c ->
      FloatRange.discount_factor c None = Fail TimeIsNone /\
      forall t : R, exists y : R,
        Curves.discount_factor c t = Ok (exp y) /\
        FloatRange.discount_factor c (Some t) = math_exp y /\
        (overflow_threshold <= exp y ->
         FloatRange.discount_factor c (Some t) = Fail MathRangeError) /\
        (exp y <= underflow_threshold ->
         FloatRange.discount_factor c (Some t) = Done 0) /\
        (underflow_threshold < exp y < overflow_threshold ->
         FloatRange.discount_factor c (Some t) = Done (exp y) /\ 0 < exp y)) /\
  (forall (c : ForwardCurve) (t : R),
      valid_curve c -> pillars_within c ->
      t <= last_year_frac c ->
      exists v : R, FloatRange.discount_factor c (Some t) = Done v /\ 0 < v) /\
  FloatRange.discount_factor two_pillar_curve (Some 20000) = Done 0 /\
  FloatRange.discount_factor falling_curve (Some 40000) = Fail MathRangeError.
Proof.
  split; [|split; [|split]].
  - intros c Hv. split; [reflexivity|]. intros t.
    destruct (discount_factor_value c t Hv) as [y Hy]. exists y.
    split; [exact Hy|]. rewrite (discount_factor_of_exponent c t y Hy).
    split; [reflexivity|].
    pose proof underflow_lt_overflow as Hu.
    pose proof (exp_pos y) as Hpos.
    unfold math_exp.
    destruct (Rle_dec overflow_threshold (exp y));
      [|destruct (Rle_dec (exp y) underflow_threshold)].
    + split; [reflexivity|]. split; intros; lra.
    + split; [intros; lra|]. split; [reflexivity|intros; lra].
    + split; [intros; lra|]. split; [intros; lra|]. intros _. split; [reflexivity|exact Hpos].
  - intros c t Hv Hb Hlast.
    destruct (exponent_within c t Hv Hb Hlast) as (y & Hy & Hrange).
    exists (exp y). rewrite (discount_factor_of_exponent c t y Hy).
    split; [apply math_exp_in_range; lra|apply exp_pos].
  - rewrite (discount_factor_of_exponent _ _ _ two_pillar_exponent_20000).
    apply math_exp_underflow. lra.
  - rewrite (discount_factor_of_exponent _ _ _ falling_exponent_40000).
    apply math_exp_overflow. lra.
Qed.

Lemma X3_witness :
  valid_curve two_pillar_curve /\ pillars_within two_pillar_curve /\
  3 / 2 <= last_year_frac two_pillar_curve /\
  (exists y : R,
      Curves.discount_factor two_pillar_curve 20000 = Ok (exp y) /\
      FloatRange.discount_factor two_pillar_curve (Some 20000) = math_exp y /\
      (overflow_threshold <= exp y ->
       FloatRange.discount_factor two_pillar_curve (Some 20000) = Fail MathRangeError) /\
      (exp y <= underflow_threshold ->
       FloatRange.discount_factor two_pillar_curve (Some 20000) = Done 0) /\
      (underflow_threshold < exp y < overflow_threshold ->
       FloatRange.discount_factor two_pillar_curve (Some 20000) = Done (exp y) /\
       0 < exp y)) /\
  exists v : R, FloatRange.discount_factor two_pillar_curve (Some (3 / 2)) = Done v /\ 0 < v.
Proof.
  assert (Hv : valid_curve two_pillar_curve) by (apply two_pillar_valid; cbn; lra).
  assert (Hb : pillars_within two_pillar_curve) by (repeat constructor; cbn; lra).
  assert (Ht : 3 / 2 <= last_year_frac two_pillar_curve) by (cbn; lra).
  split; [exact Hv|]. split; [exact Hb|]. split; [exact Ht|]. split.
  - exact (proj2 (proj1 X3_discount_factor_within_range two_pillar_curve Hv) 20000).
  - exact (proj1 (proj2 X3_discount_factor_within_range) two_pillar_curve (3 / 2) Hv Hb Ht).
Defined.

Lemma zero_rate_of_range (c : ForwardCurve) (t y : R) :
  0 < t -> Curves.discount_factor c t = Ok (exp y) ->
  (overflow_threshold <= exp y -> FloatRange.zero_rate c t = Fail MathRangeError) /\
  (exp y <= underflow_threshold -> FloatRange.zero_rate c t = Fail MathDomainError) /\
  (underflow_threshold < exp y < overflow_threshold ->
   FloatRange.zero_rate c t = Done (- y / t)).
Proof.
  intros Ht Hy. rewrite (zero_rate_of_exponent c t y Ht Hy).
  pose proof underflow_lt_overflow as Hu. pose proof (exp_pos y) as Hpos.
  unfold math_exp.
  destruct (Rle_dec overflow_threshold (exp y));
    [|destruct (Rle_dec (exp y) underflow_threshold)].
  - split; [reflexivity|]. split; intros; lra.
  - destruct (Rle_dec 0 0) as [_|Hn]; [|exfalso; apply Hn; lra].
    split; [intros; lra|]. split; [reflexivity|intros; lra].
  - destruct (Rle_dec (exp y) 0); [lra|]. rewrite ln_exp.
    split; [intros; lra|]. split; [intros; lra|reflexivity].
Qed.

Lemma zero_rate_in_range (c : ForwardCurve) (t y : R) :
  0 < t -> Curves.discount_factor c t = Ok (exp y) -> - 700 <= y <= 700 ->
  FloatRange.zero_rate c t = Done (- y / t).
Proof.
  intros Ht Hy Hrange. rewrite (zero_rate_of_exponent c t y Ht Hy).
  rewrite math_exp_in_range by lra. pose proof (exp_pos y).
  destruct (Rle_dec (exp y) 0); [lra|]. rewrite ln_exp. reflexivity.
Qed.

Lemma zero_rate_at_nonpositive (c : ForwardCurve) (t : R) :
  valid_curve c -> t <= 0 -> FloatRange.zero_rate c t = Done (nth 0 (rates c) 0).
Proof.
  intros Hv Ht. pose proof (zero_rate_nonpositive c t Hv Ht) as H.
  unfold Curves.zero_rate in H. unfold FloatRange.zero_rate.
  destruct (Rle_dec t 0); [|lra].
  destruct (index (points c) 0) as [p|e]; [|discriminate].
  cbn [rbind] in H. cbn [of_result obind]. congruence.
Qed.

(** X7. For [t > 0] on a constructed curve [zero_rate] answers exactly
    when [math.exp] stays within the doubles at the exponent ln DF(t) of
    [discount_factor]: it then returns -ln DF(t) / t, the value of
    [Curves.zero_rate]; it raises the [OverflowError] of [math.exp] when
    the exponential overflows, and the [ValueError] of [math.log] when the
    discount factor has underflowed to [0.0].  When
    |rate * year_frac| <= 700 at every pillar it answers for every [t]
    from 0 to the last pillar, with a rate [r] for which [discount_factor]
    returns exp(-r * t); for [t <= 0] it returns the rate of the first
    pillar.  Beyond the last pillar it may raise: on the curve (1, 0.02),
    (2, 0.03) at t = 20000 it raises the error of [math.log], and on the
    curve (1, 0.10), (2, 0.04) at t = 40000 that of [math.exp]. *)
Theorem X7_zero_rate_within_range :
  (forall (c : ForwardCurve) (t : R),
      valid_curve c -> 0 < t ->
      exists y : R,
        Curves.discount_factor c t = Ok (exp y) /\
        (overflow_threshold <= exp y ->
         FloatRange.zero_rate c t = Fail MathRangeError) /\
        (exp y <= underflow_threshold ->
         FloatRange.zero_rate c t = Fail MathDomainError) /\
        (underflow_threshold < exp y < overflow_threshold ->
         FloatRange.zero_rate c t = Done (- y / t) /\
         Curves.zero_rate c t = Ok (- y / t))) /\
  (forall (c : ForwardCurve) (t : R),
      valid_curve c -> pillars_within c -> 0 < t <= last_year_frac c ->
      exists r : R,
        FloatRange.zero_rate c t = Done r /\ - 700 <= r * t <= 700 /\
        FloatRange.discount_factor c (Some t) = Done (exp (- r * t))) /\
  (forall (c : ForwardCurve) (t : R),
      valid_curve c -> t <= 0 ->
      FloatRange.zero_rate c t = Done (nth 0 (rates c) 0)) /\
  FloatRange.zero_rate two_pillar_curve 20000 = Fail MathDomainError /\
  FloatRange.zero_rate falling_curve 40000 = Fail MathRangeError.
Proof.
  split; [|split; [|split; [|split]]].
  - intros c t Hv Ht. destruct (discount_factor_value c t Hv) as [y Hy].
    exists y. split; [exact Hy|].
    destruct (zero_rate_of_range c t y Ht Hy) as (H1 & H2 & H3).
    split; [exact H1|]. split; [exact H2|]. intros Hr.
    split; [exact (H3 Hr)|apply zero_rate_positive; assumption].
  - intros c t Hv Hb [Ht Hlast].
    destruct (exponent_within c t Hv Hb Hlast) as (y & Hy & Hrange).
    exists (- y / t). split; [apply zero_rate_in_range; assumption|].
    replace (- y / t * t) with (- y) by (field; lra). split; [lra|].
    rewrite (discount_factor_of_exponent c t y Hy).
    replace (- (- y / t) * t) with y by (field; lra).
    apply math_exp_in_range. lra.
  - exact zero_rate_at_nonpositive.
  - rewrite (zero_rate_of_exponent two_pillar_curve 20000 _ ltac:(lra)
               two_pillar_exponent_20000).
    rewrite math_exp_underflow by lra.
    destruct (Rle_dec 0 0) as [_|Hn]; [reflexivity|exfalso; apply Hn; lra].
  - rewrite (zero_rate_of_exponent falling_curve 40000 _ ltac:(lra)
               falling_exponent_40000).
    rewrite math_exp_overflow by lra. reflexivity.
Qed.

Lemma X7_witness :
  valid_curve two_pillar_curve /\ pillars_within two_pillar_curve /\
  0 < 20000 /\ 0 < 3 / 2 <= last_year_frac two_pillar_curve /\ 0 <= 0 /\
  (exists y : R,
      Curves.discount_factor two_pillar_curve 20000 = Ok (exp y) /\
      (overflow_threshold <= exp y ->
       FloatRange.zero_rate two_pillar_curve 20000 = Fail MathRangeError) /\
      (exp y <= underflow_threshold ->
       FloatRange.zero_rate two_pillar_curve 20000 = Fail MathDomainError) /\
      (underflow_threshold < exp y < overflow_threshold ->
       FloatRange.zero_rate two_pillar_curve 20000 = Done (- y / 20000) /\
       Curves.zero_rate two_pillar_curve 20000 = Ok (- y / 20000))) /\
  (exists r : R,
      FloatRange.zero_rate two_pillar_curve (3 / 2) = Done r /\
      - 700 <= r * (3 / 2) <= 700 /\
      FloatRange.discount_factor two_pillar_curve (Some (3 / 2))
      = Done (exp (- r * (3 / 2)))) /\
  FloatRange.zero_rate two_pillar_curve 0 = Done (nth 0 (rates two_pillar_curve) 0).
Proof.
  assert (Hv : valid_curve two_pillar_curve) by (apply two_pillar_valid; cbn; lra).
  assert (Hb : pillars_within two_pillar_curve) by (repeat constructor; cbn; lra).
  assert (Hbig : 0 < 20000) by lra.
  assert (Ht : 0 < 3 / 2 <= last_year_frac two_pillar_curve) by (cbn; lra).
  assert (H0 : 0 <= 0) by lra.
  split; [exact Hv|]. split; [exact Hb|]. split; [exact Hbig|]. split; [exact Ht|].
  split; [exact H0|]. split; [|split].
  - exact (proj1 X7_zero_rate_within_range two_pillar_curve 20000 Hv Hbig).
  - exact (proj1 (proj2 X7_zero_rate_within_range) two_pillar_curve (3 / 2) Hv Hb Ht).
  - exact (proj1 (proj2 (proj2 X7_zero_rate_within_range)) two_pillar_curve 0 Hv H0).
Defined.

(** ** The date queries within the range *)

(** What the two date queries evaluate on a set that holds the index. *)
Lemma df_on_date_range_run (h : heap) (self : loc) (s : ForwardCurveSet) (ix : string)
  (c : ForwardCurve) (d : date) :
  curve_at h self s ix c ->
  FloatRange.df_on_date self ix d h
  = match normalize_daycount_base (Some (base s)) with
    | Done b =>
        match yearfrac (analysis_date s) d b with
        | Ok t => FloatRange.discount_factor c (Some t)
        | Raise e => Fail (Engine e)
        end
    | Fail e => Fail e
    end.
Proof.
  intros (Hs & l & Hl & Hc). unfold FloatRange.df_on_date, qbind at 1.
  rewrite (get_run h self s ix Hs), Hl. unfold qbind at 1.
  rewrite (t_run h self s d Hs).
  destruct (normalize_daycount_base _) as [b|e]; [|reflexivity].
  destruct (yearfrac _ d b) as [t|e]; [|reflexivity]. cbn [of_result].
  unfold qbind, the_curve, qlift. rewrite Hc. reflexivity.
Qed.

Lemma rate_on_date_range_run (h : heap) (self : loc) (s : ForwardCurveSet) (ix : string)
  (c : ForwardCurve) (d : date) :
  curve_at h self s ix c ->
  FloatRange.rate_on_date self ix d h
  = match normalize_daycount_base (Some (base s)) with
    | Done b =>
        match yearfrac (analysis_date s) d b with
        | Ok t => FloatRange.zero_rate c t
        | Raise e => Fail (Engine e)
        end
    | Fail e => Fail e
    end.
Proof.
  intros (Hs & l & Hl & Hc). unfold FloatRange.rate_on_date, qbind at 1.
  rewrite (get_run h self s ix Hs), Hl. unfold qbind at 1.
  rewrite (t_run h self s d Hs).
  destruct (normalize_daycount_base _) as [b|e]; [|reflexivity].
  destruct (yearfrac _ d b) as [t|e]; [|reflexivity]. cbn [of_result].
  unfold qbind, the_curve, qlift, FloatRange.rate. rewrite Hc. reflexivity.
Qed.

(** The errors of the two queries of a constructed curve are those of
    [math.exp] and [math.log]. *)
Lemma discount_factor_errors (c : ForwardCurve) (t : R) (e : error) :
  valid_curve c -> FloatRange.discount_factor c (Some t) = Fail e -> e = MathRangeError.
Proof.
  intros Hv. destruct (discount_factor_value c t Hv) as [y Hy].
  rewrite (discount_factor_of_exponent c t y Hy). unfold math_exp.
  destruct (Rle_dec _ _); [congruence|]. destruct (Rle_dec _ _); discriminate.
Qed.

Lemma zero_rate_errors (c : ForwardCurve) (t : R) (e : error) :
  valid_curve c -> FloatRange.zero_rate c t = Fail e ->
  e = MathRangeError \/ e = MathDomainError.
Proof.
  intros Hv. destruct (Rle_lt_dec t 0) as [Ht|Ht].
  { rewrite (zero_rate_at_nonpositive c t Hv Ht). discriminate. }
  destruct (discount_factor_value c t Hv) as [y Hy].
  rewrite (zero_rate_of_exponent c t y Ht Hy). unfold math_exp.
  destruct (Rle_dec _ _); [left; congruence|].
  destruct (Rle_dec _ _); destruct (Rle_dec _ _); (discriminate || (right; congruence)).
Qed.

Lemma steep_curve_at : curve_at steep_heap 2 steep_set "EUR" steep_curve.
Proof. split; [reflexivity|]. exists 3%positive. split; reflexivity. Qed.

Lemma steep_exponent (t : R) :
  2 <= t -> Curves.discount_factor steep_curve t = Ok (exp (- (1 / 10) - (t - 1) * (3 / 10))).
Proof.
  intros Ht.
  assert (Hv : valid_curve steep_curve) by (apply two_pillar_valid; cbn; lra).
  destruct Hv as [_ Hs].
  rewrite (discount_factor_tail steep_curve t Hs) by (cbn; (lia || lra)).
  cbn. do 2 f_equal. unfold _interp_linear.
  destruct (Req_dec_T 2 1) as [E|_]; [lra|]. lra.
Qed.

(** X18. On a set whose base name is recognised and whose curve for the
    index is a constructed curve, the date queries for a date from the
    analysis date on are the queries of the curve at the time [t >= 0] of
    the date: the set, the base and the dates raise nothing, and the only
    errors are the [OverflowError] of [math.exp] and, for
    [rate_on_date], the [ValueError] of [math.log] at a discount factor
    [0.0].  When |rate * year_frac| <= 700 at every pillar and the date
    is not beyond the last pillar, both queries answer and the discount
    factor is exp(-r * t) for the rate [r] that [rate_on_date] returns.
    Beyond the last pillar they need not: with the pillars (1, 0.10) and
    (2, 0.20) as of 2024-01-01, [df_on_date] is [0.0] on 5024-01-01 and
    [rate_on_date] raises the error of [math.log]. *)
Theorem X18_date_queries_within_range :
  (forall (h : heap) (self : loc) (s : ForwardCurveSet) (ix : string)
          (c : ForwardCurve) (b : string) (d : date),
      curve_at h self s ix c ->
      valid_curve c ->
      normalize_daycount_base (Some (base s)) = Done b ->
      valid_date (analysis_date s) = true -> valid_date d = true ->
      date_ltb d (analysis_date s) = false ->
      exists t : R,
        _t self d h = Done t /\ 0 <= t /\
        FloatRange.df_on_date self ix d h = FloatRange.discount_factor c (Some t) /\
        FloatRange.rate_on_date self ix d h = FloatRange.zero_rate c t /\
        (forall e : error,
            FloatRange.df_on_date self ix d h = Fail e -> e = MathRangeError) /\
        (forall e : error,
            FloatRange.rate_on_date self ix d h = Fail e ->
            e = MathRangeError \/ e = MathDomainError) /\
        (pillars_within c -> t <= last_year_frac c ->
         exists r : R,
           FloatRange.rate_on_date self ix d h = Done r /\
           FloatRange.df_on_date self ix d h = Done (exp (- r * t)))) /\
  FloatRange.df_on_date 2 "EUR" (mkdate 5024 1 1) steep_heap = Done 0 /\
  FloatRange.rate_on_date 2 "EUR" (mkdate 5024 1 1) steep_heap = Fail MathDomainError.
Proof.
  split; [|split].
  - intros h self s ix c b d Hc Hv Hb Ha Hd Hlt. pose proof Hc as (Hs & _).
    destruct (yearfrac_nonneg (analysis_date s) d b Ha Hd
                (normalize_daycount_base_canonical _ b Hb) Hlt) as (t & Ht & Hpos).
    exists t.
    rewrite (t_run h self s d Hs), (rate_on_date_range_run h self s ix c d Hc),
      (df_on_date_range_run h self s ix c d Hc), Hb, Ht. cbn [of_result].
    split; [reflexivity|]. split; [exact Hpos|]. split; [reflexivity|].
    split; [reflexivity|]. split; [|split].
    + intros e. apply discount_factor_errors, Hv.
    + intros e. apply zero_rate_errors, Hv.
    + intros Hw Hlast. destruct (Rle_lt_dec t 0) as [H0|H0].
      * exists (nth 0 (rates c) 0). assert (t = 0) as -> by lra.
        split; [apply zero_rate_at_nonpositive; [exact Hv|lra]|].
        rewrite Rmult_0_r, exp_0.
        rewrite (discount_factor_of_exponent c 0 0), math_exp_0; [reflexivity|].
        rewrite exp_0. apply discount_factor_nonpositive. lra.
      * destruct (exponent_within c t Hv Hw Hlast) as (y & Hy & Hrange).
        exists (- y / t). split; [apply zero_rate_in_range; assumption|].
        rewrite (discount_factor_of_exponent c t y Hy).
        replace (- (- y / t) * t) with y by (field; lra).
        apply math_exp_in_range. lra.
  - rewrite (df_on_date_range_run _ _ _ _ _ _ steep_curve_at).
    change (normalize_daycount_base (Some (base steep_set))) with (Done BASE_ACT_365).
    cbv iota. rewrite yearfrac_act_365 by reflexivity.
    set (n := (toordinal (mkdate 5024 1 1) - toordinal (analysis_date steep_set))%Z).
    assert (Hn : n = 1095727%Z) by reflexivity. rewrite Hn.
    rewrite (discount_factor_of_exponent _ _ _ (steep_exponent (1095727 / 365) ltac:(lra))).
    apply math_exp_underflow. lra.
  - rewrite (rate_on_date_range_run _ _ _ _ _ _ steep_curve_at).
    change (normalize_daycount_base (Some (base steep_set))) with (Done BASE_ACT_365).
    cbv iota. rewrite yearfrac_act_365 by reflexivity.
    set (n := (toordinal (mkdate 5024 1 1) - toordinal (analysis_date steep_set))%Z).
    assert (Hn : n = 1095727%Z) by reflexivity. rewrite Hn.
    rewrite (zero_rate_of_exponent steep_curve (1095727 / 365) _ ltac:(lra)
               (steep_exponent (1095727 / 365) ltac:(lra))).
    rewrite math_exp_underflow by lra.
    destruct (Rle_dec 0 0) as [_|H0]; [reflexivity|exfalso; apply H0; lra].
Qed.

Lemma X18_witness :
  curve_at eur_heap 2 eur_set "EUR" eur_curve /\
  valid_curve eur_curve /\
  normalize_daycount_base (Some (base eur_set)) = Done BASE_ACT_365 /\
  valid_date (analysis_date eur_set) = true /\ valid_date (mkdate 2024 7 1) = true /\
  date_ltb (mkdate 2024 7 1) (analysis_date eur_set) = false /\
  pillars_within eur_curve /\
  exists t : R,
    _t 2 (mkdate 2024 7 1) eur_heap = Done t /\ 0 <= t /\ t <= last_year_frac eur_curve /\
    exists r : R,
      FloatRange.rate_on_date 2 "EUR" (mkdate 2024 7 1) eur_heap = Done r /\
      FloatRange.df_on_date 2 "EUR" (mkdate 2024 7 1) eur_heap = Done (exp (- r * t)).
Proof.
  assert (Hc : curve_at eur_heap 2 eur_set "EUR" eur_curve).
  { split; [reflexivity|]. exists 3%positive. split; reflexivity. }
  assert (Hv : valid_curve eur_curve).
  { split; [discriminate|]. repeat constructor. }
  assert (Hb : normalize_daycount_base (Some (base eur_set)) = Done BASE_ACT_365)
    by reflexivity.
  assert (Hw : pillars_within eur_curve) by (repeat constructor; cbn; lra).
  split; [exact Hc|]. split; [exact Hv|]. split; [exact Hb|].
  split; [reflexivity|]. split; [reflexivity|]. split; [reflexivity|].
  split; [exact Hw|].
  destruct (proj1 X18_date_queries_within_range eur_heap 2%positive eur_set
              "EUR"%string eur_curve
              BASE_ACT_365 (mkdate 2024 7 1) Hc Hv Hb eq_refl eq_refl eq_refl)
    as (t & Ht & Hpos & _ & _ & _ & _ & Hin).
  exists t. split; [exact Ht|]. split; [exact Hpos|].
  assert (Hlast : t <= last_year_frac eur_curve).
  { rewrite (t_run eur_heap 2 eur_set _ (proj1 Hc)) in Ht.
    change (normalize_daycount_base (Some (base eur_set))) with (Done BASE_ACT_365) in Ht.
    cbv iota in Ht. rewrite yearfrac_act_365 in Ht by reflexivity.
    cbn [of_result] in Ht. injection Ht as <-.
    assert (E : (toordinal (mkdate 2024 7 1) - toordinal (mkdate 2024 1 1))%Z = 182%Z)
      by reflexivity.
    rewrite E. cbn. lra. }
  split; [exact Hlast|]. exact (Hin Hw Hlast).
Defined.

End FloatRangeFacts.

(** * Queries on a shocked set *)

Section ShockedQueries.

Import Outcome DayCount DayCountBase MarketQueries MarketSpec Curves CurveSpec CurveOrder.
Import Scenarios ScenarioSpec.




End ShockedQueries.

(** * Tenors *)

Section TenorValues.

Import Outcome PyInt DateArith Tenors.

Example int_underscore : int " +1_0 " = Done 10.
Proof. reflexivity. Qed.

Example int_negative_zero : int "-007" = Done (-7).
Proof. reflexivity. Qed.

Example int_inner_blank : int "1 2" = Fail (InvalidLiteral "1 2").
Proof. reflexivity. Qed.

Example int_separator_is_no_blank :
  isspace "028"%char = true /\ int (String "028"%char "1") = Fail (InvalidLiteral (String "028"%char "1")).
Proof. split; reflexivity. Qed.

Example fromordinal_2024 : fromordinal 738886 = mkdate 2024 1 1.
Proof. reflexivity. Qed.

Example fromordinal_max : fromordinal _MAXORDINAL = mkdate 9999 12 31.
Proof. reflexivity. Qed.

Example add_tenor_month_end :
  add_tenor (mkdate 2024 1 31) "1m" = Done (mkdate 2024 2 29).
Proof. reflexivity. Qed.

Example add_tenor_two_days :
  add_tenor (mkdate 2024 1 31) "2D" = Fail (UnsupportedTenor "2D").
Proof. reflexivity. Qed.

Example add_tenor_18_months :
  add_tenor (mkdate 2024 8 31) "18M" = Done (mkdate 2026 2 28).
Proof. reflexivity. Qed.

Example add_tenor_backwards :
  add_tenor (mkdate 2024 3 31) "-1M" = Done (mkdate 2024 2 29).
Proof. reflexivity. Qed.

End TenorValues.

Section OrdinalFacts.

Import Outcome DateArith.

(** The days before a year, counted in cycles of 400, 100, 4 and 1 years. *)
Lemma days_before_year_cycles (a b c e : Z) :
  0 <= a -> 0 <= b <= 3 -> 0 <= c <= 24 -> 0 <= e <= 3 ->
  _days_before_year (400 * a + 100 * b + 4 * c + e + 1)
  = 146097 * a + 36524 * b + 1461 * c + 365 * e.
Proof.
  intros Ha Hb Hc He. unfold _days_before_year.
  replace (400 * a + 100 * b + 4 * c + e + 1 - 1) with (400 * a + 100 * b + 4 * c + e) by lia.
  cbv zeta.
  assert (H4 : (400 * a + 100 * b + 4 * c + e) / 4 = 100 * a + 25 * b + c)
    by (symmetry; apply (Z.div_unique _ 4 _ e); lia).
  assert (H100 : (400 * a + 100 * b + 4 * c + e) / 100 = 4 * a + b)
    by (symmetry; apply (Z.div_unique _ 100 _ (4 * c + e)); lia).
  assert (H400 : (400 * a + 100 * b + 4 * c + e) / 400 = a)
    by (symmetry; apply (Z.div_unique _ 400 _ (100 * b + 4 * c + e)); lia).
  rewrite H4, H100, H400. lia.
Qed.

Lemma is_leap_cycles (a b c e : Z) :
  0 <= a -> 0 <= b <= 3 -> 0 <= c <= 24 -> 0 <= e <= 3 ->
  _is_leap (400 * a + 100 * b + 4 * c + e + 1)
  = (e =? 3) && (negb (c =? 24) || (b =? 3)).
Proof.
  intros Ha Hb Hc He. unfold _is_leap.
  assert (H4 : (400 * a + 100 * b + 4 * c + e + 1) mod 4 = (e + 1) mod 4).
  { replace (400 * a + 100 * b + 4 * c + e + 1)
      with (e + 1 + (100 * a + 25 * b + c) * 4) by lia.
    apply Z.mod_add. lia. }
  assert (H100 : (400 * a + 100 * b + 4 * c + e + 1) mod 100 = (4 * c + e + 1) mod 100).
  { replace (400 * a + 100 * b + 4 * c + e + 1)
      with (4 * c + e + 1 + (4 * a + b) * 100) by lia.
    apply Z.mod_add. lia. }
  assert (H400 : (400 * a + 100 * b + 4 * c + e + 1) mod 400
                 = (100 * b + 4 * c + e + 1) mod 400).
  { replace (400 * a + 100 * b + 4 * c + e + 1)
      with (100 * b + 4 * c + e + 1 + a * 400) by lia.
    apply Z.mod_add. lia. }
  rewrite H4, H100, H400.
  destruct (Z.eqb_spec e 3) as [E3|E3].
  - subst e. change ((3 + 1) mod 4) with 0. cbn [Z.eqb andb].
    destruct (Z.eqb_spec c 24) as [E24|E24].
    + subst c. change ((4 * 24 + 3 + 1) mod 100) with 0. cbn [Z.eqb negb orb].
      destruct (Z.eqb_spec b 3) as [Eb|Eb].
      * subst b. reflexivity.
      * assert (Hn : (100 * b + 4 * 24 + 3 + 1) mod 400 <> 0)
          by (Z.div_mod_to_equations; lia).
        apply Z.eqb_neq in Hn. rewrite Hn. reflexivity.
    + assert (Hn : (4 * c + 3 + 1) mod 100 <> 0) by (Z.div_mod_to_equations; lia).
      apply Z.eqb_neq in Hn. rewrite Hn. reflexivity.
  - assert (Hn : (e + 1) mod 4 <> 0) by (Z.div_mod_to_equations; lia).
    apply Z.eqb_neq in Hn. rewrite Hn. reflexivity.
Qed.

(** The month and the day that [_ord2ymd] finds for the day [n] of a year
    ([n] counted from 0): the date is a date of the year, and it is day
    [n]. *)
Lemma month_of_year_day (y n : Z) (leapyear : bool) :
  leapyear = _is_leap y ->
  0 <= n < (if leapyear then 366 else 365) ->
  let m := Z.shiftr (n + 50) 5 in
  let preceding :=
    nth (Z.to_nat m) _DAYS_BEFORE_MONTH 0
    + (if (2 <? m) && leapyear then 1 else 0) in
  let d :=
    if n <? preceding then
      let m := m - 1 in
      let preceding :=
        preceding - (nth (Z.to_nat m) _DAYS_IN_MONTH 0
                     + (if (m =? 2) && leapyear then 1 else 0)) in
      mkdate y m (n - preceding + 1)
    else mkdate y m (n - preceding + 1) in
  year d = y /\ 1 <= month d <= 12 /\
  1 <= day d <= _days_in_month y (month d) /\
  _days_before_month y (month d) + day d = n + 1.
Proof.
  intros HL Hn. cbv zeta. rewrite Z.shiftr_div_pow2 by lia.
  change (2 ^ 5) with 32.
  assert (Hq : 32 * ((n + 50) / 32) <= n + 50 < 32 * ((n + 50) / 32) + 32)
    by (Z.div_mod_to_equations; lia).
  set (m := (n + 50) / 32) in *.
  assert (Hm : m = 1 \/ m = 2 \/ m = 3 \/ m = 4 \/ m = 5 \/ m = 6 \/ m = 7 \/
               m = 8 \/ m = 9 \/ m = 10 \/ m = 11 \/ m = 12)
    by (destruct leapyear; lia).
  clearbody m. unfold _days_in_month, _days_before_month. rewrite <- HL.
  repeat (destruct Hm as [Hm|Hm]; [subst m|]); try subst m;
    destruct leapyear; simpl;
    match goal with
    | |- context [n <? ?p] => destruct (Z.ltb_spec n p)
    end;
    simpl; lia.
Qed.

(** [_ord2ymd] inverts [_ymd2ord] on the ordinals of [date.min] to
    [date.max], and returns dates. *)
Lemma ord2ymd_spec (n : Z) :
  1 <= n <= _MAXORDINAL ->
  valid_date (_ord2ymd n) = true /\ toordinal (_ord2ymd n) = n.
Proof.
  unfold _MAXORDINAL. intros Hn. unfold _ord2ymd, _DI400Y, _DI100Y, _DI4Y. cbv zeta.
  pose proof (Z.div_mod (n - 1) 146097 ltac:(lia)) as E400.
  pose proof (Z.mod_pos_bound (n - 1) 146097 ltac:(lia)) as B400.
  set (a := (n - 1) / 146097) in *. set (r400 := (n - 1) mod 146097) in *.
  pose proof (Z.div_mod r400 36524 ltac:(lia)) as E100.
  pose proof (Z.mod_pos_bound r400 36524 ltac:(lia)) as B100.
  set (b := r400 / 36524) in *. set (r100 := r400 mod 36524) in *.
  pose proof (Z.div_mod r100 1461 ltac:(lia)) as E4.
  pose proof (Z.mod_pos_bound r100 1461 ltac:(lia)) as B4.
  set (c := r100 / 1461) in *. set (r4 := r100 mod 1461) in *.
  pose proof (Z.div_mod r4 365 ltac:(lia)) as E1.
  pose proof (Z.mod_pos_bound r4 365 ltac:(lia)) as B1.
  set (e := r4 / 365) in *. set (r1 := r4 mod 365) in *.
  clearbody a r400 b r100 c r4 e r1.
  assert (Ha : 0 <= a) by lia.
  assert (Hb : 0 <= b <= 4) by lia.
  assert (Hc : 0 <= c <= 24) by lia.
  assert (He : 0 <= e <= 4) by lia.
  assert (Hvalid : forall y : Z, 1 <= y <= 9999 -> _is_leap y = true ->
            _days_before_year y + 366 = n ->
            valid_date (mkdate y 12 31) = true /\ toordinal (mkdate y 12 31) = n).
  { intros y Hy Hleap Hdby. split.
    - unfold valid_date, MINYEAR, MAXYEAR. cbn [year month day].
      destruct (Z.leb_spec 1 y); [|lia]. destruct (Z.leb_spec y 9999); [|lia].
      reflexivity.
    - unfold toordinal, _ymd2ord, _days_before_month. cbn [year month day].
      rewrite Hleap. simpl. lia. }
  destruct (Z.eqb_spec e 4) as [Ee|Ee].
  - cbn [orb]. subst e.
    assert (Hb3 : b <= 3) by lia. assert (Hc3 : c <= 23) by lia.
    replace (a * 400 + 1 + (b * 100 + c * 4 + 4) - 1)
      with (400 * a + 100 * b + 4 * c + 3 + 1) by lia.
    apply Hvalid.
    + pose proof (days_before_year_cycles a b c 3 Ha ltac:(lia) ltac:(lia) ltac:(lia)).
      lia.
    + rewrite is_leap_cycles by lia.
      destruct (Z.eqb_spec c 24); [lia|]. reflexivity.
    + rewrite days_before_year_cycles by lia. lia.
  - destruct (Z.eqb_spec b 4) as [Eb|Eb].
    + cbn [orb]. subst b.
      assert (r100 = 0) by lia. assert (c = 0) by lia. assert (e = 0) by lia. subst.
      replace (a * 400 + 1 + (4 * 100 + 0 * 4 + 0) - 1)
        with (400 * a + 100 * 3 + 4 * 24 + 3 + 1) by lia.
      apply Hvalid.
      * pose proof (days_before_year_cycles a 3 24 3 Ha ltac:(lia) ltac:(lia) ltac:(lia)).
        lia.
      * rewrite is_leap_cycles by lia. reflexivity.
      * rewrite days_before_year_cycles by lia. lia.
    + cbn [orb].
      assert (Hb3 : 0 <= b <= 3) by lia. assert (He3 : 0 <= e <= 3) by lia.
      replace (a * 400 + 1 + (b * 100 + c * 4 + e))
        with (400 * a + 100 * b + 4 * c + e + 1) by lia.
      set (y := 400 * a + 100 * b + 4 * c + e + 1).
      set (leapyear := (e =? 3) && (negb (c =? 24) || (b =? 3))).
      assert (HL : leapyear = _is_leap y)
        by (unfold leapyear, y; symmetry; apply is_leap_cycles; lia).
      assert (Hdby : _days_before_year y = n - 1 - r1)
        by (unfold y; rewrite days_before_year_cycles by lia; lia).
      assert (Hy : 1 <= y <= 9999) by (unfold y; lia).
      assert (Hr1 : 0 <= r1 < (if leapyear then 366 else 365))
        by (destruct leapyear; lia).
      pose proof (month_of_year_day y r1 leapyear HL Hr1) as Hmd. cbv zeta in Hmd.
      match type of Hmd with year ?d = _ /\ _ => set (dd := d) in * end.
      clearbody dd. destruct dd as [yy mm dy]. cbn [year month day] in Hmd.
      destruct Hmd as (-> & Hmm & Hdy & Hord). split.
      * unfold valid_date, MINYEAR, MAXYEAR. cbn [year month day].
        repeat match goal with
          | |- context [?x <=? ?z] => destruct (Z.leb_spec x z); [|lia]
          end.
        reflexivity.
      * unfold toordinal, _ymd2ord. cbn [year month day]. lia.
Qed.

(** [date.fromordinal(d.toordinal()) == d] *)
Lemma fromordinal_toordinal (d : date) :
  valid_date d = true -> fromordinal (toordinal d) = d.
Proof.
  intros Hv.
  assert (Hrange : 1 <= toordinal d <= _MAXORDINAL).
  { pose proof (toordinal_within_year d Hv) as W.
    destruct (valid_date_inv d Hv) as (Hy & _).
    pose proof (jan1_ordinal_mono 1 (year d) ltac:(lia)).
    pose proof (jan1_ordinal_mono (year d + 1) 10000 ltac:(lia)).
    change (DayCount.jan1_ordinal 1) with 1 in *.
    change (DayCount.jan1_ordinal 10000) with 3652060 in *.
    unfold _MAXORDINAL. lia. }
  destruct (ord2ymd_spec (toordinal d) Hrange) as [Hv' Ho].
  apply toordinal_inj; assumption.
Qed.

End OrdinalFacts.

Section DateArithFacts.

Import Outcome DateArith TenorSpec.

Lemma toordinal_range (d : date) :
  valid_date d = true -> 1 <= toordinal d <= _MAXORDINAL.
Proof.
  intros Hv. pose proof (toordinal_within_year d Hv) as W.
  destruct (valid_date_inv d Hv) as (Hy & _).
  pose proof (jan1_ordinal_mono 1 (year d) ltac:(lia)).
  pose proof (jan1_ordinal_mono (year d + 1) 10000 ltac:(lia)).
  change (DayCount.jan1_ordinal 1) with 1 in *.
  change (DayCount.jan1_ordinal 10000) with 3652060 in *.
  unfold _MAXORDINAL. lia.
Qed.

(** [d + timedelta(days=k)]: the date [k] days on, when there is one. *)
Lemma date_add_days_spec (d : date) (k : Z) :
  valid_date d = true ->
  (1 <= toordinal d + k <= _MAXORDINAL ->
   exists r : date, date_add_days d k = Done r /\ valid_date r = true /\
                    toordinal r = toordinal d + k) /\
  (~ 1 <= toordinal d + k <= _MAXORDINAL -> date_add_days d k = Fail DateRange).
Proof.
  intros Hv. pose proof (toordinal_range d Hv) as Hr. unfold _MAXORDINAL in *.
  unfold date_add_days, _MAXORDINAL. split.
  - intros Hin. destruct (Z.ltb_spec 999999999 (Z.abs k)); [lia|].
    destruct (Z.ltb_spec 0 (toordinal d + k)); [|lia].
    destruct (Z.leb_spec (toordinal d + k) 3652059); [|lia]. cbn [andb].
    destruct (ord2ymd_spec (toordinal d + k) Hin) as [Hv' Ho].
    exists (fromordinal (toordinal d + k)). auto.
  - intros Hout. destruct (Z.ltb_spec 999999999 (Z.abs k)); [reflexivity|].
    destruct (Z.ltb_spec 0 (toordinal d + k)); [|reflexivity].
    destruct (Z.leb_spec (toordinal d + k) 3652059); [lia|reflexivity].
Qed.

Lemma classic_range (o : Z) :
  1 <= o <= _MAXORDINAL \/ ~ 1 <= o <= _MAXORDINAL.
Proof. unfold _MAXORDINAL. lia. Qed.

Lemma date_add_days_0 (d : date) : valid_date d = true -> date_add_days d 0 = Done d.
Proof.
  intros Hv. pose proof (toordinal_range d Hv) as Hr. unfold _MAXORDINAL in *.
  unfold date_add_days, _MAXORDINAL. cbn [Z.abs Z.ltb Z.compare].
  rewrite Z.add_0_r.
  destruct (Z.ltb_spec 0 (toordinal d)); [|lia].
  destruct (Z.leb_spec (toordinal d) 3652059); [|lia]. cbn [andb].
  rewrite fromordinal_toordinal by exact Hv. reflexivity.
Qed.

Lemma monthrange_ndays_eq (y m : Z) :
  1 <= m <= 12 -> monthrange_ndays y m = Done (_days_in_month y m).
Proof.
  intros Hm. unfold monthrange_ndays, _days_in_month.
  destruct (Z.leb_spec 1 m); [|lia]. destruct (Z.leb_spec m 12); [|lia]. cbn [andb].
  assert (Hc : m = 1 \/ m = 2 \/ m = 3 \/ m = 4 \/ m = 5 \/ m = 6 \/ m = 7 \/
               m = 8 \/ m = 9 \/ m = 10 \/ m = 11 \/ m = 12) by lia.
  repeat (destruct Hc as [Hc|Hc]; [subst m|]); try subst m;
    simpl; destruct (_is_leap y); reflexivity.
Qed.

Lemma days_in_month_pos (y m : Z) : 28 <= _days_in_month y m.
Proof.
  unfold _days_in_month. repeat destruct (_ =? _); cbn; try destruct (_is_leap _); lia.
Qed.

(** The date with the day of [d], or the last day of the month when the
    month is too short, in month [m] of year [y]. *)
Lemma clipped_date_valid (d : date) (y m : Z) :
  valid_date d = true -> 1 <= y <= 9999 -> 1 <= m <= 12 ->
  valid_date (mkdate y m (Z.min (_days_in_month y m) (day d))) = true.
Proof.
  intros Hv Hy Hm. destruct (valid_date_inv d Hv) as (_ & _ & Hd).
  pose proof (days_in_month_pos y m).
  unfold valid_date, MINYEAR, MAXYEAR. cbn [year month day].
  repeat match goal with
    | |- context [?x <=? ?z] => destruct (Z.leb_spec x z); [|lia]
    end.
  reflexivity.
Qed.

(** [d + relativedelta(...)] when no months are added: the year moves and
    the day is clipped, then the days are added. *)
Lemma relativedelta_radd_years (d : date) (n k : Z) :
  valid_date d = true ->
  relativedelta_radd (mkrelativedelta n 0 k) d
  = if (1 <=? year d + n) && (year d + n <=? 9999)
    then date_add_days
           (mkdate (year d + n) (month d)
              (Z.min (_days_in_month (year d + n) (month d)) (day d))) k
    else Fail DateRange.
Proof.
  intros Hv. destruct (valid_date_inv d Hv) as (Hy & Hm & Hd).
  unfold relativedelta_radd. cbn [years months days Z.eqb].
  rewrite monthrange_ndays_eq by exact Hm. cbn [obind].
  unfold date_replace.
  destruct (Z.leb_spec 1 (year d + n)); cbn [andb].
  - destruct (Z.leb_spec (year d + n) 9999).
    + rewrite clipped_date_valid by (assumption || lia). reflexivity.
    + unfold valid_date, MINYEAR, MAXYEAR. cbn [year month day].
      destruct (Z.leb_spec (year d + n) 9999); [lia|].
      rewrite Bool.andb_false_r. reflexivity.
  - unfold valid_date, MINYEAR, MAXYEAR. cbn [year month day].
    destruct (Z.leb_spec 1 (year d + n)); [lia|]. reflexivity.
Qed.

Lemma relativedelta_radd_days (d : date) (k : Z) :
  valid_date d = true ->
  relativedelta_radd (mkrelativedelta 0 0 k) d = date_add_days d k.
Proof.
  intros Hv. destruct (valid_date_inv d Hv) as (Hy & Hm & Hd).
  rewrite relativedelta_radd_years by exact Hv. rewrite Z.add_0_r.
  destruct (Z.leb_spec 1 (year d)); [|lia].
  destruct (Z.leb_spec (year d) 9999); [|lia]. cbn [andb].
  rewrite Z.min_r by lia. destruct d; reflexivity.
Qed.

(** [d + relativedelta(years=yrs, months=m0)] for normalised months: the
    month index moves by [12 * yrs + m0] and the day is clipped. *)
Lemma relativedelta_radd_months (d : date) (yrs m0 : Z) :
  valid_date d = true -> -11 <= m0 <= 11 ->
  relativedelta_radd (mkrelativedelta yrs m0 0) d
  = let i := month_index d + (12 * yrs + m0) in
    if (1 <=? i / 12) && (i / 12 <=? 9999)
    then Done (mkdate (i / 12) (i mod 12 + 1)
                 (Z.min (_days_in_month (i / 12) (i mod 12 + 1)) (day d)))
    else Fail DateRange.
Proof.
  intros Hv Hm0. destruct (valid_date_inv d Hv) as (Hy & Hm & Hd).
  cbv zeta. unfold month_index.
  set (i := 12 * year d + (month d - 1) + (12 * yrs + m0)).
  assert (Hcore : forall y m : Z,
             y = i / 12 -> m = i mod 12 + 1 ->
             (ndays <- monthrange_ndays y m ;;
              replaced <- date_replace d y m (Z.min ndays (day d)) ;;
              date_add_days replaced 0)%outcome
             = if (1 <=? i / 12) && (i / 12 <=? 9999)
               then Done (mkdate (i / 12) (i mod 12 + 1)
                            (Z.min (_days_in_month (i / 12) (i mod 12 + 1)) (day d)))
               else Fail DateRange).
  { intros y m -> ->.
    assert (Hmm : 1 <= i mod 12 + 1 <= 12) by (Z.div_mod_to_equations; lia).
    rewrite monthrange_ndays_eq by exact Hmm. cbn [obind]. unfold date_replace.
    destruct (Z.leb_spec 1 (i / 12)); cbn [andb].
    - destruct (Z.leb_spec (i / 12) 9999).
      + rewrite clipped_date_valid by (assumption || lia). cbn [obind].
        apply date_add_days_0, clipped_date_valid; (assumption || lia).
      + unfold valid_date, MINYEAR, MAXYEAR. cbn [year month day].
        destruct (Z.leb_spec (i / 12) 9999); [lia|].
        rewrite Bool.andb_false_r. reflexivity.
    - unfold valid_date, MINYEAR, MAXYEAR. cbn [year month day].
      destruct (Z.leb_spec 1 (i / 12)); [lia|]. reflexivity. }
  unfold relativedelta_radd. cbn [years months days].
  destruct (Z.eqb_spec m0 0) as [E0|E0].
  - apply Hcore; unfold i; Z.div_mod_to_equations; lia.
  - destruct (Z.ltb_spec 12 (month d + m0)).
    + apply Hcore; unfold i; Z.div_mod_to_equations; lia.
    + destruct (Z.ltb_spec (month d + m0) 1);
        apply Hcore; unfold i; Z.div_mod_to_equations; lia.
Qed.

Lemma float_limit_large : 1000000 <= 2 ^ 1024 - 2 ^ 970.
Proof. intros H. vm_compute in H. discriminate. Qed.

(** [d + relativedelta(months=n)]: the month index moves by [n] and the day
    is clipped to the length of the month. *)
Lemma add_months (d : date) (n : Z) :
  valid_date d = true ->
  (rd <- new_relativedelta 0 n 0 0 ;; relativedelta_radd rd d)%outcome
  = let i := month_index d + n in
    if (1 <=? i / 12) && (i / 12 <=? 9999)
    then Done (mkdate (i / 12) (i mod 12 + 1)
                 (Z.min (_days_in_month (i / 12) (i mod 12 + 1)) (day d)))
    else Fail DateRange.
Proof.
  intros Hv. destruct (valid_date_inv d Hv) as (Hy & Hm & Hd).
  unfold new_relativedelta. cbn [Z.add Z.mul].
  destruct (Z.ltb_spec 11 (Z.abs n)) as [Hbig|Hsmall].
  - unfold _sign. pose proof float_limit_large as Hlim.
    destruct (Z.leb_spec (2 ^ 1024 - 2 ^ 970) (Z.abs n)) as [Hover|Hfit].
    + cbn [obind]. cbv zeta. unfold month_index.
      destruct (Z.leb_spec 1 ((12 * year d + (month d - 1) + n) / 12)); cbn [andb];
        [|reflexivity].
      destruct (Z.leb_spec ((12 * year d + (month d - 1) + n) / 12) 9999);
        [|reflexivity].
      exfalso. Z.div_mod_to_equations. lia.
    + cbn [obind].
      set (s := if n <? 0 then -1 else 1).
      assert (Hs : (s = 1 /\ 0 < n) \/ (s = -1 /\ n < 0))
        by (unfold s; destruct (Z.ltb_spec n 0); lia).
      rewrite relativedelta_radd_months;
        [|exact Hv|destruct Hs as [[-> ?]|[-> ?]]; Z.div_mod_to_equations; lia].
      replace (12 * (0 + n * s / 12 * s) + n * s mod 12 * s) with n; [reflexivity|].
      destruct Hs as [[-> ?]|[-> ?]]; Z.div_mod_to_equations; lia.
  - cbn [obind]. rewrite relativedelta_radd_months by (assumption || lia).
    replace (12 * 0 + n) with n by lia. reflexivity.
Qed.

End DateArithFacts.

Section TenorFacts.

Import Outcome PyInt DateArith Tenors TenorSpec.

Lemma append_nil_l (s : string) : (EmptyString ++ s)%string = s.
Proof. reflexivity. Qed.

Lemma append_cons (c : ascii) (p s : string) :
  (String c p ++ s)%string = String c (p ++ s).
Proof. reflexivity. Qed.

Lemma endswith_app (p u : string) : endswith (p ++ u) u = true.
Proof.
  induction p as [|c p IH]; rewrite ?append_nil_l, ?append_cons; cbn [endswith].
  - destruct u as [|a u]; [reflexivity|].
    change (endswith (String a u) (String a u))
      with (String.eqb (String a u) (String a u) || endswith u (String a u)).
    rewrite String.eqb_refl. reflexivity.
  - rewrite IH. apply Bool.orb_true_r.
Qed.

Lemma endswith_char_inv (t : string) (c : ascii) :
  endswith t (String c EmptyString) = true ->
  exists p : string, t = (p ++ String c EmptyString)%string.
Proof.
  induction t as [|x t IH]; cbn [endswith]; [discriminate|].
  destruct (String.eqb_spec (String x t) (String c EmptyString)) as [E|E].
  - intros _. exists EmptyString. exact E.
  - cbn [orb]. intros H. destruct (IH H) as [p ->]. exists (String x p).
    rewrite append_cons. reflexivity.
Qed.

Lemma endswith_char_eq (p : string) (c c' : ascii) :
  endswith (p ++ String c EmptyString) (String c' EmptyString) = true -> c = c'.
Proof.
  induction p as [|x p IH]; rewrite ?append_nil_l, ?append_cons; cbn [endswith].
  - rewrite Bool.orb_false_r.
    destruct (String.eqb_spec (String c EmptyString) (String c' EmptyString)) as [E|E];
      [injection E; auto|discriminate].
  - destruct (String.eqb_spec (String x (p ++ String c EmptyString)) (String c' EmptyString))
      as [E|E]; [|exact IH].
    injection E as _ E. destruct p; discriminate E.
Qed.

Lemma drop_last_app (p : string) (c : ascii) :
  drop_last (p ++ String c EmptyString) = p.
Proof.
  induction p as [|x p IH]; [reflexivity|]. rewrite append_cons. cbn [drop_last].
  rewrite IH. destruct p; reflexivity.
Qed.

(** A text that ends in a unit letter is none of the overnight names. *)
Lemma unit_text_not_overnight (p : string) (c : ascii) :
  In c ["W"; "M"; "Y"]%char ->
  existsb (String.eqb (p ++ String c EmptyString)) ["ON"; "O/N"; "1D"]%string = false.
Proof.
  intros Hc.
  assert (Hne : forall lit : string,
             In lit ["ON"; "O/N"; "1D"]%string ->
             String.eqb (p ++ String c EmptyString) lit = false).
  { intros lit Hlit. apply String.eqb_neq. intros E.
    pose proof (endswith_app p (String c EmptyString)) as He. rewrite E in He.
    cbn in Hlit, Hc.
    destruct Hlit as [<-|[<-|[<-|[]]]]; destruct Hc as [<-|[<-|[<-|[]]]];
      discriminate He. }
  cbn [existsb]. rewrite !Hne by (cbn; auto). reflexivity.
Qed.

(** The dispatch of [add_tenor], with the date arithmetic worked out. *)
Lemma add_tenor_overnight (d : date) (tenor : string) :
  valid_date d = true ->
  existsb (String.eqb (tenor_text tenor)) ["ON"; "O/N"; "1D"]%string = true ->
  add_tenor d tenor = date_add_days d 1.
Proof.
  intros Hv Ht. unfold add_tenor. fold (tenor_text tenor). rewrite Ht.
  change (new_relativedelta 0 0 1 0) with (Done (mkrelativedelta 0 0 1)). cbn [obind].
  apply relativedelta_radd_days, Hv.
Qed.

Lemma add_tenor_unit (d : date) (tenor p : string) (c : ascii) :
  In c ["W"; "M"; "Y"]%char ->
  tenor_text tenor = (p ++ String c EmptyString)%string ->
  add_tenor d tenor
  = (n <- int p ;;
     rd <- (if Ascii.eqb c "W" then new_relativedelta 0 0 0 n
            else if Ascii.eqb c "M" then new_relativedelta 0 n 0 0
            else new_relativedelta n 0 0 0) ;;
     relativedelta_radd rd d)%outcome.
Proof.
  intros Hc Ht. unfold add_tenor. fold (tenor_text tenor). rewrite Ht.
  rewrite unit_text_not_overnight by exact Hc. rewrite drop_last_app.
  assert (Hends : forall c' : ascii,
             endswith (p ++ String c EmptyString) (String c' EmptyString)
             = Ascii.eqb c c').
  { intros c'. destruct (Ascii.eqb_spec c c') as [<-|Hne]; [apply endswith_app|].
    destruct (endswith _ _) eqn:E; [|reflexivity].
    apply endswith_char_eq in E. contradiction. }
  rewrite !Hends. cbn in Hc. destruct Hc as [<-|[<-|[<-|[]]]]; reflexivity.
Qed.

Lemma add_tenor_weeks (d : date) (tenor p : string) (n : Z) :
  valid_date d = true ->
  tenor_text tenor = (p ++ "W")%string -> int p = Done n ->
  add_tenor d tenor = date_add_days d (7 * n).
Proof.
  intros Hv Ht Hn. rewrite (add_tenor_unit d tenor p "W") by (cbn; auto).
  rewrite Hn. cbn [obind Ascii.eqb Bool.eqb]. unfold new_relativedelta.
  cbv zeta. change (11 <? Z.abs 0) with false. cbv iota. cbn [obind].
  rewrite relativedelta_radd_days by exact Hv.
  f_equal. lia.
Qed.

Lemma add_tenor_months (d : date) (tenor p : string) (n : Z) :
  valid_date d = true ->
  tenor_text tenor = (p ++ "M")%string -> int p = Done n ->
  add_tenor d tenor
  = let i := month_index d + n in
    if (1 <=? i / 12) && (i / 12 <=? 9999)
    then Done (mkdate (i / 12) (i mod 12 + 1)
                 (Z.min (_days_in_month (i / 12) (i mod 12 + 1)) (day d)))
    else Fail DateRange.
Proof.
  intros Hv Ht Hn. rewrite (add_tenor_unit d tenor p "M") by (cbn; auto).
  rewrite Hn. cbn [obind Ascii.eqb Bool.eqb]. apply add_months, Hv.
Qed.

Lemma add_tenor_years (d : date) (tenor p : string) (n : Z) :
  valid_date d = true ->
  tenor_text tenor = (p ++ "Y")%string -> int p = Done n ->
  add_tenor d tenor
  = if (1 <=? year d + n) && (year d + n <=? 9999)
    then Done (mkdate (year d + n) (month d)
                 (Z.min (_days_in_month (year d + n) (month d)) (day d)))
    else Fail DateRange.
Proof.
  intros Hv Ht Hn. rewrite (add_tenor_unit d tenor p "Y") by (cbn; auto).
  rewrite Hn. cbn [obind Ascii.eqb Bool.eqb]. unfold new_relativedelta.
  cbv zeta. change (11 <? Z.abs 0) with false. cbv iota. cbn [obind].
  change (0 + 0 * 7) with 0.
  rewrite relativedelta_radd_years by exact Hv.
  destruct (valid_date_inv d Hv) as (Hy & Hm & Hd).
  destruct (Z.leb_spec 1 (year d + n)); cbn [andb]; [|reflexivity].
  destruct (Z.leb_spec (year d + n) 9999); [|reflexivity].
  apply date_add_days_0, clipped_date_valid; (assumption || lia).
Qed.

Lemma add_tenor_unsupported (d : date) (tenor : string) :
  existsb (String.eqb (tenor_text tenor)) ["ON"; "O/N"; "1D"]%string = false ->
  endswith (tenor_text tenor) "W" = false ->
  endswith (tenor_text tenor) "M" = false ->
  endswith (tenor_text tenor) "Y" = false ->
  add_tenor d tenor = Fail (UnsupportedTenor tenor).
Proof.
  intros H0 H1 H2 H3. unfold add_tenor. fold (tenor_text tenor).
  rewrite H0, H1, H2, H3. reflexivity.
Qed.

(** The three ways of a tenor text. *)
Lemma tenor_text_cases (t : string) :
  existsb (String.eqb t) ["ON"; "O/N"; "1D"]%string = true \/
  (exists (p : string) (c : ascii),
      In c ["W"; "M"; "Y"]%char /\ t = (p ++ String c EmptyString)%string) \/
  (existsb (String.eqb t) ["ON"; "O/N"; "1D"]%string = false /\
   endswith t "W" = false /\ endswith t "M" = false /\ endswith t "Y" = false).
Proof.
  destruct (existsb (String.eqb t) ["ON"; "O/N"; "1D"]%string) eqn:E0; [left; reflexivity|].
  right.
  destruct (endswith t "W") eqn:E1.
  { left. destruct (endswith_char_inv t "W" E1) as [p ->]. exists p, "W"%char. cbn. auto. }
  destruct (endswith t "M") eqn:E2.
  { left. destruct (endswith_char_inv t "M" E2) as [p ->]. exists p, "M"%char. cbn. auto. }
  destruct (endswith t "Y") eqn:E3.
  { left. destruct (endswith_char_inv t "Y" E3) as [p ->]. exists p, "Y"%char. cbn. auto. }
  right. auto.
Qed.

Lemma existsb_eqb_In (t : string) (l : list string) :
  existsb (String.eqb t) l = true <-> In t l.
Proof.
  rewrite List.existsb_exists. split.
  - intros (x & Hx & E). apply String.eqb_eq in E. subst. exact Hx.
  - intros H. exists t. split; [exact H|apply String.eqb_refl].
Qed.

(** ** Signs *)

Lemma is_digit_value (c : ascii) : is_digit c = true -> 0 <= digit_value c <= 9.
Proof.
  unfold is_digit, digit_value. rewrite Bool.andb_true_iff, !Nat.leb_le. lia.
Qed.

Lemma scan_digits_nonneg (s : string) :
  forall (pu : bool) (v : Z) (k : nat) (v' : Z) (k' : nat) (rest : string),
    scan_digits s pu v k = Some (v', k', rest) -> 0 <= v -> 0 <= v'.
Proof.
  induction s as [|c s IH]; intros pu v k v' k' rest; cbn [scan_digits].
  - destruct pu; [discriminate|]. intros [= <- _ _]. auto.
  - destruct (is_digit c) eqn:Ed.
    + intros H Hv. apply (IH _ _ _ _ _ _ H). pose proof (is_digit_value c Ed). lia.
    + destruct (Ascii.eqb c "_").
      * destruct pu; [discriminate|]. intros H Hv. exact (IH _ _ _ _ _ _ H Hv).
      * destruct pu; [discriminate|]. intros [= <- _ _]. auto.
Qed.

Lemma skip_blanks_In (c : ascii) (s : string) :
  In c (list_ascii_of_string (skip_blanks s)) -> In c (list_ascii_of_string s).
Proof.
  induction s as [|x s IH]; [auto|]. cbn [skip_blanks].
  destruct (int_isspace x); [|auto]. intros H. right. apply IH, H.
Qed.

(** A literal without a minus sign is not negative. *)
Lemma int_nonneg (s : string) (n : Z) :
  int s = Done n -> ~ In "-"%char (list_ascii_of_string s) -> 0 <= n.
Proof.
  unfold int. intros H Hminus.
  assert (Hs1 : ~ In "-"%char (list_ascii_of_string (skip_blanks s))).
  { intros Hin. apply Hminus, skip_blanks_In, Hin. }
  assert (Hscan : forall s2 : string,
             match s2 with
             | String "_" _ => Fail (InvalidLiteral s)
             | _ =>
                 match scan_digits s2 false 0 0 with
                 | None => Fail (InvalidLiteral s)
                 | Some (value, digits, rest) =>
                     if (digits =? 0)%nat || (max_str_digits <? digits)%nat
                        || negb (all_blank rest)
                     then Fail (InvalidLiteral s)
                     else Done value
                 end
             end = Done n -> 0 <= n).
  { intros s2 H2.
    assert (H3 : match scan_digits s2 false 0 0 with
                 | None => Fail (InvalidLiteral s)
                 | Some (value, digits, rest) =>
                     if (digits =? 0)%nat || (max_str_digits <? digits)%nat
                        || negb (all_blank rest)
                     then Fail (InvalidLiteral s)
                     else Done value
                 end = Done n).
    { destruct s2 as [|a r]; [exact H2|].
      destruct a as [[] [] [] [] [] [] [] []]; first [exact H2|discriminate H2]. }
    destruct (scan_digits s2 false 0 0) as [[[v k] rest]|] eqn:Es; [|discriminate].
    destruct (_ || _); [discriminate|]. injection H3 as <-.
    apply (scan_digits_nonneg s2 false 0 0 v k rest Es). lia. }
  destruct (skip_blanks s) as [|a r] eqn:E1.
  - apply (Hscan EmptyString). exact H.
  - destruct (Ascii.eqb_spec a "-") as [->|Hne].
    + exfalso. apply Hs1. left. reflexivity.
    + destruct (Ascii.eqb_spec a "+") as [->|Hne'].
      * apply (Hscan r). exact H.
      * apply (Hscan (String a r)).
        destruct a as [[] [] [] [] [] [] [] []];
          first [exact H|exfalso; apply Hne; reflexivity|exfalso; apply Hne'; reflexivity].
Qed.

Lemma lstrip_In (c : ascii) (s : string) :
  In c (list_ascii_of_string (lstrip s)) -> In c (list_ascii_of_string s).
Proof.
  induction s as [|x s IH]; [auto|]. cbn [lstrip].
  destruct (isspace x); [|auto]. intros H. right. apply IH, H.
Qed.

Lemma rstrip_In (c : ascii) (s : string) :
  In c (list_ascii_of_string (rstrip s)) -> In c (list_ascii_of_string s).
Proof.
  induction s as [|x s IH]; [auto|]. cbn [rstrip].
  destruct (isspace x && String.eqb (rstrip s) EmptyString); [intros []|].
  cbn [list_ascii_of_string]. intros [H|H]; [left; exact H|right; apply IH, H].
Qed.

Lemma upper_In (c : ascii) (s : string) :
  In c (list_ascii_of_string (upper s)) ->
  exists c0 : ascii, In c0 (list_ascii_of_string s) /\ c = upper_char c0.
Proof.
  induction s as [|x s IH]; [intros []|]. cbn [upper list_ascii_of_string].
  intros [H|H].
  - exists x. split; [left; reflexivity|auto].
  - destruct (IH H) as (c0 & H0 & E). exists c0. split; [right; exact H0|exact E].
Qed.

Lemma upper_char_minus (c : ascii) : upper_char c = "-"%char -> c = "-"%char.
Proof.
  destruct c as [[] [] [] [] [] [] [] []]; intros H; first [reflexivity|discriminate H].
Qed.

Lemma append_In (c : ascii) (p u : string) :
  In c (list_ascii_of_string p) -> In c (list_ascii_of_string (p ++ u)).
Proof.
  induction p as [|x p IH]; [intros []|]. rewrite append_cons.
  cbn [list_ascii_of_string]. intros [H|H]; [left; exact H|right; apply IH, H].
Qed.

(** A tenor without a minus sign has a count without one. *)
Lemma tenor_count_unsigned (tenor p u : string) :
  ~ In "-"%char (list_ascii_of_string tenor) ->
  tenor_text tenor = (p ++ u)%string ->
  ~ In "-"%char (list_ascii_of_string p).
Proof.
  intros Hminus Ht Hin. apply (append_In _ p u) in Hin. rewrite <- Ht in Hin.
  unfold tenor_text in Hin. apply upper_In in Hin as (c0 & H0 & E).
  symmetry in E. apply upper_char_minus in E. subst c0.
  apply Hminus. unfold strip in H0. apply lstrip_In, rstrip_In, H0.
Qed.

Lemma date_ltb_false_of_ordinals (r d : date) :
  valid_date r = true -> valid_date d = true ->
  toordinal d <= toordinal r -> date_ltb r d = false.
Proof.
  intros Hr Hd Hle. destruct (date_ltb r d) eqn:E; [|reflexivity].
  apply (date_ltb_toordinal r d Hr Hd) in E. lia.
Qed.

(** What [add_tenor] returns is a date, and for a tenor without a minus
    sign it does not lie before [d]. *)
Lemma add_tenor_forward (d r : date) (tenor : string) :
  valid_date d = true -> add_tenor d tenor = Done r ->
  valid_date r = true /\
  (~ In "-"%char (list_ascii_of_string tenor) -> date_ltb r d = false).
Proof.
  intros Hv Hrun. destruct (valid_date_inv d Hv) as (Hy & Hm & Hd).
  destruct (tenor_text_cases (tenor_text tenor))
    as [Hon|[(p & c & Hc & Ht)|(H0 & H1 & H2 & H3)]].
  - rewrite (add_tenor_overnight d tenor Hv Hon) in Hrun.
    destruct (date_add_days_spec d 1 Hv) as [Hin Hout].
    destruct (Z.le_gt_cases (toordinal d + 1) _MAXORDINAL) as [Hle|Hgt].
    + pose proof (toordinal_range d Hv).
      destruct (Hin ltac:(lia)) as (r' & Hr' & Hvr & Hor).
      rewrite Hr' in Hrun. injection Hrun as <-. split; [exact Hvr|].
      intros _. apply date_ltb_false_of_ordinals; (assumption || lia).
    + rewrite Hout in Hrun by lia. discriminate.
  - destruct (int p) as [n|e] eqn:En;
      [|rewrite (add_tenor_unit d tenor p c Hc Ht), En in Hrun; discriminate].
    assert (Hn : ~ In "-"%char (list_ascii_of_string tenor) -> 0 <= n).
    { intros Hminus. apply (int_nonneg p n En).
      exact (tenor_count_unsigned tenor p _ Hminus Ht). }
    cbn in Hc. destruct Hc as [<-|[<-|[<-|[]]]].
    + rewrite (add_tenor_weeks d tenor p n Hv Ht En) in Hrun.
      destruct (date_add_days_spec d (7 * n) Hv) as [Hin Hout].
      destruct (classic_range (toordinal d + 7 * n)) as [Hr|Hr].
      * destruct (Hin Hr) as (r' & Hr' & Hvr & Hor).
        rewrite Hr' in Hrun. injection Hrun as <-. split; [exact Hvr|].
        intros Hminus. specialize (Hn Hminus).
        apply date_ltb_false_of_ordinals; (assumption || lia).
      * rewrite (Hout Hr) in Hrun. discriminate.
    + rewrite (add_tenor_months d tenor p n Hv Ht En) in Hrun. cbv zeta in Hrun.
      set (i := month_index d + n) in *.
      destruct (Z.leb_spec 1 (i / 12)); [|discriminate].
      destruct (Z.leb_spec (i / 12) 9999); [|discriminate].
      cbn [andb] in Hrun. injection Hrun as <-.
      assert (Hmm : 1 <= i mod 12 + 1 <= 12) by (Z.div_mod_to_equations; lia).
      split; [apply clipped_date_valid; (assumption || lia)|].
      intros Hminus. specialize (Hn Hminus).
      pose proof (days_in_month_pos (i / 12) (i mod 12 + 1)).
      unfold date_ltb. cbn [year month day].
      unfold i, month_index in *.
      destruct (Z.eq_dec n 0) as [->|Hn0].
      * replace ((12 * year d + (month d - 1) + 0) / 12) with (year d)
          by (Z.div_mod_to_equations; lia).
        replace ((12 * year d + (month d - 1) + 0) mod 12 + 1) with (month d)
          by (Z.div_mod_to_equations; lia).
        rewrite Z.min_r by lia.
        rewrite !Z.ltb_irrefl, !Z.eqb_refl. reflexivity.
      * destruct (Z.ltb_spec ((12 * year d + (month d - 1) + n) / 12) (year d));
          [exfalso; Z.div_mod_to_equations; lia|].
        cbn [orb].
        destruct (Z.eqb_spec ((12 * year d + (month d - 1) + n) / 12) (year d)) as [Ey|Ey];
          [|reflexivity].
        cbn [andb].
        destruct (Z.ltb_spec ((12 * year d + (month d - 1) + n) mod 12 + 1) (month d));
          [exfalso; Z.div_mod_to_equations; lia|].
        cbn [orb].
        destruct (Z.eqb_spec ((12 * year d + (month d - 1) + n) mod 12 + 1) (month d));
          [exfalso; Z.div_mod_to_equations; lia|reflexivity].
    + rewrite (add_tenor_years d tenor p n Hv Ht En) in Hrun.
      destruct (Z.leb_spec 1 (year d + n)); [|discriminate].
      destruct (Z.leb_spec (year d + n) 9999); [|discriminate].
      cbn [andb] in Hrun. injection Hrun as <-.
      split; [apply clipped_date_valid; (assumption || lia)|].
      intros Hminus. specialize (Hn Hminus).
      unfold date_ltb. cbn [year month day].
      destruct (Z.eq_dec n 0) as [->|Hn0].
      * rewrite Z.add_0_r, Z.min_r by lia.
        rewrite !Z.ltb_irrefl, !Z.eqb_refl. reflexivity.
      * destruct (Z.ltb_spec (year d + n) (year d)); [lia|].
        destruct (Z.eqb_spec (year d + n) (year d)); [lia|reflexivity].
  - rewrite (add_tenor_unsupported d tenor H0 H1 H2 H3) in Hrun. discriminate.
Qed.

(** ** The errors of [add_tenor] *)

Lemma date_add_days_error (d : date) (k : Z) (e : error) :
  date_add_days d k = Fail e -> e = DateRange.
Proof.
  unfold date_add_days. destruct (_ <? _); [congruence|].
  destruct (_ && _); [discriminate|congruence].
Qed.

Lemma relativedelta_radd_error (rd : relativedelta) (d : date) (e : error) :
  relativedelta_radd rd d = Fail e -> e = DateRange.
Proof.
  unfold relativedelta_radd.
  destruct (if months rd =? 0 then _ else _) as [y m].
  unfold monthrange_ndays. destruct (_ && _); [|cbn [obind]; congruence].
  cbn [obind]. unfold date_replace. destruct (valid_date _); [|cbn [obind]; congruence].
  cbn [obind]. apply date_add_days_error.
Qed.

Lemma new_relativedelta_error (a b c w : Z) (e : error) :
  new_relativedelta a b c w = Fail e -> e = DateRange.
Proof.
  unfold new_relativedelta, _sign. cbv zeta. destruct (_ <? _); [|discriminate].
  destruct (_ <=? _); [cbn [obind]; congruence|discriminate].
Qed.

Lemma int_error (s : string) (e : error) : int s = Fail e -> e = InvalidLiteral s.
Proof.
  unfold int.
  destruct (match skip_blanks s with
            | String "+" r => (false, r)
            | String "-" r => (true, r)
            | _ => (false, skip_blanks s)
            end) as [negative s2].
  assert (H : match scan_digits s2 false 0 0 with
              | None => Fail (InvalidLiteral s)
              | Some (value, digits, rest) =>
                  if (digits =? 0)%nat || (max_str_digits <? digits)%nat
                     || negb (all_blank rest)
                  then Fail (InvalidLiteral s)
                  else Done (if negative then - value else value)
              end = Fail e -> e = InvalidLiteral s).
  { destruct (scan_digits s2 false 0 0) as [[[v k] rest]|]; [|congruence].
    destruct (_ || _); [congruence|discriminate]. }
  destruct s2 as [|a r]; [exact H|].
  destruct a as [[] [] [] [] [] [] [] []]; first [exact H|congruence].
Qed.

(** The errors of a counted tenor are those of the count and of the date
    arithmetic. *)
Lemma counted_tenor_error (d : date) (s : string) (mk : Z -> outcome relativedelta)
  (e : error) :
  (forall n e', mk n = Fail e' -> e' = DateRange) ->
  (n <- int s ;; rd <- mk n ;; relativedelta_radd rd d)%outcome = Fail e ->
  e = InvalidLiteral s \/ e = DateRange.
Proof.
  intros Hmk. destruct (int s) as [n|e0] eqn:En; cbn [obind].
  - destruct (mk n) as [rd|e1] eqn:Erd; cbn [obind].
    + intros H. right. exact (relativedelta_radd_error rd d e H).
    + intros [= <-]. right. exact (Hmk n e1 Erd).
  - intros [= <-]. left. exact (int_error s e0 En).
Qed.

(** X20. The overnight tenors: for "ON", "O/N" and "1D", in any letter
    case and with blanks around, [add_tenor] returns the day after [d]; on
    the last date of the calendar it raises. *)
Theorem X20_overnight_is_next_day (d : date) (tenor : string) :
  valid_date d = true ->
  In (tenor_text tenor) ["ON"; "O/N"; "1D"]%string ->
  (toordinal d < _MAXORDINAL ->
   exists r : date, add_tenor d tenor = Done r /\ valid_date r = true /\
                    toordinal r = toordinal d + 1) /\
  (toordinal d = _MAXORDINAL -> add_tenor d tenor = Fail DateRange).
Proof.
  intros Hv Hin. apply existsb_eqb_In in Hin.
  rewrite (add_tenor_overnight d tenor Hv Hin).
  destruct (date_add_days_spec d 1 Hv) as [Hok Hout].
  pose proof (toordinal_range d Hv). split.
  - intros Hlt. apply Hok. lia.
  - intros Heq. apply Hout. lia.
Qed.

Lemma X20_witness :
  valid_date (mkdate 2024 2 29) = true /\
  In (tenor_text " o/n "%string) ["ON"; "O/N"; "1D"]%string /\
  toordinal (mkdate 2024 2 29) < _MAXORDINAL /\
  exists r : date, add_tenor (mkdate 2024 2 29) " o/n " = Done r /\
                   valid_date r = true /\
                   toordinal r = toordinal (mkdate 2024 2 29) + 1.
Proof.
  assert (Hin : In (tenor_text " o/n "%string) ["ON"; "O/N"; "1D"]%string)
    by (right; left; reflexivity).
  assert (Hlt : toordinal (mkdate 2024 2 29) < _MAXORDINAL) by reflexivity.
  split; [reflexivity|]. split; [exact Hin|]. split; [exact Hlt|].
  exact (proj1 (X20_overnight_is_next_day (mkdate 2024 2 29) " o/n " eq_refl Hin) Hlt).
Defined.

(** X21. A tenor in weeks: when the text of the tenor is a count [n]
    followed by "W", [add_tenor] returns the date [7 * n] days after [d],
    and raises when that day lies outside the calendar. *)
Theorem X21_weeks_are_seven_days (d : date) (tenor p : string) (n : Z) :
  valid_date d = true ->
  tenor_text tenor = (p ++ "W")%string -> int p = Done n ->
  (1 <= toordinal d + 7 * n <= _MAXORDINAL ->
   exists r : date, add_tenor d tenor = Done r /\ valid_date r = true /\
                    toordinal r = toordinal d + 7 * n) /\
  (~ 1 <= toordinal d + 7 * n <= _MAXORDINAL -> add_tenor d tenor = Fail DateRange).
Proof.
  intros Hv Ht Hn. rewrite (add_tenor_weeks d tenor p n Hv Ht Hn).
  exact (date_add_days_spec d (7 * n) Hv).
Qed.

Lemma X21_witness :
  valid_date (mkdate 2024 2 29) = true /\
  tenor_text "2w"%string = ("2" ++ "W")%string /\ int "2" = Done 2 /\
  1 <= toordinal (mkdate 2024 2 29) + 7 * 2 <= _MAXORDINAL /\
  exists r : date, add_tenor (mkdate 2024 2 29) "2w" = Done r /\
                   valid_date r = true /\
                   toordinal r = toordinal (mkdate 2024 2 29) + 7 * 2.
Proof.
  assert (Hr : 1 <= toordinal (mkdate 2024 2 29) + 7 * 2 <= _MAXORDINAL)
    by (split; intros H; vm_compute in H; discriminate).
  split; [reflexivity|]. split; [reflexivity|]. split; [reflexivity|].
  split; [exact Hr|].
  exact (proj1 (X21_weeks_are_seven_days (mkdate 2024 2 29) "2w" "2" 2
                  eq_refl eq_refl eq_refl) Hr).
Defined.

(** X22. A tenor in months: when the text of the tenor is a count [n]
    followed by "M", [add_tenor] moves the month of [d] by [n] months,
    across years, and keeps the day of the month, or takes the last day of
    the month when the month is shorter.  It raises when the year leaves
    1 to 9999. *)
Theorem X22_months_move_the_month (d : date) (tenor p : string) (n : Z) :
  valid_date d = true ->
  tenor_text tenor = (p ++ "M")%string -> int p = Done n ->
  (1 <= (month_index d + n) / 12 <= 9999 ->
   exists r : date,
     add_tenor d tenor = Done r /\ valid_date r = true /\
     month_index r = month_index d + n /\
     day r = Z.min (day d) (_days_in_month (year r) (month r))) /\
  (~ 1 <= (month_index d + n) / 12 <= 9999 -> add_tenor d tenor = Fail DateRange).
Proof.
  intros Hv Ht Hn. rewrite (add_tenor_months d tenor p n Hv Ht Hn). cbv zeta.
  set (i := month_index d + n).
  assert (Hmm : 1 <= i mod 12 + 1 <= 12) by (Z.div_mod_to_equations; lia).
  split.
  - intros Hr. destruct (Z.leb_spec 1 (i / 12)); [|lia].
    destruct (Z.leb_spec (i / 12) 9999); [|lia]. cbn [andb].
    eexists. split; [reflexivity|].
    split; [apply clipped_date_valid; (assumption || lia)|].
    unfold month_index at 1. cbn [year month day].
    split; [Z.div_mod_to_equations; lia|apply Z.min_comm].
  - intros Hr. destruct (Z.leb_spec 1 (i / 12)); [|reflexivity].
    destruct (Z.leb_spec (i / 12) 9999); [lia|reflexivity].
Qed.

Lemma X22_witness :
  valid_date (mkdate 2024 8 31) = true /\
  tenor_text "18M"%string = ("18" ++ "M")%string /\ int "18" = Done 18 /\
  1 <= (month_index (mkdate 2024 8 31) + 18) / 12 <= 9999 /\
  exists r : date,
    add_tenor (mkdate 2024 8 31) "18M" = Done r /\ valid_date r = true /\
    month_index r = month_index (mkdate 2024 8 31) + 18 /\
    day r = Z.min (day (mkdate 2024 8 31)) (_days_in_month (year r) (month r)).
Proof.
  assert (Hr : 1 <= (month_index (mkdate 2024 8 31) + 18) / 12 <= 9999)
    by (split; intros H; vm_compute in H; discriminate).
  split; [reflexivity|]. split; [reflexivity|]. split; [reflexivity|].
  split; [exact Hr|].
  exact (proj1 (X22_months_move_the_month (mkdate 2024 8 31) "18M" "18" 18
                  eq_refl eq_refl eq_refl) Hr).
Defined.

(** X23. A tenor in years: when the text of the tenor is a count [n]
    followed by "Y", [add_tenor] returns the same month and day [n] years
    on; only the 29th of February moves, to the 28th when the year reached
    is no leap year.  It raises when the year leaves 1 to 9999. *)
Theorem X23_years_keep_month_and_day (d : date) (tenor p : string) (n : Z) :
  valid_date d = true ->
  tenor_text tenor = (p ++ "Y")%string -> int p = Done n ->
  (1 <= year d + n <= 9999 ->
   add_tenor d tenor
   = Done (mkdate (year d + n) (month d)
             (if (month d =? 2) && (day d =? 29) && negb (_is_leap (year d + n))
              then 28 else day d))) /\
  (~ 1 <= year d + n <= 9999 -> add_tenor d tenor = Fail DateRange).
Proof.
  intros Hv Ht Hn. rewrite (add_tenor_years d tenor p n Hv Ht Hn).
  destruct (valid_date_inv d Hv) as (Hy & Hm & Hd). split.
  - intros Hr. destruct (Z.leb_spec 1 (year d + n)); [|lia].
    destruct (Z.leb_spec (year d + n) 9999); [|lia]. cbn [andb].
    do 2 f_equal. unfold _days_in_month in *.
    destruct (Z.eqb_spec (month d) 2) as [E2|E2].
    + cbn [andb]. destruct (Z.eqb_spec (day d) 29) as [E29|E29].
      * cbn [andb]. destruct (_is_leap (year d + n)); cbn [negb]; lia.
      * cbn [andb]. destruct (_is_leap (year d)), (_is_leap (year d + n)); lia.
    + cbn [andb]. lia.
  - intros Hr. destruct (Z.leb_spec 1 (year d + n)); [|reflexivity].
    destruct (Z.leb_spec (year d + n) 9999); [lia|reflexivity].
Qed.

Lemma X23_witness :
  valid_date (mkdate 2024 2 29) = true /\
  tenor_text " 1y"%string = ("1" ++ "Y")%string /\ int "1" = Done 1 /\
  1 <= year (mkdate 2024 2 29) + 1 <= 9999 /\
  add_tenor (mkdate 2024 2 29) " 1y" = Done (mkdate 2025 2 28).
Proof.
  assert (Hr : 1 <= year (mkdate 2024 2 29) + 1 <= 9999)
    by (split; intros H; vm_compute in H; discriminate).
  split; [reflexivity|]. split; [reflexivity|]. split; [reflexivity|].
  split; [exact Hr|].
  exact (proj1 (X23_years_keep_month_and_day (mkdate 2024 2 29) " 1y" "1" 1
                  eq_refl eq_refl eq_refl) Hr).
Defined.

(** X24. What [add_tenor] returns is a date of the calendar, and for a
    tenor that holds no minus sign it is not before [d]: the year fraction
    from [d] to it exists under each canonical base and is not negative.
    (With a minus sign the count may be negative and the date lie before
    [d].) *)
Theorem X24_unsigned_tenor_moves_forward (d r : date) (tenor : string) :
  valid_date d = true -> add_tenor d tenor = Done r ->
  valid_date r = true /\
  (~ In "-"%char (list_ascii_of_string tenor) ->
   date_ltb r d = false /\
   forall base : string, In base DayCount.canonical_bases ->
     exists v : R, DayCount.yearfrac d r base = Ok v /\ (0 <= v)%R).
Proof.
  intros Hv Hrun. destruct (add_tenor_forward d r tenor Hv Hrun) as [Hvr Hfw].
  split; [exact Hvr|]. intros Hminus. specialize (Hfw Hminus).
  split; [exact Hfw|]. intros base Hb.
  exact (yearfrac_nonneg d r base Hv Hvr Hb Hfw).
Qed.

Lemma X24_witness :
  valid_date (mkdate 2024 1 31) = true /\
  add_tenor (mkdate 2024 1 31) "1M" = Done (mkdate 2024 2 29) /\
  ~ In "-"%char (list_ascii_of_string "1M") /\
  valid_date (mkdate 2024 2 29) = true /\
  date_ltb (mkdate 2024 2 29) (mkdate 2024 1 31) = false /\
  forall base : string, In base DayCount.canonical_bases ->
    exists v : R,
      DayCount.yearfrac (mkdate 2024 1 31) (mkdate 2024 2 29) base = Ok v /\ (0 <= v)%R.
Proof.
  assert (Hminus : ~ In "-"%char (list_ascii_of_string "1M")).
  { cbn. intros [H|[H|[]]]; discriminate H. }
  split; [reflexivity|]. split; [reflexivity|]. split; [exact Hminus|].
  split.
  - exact (proj1 (X24_unsigned_tenor_moves_forward (mkdate 2024 1 31) (mkdate 2024 2 29)
                    "1M" eq_refl eq_refl)).
  - exact (proj2 (X24_unsigned_tenor_moves_forward (mkdate 2024 1 31) (mkdate 2024 2 29)
                    "1M" eq_refl eq_refl) Hminus).
Defined.

(** X25. The unsupported tenors: [add_tenor] raises the unsupported-tenor
    error, with the tenor as it was given, exactly when the text of the
    tenor is none of the overnight names and does not end in "W", "M" or
    "Y"; so "2D" and the empty tenor are unsupported.  Every other error of
    [add_tenor] is an invalid count or a date outside the calendar. *)
Theorem X25_unsupported_tenors (d : date) (tenor : string) :
  (forall x : string,
      add_tenor d tenor = Fail (UnsupportedTenor x) <->
      x = tenor /\
      ~ In (tenor_text tenor) ["ON"; "O/N"; "1D"]%string /\
      endswith (tenor_text tenor) "W" = false /\
      endswith (tenor_text tenor) "M" = false /\
      endswith (tenor_text tenor) "Y" = false) /\
  (forall e : error,
      add_tenor d tenor = Fail e ->
      e = UnsupportedTenor tenor \/
      e = InvalidLiteral (drop_last (tenor_text tenor)) \/ e = DateRange).
Proof.
  assert (Hkinds : forall e : error,
             add_tenor d tenor = Fail e ->
             (e = UnsupportedTenor tenor /\
              existsb (String.eqb (tenor_text tenor)) ["ON"; "O/N"; "1D"]%string = false /\
              endswith (tenor_text tenor) "W" = false /\
              endswith (tenor_text tenor) "M" = false /\
              endswith (tenor_text tenor) "Y" = false) \/
             e = InvalidLiteral (drop_last (tenor_text tenor)) \/ e = DateRange).
  { intros e. unfold add_tenor. fold (tenor_text tenor).
    destruct (existsb _ _) eqn:E0.
    { change (new_relativedelta 0 0 1 0) with (Done (mkrelativedelta 0 0 1)).
      cbn [obind]. intros H. right. right. exact (relativedelta_radd_error _ d e H). }
    destruct (endswith (tenor_text tenor) "W") eqn:E1.
    { intros H. right.
      apply (counted_tenor_error d _ (fun n => new_relativedelta 0 0 0 n) e); [|exact H].
      intros n e'. apply new_relativedelta_error. }
    destruct (endswith (tenor_text tenor) "M") eqn:E2.
    { intros H. right.
      apply (counted_tenor_error d _ (fun n => new_relativedelta 0 n 0 0) e); [|exact H].
      intros n e'. apply new_relativedelta_error. }
    destruct (endswith (tenor_text tenor) "Y") eqn:E3.
    { intros H. right.
      apply (counted_tenor_error d _ (fun n => new_relativedelta n 0 0 0) e); [|exact H].
      intros n e'. apply new_relativedelta_error. }
    intros [= <-]. left. auto. }
  split.
  - intros x. split.
    + intros H. destruct (Hkinds _ H) as [(E & H0 & H1 & H2 & H3)|[E|E]];
        [|discriminate E|discriminate E].
      injection E as ->. split; [reflexivity|]. split; [|auto].
      intros Hin. apply existsb_eqb_In in Hin. congruence.
    + intros (-> & H0 & H1 & H2 & H3). apply add_tenor_unsupported; try assumption.
      destruct (existsb _ _) eqn:E; [|reflexivity].
      apply existsb_eqb_In in E. contradiction.
  - intros e H. destruct (Hkinds e H) as [(E & _)|[E|E]]; auto.
Qed.

End TenorFacts.

(** * The dates and year fractions of the long table *)

Section ReaderFacts.

Import Outcome PyInt DayCount DayCountBase DateArith Tenors TenorSpec.

Example enrich_two_rows :
  Reader.enrich_with_dates
    [Reader.mkLongRow "EUR" "1Y" (Some 0.02%R); Reader.mkLongRow "EUR" "ON" (Some 0.01%R)]
    (mkdate 2024 1 1) "act/365"
  = Done (mkDataFrame Curves.required_columns
            [mkRow "EUR" "1Y" (Some 0.02%R) (mkdate 2025 1 1) (Some (IZR 366 / 365)%R);
             mkRow "EUR" "ON" (Some 0.01%R) (mkdate 2024 1 2) (Some (IZR 1 / 365)%R)]).
Proof. reflexivity. Qed.

Example enrich_invalid_tenors :
  Reader.enrich_with_dates
    [Reader.mkLongRow "EUR" "2D" None; Reader.mkLongRow "EUR" "1Y" None;
     Reader.mkLongRow "USD" "" None; Reader.mkLongRow "USD" "2D" None]
    (mkdate 2024 1 1) "ACT/365"
  = Fail (UnsupportedTenors [""; "2D"]%string).
Proof. reflexivity. Qed.


Lemma NoDup_unique (l : list string) : List.NoDup (unique l).
Proof.
  induction l as [|x l IH]; [constructor|]. cbn [unique]. constructor.
  - intros Hin. apply List.filter_In in Hin as [_ Hne].
    rewrite String.eqb_refl in Hne. discriminate.
  - apply NoDup_filter, IH.
Qed.

Lemma apply_Done {A B : Type} (f : A -> outcome B) (l : list A) (ys : list B) :
  Reader.apply f l = Done ys <-> Forall2 (fun x y => f x = Done y) l ys.
Proof.
  revert ys. induction l as [|x l IH]; intros ys; cbn [Reader.apply].
  - split; [intros [= <-]; constructor|intros H; inversion H; reflexivity].
  - split.
    + destruct (f x) as [y|e] eqn:Ex; [|discriminate]. cbn [obind].
      destruct (Reader.apply f l) as [ys'|e] eqn:El; [|discriminate]. cbn [obind].
      intros [= <-]. constructor; [exact Ex|]. apply IH. reflexivity.
    + intros H. inversion H as [|x' y l' ys' Hxy Hrest]; subst.
      rewrite Hxy. cbn [obind]. apply IH in Hrest. rewrite Hrest. reflexivity.
Qed.

Lemma apply_Fail {A B : Type} (f : A -> outcome B) (l : list A) (e : error) :
  Reader.apply f l = Fail e -> exists x : A, In x l /\ f x = Fail e.
Proof.
  induction l as [|x l IH]; cbn [Reader.apply]; [discriminate|].
  destruct (f x) as [y|e'] eqn:Ex; cbn [obind].
  - destruct (Reader.apply f l) as [ys'|e''] eqn:El; cbn [obind]; [discriminate|].
    intros [= <-]. destruct (IH eq_refl) as (x' & Hin & Hx'). exists x'.
    split; [right; exact Hin|exact Hx'].
  - intros [= <-]. exists x. split; [left; reflexivity|exact Ex].
Qed.

Lemma apply_total {A B : Type} (f : A -> outcome B) (l : list A) :
  (forall x, In x l -> exists y, f x = Done y) ->
  exists ys : list B, Reader.apply f l = Done ys.
Proof.
  intros Hall. destruct (Reader.apply f l) as [ys|e] eqn:E; [eauto|].
  destruct (apply_Fail f l e E) as (x & Hin & Hx).
  destruct (Hall x Hin) as [y Hy]. congruence.
Qed.

(** The tenors that the check of [enrich_with_dates] lists. *)
Lemma In_invalid_tenors (df_long : list Reader.LongRow) (ad : date) (t : string) :
  In t (List.filter (Reader.rejects ad) (sorted (unique (map Reader.Tenor df_long)))) <->
  (exists r, In r df_long /\ Reader.Tenor r = t) /\
  exists e : error, add_tenor ad t = Fail e.
Proof.
  rewrite List.filter_In, In_sorted, In_unique, List.in_map_iff.
  unfold Reader.rejects. split.
  - intros [(r & Hr & Hin) Hrej]. split; [exists r; auto|].
    destruct (add_tenor ad t) as [d|e]; [discriminate|eauto].
  - intros [(r & Hin & Hr) (e & He)]. split; [exists r; auto|]. rewrite He. reflexivity.
Qed.

Lemma enrich_with_dates_run (df_long : list Reader.LongRow) (ad : date) (base b : string) :
  df_long <> [] ->
  normalize_daycount_base (Some base) = Done b ->
  Reader.enrich_with_dates df_long ad base
  = match List.filter (Reader.rejects ad) (sorted (unique (map Reader.Tenor df_long))) with
    | (_ :: _) as invalid_tenors => Fail (UnsupportedTenors invalid_tenors)
    | [] =>
        (tenor_dates <- Reader.apply (fun r => add_tenor ad (Reader.Tenor r)) df_long ;;
         year_fracs <- Reader.apply (fun d => of_result (yearfrac ad d b)) tenor_dates ;;
         Done (Reader.with_dates df_long tenor_dates year_fracs))%outcome
    end.
Proof.
  intros Hne Hb. unfold Reader.enrich_with_dates.
  destruct df_long as [|r rs]; [contradiction|]. rewrite Hb. cbn [obind]. cbv zeta.
  destruct (List.filter _ _); reflexivity.
Qed.

Lemma with_dates_rows (df_long : list Reader.LongRow) (ds : list date) (ys : list R)
  (P : Reader.LongRow -> Row -> Prop) :
  length ds = length df_long -> length ys = length df_long ->
  (forall r d y i, nth_error df_long i = Some r -> nth_error ds i = Some d ->
                   nth_error ys i = Some y ->
                   P r (mkRow (Reader.IndexName r) (Reader.Tenor r) (Reader.FwdRate r)
                          d (Some y))) ->
  Forall2 P df_long (rows (Reader.with_dates df_long ds ys)).
Proof.
  unfold Reader.with_dates. cbn [rows]. revert ds ys.
  induction df_long as [|r rs IH]; intros ds ys Hd Hy HP.
  - destruct ds; [|discriminate]. constructor.
  - destruct ds as [|d ds]; [discriminate|]. destruct ys as [|y ys]; [discriminate|].
    cbn [combine map]. constructor.
    + apply (HP r d y 0%nat); reflexivity.
    + apply IH; [cbn in Hd; lia|cbn in Hy; lia|].
      intros r' d' y' i H1 H2 H3. apply (HP r' d' y' (S i)); assumption.
Qed.

Lemma Forall2_nth_error {A B : Type} (P : A -> B -> Prop) (l : list A) (l' : list B) :
  Forall2 P l l' ->
  forall (i : nat) (x : A) (y : B),
    nth_error l i = Some x -> nth_error l' i = Some y -> P x y.
Proof.
  induction 1 as [|a b l l' Hab Hrest IH]; intros i x y Hx Hy.
  - destruct i; discriminate.
  - destruct i as [|i]; cbn in Hx, Hy.
    + injection Hx as <-. injection Hy as <-. exact Hab.
    + exact (IH i x y Hx Hy).
Qed.

(** The year fraction of a tenor date, by the order of the dates. *)
Lemma yearfrac_of_tenor_date (ad d : date) (b : string) :
  valid_date ad = true -> valid_date d = true -> In b canonical_bases ->
  (date_ltb d ad = true -> yearfrac ad d b = Raise InvalidDateOrder) /\
  (date_ltb d ad = false -> exists v : R, yearfrac ad d b = Ok v /\ (0 <= v)%R).
Proof.
  intros Ha Hd Hb. split.
  - intros Hlt. unfold yearfrac. rewrite Hlt. reflexivity.
  - intros Hlt. exact (yearfrac_nonneg ad d b Ha Hd Hb Hlt).
Qed.

Lemma enriched_table (df_long : list Reader.LongRow) (ad : date)
  (base : string) (df : DataFrame) :
  valid_date ad = true ->
  Reader.enrich_with_dates df_long ad base = Done df ->
  exists b : string,
    normalize_daycount_base (Some base) = Done b /\
    Curves.missing_columns df = [] /\
    Forall2 (fun (r : Reader.LongRow) (r' : Row) =>
               IndexName r' = Reader.IndexName r /\ Tenor r' = Reader.Tenor r /\
               FwdRate r' = Reader.FwdRate r /\
               add_tenor ad (Reader.Tenor r) = Done (TenorDate r') /\
               exists v : R,
                 yearfrac ad (TenorDate r') b = Ok v /\ YearFrac r' = Some v /\
                 (0 <= v)%R)
            df_long (rows df).
Proof.
  intros Ha Hrun.
  destruct df_long as [|r0 rs] eqn:Edf; [discriminate|]. rewrite <- Edf in *.
  assert (Hne : df_long <> []) by (rewrite Edf; discriminate).
  destruct (normalize_daycount_base (Some base)) as [b|e] eqn:Hb;
    [|unfold Reader.enrich_with_dates in Hrun; rewrite Edf, Hb in Hrun; discriminate].
  rewrite (enrich_with_dates_run df_long ad base b Hne Hb) in Hrun.
  destruct (List.filter _ _); [|discriminate].
  destruct (Reader.apply _ df_long) as [ds|e] eqn:Eds; [|discriminate]. cbn [obind] in Hrun.
  destruct (Reader.apply _ ds) as [ys|e] eqn:Eys; [|discriminate]. cbn [obind] in Hrun.
  injection Hrun as <-. exists b. split; [reflexivity|]. split; [reflexivity|].
  apply apply_Done in Eds. apply apply_Done in Eys.
  pose proof Eds as Hl1. apply List.Forall2_length in Hl1.
  pose proof Eys as Hl2. apply List.Forall2_length in Hl2.
  apply with_dates_rows; [lia|lia|].
  intros r d y i Hr Hd Hy. cbn [IndexName Tenor FwdRate TenorDate YearFrac].
  pose proof (Forall2_nth_error _ _ _ Eds i r d Hr Hd) as Hadd.
  pose proof (Forall2_nth_error _ _ _ Eys i d y Hd Hy) as Hyf. cbn beta in Hadd, Hyf.
  split; [reflexivity|]. split; [reflexivity|]. split; [reflexivity|].
  split; [exact Hadd|].
  destruct (add_tenor_forward ad d (Reader.Tenor r) Ha Hadd) as [Hvd _].
  destruct (yearfrac_of_tenor_date ad d b Ha Hvd
              (normalize_daycount_base_canonical _ b Hb)) as [Hbad Hgood].
  destruct (date_ltb d ad) eqn:Hlt.
  - rewrite (Hbad eq_refl) in Hyf. discriminate.
  - destruct (Hgood eq_refl) as (v & Hv & Hpos). rewrite Hv in Hyf.
    injection Hyf as <-. exists v. auto.
Qed.

(** X26. The table that [enrich_with_dates] returns: it has the five
    columns that [curve_from_long_df] requires, and its rows are the rows of
    the long table, in their order, each with the date that [add_tenor]
    gives for its tenor and with the year fraction from the analysis date
    to that date under the normalised base; no year fraction is null or
    negative. *)
Theorem X26_enriched_table (df_long : list Reader.LongRow) (ad : date)
  (base : string) (df : DataFrame) :
  valid_date ad = true ->
  Reader.enrich_with_dates df_long ad base = Done df ->
  exists b : string,
    normalize_daycount_base (Some base) = Done b /\
    Curves.missing_columns df = [] /\
    Forall2 (fun (r : Reader.LongRow) (r' : Row) =>
               IndexName r' = Reader.IndexName r /\ Tenor r' = Reader.Tenor r /\
               FwdRate r' = Reader.FwdRate r /\
               add_tenor ad (Reader.Tenor r) = Done (TenorDate r') /\
               exists v : R,
                 yearfrac ad (TenorDate r') b = Ok v /\ YearFrac r' = Some v /\
                 (0 <= v)%R)
            df_long (rows df).
Proof. exact (enriched_table df_long ad base df). Qed.

Lemma X26_witness :
  valid_date (mkdate 2024 1 1) = true /\
  exists b : string,
    normalize_daycount_base (Some "act/365"%string) = Done b /\
    Curves.missing_columns
      (mkDataFrame Curves.required_columns
         [mkRow "EUR" "1Y" (Some 0.02%R) (mkdate 2025 1 1) (Some (IZR 366 / 365)%R)]) = [] /\
    Forall2 (fun (r : Reader.LongRow) (r' : Row) =>
               IndexName r' = Reader.IndexName r /\ Tenor r' = Reader.Tenor r /\
               FwdRate r' = Reader.FwdRate r /\
               add_tenor (mkdate 2024 1 1) (Reader.Tenor r) = Done (TenorDate r') /\
               exists v : R,
                 yearfrac (mkdate 2024 1 1) (TenorDate r') b = Ok v /\
                 YearFrac r' = Some v /\ (0 <= v)%R)
            [Reader.mkLongRow "EUR" "1Y" (Some 0.02%R)]
            (rows (mkDataFrame Curves.required_columns
                     [mkRow "EUR" "1Y" (Some 0.02%R) (mkdate 2025 1 1)
                        (Some (IZR 366 / 365)%R)])).
Proof.
  split; [reflexivity|].
  exact (X26_enriched_table [Reader.mkLongRow "EUR" "1Y" (Some 0.02%R)]
           (mkdate 2024 1 1) "act/365" _ eq_refl eq_refl).
Defined.

(** X27. The errors of [enrich_with_dates], in the order of its checks: an
    empty table; then a base name that is not recognised; then the tenors
    that [add_tenor] rejects, all of them at once, each once and in sorted
    order; and, when every tenor is accepted, the date-order error of
    [yearfrac] when a tenor date lies before the analysis date, as for a
    negative count.  Otherwise it returns a table. *)
Theorem X27_enrich_errors (df_long : list Reader.LongRow) (ad : date) (base : string) :
  (df_long = [] -> Reader.enrich_with_dates df_long ad base = Fail EmptyLongTable) /\
  (df_long <> [] ->
   forall e : error, normalize_daycount_base (Some base) = Fail e ->
     Reader.enrich_with_dates df_long ad base = Fail e) /\
  (df_long <> [] ->
   forall b : string, normalize_daycount_base (Some base) = Done b ->
     ((exists r : Reader.LongRow,
          In r df_long /\ exists e : error, add_tenor ad (Reader.Tenor r) = Fail e) ->
      exists invalid : list string,
        Reader.enrich_with_dates df_long ad base = Fail (UnsupportedTenors invalid) /\
        StronglySorted MarketSpec.str_le invalid /\ List.NoDup invalid /\
        forall t : string,
          In t invalid <->
          (exists r, In r df_long /\ Reader.Tenor r = t) /\
          exists e : error, add_tenor ad t = Fail e) /\
     ((forall r : Reader.LongRow,
          In r df_long -> exists d : date, add_tenor ad (Reader.Tenor r) = Done d) ->
      valid_date ad = true ->
      ((exists (r : Reader.LongRow) (d : date),
           In r df_long /\ add_tenor ad (Reader.Tenor r) = Done d /\
           date_ltb d ad = true) ->
       Reader.enrich_with_dates df_long ad base = Fail (Engine InvalidDateOrder)) /\
      (~ (exists (r : Reader.LongRow) (d : date),
             In r df_long /\ add_tenor ad (Reader.Tenor r) = Done d /\
             date_ltb d ad = true) ->
       exists df : DataFrame, Reader.enrich_with_dates df_long ad base = Done df))).
Proof.
  split; [intros ->; reflexivity|]. split.
  - intros Hne e He. unfold Reader.enrich_with_dates.
    destruct df_long; [contradiction|]. rewrite He. reflexivity.
  - intros Hne b Hb. rewrite (enrich_with_dates_run df_long ad base b Hne Hb).
    pose proof (In_invalid_tenors df_long ad) as Hin.
    assert (Hsorted : StronglySorted MarketSpec.str_le
              (List.filter (Reader.rejects ad) (sorted (unique (map Reader.Tenor df_long)))))
      by apply Sorted_filter_total, sorted_Sorted.
    assert (Hnd : List.NoDup
              (List.filter (Reader.rejects ad) (sorted (unique (map Reader.Tenor df_long)))))
      by apply NoDup_filter, NoDup_sorted, NoDup_unique.
    destruct (List.filter _ _) as [|t0 invalid].
    + split.
      * intros (r & Hr & e & He). exfalso.
        apply (proj2 (Hin (Reader.Tenor r))). split; [exists r; auto|eauto].
      * intros Hall Ha.
        destruct (apply_total (fun r => add_tenor ad (Reader.Tenor r)) df_long Hall)
          as [ds Eds].
        rewrite Eds. cbn [obind]. apply apply_Done in Eds.
        assert (Hds : forall d, In d ds ->
                        exists r, In r df_long /\ add_tenor ad (Reader.Tenor r) = Done d).
        { clear -Eds. induction Eds as [|r d l l' Hrd Hrest IH]; intros d' [].
          - subst. exists r. split; [left; reflexivity|exact Hrd].
          - destruct (IH d' H) as (r' & Hin & Hr'). exists r'. split; [right|]; auto. }
        assert (Hrev : forall r d, In r df_long -> add_tenor ad (Reader.Tenor r) = Done d ->
                         In d ds).
        { clear -Eds. induction Eds as [|r d l l' Hrd Hrest IH]; intros r' d' [] Hadd.
          - subst. left. congruence.
          - right. exact (IH r' d' H Hadd). }
        assert (Hyf : forall d, In d ds ->
                        (date_ltb d ad = true ->
                         of_result (yearfrac ad d b) = Fail (Engine InvalidDateOrder)) /\
                        (date_ltb d ad = false ->
                         exists v, of_result (yearfrac ad d b) = Done v)).
        { intros d Hd. destruct (Hds d Hd) as (r & Hr & Hadd).
          destruct (add_tenor_forward ad d (Reader.Tenor r) Ha Hadd) as [Hvd _].
          destruct (yearfrac_of_tenor_date ad d b Ha Hvd
                      (normalize_daycount_base_canonical _ b Hb)) as [Hbad Hgood].
          split.
          - intros Hlt. rewrite (Hbad Hlt). reflexivity.
          - intros Hlt. destruct (Hgood Hlt) as (v & -> & _). eexists. reflexivity. }
        split.
        -- intros (r & d & Hr & Hadd & Hlt).
           destruct (Reader.apply _ ds) as [ys|e] eqn:Eys.
           ++ exfalso. apply apply_Done in Eys.
              pose proof (Hrev r d Hr Hadd) as Hd.
              assert (Hex : exists y, of_result (yearfrac ad d b) = Done y).
              { clear -Eys Hd. induction Eys as [|d' y l l' Hdy Hrest IH]; [destruct Hd|].
                destruct Hd as [<-|Hd]; [eauto|exact (IH Hd)]. }
              destruct Hex as [y Hy].
              rewrite (proj1 (Hyf d Hd) Hlt) in Hy. discriminate.
           ++ cbn [obind]. destruct (apply_Fail _ ds e Eys) as (d' & Hd' & He).
              destruct (date_ltb d' ad) eqn:Hlt'.
              ** rewrite (proj1 (Hyf d' Hd') Hlt') in He. congruence.
              ** destruct (proj2 (Hyf d' Hd') Hlt') as [v Hv]. congruence.
        -- intros Hnone.
           destruct (apply_total (fun d => of_result (yearfrac ad d b)) ds) as [ys Eys].
           { intros d Hd. apply (proj2 (Hyf d Hd)).
             destruct (date_ltb d ad) eqn:Hlt; [|reflexivity]. exfalso. apply Hnone.
             destruct (Hds d Hd) as (r & Hr & Hadd). exists r, d. auto. }
           rewrite Eys. cbn [obind]. eexists. reflexivity.
    + split.
      * intros _. exists (t0 :: invalid). split; [reflexivity|].
        split; [exact Hsorted|]. split; [exact Hnd|exact Hin].
      * intros Hall _. exfalso.
        destruct (proj1 (Hin t0) ltac:(left; reflexivity)) as [(r & Hr & <-) (e & He)].
        destruct (Hall r Hr) as [d Hd]. congruence.
Qed.

Lemma X27_witness :
  [Reader.mkLongRow "EUR" "-1M" (Some 0.02%R)] <> [] /\
  normalize_daycount_base (Some "ACT/365"%string) = Done BASE_ACT_365 /\
  (forall r : Reader.LongRow,
      In r [Reader.mkLongRow "EUR" "-1M" (Some 0.02%R)] ->
      exists d : date, add_tenor (mkdate 2024 3 31) (Reader.Tenor r) = Done d) /\
  valid_date (mkdate 2024 3 31) = true /\
  (exists (r : Reader.LongRow) (d : date),
      In r [Reader.mkLongRow "EUR" "-1M" (Some 0.02%R)] /\
      add_tenor (mkdate 2024 3 31) (Reader.Tenor r) = Done d /\
      date_ltb d (mkdate 2024 3 31) = true) /\
  Reader.enrich_with_dates [Reader.mkLongRow "EUR" "-1M" (Some 0.02%R)]
    (mkdate 2024 3 31) "ACT/365"
  = Fail (Engine InvalidDateOrder).
Proof.
  assert (Hne : [Reader.mkLongRow "EUR" "-1M" (Some 0.02%R)] <> []) by discriminate.
  assert (Hb : normalize_daycount_base (Some "ACT/365"%string) = Done BASE_ACT_365)
    by reflexivity.
  assert (Hall : forall r : Reader.LongRow,
             In r [Reader.mkLongRow "EUR" "-1M" (Some 0.02%R)] ->
             exists d : date, add_tenor (mkdate 2024 3 31) (Reader.Tenor r) = Done d).
  { intros r [<-|[]]. eexists. reflexivity. }
  assert (Hback : exists (r : Reader.LongRow) (d : date),
             In r [Reader.mkLongRow "EUR" "-1M" (Some 0.02%R)] /\
             add_tenor (mkdate 2024 3 31) (Reader.Tenor r) = Done d /\
             date_ltb d (mkdate 2024 3 31) = true).
  { exists (Reader.mkLongRow "EUR" "-1M" (Some 0.02%R)), (mkdate 2024 2 29).
    split; [left; reflexivity|]. split; reflexivity. }
  split; [exact Hne|]. split; [exact Hb|]. split; [exact Hall|].
  split; [reflexivity|]. split; [exact Hback|].
  exact (proj1 (proj2 (proj2 (proj2 (X27_enrich_errors
                  [Reader.mkLongRow "EUR" "-1M" (Some 0.02%R)] (mkdate 2024 3 31) "ACT/365"))
                  Hne BASE_ACT_365 Hb) Hall eq_refl) Hback).
Defined.

End ReaderFacts.

(** * Curves from a table *)

Section TableFacts.

Import Outcome Curves CurveSpec CurveOrder TableSpec.

Lemma existsb_isna_false {A : Type} (f : A -> option R) (l : list A) :
  existsb (fun r => isna (f r)) l = false <-> forall r, In r l -> f r <> None.
Proof.
  induction l as [|x l IH]; cbn [existsb].
  - split; [intros _ r []|reflexivity].
  - rewrite Bool.orb_false_iff, IH. split.
    + intros [Hx Hl] r [<-|Hr]; [destruct (f x); [discriminate|discriminate Hx]|auto].
    + intros H. split; [|intros r Hr; apply H; right; exact Hr].
      specialize (H x ltac:(left; reflexivity)). destruct (f x); [reflexivity|contradiction].
Qed.

Lemma existsb_isna_true {A : Type} (f : A -> option R) (l : list A) :
  existsb (fun r => isna (f r)) l = true <-> exists r, In r l /\ f r = None.
Proof.
  rewrite List.existsb_exists. split; intros (r & Hr & H); exists r; (split; [exact Hr|]).
  - destruct (f r); [discriminate|reflexivity].
  - rewrite H. reflexivity.
Qed.

(** The points that the loop of [curve_from_long_df] builds from rows
    without null cells. *)
Lemma points_of_rows_pillars (sub : list Row) :
  (forall r, In r sub -> YearFrac r <> None) ->
  (forall r, In r sub -> FwdRate r <> None) ->
  exists ps : list CurvePoint,
    points_of_rows sub = Ok ps /\ Forall2 pillar_of sub ps /\
    map (fun p => Some (year_frac p)) ps = map YearFrac sub.
Proof.
  induction sub as [|r sub IH]; intros Hy Hf.
  - exists []. split; [reflexivity|]. split; [constructor|reflexivity].
  - destruct IH as (ps & Hps & Hall & Hmap);
      [intros r' Hr'; apply Hy; right; exact Hr'
      |intros r' Hr'; apply Hf; right; exact Hr'|].
    pose proof (Hy r ltac:(left; reflexivity)) as Hyr.
    pose proof (Hf r ltac:(left; reflexivity)) as Hfr.
    destruct (YearFrac r) as [yf|] eqn:Ey; [|contradiction].
    destruct (FwdRate r) as [fr|] eqn:Ef; [|contradiction].
    exists (mkCurvePoint yf fr (upper (strip (Tenor r))) (TenorDate r) :: ps).
    cbn [points_of_rows]. unfold point_of_row. rewrite Ey, Ef. cbn [rbind].
    rewrite Hps. cbn [rbind]. split; [reflexivity|]. split.
    + constructor; [|exact Hall]. unfold pillar_of. cbn [year_frac rate tenor tenor_date].
      auto.
    + cbn [map year_frac]. rewrite Hmap, Ey. reflexivity.
Qed.

Lemma NoDup_map_Some {A : Type} (l : list A) :
  List.NoDup (map (@Some A) l) <-> List.NoDup l.
Proof.
  induction l as [|x l IH]; cbn [map].
  - split; constructor.
  - rewrite !List.NoDup_cons_iff, IH, List.in_map_iff. split.
    + intros [Hx Hl]. split; [|exact Hl]. intros Hin. apply Hx. exists x. auto.
    + intros [Hx Hl]. split; [|exact Hl]. intros (y & [= ->] & Hin). contradiction.
Qed.

(** What [curve_from_long_df] does, check by check. *)
Lemma curve_from_long_df_cases (df : DataFrame) (ix : string) :
  (missing_columns df <> [] /\
   curve_from_long_df df ix = Raise (InvalidCurveTable (missing_columns df))) \/
  (missing_columns df = [] /\
   ((index_rows df ix = [] /\ curve_from_long_df df ix = Raise (NoPointsFor ix)) \/
    (index_rows df ix <> [] /\
     ((exists r, In r (index_rows df ix) /\ YearFrac r = None) /\
      curve_from_long_df df ix = Raise (NullYearFrac ix) \/
      (forall r, In r (index_rows df ix) -> YearFrac r <> None) /\
      ((exists r, In r (index_rows df ix) /\ FwdRate r = None) /\
       curve_from_long_df df ix = Raise (NullFwdRate ix) \/
       (forall r, In r (index_rows df ix) -> FwdRate r <> None) /\
       exists ps : list CurvePoint,
         Forall2 pillar_of (index_rows df ix) ps /\
         (~ List.NoDup (map YearFrac (index_rows df ix)) /\
          curve_from_long_df df ix = Raise (NonIncreasingCurve ix) \/
          List.NoDup (map YearFrac (index_rows df ix)) /\
          curve_from_long_df df ix = Ok (mkForwardCurve ix (sort_points ps)) /\
          valid_curve (mkForwardCurve ix (sort_points ps)))))))).
Proof.
  unfold curve_from_long_df. fold (index_rows df ix).
  destruct (missing_columns df) as [|m ms] eqn:Em;
    [right|left; split; [discriminate|reflexivity]].
  split; [reflexivity|].
  remember (index_rows df ix) as sub eqn:Hsub.
  destruct sub as [|r0 sub'] eqn:Esub; [left; auto|right].
  split; [discriminate|]. cbv iota. rewrite <- Esub. clear Hsub.
  assert (Hne : sub <> []) by (rewrite Esub; discriminate). clear Esub r0 sub'.
  destruct (existsb (fun r => isna (YearFrac r)) sub) eqn:Ey.
  { left. split; [apply (existsb_isna_true YearFrac sub), Ey|reflexivity]. }
  right. pose proof (proj1 (existsb_isna_false YearFrac sub) Ey) as Hy. clear Ey.
  rename Hy into Ey. split; [exact Ey|].
  destruct (existsb (fun r => isna (FwdRate r)) sub) eqn:Ef.
  { left. split; [apply (existsb_isna_true FwdRate sub), Ef|reflexivity]. }
  right. pose proof (proj1 (existsb_isna_false FwdRate sub) Ef) as Hf. clear Ef.
  rename Hf into Ef. split; [exact Ef|].
  destruct (points_of_rows_pillars sub Ey Ef) as (ps & Hps & Hall & Hmap).
  exists ps. split; [exact Hall|].
  assert (Hps_ne : ps <> []).
  { intros ->. inversion Hall. subst. contradiction. }
  rewrite Hps. cbn [rbind].
  assert (Hdup : List.NoDup (map YearFrac sub) <-> List.NoDup (map year_frac ps)).
  { rewrite <- Hmap, <- (map_map year_frac (@Some R)). apply NoDup_map_Some. }
  rewrite Hdup.
  rewrite new_ForwardCurve_cases. destruct ps as [|p ps']; [contradiction|].
  destruct (strictly_increasing None (sort_points (p :: ps'))) eqn:E.
  - right. split; [apply sort_points_distinct, E|]. split; [reflexivity|].
    split.
    + cbn [points]. intros Hnil. apply (f_equal (@length _)) in Hnil.
      rewrite sort_points_length in Hnil. discriminate.
    + apply year_fracs_of_key_lt, strictly_increasing_iff, E.
  - left. split; [|reflexivity]. intros Hnd.
    apply sort_points_distinct in Hnd. congruence.
Qed.

Lemma Forall2_In_r {A B : Type} (P : A -> B -> Prop) (l : list A) (l' : list B) (y : B) :
  Forall2 P l l' -> In y l' -> exists x : A, In x l /\ P x y.
Proof.
  induction 1 as [|a b l l' Hab Hrest IH]; intros Hin; [destruct Hin|].
  destruct Hin as [<-|Hin].
  - exists a. split; [left; reflexivity|exact Hab].
  - destruct (IH Hin) as (x & Hx & HP). exists x. split; [right; exact Hx|exact HP].
Qed.

(** What a curve built from a table is. *)
Lemma curve_of_table (df : DataFrame) (ix : string) (c : ForwardCurve) :
  curve_from_long_df df ix = Ok c ->
  index_name c = ix /\ valid_curve c /\ missing_columns df = [] /\
  exists ps : list CurvePoint,
    Forall2 pillar_of (index_rows df ix) ps /\ points c = sort_points ps.
Proof.
  intros Hrun.
  destruct (curve_from_long_df_cases df ix)
    as [[_ E]|[Hm [[_ E]|[_ [[_ E]|[_ [[_ E]|[_ (ps & Hall & [[_ E]|(_ & E & Hv)])]]]]]]]];
    try congruence.
  rewrite E in Hrun. injection Hrun as <-. cbn [index_name points].
  split; [reflexivity|]. split; [exact Hv|]. split; [exact Hm|].
  exists ps. auto.
Qed.

(** X28. The curve that [curve_from_long_df] returns for an index: it
    carries the index name, it has one pillar for each row of the index in
    the table -- the year fraction, the rate and the tenor date of the row,
    and its tenor stripped and in upper case -- and holds the pillars by
    increasing year fraction. *)
Theorem X28_curve_of_table (df : DataFrame) (ix : string) (c : ForwardCurve) :
  curve_from_long_df df ix = Ok c ->
  index_name c = ix /\ valid_curve c /\
  exists ps : list CurvePoint,
    Forall2 pillar_of (index_rows df ix) ps /\
    Permutation ps (points c) /\
    length (points c) = length (index_rows df ix).
Proof.
  intros Hrun.
  destruct (curve_of_table df ix c Hrun) as (Hname & Hv & _ & ps & Hall & Hpts).
  split; [exact Hname|]. split; [exact Hv|]. exists ps.
  split; [exact Hall|]. rewrite Hpts. split; [apply sort_points_perm|].
  rewrite sort_points_length. symmetry. apply (List.Forall2_length Hall).
Qed.

Lemma X28_witness :
  curve_from_long_df ScenarioSpec.eur_frame "EUR" = Ok ScenarioSpec.eur_curve /\
  index_name ScenarioSpec.eur_curve = "EUR"%string /\
  valid_curve ScenarioSpec.eur_curve /\
  exists ps : list CurvePoint,
    Forall2 pillar_of (index_rows ScenarioSpec.eur_frame "EUR") ps /\
    Permutation ps (points ScenarioSpec.eur_curve) /\
    length (points ScenarioSpec.eur_curve)
    = length (index_rows ScenarioSpec.eur_frame "EUR").
Proof.
  split; [reflexivity|].
  exact (X28_curve_of_table ScenarioSpec.eur_frame "EUR" ScenarioSpec.eur_curve eq_refl).
Defined.

Lemma curve_from_long_df_errors (df : DataFrame) (ix : string) (e : exn) :
  curve_from_long_df df ix = Raise e <->
  (missing_columns df <> [] /\ e = InvalidCurveTable (missing_columns df)) \/
  (missing_columns df = [] /\
   ((index_rows df ix = [] /\ e = NoPointsFor ix) \/
    (index_rows df ix <> [] /\
     ((exists r, In r (index_rows df ix) /\ YearFrac r = None) /\ e = NullYearFrac ix \/
      (forall r, In r (index_rows df ix) -> YearFrac r <> None) /\
      ((exists r, In r (index_rows df ix) /\ FwdRate r = None) /\ e = NullFwdRate ix \/
       (forall r, In r (index_rows df ix) -> FwdRate r <> None) /\
       ~ List.NoDup (map YearFrac (index_rows df ix)) /\
       e = NonIncreasingCurve ix))))).
Proof.
  destruct (curve_from_long_df_cases df ix)
    as [[Hm E]|[Hm [[Hr E]|[Hr [[Hy E]|[Hy [[Hf E]|[Hf (ps & Hall & [[Hd E]|(Hd & E & Hv)])]]]]]]]];
    rewrite E; split.
  - intros [= <-]. left. auto.
  - intros [[_ ->]|[Hm' _]]; [reflexivity|contradiction].
  - intros [= <-]. right. split; [exact Hm|]. left. auto.
  - intros [[Hm' _]|[_ [[_ ->]|[Hr' _]]]]; [contradiction|reflexivity|contradiction].
  - intros [= <-]. right. split; [exact Hm|]. right. split; [exact Hr|]. left. auto.
  - intros [[Hm' _]|[_ [[Hr' _]|[_ [[_ ->]|[Hy' _]]]]]];
      [contradiction|contradiction|reflexivity|].
    destruct Hy as (r & Hin & Hn). destruct (Hy' r Hin Hn).
  - intros [= <-]. right. split; [exact Hm|]. right. split; [exact Hr|]. right.
    split; [exact Hy|]. left. auto.
  - intros [[Hm' _]|[_ [[Hr' _]|[_ [[Hy' _]|[_ [[_ ->]|[Hf' _]]]]]]]];
      [contradiction|contradiction| |reflexivity|].
    + destruct Hy' as (r & Hin & Hn). destruct (Hy r Hin Hn).
    + destruct Hf as (r & Hin & Hn). destruct (Hf' r Hin Hn).
  - intros [= <-]. right. split; [exact Hm|]. right. split; [exact Hr|]. right.
    split; [exact Hy|]. right. auto.
  - intros [[Hm' _]|[_ [[Hr' _]|[_ [[Hy' _]|[_ [[Hf' _]|(_ & _ & ->)]]]]]]];
      [contradiction|contradiction| | |reflexivity].
    + destruct Hy' as (r & Hin & Hn). destruct (Hy r Hin Hn).
    + destruct Hf' as (r & Hin & Hn). destruct (Hf r Hin Hn).
  - discriminate.
  - intros [[Hm' _]|[_ [[Hr' _]|[_ [[Hy' _]|[_ [[Hf' _]|(_ & Hd' & _)]]]]]]];
      [contradiction|contradiction| | |contradiction].
    + destruct Hy' as (r & Hin & Hn). destruct (Hy r Hin Hn).
    + destruct Hf' as (r & Hin & Hn). destruct (Hf r Hin Hn).
Qed.

(** X29. The errors of [curve_from_long_df], in the order of its checks:
    missing columns; no row for the index; a null year fraction among the
    rows of the index; a null rate among them; and, last, two rows of the
    index with the same year fraction.  It raises nothing else: the table
    checks come before the constructor can see an empty list of points or
    a null cell. *)
Theorem X29_curve_from_long_df_errors (df : DataFrame) (ix : string) (e : exn) :
  curve_from_long_df df ix = Raise e <->
  (missing_columns df <> [] /\ e = InvalidCurveTable (missing_columns df)) \/
  (missing_columns df = [] /\
   ((index_rows df ix = [] /\ e = NoPointsFor ix) \/
    (index_rows df ix <> [] /\
     ((exists r, In r (index_rows df ix) /\ YearFrac r = None) /\ e = NullYearFrac ix \/
      (forall r, In r (index_rows df ix) -> YearFrac r <> None) /\
      ((exists r, In r (index_rows df ix) /\ FwdRate r = None) /\ e = NullFwdRate ix \/
       (forall r, In r (index_rows df ix) -> FwdRate r <> None) /\
       ~ List.NoDup (map YearFrac (index_rows df ix)) /\
       e = NonIncreasingCurve ix))))).
Proof. exact (curve_from_long_df_errors df ix e). Qed.

(** X30. The curves of a table that [enrich_with_dates] returned: such a
    curve is a constructed curve without a negative year fraction, and each
    of its pillars comes from a row of the long table for the index, with
    the rate of the row and the date that [add_tenor] gives for its tenor.
    Building the curve of an index raises only when the table has no row
    for the index, when a rate of the index is null, or when two rows of
    the index have the same year fraction (as the tenors "12M" and "1Y"
    do). *)
Theorem X30_curves_of_enriched_table (df_long : list Reader.LongRow) (ad : date)
  (base : string) (df : DataFrame) (ix : string) :
  valid_date ad = true ->
  Reader.enrich_with_dates df_long ad base = Done df ->
  (forall c : ForwardCurve,
      curve_from_long_df df ix = Ok c ->
      valid_curve c /\ nonneg_year_fracs c /\
      Forall (fun p : CurvePoint =>
                exists r : Reader.LongRow,
                  In r df_long /\ Reader.IndexName r = ix /\
                  Reader.FwdRate r = Some (rate p) /\
                  tenor p = upper (strip (Reader.Tenor r)) /\
                  Tenors.add_tenor ad (Reader.Tenor r) = Done (tenor_date p))
             (points c)) /\
  (forall e : exn,
      curve_from_long_df df ix = Raise e ->
      e = NoPointsFor ix \/ e = NullFwdRate ix \/ e = NonIncreasingCurve ix).
Proof.
  intros Ha Hrun.
  destruct (enriched_table df_long ad base df Ha Hrun) as (b & Hb & Hcols & Hrows).
  assert (Hsrc : forall r' : Row, In r' (index_rows df ix) ->
            exists (r : Reader.LongRow) (v : R),
              In r df_long /\ Reader.IndexName r = ix /\
              Reader.FwdRate r = FwdRate r' /\ Tenor r' = Reader.Tenor r /\
              Tenors.add_tenor ad (Reader.Tenor r) = Done (TenorDate r') /\
              YearFrac r' = Some v /\ (0 <= v)%R).
  { intros r' Hr'. apply List.filter_In in Hr' as [Hin Hix].
    apply String.eqb_eq in Hix.
    destruct (Forall2_In_r _ _ _ r' Hrows Hin)
      as (r & Hr & Hi & Ht & Hf & Hadd & v & _ & Hv & Hpos).
    exists r, v. repeat split; try assumption; congruence. }
  split.
  - intros c Hc.
    destruct (curve_of_table df ix c Hc) as (_ & Hv & _ & ps & Hall & Hpts).
    assert (Hp : forall p, In p (points c) ->
              exists r', In r' (index_rows df ix) /\ pillar_of r' p).
    { intros p Hin. rewrite Hpts in Hin.
      apply (Permutation_in _ (Permutation_sym (sort_points_perm ps))) in Hin.
      exact (Forall2_In_r _ _ _ p Hall Hin). }
    split; [exact Hv|]. split.
    + unfold nonneg_year_fracs. apply List.Forall_forall. intros p Hin.
      destruct (Hp p Hin) as (r' & Hr' & Hy & _).
      destruct (Hsrc r' Hr') as (r & v & _ & _ & _ & _ & _ & Hyv & Hpos).
      rewrite Hy in Hyv. injection Hyv as ->. exact Hpos.
    + apply List.Forall_forall. intros p Hin.
      destruct (Hp p Hin) as (r' & Hr' & Hy & Hf & Ht & Hd).
      destruct (Hsrc r' Hr') as (r & v & Hr & Hi & Hfr & Htr & Hadd & _).
      exists r. split; [exact Hr|]. split; [exact Hi|].
      split; [congruence|]. split; [congruence|]. rewrite Hd. exact Hadd.
  - intros e He. apply curve_from_long_df_errors in He.
    destruct He as [[Hm _]|[_ [[_ ->]|[_ [[(r' & Hr' & Hn) _]|[_ [[_ ->]|(_ & _ & ->)]]]]]]];
      auto.
    + contradiction.
    + destruct (Hsrc r' Hr') as (r & v & _ & _ & _ & _ & _ & Hyv & _). congruence.
Qed.

Lemma X30_witness :
  valid_date (mkdate 2024 1 1) = true /\
  Reader.enrich_with_dates [Reader.mkLongRow "EUR" "1Y" (Some 1%R)]
    (mkdate 2024 1 1) "act/365"
  = Done (mkDataFrame required_columns
            [mkRow "EUR" "1Y" (Some 1%R) (mkdate 2025 1 1) (Some (IZR 366 / 365)%R)]) /\
  forall e : exn,
    curve_from_long_df
      (mkDataFrame required_columns
         [mkRow "EUR" "1Y" (Some 1%R) (mkdate 2025 1 1) (Some (IZR 366 / 365)%R)]) "USD"
    = Raise e ->
    e = NoPointsFor "USD" \/ e = NullFwdRate "USD" \/ e = NonIncreasingCurve "USD".
Proof.
  split; [reflexivity|]. split; [reflexivity|].
  exact (proj2 (X30_curves_of_enriched_table [Reader.mkLongRow "EUR" "1Y" (Some 1%R)]
                  (mkdate 2024 1 1) "act/365" _ "USD" eq_refl eq_refl)).
Defined.

(** The tenors "12M" and "1Y" of one index give the same pillar date: the
    table is enriched, and the curve of the index is refused. *)
Example twelve_months_and_one_year :
  exists df : DataFrame,
    Reader.enrich_with_dates
      [Reader.mkLongRow "EUR" "12M" (Some 1%R); Reader.mkLongRow "EUR" "1Y" (Some 2%R)]
      (mkdate 2024 1 1) "ACT/365" = Done df /\
    curve_from_long_df df "EUR" = Raise (NonIncreasingCurve "EUR").
Proof.
  eexists. split; [reflexivity|].
  apply curve_from_long_df_errors. right. split; [reflexivity|].
  right. split; [discriminate|]. right. split.
  { intros r [<-|[<-|[]]]; discriminate. }
  right. split.
  { intros r [<-|[<-|[]]]; discriminate. }
  split; [|reflexivity].
  intros Hnd. cbn in Hnd. apply List.NoDup_cons_iff in Hnd as [Hnin _].
  apply Hnin. left. reflexivity.
Qed.

End TableFacts.
